(* ===== verification/_CoqProject ===== *)
-Q . S2P
Prelude.v
Text.v
Imsi.v
Wire.v
Double.v
DoubleBounds.v
DoubleOrder.v
Random.v
RequestGen.v
Probe.v
FlatSet.v
Store.v
Rules.v
Engine.v
Rcu.v
Hdr.v
HdrText.v
Sha256.v
Yaml.v
Golden.v
Roster.v
Compiler.v
CompilerLogic.v
Conditions.v
CompilerSpec.v
Provenance.v
HttpFront.v
Metrics.v
HttpLoop.v
Server.v
IoUring.v
Net.v
Config.v
AdminHttp.v
ControlPlane.v
AdminEndpoints.v
AdminLoop.v
Tools.v
LoadGen.v
HttpClient.v
HttpExchange.v
LoadRun.v
EndToEnd.v
Clock.v
Journal.v
Os.v
Sockets.v
LoadMain.v
Lifecycle.v
Main.v
