(* ===== verification/Prelude.v ===== *)
(** * policyd: a real-time policy and authorization service

    The program answers "may this subscriber use the network, and how" for mobile
    core requests.  Its parts, and the files that model them (paths are under src/):

    - _Data formats_.  Identity numbers (include/policy/imsi.hpp, [Imsi]), the
      64-byte datagrams (include/policy/wire.hpp, [Wire]), the fingerprint of the
      rules file (include/policy/sha256.hpp, [Sha256]), the YAML subset
      (src/yaml.cpp, [Yaml]) and the decision corpus (src/golden.cpp, [Golden]).
    - _Tables_.  The key set (include/policy/flat_set.hpp, [FlatSet]) and the
      subscriber table with its CSV loader (src/subscriber_store.cpp, [Store]), both
      over the linear probing of [Probe].
    - _Policy_.  The compiled rule set (include/policy/rules.hpp, [Rules]) and the
      compiler that makes it (src/rules.cpp, [Compiler]).
    - _Decision_.  The feature word, the rule scan and the decision
      (src/engine.cpp, [Engine]).
    - _Servers_.  The UDP worker (src/server_udp.cpp, [Server]) over batched datagram
      I/O (src/net.cpp, [Net]), the io_uring worker (src/server_iouring.cpp,
      [IoUring]) and the HTTP front end (src/http_front.cpp, [HttpFront] for one
      request, [HttpLoop] for the worker's connections), with their counters and
      histograms (src/metrics.cpp, [Metrics]; include/policy/hdr_histogram.hpp, [Hdr], its
      texts in [HdrText]).
    - _Control_.  Publication of rule sets to the workers (include/policy/rcu.hpp,
      [Rcu]), start-up, reload and the watcher of the rules file
      (src/control_plane.cpp, [ControlPlane]), the administrative interface
      (src/admin_http.cpp, [AdminHttp] for a request, [AdminLoop] for its thread, and the
      handlers of src/control_plane.cpp, [AdminEndpoints]) and the command line
      (src/config.cpp, [Config]).
    - _Process_.  Sockets and addresses (src/net.cpp, [Sockets]) over an interface of the
      kernel ([Os]), starting and stopping every server and its threads ([Lifecycle]), the
      program from its arguments to its exit (src/main.cpp, [Main]), the cycle counter and
      the coarse clock (include/policy/cycles.hpp and coarse_clock.hpp, [Clock]), log lines,
      thread names and pinning (src/logging.cpp, src/affinity.cpp, [Journal]).
    - _Tools_.  The traffic generator (include/policy/request_gen.hpp, [RequestGen], over
      the draws of [Random]), the generators of subscribers and of the decision corpus
      (tools/, [Roster] and [Tools]), and the load generator (bench/loadgen.cpp): its UDP
      sender ([LoadGen]), its HTTP connections ([HttpClient]), options, merge and report
      ([LoadRun]) and its main program ([LoadMain]).  [HttpExchange] and [EndToEnd] compose it with the servers.

    A request reaches a worker, which decodes it, reads the current rule set under an
    RCU guard, looks the subscriber up, evaluates, and encodes the decision.  The
    control plane compiles the rules file, checks that plan ids keep their meaning,
    publishes the rule set and reclaims the old one after a grace period.

    ** Modelling

    An operation of the code is a function with the code's name; a struct is a
    record, an enumeration an inductive type or its code.  State is passed
    explicitly; the compiler uses a state monad ([Compiler.M]).  A machine integer is
    a [Z] and wraps where the code can wrap ([wrap], [u8] to [u64] below); a double is
    its exact value, and every operation rounds ([Double]).  Text is [string], C
    library calls are in [Text], [Double], [Golden] and [Config].  A result of [None]
    is a loop that does not stop, an access out of bounds or fuel that has run out,
    and theorems exclude it: the fuel of the YAML parser is proved sufficient
    ([Yaml.parse_total]), probing stops because a slot stays free
    ([Probe.probe_finds], [Store.store_rep]), and recording stays inside the
    histogram ([Hdr.hdr_ok]).  Other loops recurse on the text or list they consume.

    What the code gets from outside is an argument: the contents of files, clock
    readings, the results of system calls, the order in which threads take their
    steps.  [Rcu] is a transition system over the atomic accesses, with
    sequentially consistent memory; [Server], [Net], [IoUring] and [HttpLoop] take what
    the kernel reports in a turn; [ControlPlane.sys_step] interleaves the watcher with editors
    and administrators; a turn of the load generator takes the clock readings, the
    datagrams and the requests drawn in it ([LoadGen], [HttpClient]), so a run is a
    list of turns.  A random generator is an interface with laws ([Random.Rng],
    [Random.RngOk]), and what is proved of generated data holds for every outcome.
    [Os] is the state of a process as its kernel sees it, open descriptors and running
    threads, with a monad over it; a result of [None] there is a [join] that blocks, a
    descriptor closed twice or under a thread that uses it.  The answers of the kernel are
    an interface ([Os.Kernel]) with the two laws of descriptors ([Os.KernelOk]), and an
    operation is specified by the groups of descriptors and threads it takes and gives
    ([Os.owns]).
    Sizes are bounded by what a machine can hold (tables under
    2^50 entries, lists under 2^61, fewer than 2^32 reloads).

    ** Theorems

    - [Store], [FlatSet]: the tables refine finite maps and sets over any sequence of
      operations, across growth; the CSV loader loads exactly the good rows.
    - [Yaml], [Compiler], [CompilerLogic], [Conditions], [CompilerSpec], [Provenance]:
      parsing and compiling return on every text; an accepted rule set is well formed
      and identifies its text; a compiled [when] mapping means exactly what its entries
      say; rules come in priority order and the shadow lint is sound.
    - [Engine]: each feature bit has its meaning, the first applicable rule decides, a
      denial carries no authorization, quota grants are what is left.
    - [Wire], [Imsi], [Golden], [Config], [AdminHttp], [AdminEndpoints]: round trips of
      datagrams, identities, corpus rows, options, percent encoding and JSON strings.
    - [Rcu]: no reader uses a freed rule set when slots are used by one thread at a
      time, nothing is freed twice or lost, a grace period ends when readers move on;
      and a run that breaks the rule, as the fixed slots of the control plane do.
    - [Server], [Net], [IoUring], [HttpFront], [HttpLoop], [Metrics], [Hdr]: each good
      datagram gets the decision the engine takes, sent back to where it came from,
      the books of received and answered datagrams balance, the io_uring worker loses
      no slot and no reply, an HTTP connection carries its responses in order and complete,
      percentiles are exact up to the bucket width, snapshots are sums.  [HdrText]: every
      row of a printed distribution is exact.
    - [ControlPlane]: a reload is atomic, the service answers through any history of
      edits and reloads with every subscriber under the plan of its row, the watcher
      misses no edit, start-up is all or nothing.  [AdminEndpoints], [AdminLoop]: the
      interface answers every client in turn, only a reload changes state, and /explain
      reports the decision of the data path.
    - [Sockets], [Lifecycle], [Main]: starting a server takes all it needs or nothing, every
      worker runs on a socket of the configured address, and a run of the program ends with
      no descriptor open, no thread running and nothing freed that a thread reads, whatever
      the kernel refuses on the way.
    - [Clock], [Journal]: the clock of the cycle counter never goes back, the coarse clock
      stays fresh and its thread stops, the stamp of a log line reads back as its instant,
      pinned workers get cores and names of their own.
    - [RequestGen], [Roster], [Tools]: every request drawn is well formed; the loader
      takes every line of a generated subscriber file; a corpus made from it replays
      without a difference.
    - [LoadGen], [HttpClient], [LoadRun]: the open loop sends one request per instant of a
      schedule that replies cannot delay, each is answered at most once and is lost
      otherwise, the histogram holds exactly the latencies of the answers in the
      window, the merged report adds up over threads, tables have a power-of-two size up to
      2^31.  Over HTTP the requests on a connection that the peer
      closes are in no counter, and the statement says so.  [LoadMain]: the program ends in
      every mode, leaves files alone when it gives up, and the runs that share a summary
      file build one table.
    - [HttpExchange], [EndToEnd]: a request the load generator sends is the request the
      server decides, between hosts of any byte order, and the reply is read as that
      decision, over UDP and over HTTP.

    [DoubleBounds] has the bounds on rounded expressions that the generators need,
    [DoubleOrder] the monotonicity of rounding that the clock needs.

    Theorems named after a defect ([startup_edit_unseen], [pipelined_request_stalls],
    [unregistered_slot_use_after_free] and others) exhibit runs of the model in which
    the code does not do what its comments say.

    ** Not modelled

    Creating and probing a ring with liburing (src/server_iouring.cpp), whose library is
    not part of the sources; the printf formatting of [detail::format_va], which is replaced
    by the text of each message; the usage texts and the messages of the load generator and
    the tools about options they refuse; the lines a worker logs when it stops.  Weak memory
    is not modelled: the fences of rcu.hpp are taken to do what they are there for.  Files
    are read and written at once: a file that changes while it is read is two files.

    This file has the notions every other file uses: machine widths, bit tests and
    their automation. *)

From Stdlib Require Import ZArith Lia Bool.
From stdpp Require Import base list numbers strings gmap.

Local Open Scope Z_scope.

Create HintDb policy.

(** ** Machine integers

    A [w]-bit unsigned integer of the C++ code is a [Z] in [0, 2^w); every
    operation that may leave that range is written with [wrap w]. *)
Definition wrap (w z : Z) : Z := z mod 2 ^ w.

Abbreviation u8 := (wrap 8).
Abbreviation u16 := (wrap 16).
Abbreviation u32 := (wrap 32).
Abbreviation u64 := (wrap 64).

Definition fits (w z : Z) : Prop := 0 <= z < 2 ^ w.

#[export] Instance fits_dec w z : Decision (fits w z).
Proof. unfold fits. apply _. Defined.

Lemma wrap_fits w z : 0 <= w -> fits w (wrap w z).
Proof. intros ?. apply Z.mod_pos_bound. by apply Z.pow_pos_nonneg. Qed.

Lemma wrap_id w z : fits w z -> wrap w z = z.
Proof. apply Z.mod_small. Qed.

Lemma fits_0 w : 0 <= w -> fits w 0.
Proof. intros ?. split; [done|]. by apply Z.pow_pos_nonneg. Qed.

Lemma fits_le w v z : 0 <= v <= w -> fits v z -> fits w z.
Proof.
  intros ? [??]. split; [done|].
  eapply Z.lt_le_trans; [done|]. apply Z.pow_le_mono_r; lia.
Qed.

Lemma fits_testbit w z : 0 <= w ->
  fits w z <-> 0 <= z /\ forall i, w <= i -> Z.testbit z i = false.
Proof.
  intros Hw. split.
  - intros [H0 H1]. split; [done|]. intros i Hi.
    destruct (decide (z = 0)) as [->|]; [apply Z.bits_0|].
    apply Z.bits_above_log2; [done|].
    apply Z.log2_lt_pow2; [lia|]. eapply Z.lt_le_trans; [done|].
    apply Z.pow_le_mono_r; lia.
  - intros [H0 Hb]. split; [done|].
    destruct (decide (z = 0)) as [->|]; [by apply Z.pow_pos_nonneg|].
    apply Z.log2_lt_pow2; [lia|]. apply Z.nle_gt. intros Hle.
    specialize (Hb (Z.log2 z) Hle). rewrite Z.bit_log2 in Hb; [done|lia].
Qed.

Lemma fits_lor w x y : 0 <= w -> fits w x -> fits w y -> fits w (Z.lor x y).
Proof.
  intros Hw. rewrite !fits_testbit by done. intros [Hx Bx] [Hy By]. split.
  - by apply Z.lor_nonneg.
  - intros i Hi. rewrite Z.lor_spec, Bx, By; done.
Qed.

Lemma fits_land w x y : 0 <= w -> fits w x -> fits w y -> fits w (Z.land x y).
Proof.
  intros Hw. rewrite !fits_testbit by done. intros [Hx Bx] [Hy By]. split.
  - apply Z.land_nonneg. by left.
  - intros i Hi. rewrite Z.land_spec, Bx, By; done.
Qed.

#[export] Hint Resolve wrap_fits fits_0 fits_lor fits_land : policy.
#[export] Hint Extern 1 (_ <= _) => lia : policy.

(** ** Bits of a word *)

(** The C++ idiom [if (c) f |= bit(b);]. *)
Definition set_if (c : bool) (m f : Z) : Z := if c then Z.lor f m else f.

Lemma testbit_pow2 b i : 0 <= b -> Z.testbit (Z.shiftl 1 b) i = (i =? b).
Proof.
  intros Hb. rewrite Z.shiftl_1_l.
  destruct (Z.eqb_spec i b) as [->|Hne]; [by apply Z.pow2_bits_true|].
  apply Z.pow2_bits_false. lia.
Qed.

Lemma testbit_set_if c b f i : 0 <= b ->
  Z.testbit (set_if c (Z.shiftl 1 b) f) i = Z.testbit f i || (c && (i =? b)).
Proof.
  intros Hb. unfold set_if. destruct c; simpl; [|by rewrite orb_false_r].
  by rewrite Z.lor_spec, testbit_pow2.
Qed.

Lemma fits_pow2 w b : 0 <= b < w -> fits w (Z.shiftl 1 b).
Proof.
  intros ?. rewrite Z.shiftl_1_l. split; [apply Z.pow_nonneg; lia|].
  apply Z.pow_lt_mono_r; lia.
Qed.

Lemma fits_set_if w c m f : 0 <= w -> fits w f -> fits w m -> fits w (set_if c m f).
Proof. intros. destruct c; simpl; auto with policy. Qed.

#[export] Hint Resolve fits_set_if fits_pow2 : policy.

(** A non-zero test of [x & bit(b)], the C++ condition [if (x & flag)]. *)
Definition has_bit (x m : Z) : bool := negb (Z.land x m =? 0).

Lemma has_bit_testbit x b : 0 <= b -> has_bit x (Z.shiftl 1 b) = Z.testbit x b.
Proof.
  intros Hb. unfold has_bit.
  assert (Z.land x (Z.shiftl 1 b) = if Z.testbit x b then Z.shiftl 1 b else 0) as ->.
  { apply Z.bits_inj'. intros i Hi. rewrite Z.land_spec, testbit_pow2 by done.
    destruct (Z.eqb_spec i b) as [->|Hne].
    - destruct (Z.testbit x b); [by rewrite testbit_pow2, Z.eqb_refl|by rewrite Z.bits_0].
    - rewrite andb_false_r. destruct (Z.testbit x b); [|by rewrite Z.bits_0].
      rewrite testbit_pow2 by done. by apply Z.eqb_neq in Hne as ->. }
  destruct (Z.testbit x b); [|done].
  rewrite Z.shiftl_1_l. pose proof (Z.pow_pos_nonneg 2 b).
  destruct (Z.eqb_spec (2 ^ b) 0); [lia|done].
Qed.

(** ** Boolean case analysis *)

(** Split a hypothesis or goal on the innermost boolean test. *)
Ltac case_bool :=
  match goal with
  | |- context [if ?b then _ else _] => destruct b eqn:?
  | H : context [if ?b then _ else _] |- _ => destruct b eqn:?
  end.

(** Turn the boolean comparisons of the context into propositions. *)
Ltac bool_to_prop :=
  repeat match goal with
  | H : (_ =? _) = true |- _ => apply Z.eqb_eq in H
  | H : (_ =? _) = false |- _ => apply Z.eqb_neq in H
  | H : (_ <? _) = true |- _ => apply Z.ltb_lt in H
  | H : (_ <? _) = false |- _ => apply Z.ltb_ge in H
  | H : (_ <=? _) = true |- _ => apply Z.leb_le in H
  | H : (_ <=? _) = false |- _ => apply Z.leb_gt in H
  | H : (_ && _) = true |- _ => apply andb_true_iff in H as [? ?]
  | H : (_ || _) = false |- _ => apply orb_false_iff in H as [? ?]
  | H : negb _ = true |- _ => apply negb_true_iff in H
  | H : negb _ = false |- _ => apply negb_false_iff in H
  end.
