(* ===== verification/Text.v ===== *)
(** * Text: the C++ character and string operations the sources use

    Models of [std::toupper]/[std::tolower] on ASCII, the
    [v = v*10 + (c - '0')] accumulation shared by every numeric parser of the
    service, zero-padded and plain decimal printing ([std::to_string], [%u]),
    [string_view::find], trimming, and the [strtol] family.  Strings are
    [String.string]; a position inside a string is represented by the suffix
    that starts there. *)

From S2P Require Import Prelude.
From Stdlib Require Import ZArith Lia Bool Ascii String.
From stdpp Require Import base list numbers strings.
Local Open Scope Z_scope.

(** ** Characters *)

Definition code (c : ascii) : Z := Z.of_N (N_of_ascii c).
Definition chr (z : Z) : ascii := ascii_of_N (Z.to_N (z mod 256)).

Lemma code_bound c : 0 <= code c < 256.
Proof. unfold code. pose proof (N_ascii_bounded c). lia. Qed.

Lemma chr_code c : chr (code c) = c.
Proof.
  unfold chr. rewrite Z.mod_small by apply code_bound.
  unfold code. by rewrite N2Z.id, ascii_N_embedding.
Qed.

Lemma code_chr z : 0 <= z < 256 -> code (chr z) = z.
Proof.
  intros ?. unfold chr, code. rewrite Z.mod_small by done.
  rewrite N_ascii_embedding; lia.
Qed.

Definition is_digit (c : ascii) : bool := (48 <=? code c) && (code c <=? 57).

(** [std::toupper] / [std::tolower] in the C locale. *)
Definition toupper (c : ascii) : ascii :=
  if (97 <=? code c) && (code c <=? 122) then chr (code c - 32) else c.
Definition tolower (c : ascii) : ascii :=
  if (65 <=? code c) && (code c <=? 90) then chr (code c + 32) else c.

Fixpoint string_map (f : ascii -> ascii) (s : string) : string :=
  match s with
  | EmptyString => EmptyString
  | String c s' => String (f c) (string_map f s')
  end.

Lemma str_app_nil_r s : (s +:+ EmptyString)%string = s.
Proof. induction s as [|c s IH]; [done|]. unfold String.app in *. simpl. by rewrite IH. Qed.

Lemma str_app_length s t : String.length (s +:+ t)%string =
  (String.length s + String.length t)%nat.
Proof. induction s as [|c s IH]; [done|]. unfold String.app in *. simpl. by rewrite IH. Qed.

(** ** Decimal digits *)

(** The loop [for (c : s) { if (c < '0' || c > '9') return nullopt;
    v = v * 10 + (c - '0'); }] over a [uint64_t] accumulator. *)
Fixpoint digits_loop (s : string) (v : Z) : option Z :=
  match s with
  | EmptyString => Some v
  | String c s' =>
      if is_digit c then digits_loop s' (u64 (v * 10 + (code c - 48))) else None
  end.

Fixpoint all_digits (s : string) : bool :=
  match s with
  | EmptyString => true
  | String c s' => is_digit c && all_digits s'
  end.

(** The number a digit string denotes, without wrap-around. *)
Fixpoint dec_value (s : string) (v : Z) : Z :=
  match s with
  | EmptyString => v
  | String c s' => dec_value s' (v * 10 + (code c - 48))
  end.

Definition digit_char (d : Z) : ascii := chr (48 + d).

(** [n] digits of [v], least significant last: [out[i] = '0' + v % 10; v /= 10]. *)
Fixpoint format_digits (n : nat) (v : Z) (acc : string) : string :=
  match n with
  | O => acc
  | S n' => format_digits n' (v / 10) (String (digit_char (v mod 10)) acc)
  end.

Fixpoint dec_length (fuel : nat) (v : Z) : nat :=
  match fuel with
  | O => 1
  | S f => if v <? 10 then 1 else S (dec_length f (v / 10))
  end.

(** [std::to_string] / [%u] / [%llu] of a non-negative integer. *)
Definition to_string (v : Z) : string :=
  format_digits (dec_length (Z.to_nat (Z.log2 v)) v) v EmptyString.

Lemma digits_loop_spec s v : fits 64 v ->
  digits_loop s v = if all_digits s then Some (u64 (dec_value s v)) else None.
Proof.
  revert v. induction s as [|c s IH]; intros v Hv; simpl.
  - by rewrite wrap_id.
  - destruct (is_digit c); simpl; [|done].
    rewrite IH by auto with policy.
    destruct (all_digits s); [|done]. f_equal. clear IH.
    unfold wrap. generalize (v * 10 + (code c - 48)). clear.
    induction s as [|c s IH]; intros z; simpl; [by rewrite Z.mod_mod|].
    rewrite <- (IH ((z mod 2 ^ 64) * 10 + (code c - 48))), <- (IH (z * 10 + (code c - 48))).
    do 2 f_equal. rewrite <- Z.add_mod_idemp_l, Z.mul_mod_idemp_l, Z.add_mod_idemp_l by done.
    done.
Qed.

Lemma is_digit_range c : is_digit c = true -> 0 <= code c - 48 <= 9.
Proof. unfold is_digit. intros. bool_to_prop. lia. Qed.

Lemma dec_value_acc s v :
  dec_value s v = v * 10 ^ Z.of_nat (String.length s) + dec_value s 0.
Proof.
  revert v. induction s as [|c s IH]; intros v; simpl; [lia|].
  rewrite (IH (v * 10 + _)), (IH (0 * 10 + (code c - 48))).
  rewrite Nat2Z.inj_succ, Z.pow_succ_r by lia. lia.
Qed.

Lemma dec_value_bound s : all_digits s = true ->
  0 <= dec_value s 0 < 10 ^ Z.of_nat (String.length s).
Proof.
  induction s as [|c s IH]; simpl; intros H; [lia|]. bool_to_prop.
  specialize (IH ltac:(done)). rewrite dec_value_acc.
  pose proof (is_digit_range c ltac:(done)).
  rewrite Nat2Z.inj_succ, Z.pow_succ_r by lia. nia.
Qed.

Lemma digit_char_spec d : 0 <= d <= 9 ->
  is_digit (digit_char d) = true /\ code (digit_char d) - 48 = d.
Proof.
  intros ?. unfold is_digit, digit_char. rewrite code_chr by lia. split; [|lia].
  apply andb_true_iff. rewrite !Z.leb_le. lia.
Qed.

Lemma digit_char_code c : is_digit c = true -> digit_char (code c - 48) = c.
Proof.
  intros. unfold digit_char. replace (48 + (code c - 48)) with (code c) by lia.
  apply chr_code.
Qed.

Lemma format_digits_length n v acc :
  String.length (format_digits n v acc) = (n + String.length acc)%nat.
Proof. revert v acc. induction n; intros; simpl; [done|]. rewrite IHn. simpl. lia. Qed.

Lemma format_digits_all n v acc :
  all_digits (format_digits n v acc) = all_digits acc.
Proof.
  revert v acc. induction n as [|n IH]; intros; simpl; [done|]. rewrite IH. simpl.
  rewrite (proj1 (digit_char_spec (v mod 10) ltac:(pose proof (Z.mod_pos_bound v 10); lia))).
  done.
Qed.

Lemma format_digits_cons n v acc :
  format_digits (S n) v acc =
  String (digit_char (v / 10 ^ Z.of_nat n mod 10)) (format_digits n v acc).
Proof.
  revert v acc. induction n as [|n IH]; intros v acc.
  - simpl. by rewrite Z.div_1_r.
  - change (format_digits (S (S n)) v acc) with
      (format_digits (S n) (v / 10) (String (digit_char (v mod 10)) acc)).
    rewrite IH. change (format_digits (S n) v acc) with
      (format_digits n (v / 10) (String (digit_char (v mod 10)) acc)).
    do 2 f_equal. rewrite Nat2Z.inj_succ, Z.pow_succ_r by lia.
    rewrite Z.div_div by (try apply Z.pow_nonzero; lia). done.
Qed.

Lemma format_digits_value s v acc : all_digits s = true ->
  format_digits (String.length s) (dec_value s v) acc = (s +:+ acc)%string.
Proof.
  revert v. induction s as [|c s IH]; intros v Hs; [done|].
  simpl in Hs. bool_to_prop.
  change (String.length (String c s)) with (S (String.length s)).
  change (dec_value (String c s) v) with (dec_value s (v * 10 + (code c - 48))).
  rewrite format_digits_cons, IH by done.
  change ((String c s +:+ acc)%string) with (String c (s +:+ acc)). f_equal.
  rewrite dec_value_acc. pose proof (dec_value_bound s ltac:(done)).
  rewrite Z.add_comm, Z.div_add, Z.div_small by (done || lia).
  pose proof (is_digit_range c ltac:(done)).
  replace ((0 + (v * 10 + (code c - 48))) mod 10) with (code c - 48).
  - by apply digit_char_code.
  - rewrite Z.add_0_l, Z.add_comm, Z.mod_add, Z.mod_small by lia. done.
Qed.

Lemma dec_value_format n v acc a : 0 <= v ->
  dec_value (format_digits n v acc) a =
  dec_value acc (a * 10 ^ Z.of_nat n + v mod 10 ^ Z.of_nat n).
Proof.
  revert v acc. induction n as [|n IH]; intros v acc Hv; simpl.
  - rewrite Z.mod_1_r. f_equal. lia.
  - rewrite IH by (apply Z.div_pos; lia). simpl.
    pose proof (Z.mod_pos_bound v 10 ltac:(lia)).
    rewrite (proj2 (digit_char_spec (v mod 10) ltac:(lia))).
    f_equal. rewrite Nat2Z.inj_succ, Z.pow_succ_r by lia.
    rewrite Z.rem_mul_r by (try apply Z.pow_nonzero; lia). lia.
Qed.

Lemma dec_length_enough fuel v : 0 <= v < 2 ^ (Z.of_nat fuel + 1) ->
  v < 10 ^ Z.of_nat (dec_length fuel v).
Proof.
  revert v. induction fuel as [|f IH]; intros v Hv; simpl.
  - simpl in Hv. lia.
  - destruct (Z.ltb_spec v 10) as [?|Hge]; [simpl; lia|].
    assert (v / 10 < 10 ^ Z.of_nat (dec_length f (v / 10))) as Hlt.
    { apply IH. split; [apply Z.div_pos; lia|].
      apply Z.div_lt_upper_bound; [lia|].
      rewrite Nat2Z.inj_succ in Hv.
      replace (Z.succ (Z.of_nat f) + 1) with (Z.succ (Z.of_nat f + 1)) in Hv by lia.
      rewrite Z.pow_succ_r in Hv by lia. lia. }
    rewrite Nat2Z.inj_succ, Z.pow_succ_r by lia.
    pose proof (Z.div_mod v 10 ltac:(lia)).
    pose proof (Z.mod_pos_bound v 10 ltac:(lia)). nia.
Qed.

Lemma to_string_value v : 0 <= v ->
  all_digits (to_string v) = true /\ dec_value (to_string v) 0 = v.
Proof.
  intros Hv. unfold to_string. rewrite format_digits_all, dec_value_format by done.
  split; [done|]. simpl. rewrite Z.mod_small; [done|]. split; [done|].
  apply dec_length_enough. split; [done|].
  destruct (decide (v = 0)) as [->|]; [done|].
  rewrite Z2Nat.id by apply Z.log2_nonneg.
  replace (Z.log2 v + 1) with (Z.succ (Z.log2 v)) by lia. by apply Z.log2_spec; lia.
Qed.

Lemma to_string_length v : String.length (to_string v) =
  dec_length (Z.to_nat (Z.log2 v)) v.
Proof. unfold to_string. rewrite format_digits_length. simpl. lia. Qed.

Lemma dec_length_upper fuel v k : (0 < k)%nat -> v < 10 ^ Z.of_nat k ->
  (dec_length fuel v <= k)%nat.
Proof.
  revert v k. induction fuel as [|f IH]; intros v k Hk Hv; simpl; [lia|].
  destruct (Z.ltb_spec v 10); [lia|].
  destruct k as [|k]; [lia|]. apply le_n_S. apply IH.
  - destruct k; [simpl in Hv; lia|lia].
  - apply Z.div_lt_upper_bound; [lia|]. rewrite Nat2Z.inj_succ, Z.pow_succ_r in Hv; lia.
Qed.

Lemma dec_length_pos fuel v : (1 <= dec_length fuel v)%nat.
Proof. destruct fuel; simpl; [lia|]. destruct (v <? 10); lia. Qed.

(** ** Searching and cutting *)

(** [s.find(c)]: the prefix before the first [c] and the suffix after it, or
    [None] for [npos]. *)
Fixpoint split_at_char (c : ascii) (s : string) : option (string * string) :=
  match s with
  | EmptyString => None
  | String d s' =>
      if Ascii.eqb d c then Some (EmptyString, s')
      else match split_at_char c s' with
           | Some (p, q) => Some (String d p, q)
           | None => None
           end
  end.

Lemma split_at_char_app c s p q :
  split_at_char c s = Some (p, q) -> s = (p +:+ String c q)%string.
Proof.
  revert p q. induction s as [|d s IH]; intros p q; simpl; [done|].
  destruct (Ascii.eqb_spec d c) as [->|]; [by intros [= <- <-]|].
  destruct (split_at_char c s) as [[p' q']|]; [|done]. intros [= <- <-].
  simpl. by rewrite (IH p' q').
Qed.

Fixpoint str_drop (n : nat) (s : string) : string :=
  match n, s with
  | S n', String _ s' => str_drop n' s'
  | _, _ => s
  end.
Fixpoint str_take (n : nat) (s : string) : string :=
  match n, s with
  | S n', String c s' => String c (str_take n' s')
  | _, _ => EmptyString
  end.

Lemma str_app_assoc s t u : ((s +:+ t) +:+ u)%string = (s +:+ t +:+ u)%string.
Proof. induction s as [|c s IH]; [done|]. change (String c ((s +:+ t) +:+ u) = String c (s +:+ t +:+ u))%string. by rewrite IH. Qed.

Lemma str_take_drop n s : (str_take n s +:+ str_drop n s)%string = s.
Proof. revert s. induction n as [|n IH]; intros [|c s]; [done..|]. change (String c (str_take n s +:+ str_drop n s) = String c s)%string. by rewrite IH. Qed.

Lemma str_drop_length n s : String.length (str_drop n s) = (String.length s - n)%nat.
Proof. revert s. induction n as [|n IH]; intros [|c s]; simpl; auto. Qed.

Lemma str_take_length n s : String.length (str_take n s) = Nat.min n (String.length s).
Proof. revert s. induction n as [|n IH]; intros [|c s]; simpl; auto. Qed.

Lemma str_drop_drop n m s : str_drop n (str_drop m s) = str_drop (m + n) s.
Proof. revert s. induction m as [|m IH]; intros s; simpl; [done|]. destruct s; [by destruct n|done]. Qed.

Lemma str_length_0 s : String.length s = 0%nat -> s = EmptyString.
Proof. by destruct s. Qed.

Lemma str_drop_all n s : (String.length s <= n)%nat -> str_drop n s = EmptyString.
Proof. intros H. apply str_length_0. rewrite str_drop_length. lia. Qed.

(** [s.remove_prefix] while the first character satisfies [p]. *)
Fixpoint drop_while (p : ascii -> bool) (s : string) : string :=
  match s with
  | String c s' => if p c then drop_while p s' else s
  | EmptyString => EmptyString
  end.

(** [s.remove_suffix] while the last character satisfies [p]. *)
Fixpoint drop_while_end (p : ascii -> bool) (s : string) : string :=
  match s with
  | EmptyString => EmptyString
  | String c s' =>
      match drop_while_end p s' with
      | EmptyString => if p c then EmptyString else String c EmptyString
      | t => String c t
      end
  end.

Definition is_blank (c : ascii) : bool := Ascii.eqb c " " || Ascii.eqb c "009".
Definition is_blank_cr (c : ascii) : bool := is_blank c || Ascii.eqb c "013".

(** [std::find] in a vector of names, as an index. *)
Fixpoint index_of (name : string) (l : list string) : option Z :=
  match l with
  | [] => None
  | x :: l' =>
      if String.eqb x name then Some 0
      else match index_of name l' with Some i => Some (i + 1) | None => None end
  end.

Lemma index_of_bound name l i : index_of name l = Some i -> 0 <= i < Z.of_nat (length l).
Proof.
  revert i. induction l as [|x l IH]; intros i; simpl; [done|].
  case_match; [intros [= <-]; lia|]. destruct (index_of name l) as [j|]; [|done].
  intros [= <-]. specialize (IH j eq_refl). lia.
Qed.

Lemma index_of_lookup name l i : index_of name l = Some i -> l !! Z.to_nat i = Some name.
Proof.
  revert i. induction l as [|x l IH]; intros i; simpl; [done|].
  destruct (String.eqb_spec x name) as [->|_]; [by intros [= <-]|].
  destruct (index_of name l) as [j|] eqn:E; [|done]. intros [= <-]. pose proof (index_of_bound _ _ _ E).
  specialize (IH j eq_refl). by replace (Z.to_nat (j + 1)) with (S (Z.to_nat j)) by lia.
Qed.

Lemma digits_loop_fits s v n : fits 64 v -> digits_loop s v = Some n -> fits 64 n.
Proof. intros Hv. rewrite digits_loop_spec by done. destruct (all_digits s); [|done]. intros [= <-]. by apply wrap_fits. Qed.

Lemma index_of_elem name l : name ∈ l -> exists i, index_of name l = Some i.
Proof.
  induction l as [|x l IH]; intros H; [by apply elem_of_nil in H|]. simpl.
  destruct (String.eqb_spec x name) as [->|Hne]; [by eexists|].
  apply elem_of_cons in H as [->|H]; [done|]. destruct (IH H) as [i ->]. by eexists.
Qed.
