(* ===== verification/Imsi.v ===== *)
(** * Imsi: identity packing ([include/policy/imsi.hpp])

    IMSI, IMEI and PLMN parsing, the canonical printed forms, and the Luhn
    check of an IMEI. *)

From S2P Require Import Prelude Text.
From Stdlib Require Import ZArith Lia Bool Ascii String.
From stdpp Require Import base list numbers strings.
Local Open Scope Z_scope.

Definition kImsiDigits : nat := 15.
Definition kImeiDigits : nat := 15.

Definition parse_digits (s : string) (max_digits : nat) : option Z :=
  if (String.length s =? 0)%nat || (max_digits <? String.length s)%nat then None
  else digits_loop s 0.

Definition parse_imsi (s : string) : option Z := parse_digits s kImsiDigits.

Definition parse_imei (s : string) : option Z :=
  match s with
  | EmptyString => Some 0
  | _ => parse_digits s kImeiDigits
  end.

Definition format_imsi (imsi : Z) (digits : nat) : string :=
  format_digits digits imsi EmptyString.

Definition make_plmn (mcc mnc : Z) : Z := u32 (mcc * 1000 + mnc).
Definition plmn_mcc (plmn : Z) : Z := plmn / 1000.
Definition plmn_mnc (plmn : Z) : Z := plmn mod 1000.

(** [s.find_first_of("-/ ")]. *)
Definition is_plmn_sep (c : ascii) : bool :=
  Ascii.eqb c "-" || Ascii.eqb c "/" || Ascii.eqb c " ".

Fixpoint find_plmn_sep (s : string) : option (string * string) :=
  match s with
  | EmptyString => None
  | String c s' =>
      if is_plmn_sep c then Some (EmptyString, s')
      else match find_plmn_sep s' with
           | Some (p, q) => Some (String c p, q)
           | None => None
           end
  end.

Definition parse_plmn (s : string) : option Z :=
  match find_plmn_sep s with
  | None =>
      if negb (String.length s =? 5)%nat && negb (String.length s =? 6)%nat then None
      else match parse_digits (str_take 3 s) 3, parse_digits (str_drop 3 s) 3 with
           | Some mcc, Some mnc => Some (make_plmn (u32 mcc) (u32 mnc))
           | _, _ => None
           end
  | Some (mcc_text, mnc_text) =>
      if negb (String.length mcc_text =? 3)%nat
         || (String.length mnc_text <? 2)%nat || (3 <? String.length mnc_text)%nat
      then None
      else match parse_digits mcc_text 3, parse_digits mnc_text 3 with
           | Some mcc, Some mnc => Some (make_plmn (u32 mcc) (u32 mnc))
           | _, _ => None
           end
  end.

Definition format_plmn (plmn : Z) : string :=
  (to_string (plmn_mcc plmn) +:+ "-" +:+ to_string (plmn_mnc plmn))%string.

(** [while (imei > 0)]: one decimal digit per iteration, so 20 iterations
    consume any [uint64_t]. *)
Fixpoint luhn_loop (fuel : nat) (imei sum : Z) (dbl : bool) : Z :=
  match fuel with
  | O => sum
  | S f =>
      if imei <=? 0 then sum
      else
        let d := imei mod 10 in
        let d := if dbl then let d2 := d * 2 in if 9 <? d2 then d2 - 9 else d2 else d in
        luhn_loop f (imei / 10) (u32 (sum + d)) (negb dbl)
  end.

Definition imei_luhn_valid (imei : Z) : bool :=
  luhn_loop 20 imei 0 false mod 10 =? 0.

(** ** Parsing and printing *)

Lemma parse_digits_spec s m v : (m <= 19)%nat ->
  parse_digits s m = Some v <->
  (1 <= String.length s <= m)%nat /\ all_digits s = true /\ v = dec_value s 0.
Proof.
  intros Hm. unfold parse_digits.
  destruct (Nat.eqb_spec (String.length s) 0); simpl; [split; [done|lia]|].
  destruct (Nat.ltb_spec m (String.length s)); [split; [done|lia]|].
  rewrite digits_loop_spec by auto with policy.
  destruct (all_digits s) eqn:Hd; [|split; [done|by intros (_ & ? & _)]].
  pose proof (dec_value_bound s Hd).
  assert (10 ^ Z.of_nat (String.length s) <= 10 ^ 19) by (apply Z.pow_le_mono_r; lia).
  rewrite wrap_id by (unfold fits; lia). split; [|by intros (_ & _ & ->)].
  intros [= <-]. split; [lia|done].
Qed.

Lemma parse_digits_range s m v : (m <= 19)%nat ->
  parse_digits s m = Some v -> 0 <= v < 10 ^ Z.of_nat m.
Proof.
  intros Hm [Hl [Hd ->]]%parse_digits_spec; [|done].
  pose proof (dec_value_bound s Hd).
  assert (10 ^ Z.of_nat (String.length s) <= 10 ^ Z.of_nat m)
    by (apply Z.pow_le_mono_r; lia). lia.
Qed.

Lemma parse_imsi_fits s v : parse_imsi s = Some v -> fits 64 v.
Proof.
  intros H%parse_digits_range; [|unfold kImsiDigits; lia].
  unfold kImsiDigits in H. split; simpl in *; lia.
Qed.

Lemma parse_imei_fits s v : parse_imei s = Some v -> fits 64 v.
Proof.
  destruct s; simpl; [intros [= <-]; auto with policy|].
  intros H%parse_digits_range; [|unfold kImeiDigits; lia].
  unfold kImeiDigits in H. split; simpl in *; lia.
Qed.

Lemma parse_format_digits n v : (1 <= n <= 19)%nat -> 0 <= v < 10 ^ Z.of_nat n ->
  parse_digits (format_imsi v n) n = Some v.
Proof.
  intros Hn Hv. apply parse_digits_spec; [lia|]. unfold format_imsi.
  rewrite format_digits_length, format_digits_all, dec_value_format by lia.
  simpl. rewrite Z.mod_small by done. split; [lia|done].
Qed.

Lemma format_parse_digits s n v : (n <= 19)%nat -> String.length s = n ->
  parse_digits s n = Some v -> format_imsi v n = s.
Proof.
  intros Hn Hl [_ [Hd ->]]%parse_digits_spec; [|done]. unfold format_imsi.
  rewrite <- Hl, format_digits_value by done. apply str_app_nil_r.
Qed.

(** packing is a bijection between 15-digit IMSI strings and the integers
    below 10^15: printing then parsing gives the number back, and parsing a
    15-character string then printing gives the string back, leading zeros
    included. *)
Theorem imsi_roundtrip :
  (forall v, 0 <= v < 10 ^ 15 -> parse_imsi (format_imsi v kImsiDigits) = Some v) /\
  (forall s v, String.length s = kImsiDigits -> parse_imsi s = Some v ->
     format_imsi v kImsiDigits = s).
Proof.
  split.
  - intros v Hv. apply parse_format_digits; [unfold kImsiDigits; lia|done].
  - intros s v Hl Hp. apply format_parse_digits; [unfold kImsiDigits; lia|done|done].
Qed.

Lemma imsi_roundtrip_witness :
  parse_imsi (format_imsi 208 kImsiDigits) = Some 208 /\
  format_imsi 310260100003990 kImsiDigits = "310260100003990"%string.
Proof.
  split.
  - apply (proj1 imsi_roundtrip). lia.
  - apply (proj2 imsi_roundtrip); reflexivity.
Defined.

(** ** PLMN spellings *)

Lemma find_plmn_sep_digits p c q : all_digits p = true -> is_plmn_sep c = true ->
  find_plmn_sep (p +:+ String c q)%string = Some (p, q).
Proof.
  intros Hp Hc. unfold String.app. induction p as [|d p IH]; simpl in *; [by rewrite Hc|].
  bool_to_prop. rewrite IH by done.
  assert (is_plmn_sep d = false) as ->; [|done].
  destruct d as [[] [] [] [] [] [] [] []]; done.
Qed.

Lemma find_plmn_sep_none p : all_digits p = true -> find_plmn_sep p = None.
Proof.
  induction p as [|d p IH]; simpl; [done|]. intros. bool_to_prop. rewrite IH by done.
  assert (is_plmn_sep d = false) as ->; [|done].
  destruct d as [[] [] [] [] [] [] [] []]; done.
Qed.

Lemma all_digits_app p q :
  all_digits (p +:+ q)%string = all_digits p && all_digits q.
Proof.
  unfold String.app. induction p as [|c p IH]; simpl; [done|].
  by rewrite IH, andb_assoc.
Qed.

Lemma str_take_drop_app n p q : String.length p = n ->
  str_take n (p +:+ q)%string = p /\ str_drop n (p +:+ q)%string = q.
Proof.
  unfold String.app. intros <-. induction p as [|c p [IH1 IH2]]; simpl; [by destruct q|].
  by rewrite IH1, IH2.
Qed.

Lemma parse_digits_dec s m : (m <= 19)%nat -> (1 <= String.length s <= m)%nat ->
  all_digits s = true -> parse_digits s m = Some (dec_value s 0).
Proof. intros. apply parse_digits_spec; done. Qed.

Lemma parse_plmn_fits s v : parse_plmn s = Some v -> fits 32 v.
Proof.
  unfold parse_plmn, make_plmn. intros H. repeat (case_match; try discriminate); injection H as <-; by apply wrap_fits.
Qed.

Section PlmnText.
Context (mcc mnc : string).
Hypothesis Hmcc : String.length mcc = 3%nat.
Hypothesis Hmnc : (2 <= String.length mnc <= 3)%nat.
Hypothesis Dmcc : all_digits mcc = true.
Hypothesis Dmnc : all_digits mnc = true.

Lemma plmn_pair_value :
  parse_digits mcc 3 = Some (dec_value mcc 0) /\ parse_digits mnc 3 = Some (dec_value mnc 0) /\
  make_plmn (u32 (dec_value mcc 0)) (u32 (dec_value mnc 0)) =
    dec_value mcc 0 * 1000 + dec_value mnc 0.
Proof using All.
  split; [apply parse_digits_dec; (done || lia)|].
  split; [apply parse_digits_dec; (done || lia)|].
  pose proof (dec_value_bound mcc Dmcc) as Ha. pose proof (dec_value_bound mnc Dmnc) as Hb.
  assert (10 ^ Z.of_nat (String.length mnc) <= 10 ^ 3) by (apply Z.pow_le_mono_r; lia).
  rewrite Hmcc in Ha. simpl in *. unfold make_plmn.
  rewrite !wrap_id; rewrite ?wrap_id; unfold fits; simpl; lia.
Qed.

Lemma parse_plmn_sep c : is_plmn_sep c = true ->
  parse_plmn (mcc +:+ String c mnc)%string = Some (dec_value mcc 0 * 1000 + dec_value mnc 0).
Proof using All.
  intros Hc. unfold parse_plmn. rewrite find_plmn_sep_digits by done.
  rewrite Hmcc. destruct (Nat.ltb_spec (String.length mnc) 2); [lia|].
  destruct (Nat.ltb_spec 3 (String.length mnc)); [lia|]. simpl.
  destruct plmn_pair_value as (-> & -> & ->). done.
Qed.

Lemma parse_plmn_bare :
  parse_plmn (mcc +:+ mnc)%string = Some (dec_value mcc 0 * 1000 + dec_value mnc 0).
Proof using All.
  unfold parse_plmn. rewrite find_plmn_sep_none by (rewrite all_digits_app, Dmcc, Dmnc; done).
  rewrite str_app_length, Hmcc.
  destruct (str_take_drop_app 3 mcc mnc Hmcc) as [-> ->].
  destruct plmn_pair_value as (-> & -> & ->).
  destruct (Nat.eqb_spec (3 + String.length mnc) 5); [done|].
  destruct (Nat.eqb_spec (3 + String.length mnc) 6); [done|lia].
Qed.
End PlmnText.

(** every accepted spelling of a PLMN (dash, slash, space or bare digits,
    a three-digit MCC and a two- or three-digit MNC) denotes MCC*1000+MNC, and
    the two parts are recovered from the packed value. *)
Theorem plmn_spellings_agree mcc mnc :
  String.length mcc = 3%nat -> (2 <= String.length mnc <= 3)%nat ->
  all_digits mcc = true -> all_digits mnc = true ->
  exists p, parse_plmn (mcc +:+ mnc)%string = Some p /\
    (forall c, is_plmn_sep c = true -> parse_plmn (mcc +:+ String c mnc)%string = Some p) /\
    plmn_mcc p = dec_value mcc 0 /\ plmn_mnc p = dec_value mnc 0.
Proof.
  intros H1 H2 H3 H4. exists (dec_value mcc 0 * 1000 + dec_value mnc 0).
  split; [by apply parse_plmn_bare|]. split; [intros; by apply parse_plmn_sep|].
  pose proof (dec_value_bound mnc H4).
  assert (10 ^ Z.of_nat (String.length mnc) <= 10 ^ 3) by (apply Z.pow_le_mono_r; lia).
  unfold plmn_mcc, plmn_mnc.
  rewrite (Z.add_comm (_ * _)), Z.div_add, Z.div_small, Z.mod_add, Z.mod_small by lia. lia.
Qed.

Lemma plmn_spellings_agree_witness :
  exists p, parse_plmn "23415" = Some p /\
    (forall c, is_plmn_sep c = true -> parse_plmn (String.append "234" (String c "15")) = Some p) /\
    plmn_mcc p = 234 /\ plmn_mnc p = 15.
Proof.
  destruct (plmn_spellings_agree "234" "15" ltac:(reflexivity) ltac:(simpl; lia)
              ltac:(reflexivity) ltac:(reflexivity)) as (p & H). exists p. exact H.
Defined.

(** The printed form of a network with a one-digit MNC value is not accepted
    back: [format_plmn] does not pad the MNC. *)
Theorem format_plmn_unpadded :
  parse_plmn "262-01" = Some 262001 /\ format_plmn 262001 = "262-1"%string /\
  parse_plmn (format_plmn 262001) = None.
Proof. repeat split; vm_compute; reflexivity. Qed.

(** ** Luhn *)

Definition luhn_weight (dbl : bool) (d : Z) : Z :=
  if dbl then if 9 <? d * 2 then d * 2 - 9 else d * 2 else d.

(** The weighted digit sum, without wrap-around. *)
Fixpoint luhn_sum (fuel : nat) (n : Z) (dbl : bool) : Z :=
  match fuel with
  | O => 0
  | S f => luhn_weight dbl (n mod 10) + luhn_sum f (n / 10) (negb dbl)
  end.

Lemma luhn_weight_bound dbl d : 0 <= d <= 9 -> 0 <= luhn_weight dbl d <= 9.
Proof. intros. unfold luhn_weight. repeat case_bool; bool_to_prop; lia. Qed.

Lemma luhn_weight_inj dbl d d' : 0 <= d <= 9 -> 0 <= d' <= 9 ->
  luhn_weight dbl d = luhn_weight dbl d' -> d = d'.
Proof. intros ??. unfold luhn_weight. repeat case_bool; bool_to_prop; lia. Qed.

Lemma luhn_sum_0 f dbl : luhn_sum f 0 dbl = 0.
Proof. revert dbl. induction f; intros dbl; simpl; [done|]. rewrite IHf. by destruct dbl. Qed.

Lemma luhn_loop_sum f n s dbl : 0 <= n -> 0 <= s -> s + 9 * Z.of_nat f < 2 ^ 32 ->
  luhn_loop f n s dbl = s + luhn_sum f n dbl.
Proof.
  revert n s dbl. induction f as [|f IH]; intros n s dbl Hn Hs Hb; simpl; [lia|].
  pose proof (Z.mod_pos_bound n 10 ltac:(lia)).
  pose proof (luhn_weight_bound dbl (n mod 10) ltac:(lia)).
  destruct (Z.leb_spec n 0).
  - assert (n = 0) as -> by lia. rewrite Z.mod_0_l, Z.div_0_l, luhn_sum_0 by lia.
    unfold luhn_weight. destruct dbl; simpl; lia.
  - change (if dbl then _ else n mod 10) with (luhn_weight dbl (n mod 10)).
    rewrite wrap_id by (unfold fits; lia).
    rewrite IH; [lia|apply Z.div_pos; lia|lia|lia].
Qed.

Lemma luhn_sum_replace k f hi lo d d' dbl : (k < f)%nat ->
  0 <= lo < 10 ^ Z.of_nat k -> 0 <= d <= 9 -> 0 <= d' <= 9 ->
  exists b,
  luhn_sum f ((hi * 10 + d) * 10 ^ Z.of_nat k + lo) dbl
    - luhn_sum f ((hi * 10 + d') * 10 ^ Z.of_nat k + lo) dbl
  = luhn_weight b d - luhn_weight b d'.
Proof.
  revert f lo dbl. induction k as [|k IH]; intros f lo dbl Hf Hlo Hd Hd';
    (destruct f as [|f]; [lia|]).
  - exists dbl. simpl in Hlo. assert (lo = 0) as -> by lia. simpl.
    rewrite !Z.mul_1_r, !Z.add_0_r.
    rewrite !(Z.add_comm (hi * 10)), !Z.mod_add, !Z.div_add, !Z.mod_small,
      !Z.div_small by lia. lia.
  - rewrite Nat2Z.inj_succ, Z.pow_succ_r in Hlo |- * by lia.
    destruct (IH f (lo / 10) (negb dbl)) as [b Hb]; [lia| |done..|].
    { split; [apply Z.div_pos; lia|]. apply Z.div_lt_upper_bound; lia. }
    exists b. rewrite <- Hb.
    assert (forall e, luhn_sum (S f) ((hi * 10 + e) * (10 * 10 ^ Z.of_nat k) + lo) dbl =
      luhn_weight dbl (lo mod 10) +
      luhn_sum f ((hi * 10 + e) * 10 ^ Z.of_nat k + lo / 10) (negb dbl)) as E.
    { intros e. simpl.
      replace ((hi * 10 + e) * (10 * 10 ^ Z.of_nat k) + lo)
        with (lo + (hi * 10 + e) * 10 ^ Z.of_nat k * 10) by lia.
      rewrite Z.mod_add, Z.div_add by lia. do 2 f_equal. lia. }
    rewrite !E. lia.
Qed.

(** the Luhn check detects every single-digit error: of the numbers that
    differ in one decimal digit only (position [k]), at most one is valid. *)
Theorem luhn_detects_single_digit_error k hi lo d d' :
  (k < 20)%nat -> 0 <= hi -> 0 <= lo < 10 ^ Z.of_nat k -> 0 <= d <= 9 -> 0 <= d' <= 9 ->
  imei_luhn_valid ((hi * 10 + d) * 10 ^ Z.of_nat k + lo) = true ->
  imei_luhn_valid ((hi * 10 + d') * 10 ^ Z.of_nat k + lo) = true -> d = d'.
Proof.
  intros Hk Hhi Hlo Hd Hd'. unfold imei_luhn_valid.
  pose proof (Z.pow_pos_nonneg 10 (Z.of_nat k) ltac:(lia) ltac:(lia)).
  rewrite !luhn_loop_sum by (simpl; nia). rewrite !Z.eqb_eq. intros V V'.
  destruct (luhn_sum_replace k 20 hi lo d d' false Hk Hlo Hd Hd') as [b Hb].
  apply (luhn_weight_inj b); [done..|].
  pose proof (luhn_weight_bound b d Hd). pose proof (luhn_weight_bound b d' Hd').
  apply Z.mod_divide in V as [q Hq]; [|done]. apply Z.mod_divide in V' as [q' Hq']; [|done].
  lia.
Qed.

Lemma luhn_detects_single_digit_error_witness :
  imei_luhn_valid 490154203237518 = true /\ imei_luhn_valid 490154203237598 = false.
Proof.
  split; [vm_compute; reflexivity|].
  destruct (imei_luhn_valid 490154203237598) eqn:E; [|reflexivity].
  exfalso. assert (1 = 9); [|lia].
  apply (luhn_detects_single_digit_error 1 4901542032375 8 1 9);
    [lia|lia|simpl; lia|lia|lia|vm_compute; reflexivity|exact E].
Defined.
