(* ===== verification/Wire.v ===== *)
(** * Wire: the 64-byte datagram format ([include/policy/wire.hpp])

    Enumerations, the two message structs, their memory images on a host of
    either byte order, [swap_endianness], [encode] and [decode].  A byte is a
    [Z] in [0, 256) and a buffer a [list Z]; [host_le] stands for the
    compile-time constant [kHostIsLittleEndian]. *)

From S2P Require Import Prelude Text.
From Stdlib Require Import ZArith Lia Bool String.
From stdpp Require Import base list numbers strings sets.
Local Open Scope Z_scope.

Definition kMagicBase : Z := 0x504C4300.
Definition kWireVersion : Z := 1.
Definition kMagicVersion : Z := Z.lor kMagicBase kWireVersion.
Definition kWireMsgSize : nat := 64.

(** ** Enumerations *)

Inductive RatType := kLte | kNr | kWlan.
Inductive Verdict := kAllow | kDeny | kRedirect.
Inductive Reason :=
  | kOk | kUnknownSubscriber | kSubscriberSuspended | kSubscriberBarred
  | kImeiBlockedReason | kRoamingNotAllowed | kPlmnNotPartner | kDnnNotAllowed
  | kRatNotAllowed | kQuotaExhaustedReason | kQuotaExhaustedThrottled
  | kTetheringBlocked | kNoMatchingRule | kPolicyDefaultDeny | kOffPeakBonus
  | kPlanDefault | kMalformedRequest.

#[export] Instance RatType_eq_dec : EqDecision RatType.
Proof. solve_decision. Defined.
#[export] Instance Verdict_eq_dec : EqDecision Verdict.
Proof. solve_decision. Defined.
#[export] Instance Reason_eq_dec : EqDecision Reason.
Proof. solve_decision. Defined.

Definition rat_code (r : RatType) : Z := match r with kLte => 0 | kNr => 1 | kWlan => 2 end.
Definition verdict_code (v : Verdict) : Z :=
  match v with kAllow => 0 | kDeny => 1 | kRedirect => 2 end.
Definition all_reasons : list Reason :=
  [kOk; kUnknownSubscriber; kSubscriberSuspended; kSubscriberBarred; kImeiBlockedReason;
   kRoamingNotAllowed; kPlmnNotPartner; kDnnNotAllowed; kRatNotAllowed;
   kQuotaExhaustedReason; kQuotaExhaustedThrottled; kTetheringBlocked; kNoMatchingRule;
   kPolicyDefaultDeny; kOffPeakBonus; kPlanDefault; kMalformedRequest].
Definition reason_code (r : Reason) : Z :=
  match r with
  | kOk => 0 | kUnknownSubscriber => 1 | kSubscriberSuspended => 2 | kSubscriberBarred => 3
  | kImeiBlockedReason => 4 | kRoamingNotAllowed => 5 | kPlmnNotPartner => 6
  | kDnnNotAllowed => 7 | kRatNotAllowed => 8 | kQuotaExhaustedReason => 9
  | kQuotaExhaustedThrottled => 10 | kTetheringBlocked => 11 | kNoMatchingRule => 12
  | kPolicyDefaultDeny => 13 | kOffPeakBonus => 14 | kPlanDefault => 15
  | kMalformedRequest => 16
  end.
Definition kReasonCount : Z := 17.

(** The names, over the raw byte: a value outside the enumeration is "INVALID". *)
Definition verdict_name (v : Z) : string :=
  if v =? 0 then "ALLOW" else if v =? 1 then "DENY" else if v =? 2 then "REDIRECT"
  else "INVALID".
Definition rat_name (r : Z) : string :=
  if r =? 0 then "LTE" else if r =? 1 then "NR" else if r =? 2 then "WLAN" else "INVALID".
Definition reason_text (r : Reason) : string :=
  match r with
  | kOk => "OK" | kUnknownSubscriber => "UNKNOWN_SUBSCRIBER"
  | kSubscriberSuspended => "SUBSCRIBER_SUSPENDED" | kSubscriberBarred => "SUBSCRIBER_BARRED"
  | kImeiBlockedReason => "IMEI_BLOCKED" | kRoamingNotAllowed => "ROAMING_NOT_ALLOWED"
  | kPlmnNotPartner => "PLMN_NOT_PARTNER" | kDnnNotAllowed => "DNN_NOT_ALLOWED"
  | kRatNotAllowed => "RAT_NOT_ALLOWED" | kQuotaExhaustedReason => "QUOTA_EXHAUSTED"
  | kQuotaExhaustedThrottled => "QUOTA_EXHAUSTED_THROTTLED"
  | kTetheringBlocked => "TETHERING_BLOCKED" | kNoMatchingRule => "NO_MATCHING_RULE"
  | kPolicyDefaultDeny => "POLICY_DEFAULT_DENY" | kOffPeakBonus => "OFF_PEAK_BONUS"
  | kPlanDefault => "PLAN_DEFAULT" | kMalformedRequest => "MALFORMED_REQUEST"
  end.
Definition reason_name (r : Z) : string :=
  match list_find (fun x => reason_code x = r) all_reasons with
  | Some (_, x) => reason_text x
  | None => "INVALID"
  end.

(** Decision flags and request flags. *)
Definition kFlagThrottled : Z := Z.shiftl 1 0.
Definition kFlagRoamingRestricted : Z := Z.shiftl 1 1.
Definition kFlagTetheringBlocked : Z := Z.shiftl 1 2.
Definition kFlagQuotaWarning : Z := Z.shiftl 1 3.
Definition kFlagOffPeakBonus : Z := Z.shiftl 1 4.
Definition kFlagUsageFromRequest : Z := Z.shiftl 1 5.
Definition kReqFlagTetheringDetected : Z := Z.shiftl 1 0.
Definition kReqFlagEmergency : Z := Z.shiftl 1 1.
Definition kReqFlagUsageValid : Z := Z.shiftl 1 2.

(** ** Messages *)

Record PolicyRequest := mkRequest {
  rq_magic_version : Z; rq_seq : Z; rq_imsi : Z; rq_imei : Z; rq_client_ts_ns : Z;
  rq_bytes_used_period : Z; rq_plmn : Z; rq_tac : Z; rq_rat_type : Z; rq_dnn_id : Z;
  rq_requested_5qi : Z; rq_flags : Z; rq_local_minute : Z; rq_req_ambr_ul_kbps : Z;
  rq_req_ambr_dl_kbps : Z; rq_reserved : Z }.

Record PolicyDecision := mkDecision {
  d_magic_version : Z; d_seq : Z; d_client_ts_ns : Z; d_quota_bytes : Z;
  d_ambr_ul_kbps : Z; d_ambr_dl_kbps : Z; d_rating_group : Z; d_quota_validity_s : Z;
  d_rule_id : Z; d_policy_version : Z; d_verdict : Z; d_reason : Z; d_qos_5qi : Z;
  d_arp : Z; d_flags : Z; d_redirect_id : Z; d_reserved : Z; d_server_ts_ns : Z }.

#[export] Instance PolicyRequest_eq_dec : EqDecision PolicyRequest.
Proof. solve_decision. Defined.
#[export] Instance PolicyDecision_eq_dec : EqDecision PolicyDecision.
Proof. solve_decision. Defined.

(** ** Byte order *)

Fixpoint le_bytes (n : nat) (v : Z) : list Z :=
  match n with
  | O => []
  | S n' => v mod 256 :: le_bytes n' (v / 256)
  end.

Fixpoint le_value (bs : list Z) : Z :=
  match bs with
  | [] => 0
  | b :: bs' => b + 256 * le_value bs'
  end.

(** How a field of [n] bytes lies in memory on the host. *)
Definition field_image (host_le : bool) (n : nat) (v : Z) : list Z :=
  if host_le then le_bytes n v else rev (le_bytes n v).
Definition field_load (host_le : bool) (bs : list Z) : Z :=
  if host_le then le_value bs else le_value (rev bs).

Definition bswap16 (v : Z) : Z := u16 (Z.lor (Z.shiftl v 8) (Z.shiftr v 8)).
(** [__builtin_bswap32] and [__builtin_bswap64] reverse the bytes. *)
Definition bswap32 (v : Z) : Z := le_value (rev (le_bytes 4 v)).
Definition bswap64 (v : Z) : Z := le_value (rev (le_bytes 8 v)).

Definition to_le (host_le : bool) (n : nat) (v : Z) : Z :=
  if host_le then v
  else match n with
       | 2%nat => bswap16 v
       | 4%nat => bswap32 v
       | 8%nat => bswap64 v
       | _ => v
       end.

Definition swap_endianness_request (h : bool) (r : PolicyRequest) : PolicyRequest :=
  mkRequest
    (to_le h 4 (rq_magic_version r)) (to_le h 4 (rq_seq r)) (to_le h 8 (rq_imsi r))
    (to_le h 8 (rq_imei r)) (to_le h 8 (rq_client_ts_ns r))
    (to_le h 8 (rq_bytes_used_period r)) (to_le h 4 (rq_plmn r)) (to_le h 2 (rq_tac r))
    (rq_rat_type r) (rq_dnn_id r) (rq_requested_5qi r) (rq_flags r)
    (to_le h 2 (rq_local_minute r)) (to_le h 4 (rq_req_ambr_ul_kbps r))
    (to_le h 4 (rq_req_ambr_dl_kbps r)) (to_le h 4 (rq_reserved r)).

Definition swap_endianness_decision (h : bool) (d : PolicyDecision) : PolicyDecision :=
  mkDecision
    (to_le h 4 (d_magic_version d)) (to_le h 4 (d_seq d)) (to_le h 8 (d_client_ts_ns d))
    (to_le h 8 (d_quota_bytes d)) (to_le h 4 (d_ambr_ul_kbps d)) (to_le h 4 (d_ambr_dl_kbps d))
    (to_le h 4 (d_rating_group d)) (to_le h 4 (d_quota_validity_s d)) (to_le h 4 (d_rule_id d))
    (to_le h 4 (d_policy_version d)) (d_verdict d) (d_reason d) (d_qos_5qi d) (d_arp d)
    (d_flags d) (d_redirect_id d) (to_le h 2 (d_reserved d)) (to_le h 8 (d_server_ts_ns d)).

(** The fields of each struct in declaration order; the structs have no
    padding, so this is also the memory layout. *)
Definition request_widths : list nat := [4;4;8;8;8;8;4;2;1;1;1;1;2;4;4;4]%nat.
Definition request_fields (r : PolicyRequest) : list Z :=
  [rq_magic_version r; rq_seq r; rq_imsi r; rq_imei r; rq_client_ts_ns r;
   rq_bytes_used_period r; rq_plmn r; rq_tac r; rq_rat_type r; rq_dnn_id r;
   rq_requested_5qi r; rq_flags r; rq_local_minute r; rq_req_ambr_ul_kbps r;
   rq_req_ambr_dl_kbps r; rq_reserved r].
Definition request_of_fields (l : list Z) : PolicyRequest :=
  let g i := nth i l 0 in
  mkRequest (g 0%nat) (g 1%nat) (g 2%nat) (g 3%nat) (g 4%nat) (g 5%nat) (g 6%nat) (g 7%nat)
    (g 8%nat) (g 9%nat) (g 10%nat) (g 11%nat) (g 12%nat) (g 13%nat) (g 14%nat) (g 15%nat).

Definition decision_widths : list nat := [4;4;8;8;4;4;4;4;4;4;1;1;1;1;1;1;2;8]%nat.
Definition decision_fields (d : PolicyDecision) : list Z :=
  [d_magic_version d; d_seq d; d_client_ts_ns d; d_quota_bytes d; d_ambr_ul_kbps d;
   d_ambr_dl_kbps d; d_rating_group d; d_quota_validity_s d; d_rule_id d;
   d_policy_version d; d_verdict d; d_reason d; d_qos_5qi d; d_arp d; d_flags d;
   d_redirect_id d; d_reserved d; d_server_ts_ns d].
Definition decision_of_fields (l : list Z) : PolicyDecision :=
  let g i := nth i l 0 in
  mkDecision (g 0%nat) (g 1%nat) (g 2%nat) (g 3%nat) (g 4%nat) (g 5%nat) (g 6%nat) (g 7%nat)
    (g 8%nat) (g 9%nat) (g 10%nat) (g 11%nat) (g 12%nat) (g 13%nat) (g 14%nat) (g 15%nat)
    (g 16%nat) (g 17%nat).

(** What the [encode]/[decode] templates need of a message type. *)
Class WireMsg (M : Type) := {
  msg_widths : list nat;
  msg_fields : M -> list Z;
  msg_of_fields : list Z -> M;
  msg_swap : bool -> M -> M;
  msg_magic : M -> Z;
  msg_size : sum_list msg_widths = kWireMsgSize;
  msg_arity m : length (msg_fields m) = length msg_widths;
  msg_known_widths : Forall (fun n => n ∈ [1; 2; 4; 8]%nat) msg_widths;
  msg_of_to m : msg_of_fields (msg_fields m) = m;
  msg_to_of l : length l = length msg_widths -> msg_fields (msg_of_fields l) = l;
  msg_swap_fields h m :
    msg_fields (msg_swap h m) = zip_with (to_le h) msg_widths (msg_fields m);
  msg_magic_first m : nth 0 (msg_fields m) 0 = msg_magic m }.

Fixpoint store_fields (h : bool) (ws : list nat) (vs : list Z) : list Z :=
  match ws, vs with
  | w :: ws', v :: vs' => field_image h w v ++ store_fields h ws' vs'
  | _, _ => []
  end.
Fixpoint load_fields (h : bool) (ws : list nat) (bs : list Z) : list Z :=
  match ws with
  | w :: ws' => field_load h (take w bs) :: load_fields h ws' (drop w bs)
  | [] => []
  end.

(** [memcpy] of a message to and from a buffer. *)
Definition mem_image `{WireMsg M} (h : bool) (m : M) : list Z :=
  store_fields h msg_widths (msg_fields m).
Definition mem_load `{WireMsg M} (h : bool) (bs : list Z) : M :=
  msg_of_fields (load_fields h msg_widths bs).

Definition encode `{WireMsg M} (host_le : bool) (m : M) : list Z :=
  if host_le then mem_image host_le m else mem_image host_le (msg_swap host_le m).

(** Returns the boolean of the C++ function and the new contents of [out]. *)
Definition decode `{WireMsg M} (host_le : bool) (bs : list Z) (out : M) : bool * M :=
  if negb (length bs =? kWireMsgSize)%nat then (false, out)
  else
    let out := mem_load host_le bs in
    let out := if host_le then out else msg_swap host_le out in
    (msg_magic out =? kMagicVersion, out).

#[export] Instance request_msg : WireMsg PolicyRequest.
Proof.
  refine {| msg_widths := request_widths; msg_fields := request_fields;
            msg_of_fields := request_of_fields; msg_swap := swap_endianness_request;
            msg_magic := rq_magic_version |}.
  - reflexivity.
  - reflexivity.
  - repeat constructor; set_solver.
  - intros []; reflexivity.
  - intros l Hl. do 16 (destruct l as [|? l]; [discriminate|]).
    destruct l; [reflexivity|discriminate].
  - intros h m. destruct h; reflexivity.
  - reflexivity.
Defined.

#[export] Instance decision_msg : WireMsg PolicyDecision.
Proof.
  refine {| msg_widths := decision_widths; msg_fields := decision_fields;
            msg_of_fields := decision_of_fields; msg_swap := swap_endianness_decision;
            msg_magic := d_magic_version |}.
  - reflexivity.
  - reflexivity.
  - repeat constructor; set_solver.
  - intros []; reflexivity.
  - intros l Hl. do 18 (destruct l as [|? l]; [discriminate|]).
    destruct l; [reflexivity|discriminate].
  - intros h m. destruct h; reflexivity.
  - reflexivity.
Defined.

(** ** Little-endian images *)

Definition byte_ok (b : Z) : Prop := 0 <= b < 256.

Lemma le_bytes_length n v : length (le_bytes n v) = n.
Proof. revert v. induction n; intros; simpl; auto. Qed.

Lemma le_bytes_ok n v : Forall byte_ok (le_bytes n v).
Proof.
  revert v. induction n; intros; simpl; constructor; [|done].
  unfold byte_ok. pose proof (Z.mod_pos_bound v 256). lia.
Qed.

Lemma pow256 n : 2 ^ (8 * Z.of_nat (S n)) = 256 * 2 ^ (8 * Z.of_nat n).
Proof.
  replace (8 * Z.of_nat (S n)) with (8 + 8 * Z.of_nat n) by lia.
  rewrite Z.pow_add_r by lia. done.
Qed.

Lemma le_value_bytes n v : fits (8 * Z.of_nat n) v -> le_value (le_bytes n v) = v.
Proof.
  revert v. induction n as [|n IH]; intros v [H0 H1]; simpl.
  - simpl in H1. lia.
  - rewrite pow256 in H1. rewrite IH.
    + rewrite (Z.div_mod v 256) at 3 by lia. lia.
    + split; [apply Z.div_pos; lia|]. apply Z.div_lt_upper_bound; lia.
Qed.

Lemma le_value_bound bs : Forall byte_ok bs -> fits (8 * Z.of_nat (length bs)) (le_value bs).
Proof.
  induction 1 as [|b bs Hb _ [IH0 IH1]].
  - split; simpl; lia.
  - unfold byte_ok in Hb. cbn [length le_value]. split; [lia|]. rewrite pow256. lia.
Qed.

Lemma le_bytes_value bs : Forall byte_ok bs -> le_bytes (length bs) (le_value bs) = bs.
Proof.
  induction 1 as [|b bs Hb _ IH]; [done|]. unfold byte_ok in Hb. cbn [length le_value le_bytes].
  rewrite (Z.mul_comm 256), Z.mod_add, Z.div_add, Z.mod_small, Z.div_small by lia.
  rewrite Z.add_0_l. by rewrite IH.
Qed.

Lemma bswap16_bytes v : fits 16 v -> bswap16 v = le_value (rev (le_bytes 2 v)).
Proof.
  intros [H0 H1]. unfold bswap16, wrap. simpl.
  rewrite Z.shiftr_div_pow2 by lia. change (2 ^ 8) with 256.
  assert (v / 256 < 256) by (apply Z.div_lt_upper_bound; lia).
  assert (0 <= v / 256) by (apply Z.div_pos; lia).
  rewrite (Z.mod_small (v / 256)) by lia.
  assert (Z.lor (Z.shiftl v 8) (v / 256) = Z.shiftl v 8 + v / 256) as ->.
  { symmetry. rewrite <- Z.add_lor_land.
    assert (Z.land (Z.shiftl v 8) (v / 256) = 0) as ->; [|lia].
    apply Z.bits_inj'. intros i Hi. rewrite Z.land_spec, Z.bits_0.
    destruct (Z.ltb_spec i 8).
    - by rewrite Z.shiftl_spec_low.
    - rewrite (proj2 (proj1 (fits_testbit 8 (v / 256) ltac:(lia)) ltac:(split; simpl; lia)) i)
        by lia. apply andb_false_r. }
  rewrite Z.shiftl_mul_pow2 by lia. change (2 ^ 8) with 256.
  rewrite (Z.div_mod v 256) at 1 by lia.
  set (q := v / 256) in *. set (r := v mod 256).
  assert (0 <= r < 256) by (apply Z.mod_pos_bound; lia).
  replace ((256 * q + r) * 256 + q) with (q + 256 * r + q * 65536) by lia.
  rewrite Z.mod_add by lia. rewrite Z.mod_small by (simpl; lia). lia.
Qed.

Lemma to_le_bytes w v : w ∈ [1; 2; 4; 8]%nat -> fits (8 * Z.of_nat w) v ->
  to_le false w v = le_value (rev (le_bytes w v)).
Proof.
  intros Hw Hv. repeat (apply elem_of_cons in Hw as [->|Hw]); [..|by apply elem_of_nil in Hw].
  - simpl. destruct Hv as [? Hv]. simpl in Hv. rewrite Z.mod_small by lia. lia.
  - by apply bswap16_bytes.
  - done.
  - done.
Qed.

Lemma to_le_image w v : w ∈ [1; 2; 4; 8]%nat -> fits (8 * Z.of_nat w) v ->
  le_bytes w (to_le false w v) = rev (le_bytes w v) /\ fits (8 * Z.of_nat w) (to_le false w v).
Proof.
  intros Hw Hv. rewrite to_le_bytes by done.
  assert (Forall byte_ok (rev (le_bytes w v))) as Hok
    by (apply Forall_rev, le_bytes_ok).
  assert (length (rev (le_bytes w v)) = w) as Hl by (by rewrite length_rev, le_bytes_length).
  split.
  - rewrite <- Hl at 1. by apply le_bytes_value.
  - rewrite <- Hl at 1. by apply le_value_bound.
Qed.

(** ** Stored fields *)

Definition fields_ok (ws : list nat) (vs : list Z) : Prop :=
  Forall2 (fun w v => fits (8 * Z.of_nat w) v) ws vs.

Lemma field_image_length h w v : length (field_image h w v) = w.
Proof. destruct h; simpl; rewrite ?length_rev, le_bytes_length; done. Qed.

Lemma field_load_image h w v : fits (8 * Z.of_nat w) v -> field_load h (field_image h w v) = v.
Proof. intros. destruct h; simpl; rewrite ?rev_involutive; by apply le_value_bytes. Qed.

Lemma store_fields_length h ws vs : fields_ok ws vs ->
  length (store_fields h ws vs) = sum_list ws.
Proof.
  induction 1; simpl; [done|]. by rewrite length_app, field_image_length, IHForall2.
Qed.

Lemma load_store_fields h ws vs : fields_ok ws vs ->
  load_fields h ws (store_fields h ws vs) = vs.
Proof.
  induction 1 as [|w v ws vs Hv Hvs IH]; [done|]. simpl.
  rewrite take_app_length' by (by rewrite field_image_length).
  rewrite drop_app_length' by (by rewrite field_image_length).
  by rewrite field_load_image, IH.
Qed.

Lemma load_fields_ok h ws bs : Forall byte_ok bs -> length bs = sum_list ws ->
  fields_ok ws (load_fields h ws bs).
Proof.
  revert bs. induction ws as [|w ws IH]; intros bs Hb Hl; [constructor|].
  simpl in *. constructor.
  - assert (length (take w bs) = w) as E by (rewrite length_take; lia).
    rewrite <- E at 1. destruct h; simpl.
    + by apply le_value_bound, Forall_take.
    + rewrite <- length_rev. by apply le_value_bound, Forall_rev, Forall_take.
  - apply IH; [by apply Forall_drop|]. rewrite length_drop. lia.
Qed.

Lemma store_swapped ws vs : Forall (fun n => n ∈ [1; 2; 4; 8]%nat) ws -> fields_ok ws vs ->
  store_fields false ws (zip_with (to_le false) ws vs) = store_fields true ws vs.
Proof.
  intros Hw Hv. induction Hv as [|w v ws vs Hv Hvs IH]; [done|].
  apply Forall_cons in Hw as [Hw Hws]. cbn [zip_with store_fields].
  rewrite IH by done. f_equal. unfold field_image.
  destruct (to_le_image w v Hw Hv) as [-> _]. apply rev_involutive.
Qed.

Lemma load_swapped ws bs : Forall (fun n => n ∈ [1; 2; 4; 8]%nat) ws ->
  Forall byte_ok bs -> length bs = sum_list ws ->
  zip_with (to_le false) ws (load_fields false ws bs) = load_fields true ws bs.
Proof.
  intros Hw. revert bs. induction Hw as [|w ws Hw Hws IH]; intros bs Hb Hl; [done|].
  simpl in Hl. cbn [zip_with load_fields field_load].
  assert (length (take w bs) = w) as E by (rewrite length_take; lia).
  pose proof (Forall_take _ w bs Hb) as Hbt.
  rewrite IH; [|by apply Forall_drop|rewrite length_drop; lia]. f_equal.
  assert (length (rev (take w bs)) = w) as Hl' by (by rewrite length_rev).
  assert (fits (8 * Z.of_nat w) (le_value (rev (take w bs)))) as Hf.
  { rewrite <- Hl' at 1. by apply le_value_bound, Forall_rev. }
  rewrite to_le_bytes by done. rewrite <- Hl' at 1.
  rewrite le_bytes_value by (by apply Forall_rev). by rewrite rev_involutive.
Qed.

Section MessageTheory.
Context `{WireMsg M}.

Definition msg_ok (m : M) : Prop := fields_ok msg_widths (msg_fields m).

Lemma encode_length h m : msg_ok m -> length (encode h m) = kWireMsgSize.
Proof.
  intros Hm. destruct h; simpl; unfold mem_image.
  - rewrite store_fields_length by done. apply msg_size.
  - rewrite msg_swap_fields, store_swapped by (apply msg_known_widths || done).
    rewrite store_fields_length by done. apply msg_size.
Qed.

Lemma encode_wire h m : msg_ok m -> encode h m = store_fields true msg_widths (msg_fields m).
Proof.
  intros Hm. destruct h; simpl; [done|]. unfold mem_image.
  rewrite msg_swap_fields. apply store_swapped; [apply msg_known_widths|done].
Qed.

Lemma decode_wire h bs out : Forall byte_ok bs -> length bs = kWireMsgSize ->
  decode h bs out =
  (let m := msg_of_fields (load_fields true msg_widths bs) in (msg_magic m =? kMagicVersion, m)).
Proof.
  intros Hb Hl. unfold decode. rewrite Hl. simpl.
  assert ((if h then mem_load h bs else msg_swap h (mem_load h bs)) =
          msg_of_fields (load_fields true msg_widths bs)) as ->; [|done].
  destruct h; [done|]. unfold mem_load.
  rewrite <- (msg_of_to (msg_swap _ _)), msg_swap_fields, msg_to_of, load_swapped;
    [done|apply msg_known_widths|done|by rewrite msg_size|].
  assert (forall l, length (load_fields false l bs) = length l) as E; [|by apply E].
  clear. intros l. revert bs. induction l; intros; simpl; [done|]. by rewrite IHl.
Qed.

Lemma encode_bytes h m : msg_ok m -> Forall byte_ok (encode h m).
Proof.
  intros Hm. rewrite encode_wire by done. clear -Hm. unfold msg_ok in Hm. induction Hm; simpl; [done|].
  apply Forall_app_2; [apply le_bytes_ok|done].
Qed.

Lemma decode_encode h h' m out : msg_ok m ->
  decode h' (encode h m) out = (msg_magic m =? kMagicVersion, m).
Proof.
  intros Hm. rewrite decode_wire by (by apply encode_bytes || apply encode_length).
  rewrite encode_wire, load_store_fields by done. simpl. by rewrite msg_of_to.
Qed.

Lemma decode_msg_ok h bs out : Forall byte_ok bs -> length bs = kWireMsgSize ->
  msg_ok (decode h bs out).2.
Proof.
  intros Hb Hl. rewrite decode_wire by done. simpl. unfold msg_ok. rewrite msg_to_of.
  - apply load_fields_ok; [done|by rewrite msg_size].
  - clear. generalize msg_widths. intros l. revert bs. induction l; intros; simpl; [done|]. by rewrite IHl.
Qed.
End MessageTheory.

(** C27: a message whose fields fit their widths encodes to exactly 64 bytes
    which do not depend on the byte order of the host, and decoding those
    bytes on a host of any byte order restores the message and reports success
    exactly when its magic is the current protocol version. *)
Theorem encode_decode_roundtrip `{WireMsg M} (m out : M) (h h' : bool) :
  msg_ok m ->
  length (encode h m) = kWireMsgSize /\ encode h m = encode true m /\
  decode h' (encode h m) out = (msg_magic m =? kMagicVersion, m).
Proof.
  intros Hm. split; [by apply encode_length|].
  split; [by rewrite !(encode_wire _ m)|by apply decode_encode].
Qed.

Definition sample_request : PolicyRequest :=
  mkRequest kMagicVersion 7 310260100003990 0 1234567890123 0 310260 4660 1 0 9 4 720
    100000 500000 0.

Lemma sample_request_ok : msg_ok sample_request.
Proof. repeat constructor; vm_compute; congruence. Qed.

Lemma encode_decode_roundtrip_witness :
  decode false (encode true sample_request) (request_of_fields []) = (true, sample_request).
Proof.
  exact (proj2 (proj2 (encode_decode_roundtrip sample_request (request_of_fields []) true false
           sample_request_ok))).
Defined.

(** [decode] accepts a datagram only if it is exactly 64 bytes and carries
    the protocol magic, and an accepted datagram is the encoding of the decoded
    message: no byte of an accepted datagram is ignored or invented. *)
Theorem decode_accepts_only_encodings `{WireMsg M} (h : bool) (bs : list Z) (out m : M) :
  Forall byte_ok bs -> decode h bs out = (true, m) ->
  length bs = kWireMsgSize /\ msg_magic m = kMagicVersion /\ msg_ok m /\ encode h m = bs.
Proof.
  intros Hb Hd. destruct (decide (length bs = kWireMsgSize)) as [Hl|Hl].
  2:{ unfold decode in Hd. apply Nat.eqb_neq in Hl. by rewrite Hl in Hd. }
  rewrite decode_wire in Hd by done. injection Hd as Hm <-.
  split; [done|]. split; [by apply Z.eqb_eq|].
  assert (Hlen : forall l, length (load_fields true l bs) = length l).
  { clear. intros l. revert bs. induction l; intros; simpl; [done|]. by rewrite IHl. }
  assert (Hok : fields_ok msg_widths (load_fields true msg_widths bs))
    by (apply load_fields_ok; [done|by rewrite msg_size]).
  assert (msg_ok (msg_of_fields (load_fields true msg_widths bs))) as Hmok
    by (unfold msg_ok; rewrite msg_to_of by apply Hlen; done).
  split; [done|]. rewrite encode_wire, msg_to_of by (apply Hlen || done).
  rewrite <- msg_size in Hl. clear -Hl Hb. revert bs Hl Hb.
  induction msg_widths as [|w ws IH]; intros bs Hl Hb; simpl in *; [by destruct bs|].
  rewrite IH by (try apply Forall_drop; rewrite ?length_drop; done || lia).
  assert (length (take w bs) = w) as E by (rewrite length_take; lia).
  rewrite <- E at 1. rewrite le_bytes_value by (by apply Forall_take). apply take_drop.
Qed.

Lemma decode_accepts_only_encodings_witness :
  length (encode true sample_request) = kWireMsgSize /\
  msg_magic sample_request = kMagicVersion /\ msg_ok sample_request /\
  encode true sample_request = encode true sample_request.
Proof.
  apply (decode_accepts_only_encodings true _ (request_of_fields []) sample_request).
  - apply Forall_forall. intros b Hb.
    assert (forallb (fun b => (0 <=? b) && (b <? 256)) (encode true sample_request) = true) as F
      by (vm_compute; reflexivity).
    rewrite forallb_forall in F. apply list_elem_of_In in Hb. specialize (F b Hb).
    unfold byte_ok. bool_to_prop. lia.
  - vm_compute. reflexivity.
Defined.
