(* ===== verification/Double.v ===== *)
(** * Double: IEEE-754 binary64 as the sources use it

    The service computes with [double] in three places: unit suffixes of the
    rules file, the load factor of the subscriber table and the percentile
    target of the histogram.  A finite double is its exact value [m * 2^e];
    each operation is the exact operation followed by rounding to 53 bits, to
    nearest, ties to even, with gradual underflow at [2^-1074] and overflow to
    infinity at [2^1024].  The sign of zero is not represented: no comparison
    or conversion of the sources observes it. *)

From S2P Require Import Prelude Text.
From Stdlib Require Import ZArith Lia Bool Ascii String.
From stdpp Require Import base list numbers strings.
Local Open Scope Z_scope.

Inductive double := DFin (m e : Z) | DInf (neg : bool) | DNaN.

(** Round [num/den] for positive [num], [den]. *)
Definition floor_log2_q (num den : Z) : Z :=
  let k := Z.log2 num - Z.log2 den in
  if den * 2 ^ Z.max k 0 <=? num * 2 ^ Z.max (- k) 0 then k else k - 1.

Definition round_exp (num den : Z) : Z := Z.max (floor_log2_q num den - 52) (-1074).

Definition round_div_even (num den : Z) : Z :=
  let q := num / den in
  let r := num mod den in
  if 2 * r <? den then q
  else if den <? 2 * r then q + 1
  else if Z.even q then q else q + 1.

Definition round_q (neg : bool) (num den : Z) : double :=
  if num =? 0 then DFin 0 0
  else
    let e := round_exp num den in
    let q := round_div_even (num * 2 ^ Z.max (- e) 0) (den * 2 ^ Z.max e 0) in
    if 2 ^ 1024 <=? q * 2 ^ Z.max e 0 then DInf neg
    else DFin (if neg then - q else q) e.

Definition dval_num (m e : Z) : Z := Z.abs m * 2 ^ Z.max e 0.
Definition dval_den (e : Z) : Z := 2 ^ Z.max (- e) 0.

Definition double_of_Z (z : Z) : double := round_q (z <? 0) (Z.abs z) 1.

Definition dmul (x y : double) : double :=
  match x, y with
  | DFin m1 e1, DFin m2 e2 =>
      round_q (m1 * m2 <? 0) (dval_num (m1 * m2) (e1 + e2)) (dval_den (e1 + e2))
  | DNaN, _ | _, DNaN => DNaN
  | DInf s, DFin m _ | DFin m _, DInf s => if m =? 0 then DNaN else DInf (xorb s (m <? 0))
  | DInf s, DInf t => DInf (xorb s t)
  end.

(** Division, for a finite non-zero divisor (the only use of the sources). *)
Definition ddiv (x y : double) : double :=
  match x, y with
  | DFin m1 e1, DFin m2 e2 =>
      if m2 =? 0 then DNaN
      else round_q (m1 * m2 <? 0)
             (Z.abs m1 * 2 ^ Z.max (e1 - e2) 0) (Z.abs m2 * 2 ^ Z.max (e2 - e1) 0)
  | DInf s, DFin m _ => DInf (xorb s (m <? 0))
  | _, _ => DNaN
  end.

Definition dadd (x y : double) : double :=
  match x, y with
  | DFin m1 e1, DFin m2 e2 =>
      let e := Z.min e1 e2 in
      let s := m1 * 2 ^ (e1 - e) + m2 * 2 ^ (e2 - e) in
      round_q (s <? 0) (dval_num s e) (dval_den e)
  | DInf s, DFin _ _ | DFin _ _, DInf s => DInf s
  | DInf s, DInf t => if Bool.eqb s t then DInf s else DNaN
  | _, _ => DNaN
  end.

(** [x < y] and [x <= y]; false when an operand is NaN. *)
Definition dltb (x y : double) : bool :=
  match x, y with
  | DFin m1 e1, DFin m2 e2 =>
      let e := Z.min e1 e2 in m1 * 2 ^ (e1 - e) <? m2 * 2 ^ (e2 - e)
  | DFin _ _, DInf s => negb s
  | DInf s, DFin _ _ => s
  | DInf s, DInf t => s && negb t
  | _, _ => false
  end.
Definition dleb (x y : double) : bool :=
  match x, y with
  | DNaN, _ | _, DNaN => false
  | _, _ => negb (dltb y x)
  end.

Definition is_finite (x : double) : bool := match x with DFin _ _ => true | _ => false end.

(** Conversion to an integer: truncation toward zero. *)
Definition dtrunc (x : double) : Z :=
  match x with
  | DFin m e => Z.quot (m * 2 ^ Z.max e 0) (2 ^ Z.max (- e) 0)
  | _ => 0
  end.
(** [std::ceil] followed by a conversion. *)
Definition dceil (x : double) : Z :=
  match x with
  | DFin m e => - ((- (m * 2 ^ Z.max e 0)) / 2 ^ Z.max (- e) 0)
  | _ => 0
  end.

(** A decimal literal of the sources, [m * 10^e]. *)
Definition dlit (m e : Z) : double :=
  round_q (m <? 0) (Z.abs m * 10 ^ Z.max e 0) (10 ^ Z.max (- e) 0).

(** ** [strtod] *)

Definition is_space (c : ascii) : bool :=
  Ascii.eqb c " " || ((9 <=? code c) && (code c <=? 13)).

Definition hex_digit (c : ascii) : option Z :=
  if is_digit c then Some (code c - 48)
  else let l := code (tolower c) in
       if (97 <=? l) && (l <=? 102) then Some (l - 87) else None.

Definition dec_digit (c : ascii) : option Z :=
  if is_digit c then Some (code c - 48) else None.

(** Longest run of digits of a base: value, number of digits, rest. *)
Fixpoint scan_digits (dig : ascii -> option Z) (base : Z) (s : string) (v n : Z)
  : Z * Z * string :=
  match s with
  | String c s' =>
      match dig c with
      | Some d => scan_digits dig base s' (v * base + d) (n + 1)
      | None => (v, n, s)
      end
  | EmptyString => (v, n, s)
  end.

Definition scan_sign (s : string) : bool * string :=
  match s with
  | String c s' =>
      if Ascii.eqb c "-" then (true, s') else if Ascii.eqb c "+" then (false, s') else (false, s)
  | EmptyString => (false, s)
  end.

(** Mantissa digits with an optional point: value, digits seen, digits after
    the point, rest. *)
Definition scan_mantissa (dig : ascii -> option Z) (base : Z) (s : string)
  : Z * Z * Z * string :=
  let '(v, n, r) := scan_digits dig base s 0 0 in
  match r with
  | String c r' =>
      if Ascii.eqb c "." then
        let '(v2, n2, r2) := scan_digits dig base r' v 0 in
        if n + n2 =? 0 then (v, n, 0, r) else (v2, n + n2, n2, r2)
      else (v, n, 0, r)
  | EmptyString => (v, n, 0, r)
  end.

(** An exponent part introduced by [mark], if it has at least one digit. *)
Definition scan_exponent (mark : ascii) (s : string) : Z * string :=
  match s with
  | String c s' =>
      if Ascii.eqb (tolower c) mark then
        let '(neg, r) := scan_sign s' in
        let '(v, n, r2) := scan_digits dec_digit 10 r 0 0 in
        if n =? 0 then (0, s) else (if neg then - v else v, r2)
      else (0, s)
  | EmptyString => (0, s)
  end.

(** [None] is [end == begin].  "inf" and "nan" are recognised as such; their
    tails do not matter to the caller, which rejects non-finite values. *)
Definition strtod (s0 : string) : option (double * string) :=
  let '(neg, s) := scan_sign (drop_while is_space s0) in
  let low := string_map tolower (str_take 3 s) in
  if String.eqb low "inf" then Some (DInf neg, str_drop 3 s)
  else if String.eqb low "nan" then Some (DNaN, str_drop 3 s)
  else
    let dec :=
      let '(m, n, frac, r) := scan_mantissa dec_digit 10 s in
      if n =? 0 then None
      else let '(x, r2) := scan_exponent "e" r in
           let e := x - frac in
           Some (round_q neg (m * 10 ^ Z.max e 0) (10 ^ Z.max (- e) 0), r2) in
    if String.eqb (str_take 2 low) "0x" then
      let '(m, n, frac, r) := scan_mantissa hex_digit 16 (str_drop 2 s) in
      if n =? 0 then dec
      else let '(x, r2) := scan_exponent "p" r in
           let e := x - 4 * frac in
           Some (round_q neg (m * 2 ^ Z.max e 0) (2 ^ Z.max (- e) 0), r2)
    else dec.

(** ** Exactness

    [x * 2^k] against [y] for a possibly negative [k] is stated after scaling
    both sides by a large enough [2^N]. *)

Lemma pow2_pos n : 0 <= n -> 0 < 2 ^ n.
Proof. intros. apply Z.pow_pos_nonneg; lia. Qed.

Lemma scale_split k N : 0 <= N -> 0 <= k + N ->
  2 ^ (k + N) = 2 ^ Z.max k 0 * 2 ^ (N - Z.max (- k) 0) /\
  2 ^ N = 2 ^ Z.max (- k) 0 * 2 ^ (N - Z.max (- k) 0).
Proof.
  intros HN HkN. rewrite <- !Z.pow_add_r by lia. split; f_equal; lia.
Qed.

Lemma scale_le x y k N : 0 <= N -> 0 <= k + N ->
  x * 2 ^ Z.max k 0 <= y * 2 ^ Z.max (- k) 0 <-> x * 2 ^ (k + N) <= y * 2 ^ N.
Proof.
  intros HN HkN. destruct (scale_split k N HN HkN) as [-> ->].
  pose proof (pow2_pos (N - Z.max (- k) 0) ltac:(lia)).
  rewrite !Z.mul_assoc. by apply Z.mul_le_mono_pos_r.
Qed.

Lemma scale_eq x y k N : 0 <= N -> 0 <= k + N ->
  x * 2 ^ Z.max k 0 = y * 2 ^ Z.max (- k) 0 <-> x * 2 ^ (k + N) = y * 2 ^ N.
Proof.
  intros HN HkN. destruct (scale_split k N HN HkN) as [-> ->].
  pose proof (pow2_pos (N - Z.max (- k) 0) ltac:(lia)).
  rewrite !Z.mul_assoc. split; [congruence|]. apply Z.mul_reg_r. lia.
Qed.

(** [num/den] is exactly [c * 2^t]. *)
Definition ratio (num den c t : Z) : Prop :=
  forall N, 0 <= N -> 0 <= t + N -> num * 2 ^ N = den * c * 2 ^ (t + N).

Lemma ratio_intro num den c t N : 0 <= N -> 0 <= t + N ->
  num * 2 ^ N = den * c * 2 ^ (t + N) -> ratio num den c t.
Proof.
  intros HN HtN E N' HN' HtN'. symmetry. apply scale_eq; [done..|].
  apply (scale_eq _ _ t N); done.
Qed.

Lemma floor_log2_q_exact num den c t : 0 < num -> 0 < den -> 0 < c ->
  ratio num den c t -> floor_log2_q num den = Z.log2 c + t.
Proof.
  intros Hn Hd Hc R. unfold floor_log2_q.
  set (k := Z.log2 num - Z.log2 den). set (N := Z.abs t + Z.abs k + 2).
  assert (0 <= N /\ 0 <= t + N /\ 0 <= k + N) as (HN & HtN & HkN) by lia.
  specialize (R N HN HtN).
  pose proof (Z.log2_spec num Hn). pose proof (Z.log2_spec den Hd).
  pose proof (Z.log2_spec c Hc). pose proof (Z.log2_nonneg c).
  pose proof (Z.log2_nonneg num). pose proof (Z.log2_nonneg den).
  assert (Z.log2 (num * 2 ^ N) = Z.log2 num + N) as L1
    by (rewrite Z.log2_mul_pow2 by lia; lia).
  assert (Z.log2 (den * c * 2 ^ (t + N)) = Z.log2 (den * c) + (t + N)) as L2
    by (rewrite Z.log2_mul_pow2 by nia; lia).
  rewrite R, L2 in L1.
  pose proof (Z.log2_mul_below den c ltac:(lia) ltac:(lia)).
  pose proof (Z.log2_mul_above den c ltac:(lia) ltac:(lia)).
  assert (k = Z.log2 c + t \/ k = Z.log2 c + t + 1) as Hk by lia.
  destruct (Z.leb_spec (den * 2 ^ Z.max k 0) (num * 2 ^ Z.max (- k) 0)) as [Hle|Hgt].
  - destruct Hk as [?|Hk]; [lia|]. exfalso.
    apply (scale_le den num k N) in Hle; [|done..]. rewrite R, Hk in Hle.
    replace (Z.log2 c + t + 1 + N) with (Z.succ (Z.log2 c) + (t + N)) in Hle by lia.
    rewrite Z.pow_add_r in Hle by lia.
    pose proof (pow2_pos (t + N) ltac:(lia)).
    assert (den * c * 2 ^ (t + N) < den * 2 ^ Z.succ (Z.log2 c) * 2 ^ (t + N)); [|lia].
    apply Z.mul_lt_mono_pos_r; [done|]. apply Z.mul_lt_mono_pos_l; lia.
  - destruct Hk as [Hk|?]; [|lia]. exfalso.
    apply Z.lt_nge in Hgt. apply Hgt. apply (scale_le den num k N); [done..|].
    rewrite R, Hk. replace (Z.log2 c + t + N) with (Z.log2 c + (t + N)) by lia.
    rewrite Z.pow_add_r by lia. pose proof (pow2_pos (t + N) ltac:(lia)).
    rewrite Z.mul_assoc. apply Z.mul_le_mono_nonneg_r; [lia|].
    apply Z.mul_le_mono_nonneg_l; lia.
Qed.

Lemma round_div_even_exact d q : 0 < d -> round_div_even (q * d) d = q.
Proof.
  intros. unfold round_div_even. rewrite Z.div_mul, Z.mod_mul by lia.
  destruct (Z.ltb_spec (2 * 0) d); lia.
Qed.

(** The double [x] has the exact value [c * 2^t]. *)
Definition dval (x : double) (c t : Z) : Prop :=
  exists m e, x = DFin m e /\
    forall N, 0 <= e + N -> 0 <= t + N -> m * 2 ^ (e + N) = c * 2 ^ (t + N).

Lemma round_q_exact num den c t : 0 <= num -> 0 < den -> 0 <= c < 2 ^ 53 ->
  -1074 <= t <= 971 -> ratio num den c t -> dval (round_q false num den) c t.
Proof.
  intros Hn Hd Hc Ht R. unfold round_q. destruct (Z.eqb_spec num 0) as [->|Hn0].
  { exists 0, 0. split; [done|]. intros N HN HtN.
    pose proof (R (Z.max 0 (- t)) ltac:(lia) ltac:(lia)) as E.
    pose proof (pow2_pos (t + Z.max 0 (- t)) ltac:(lia)).
    assert (den * c = 0) as [?| ->]%Z.mul_eq_0 by nia; lia. }
  assert (0 < c) as Hc0.
  { destruct (decide (c = 0)) as [->|]; [|lia].
    pose proof (R (Z.max 0 (- t)) ltac:(lia) ltac:(lia)) as E.
    pose proof (pow2_pos (Z.max 0 (- t)) ltac:(lia)). nia. }
  assert (Z.log2 c <= 52) as Hl
    by (apply Z.lt_succ_r, Z.log2_lt_pow2; simpl; lia).
  unfold round_exp. rewrite (floor_log2_q_exact num den c t) by (done || lia).
  set (e := Z.max (Z.log2 c + t - 52) (-1074)).
  pose proof (Z.log2_nonneg c). assert (e <= t) as He by lia.
  assert (num * 2 ^ Z.max (- e) 0 = c * 2 ^ (t - e) * (den * 2 ^ Z.max e 0)) as E.
  { set (N := Z.abs t + Z.abs e). specialize (R N ltac:(lia) ltac:(lia)).
    rewrite Z.mul_assoc, (Z.mul_comm _ den), Z.mul_assoc. symmetry.
    apply (scale_eq _ _ e N); [lia..|]. rewrite R.
    rewrite <- (Z.mul_assoc (den * c)), <- Z.pow_add_r by lia. do 2 f_equal. lia. }
  rewrite E. pose proof (pow2_pos (Z.max e 0) ltac:(lia)).
  rewrite round_div_even_exact by nia.
  assert (c * 2 ^ (t - e) < 2 ^ 53) as Hq.
  { pose proof (Z.log2_spec c Hc0). pose proof (pow2_pos (t - e) ltac:(lia)).
    apply Z.lt_le_trans with (2 ^ Z.succ (Z.log2 c) * 2 ^ (t - e)); [nia|].
    rewrite <- Z.pow_add_r by lia. apply Z.pow_le_mono_r; lia. }
  destruct (Z.leb_spec (2 ^ 1024) (c * 2 ^ (t - e) * 2 ^ Z.max e 0)) as [Ho|_].
  { exfalso. assert (2 ^ 53 * 2 ^ Z.max e 0 <= 2 ^ 1024); [|nia].
    rewrite <- Z.pow_add_r by lia. apply Z.pow_le_mono_r; lia. }
  exists (c * 2 ^ (t - e)), e. split; [done|]. intros N HN HtN.
  rewrite <- Z.mul_assoc, <- Z.pow_add_r by lia. do 2 f_equal. lia.
Qed.

Lemma double_of_Z_exact n : 0 <= n < 2 ^ 53 -> dval (double_of_Z n) n 0.
Proof.
  intros Hn. unfold double_of_Z. destruct (Z.ltb_spec n 0); [lia|].
  rewrite Z.abs_eq by lia. apply round_q_exact; [lia..|].
  apply (ratio_intro _ _ _ _ 0); lia.
Qed.

Lemma double_of_pow2_exact k : 0 <= k <= 971 -> dval (double_of_Z (2 ^ k)) 1 k.
Proof.
  intros Hk. unfold double_of_Z. pose proof (pow2_pos k ltac:(lia)).
  destruct (Z.ltb_spec (2 ^ k) 0); [lia|].
  rewrite Z.abs_eq by lia. apply round_q_exact; [lia..|].
  apply (ratio_intro _ _ _ _ 0); [lia..|]. rewrite !Z.add_0_r. lia.
Qed.

(** Multiplication is exact when the exact product is representable. *)
Lemma dmul_exact x y c1 t1 c2 t2 c s : dval x c1 t1 -> dval y c2 t2 ->
  0 <= c1 -> 0 <= c2 -> 0 <= s -> c1 * c2 = c * 2 ^ s -> 0 <= c < 2 ^ 53 ->
  -1074 <= t1 + t2 + s <= 971 -> dval (dmul x y) c (t1 + t2 + s).
Proof.
  intros (m1 & e1 & -> & E1) (m2 & e2 & -> & E2) Hc1 Hc2 Hs Hc Hb Ht. simpl.
  set (N1 := Z.abs e1 + Z.abs t1). set (N2 := Z.abs e2 + Z.abs t2).
  assert (0 <= m1) as H1.
  { specialize (E1 N1 ltac:(lia) ltac:(lia)).
    pose proof (pow2_pos (e1 + N1) ltac:(lia)). pose proof (pow2_pos (t1 + N1) ltac:(lia)). nia. }
  assert (0 <= m2) as H2.
  { specialize (E2 N2 ltac:(lia) ltac:(lia)).
    pose proof (pow2_pos (e2 + N2) ltac:(lia)). pose proof (pow2_pos (t2 + N2) ltac:(lia)). nia. }
  destruct (Z.ltb_spec (m1 * m2) 0); [nia|].
  unfold dval_num, dval_den. rewrite Z.abs_eq by done.
  apply round_q_exact; [|apply pow2_pos; lia|done|done|].
  { pose proof (pow2_pos (Z.max (e1 + e2) 0) ltac:(lia)). nia. }
  apply (ratio_intro _ _ _ _ (N1 + N2)); [lia..|].
  assert (m1 * m2 * 2 ^ (e1 + e2 + (N1 + N2)) = c * 2 ^ (t1 + t2 + s + (N1 + N2))) as E.
  { specialize (E1 N1 ltac:(lia) ltac:(lia)). specialize (E2 N2 ltac:(lia) ltac:(lia)).
    replace (e1 + e2 + (N1 + N2)) with ((e1 + N1) + (e2 + N2)) by lia.
    replace (t1 + t2 + s + (N1 + N2)) with (s + ((t1 + N1) + (t2 + N2))) by lia.
    rewrite (Z.pow_add_r 2 s), (Z.pow_add_r 2 (e1 + N1)), (Z.pow_add_r 2 (t1 + N1)) by lia.
    rewrite (Z.mul_assoc c), <- Hc.
    transitivity ((m1 * 2 ^ (e1 + N1)) * (m2 * 2 ^ (e2 + N2))); [ring|].
    rewrite E1, E2. ring. }
  destruct (scale_split (e1 + e2) (N1 + N2) ltac:(lia) ltac:(lia)) as [E3 E4].
  rewrite E3 in E. rewrite E4, <- (Z.mul_assoc _ c), <- E. ring.
Qed.

Lemma dltb_exact x y c1 t1 c2 t2 N : dval x c1 t1 -> dval y c2 t2 ->
  0 <= t1 + N -> 0 <= t2 + N -> dltb x y = (c1 * 2 ^ (t1 + N) <? c2 * 2 ^ (t2 + N)).
Proof.
  intros (m1 & e1 & -> & E1) (m2 & e2 & -> & E2) H1 H2. unfold dltb.
  set (e := Z.min e1 e2). set (K := Z.abs N + Z.abs e1 + Z.abs e2).
  assert (forall m d, 0 <= d - e -> m * 2 ^ (d + K) = m * 2 ^ (d - e) * 2 ^ (e + K)) as D.
  { intros m d Hd. rewrite <- Z.mul_assoc, <- Z.pow_add_r by lia. do 2 f_equal. lia. }
  assert (forall c t, 0 <= t + N -> c * 2 ^ (t + K) = c * 2 ^ (t + N) * 2 ^ (K - N)) as T.
  { intros c t Hd. rewrite <- Z.mul_assoc, <- Z.pow_add_r by lia. do 2 f_equal. lia. }
  specialize (E1 K ltac:(lia) ltac:(lia)). specialize (E2 K ltac:(lia) ltac:(lia)).
  rewrite (D m1 e1), (T c1 t1) in E1 by lia. rewrite (D m2 e2), (T c2 t2) in E2 by lia.
  pose proof (pow2_pos (e + K) ltac:(lia)). pose proof (pow2_pos (K - N) ltac:(lia)).
  apply eq_true_iff_eq. rewrite !Z.ltb_lt.
  rewrite (Z.mul_lt_mono_pos_r (2 ^ (e + K)) (m1 * _)) by done.
  rewrite E1, E2. symmetry. by apply Z.mul_lt_mono_pos_r.
Qed.

Lemma dtrunc_exact x c t : dval x c t -> 0 <= c -> 0 <= t -> dtrunc x = c * 2 ^ t.
Proof.
  intros (m & e & -> & E) Hc Ht. simpl.
  pose proof (E (Z.max (- e) 0) ltac:(lia) ltac:(lia)) as E0.
  replace (e + Z.max (- e) 0) with (Z.max e 0) in E0 by lia.
  rewrite Z.pow_add_r, Z.mul_assoc in E0 by lia. rewrite E0.
  apply Z.quot_mul. pose proof (pow2_pos (Z.max (- e) 0)). lia.
Qed.

Lemma dval_refl m e : dval (DFin m e) m e.
Proof. exists m, e. done. Qed.

(** Rounding to double moves a quotient of at most [2^52] by at most one. *)
Lemma round_q_dceil num den K : 0 < num -> 0 <= K <= 2 ^ 52 -> 0 < den -> num <= den * K ->
  0 <= dceil (round_q false num den) <= K + 1.
Proof.
  intros Hn HK Hd Hle. unfold round_q. destruct (Z.eqb_spec num 0); [lia|].
  set (e := round_exp num den).
  assert (e <= 0) as He.
  { unfold e, round_exp, floor_log2_q. assert (num <= den * 2 ^ 52) as Hle2 by nia.
    pose proof (Z.log2_le_mono _ _ Hle2) as Hl.
    rewrite Z.log2_mul_pow2 in Hl by lia. case_match; lia. }
  rewrite (Z.max_r e 0), (Z.max_l (- e) 0), Z.pow_0_r, !Z.mul_1_r by lia.
  pose proof (pow2_pos (- e) ltac:(lia)) as Hp. set (P := 2 ^ (- e)) in *.
  assert (0 <= round_div_even (num * P) den <= K * P + 1) as Hq.
  { unfold round_div_even.
    assert (0 <= num * P / den <= K * P); [|by repeat case_match; lia].
    split; [apply Z.div_pos; nia|]. apply Z.div_le_upper_bound; nia. }
  destruct (_ <=? _); [simpl; lia|]. cbn [dceil].
  rewrite (Z.max_r e 0), (Z.max_l (- e) 0), Z.pow_0_r, Z.mul_1_r by lia. fold P.
  set (q := round_div_even (num * P) den) in *.
  assert (- (K + 1) <= - q / P <= 0); [|lia].
  split; [apply Z.div_le_lower_bound; nia|]. apply Z.div_le_upper_bound; nia.
Qed.
