(* ===== verification/DoubleBounds.v ===== *)
(** * DoubleBounds: upper bounds of floating-point expressions

    Rounding to nearest is monotone, so a non-negative expression whose exact value is
    at most a representable number is at most that number after rounding too. *)

From S2P Require Import Prelude Text Double.
From Stdlib Require Import ZArith Lia Bool.
From stdpp Require Import base list numbers.
Local Open Scope Z_scope.

(** [x] is finite, not negative and at most [c * 2^t]. *)
Definition dwithin (x : double) (c t : Z) : Prop :=
  exists m e, x = DFin m e /\ 0 <= m /\
    forall N, 0 <= e + N -> 0 <= t + N -> m * 2 ^ (e + N) <= c * 2 ^ (t + N).

(** Comparisons of scaled numbers do not depend on the scale. *)
Lemma rescale_le x y a b N N' : 0 <= a + N -> 0 <= b + N -> 0 <= a + N' -> 0 <= b + N' ->
  x * 2 ^ (a + N) <= y * 2 ^ (b + N) -> x * 2 ^ (a + N') <= y * 2 ^ (b + N').
Proof.
  intros H1 H2 H3 H4 H. set (K := Z.abs N + Z.abs N').
  assert (forall z d M, 0 <= d + M -> M <= K -> z * 2 ^ (d + K) = z * 2 ^ (d + M) * 2 ^ (K - M)) as D.
  { intros z d M Hd Hm. rewrite <- Z.mul_assoc, <- Z.pow_add_r by lia. do 2 f_equal. lia. }
  pose proof (pow2_pos (K - N) ltac:(lia)). pose proof (pow2_pos (K - N') ltac:(lia)).
  apply (Z.mul_le_mono_pos_r _ _ (2 ^ (K - N'))); [done|].
  rewrite <- !D by lia. rewrite (D x a N), (D y b N) by lia. by apply Z.mul_le_mono_nonneg_r; [lia|].
Qed.

Lemma dwithin_intro m e c t N : 0 <= m -> 0 <= e + N -> 0 <= t + N ->
  m * 2 ^ (e + N) <= c * 2 ^ (t + N) -> dwithin (DFin m e) c t.
Proof. intros Hm H1 H2 H. exists m, e. split; [done|]. split; [done|]. intros N' ? ?. by apply (rescale_le _ _ _ _ N). Qed.

Lemma floor_log2_q_le num den : 0 < num -> 0 < den ->
  forall N, 0 <= N -> 0 <= floor_log2_q num den + N -> den * 2 ^ (floor_log2_q num den + N) <= num * 2 ^ N.
Proof.
  intros Hn Hd N HN HL. unfold floor_log2_q in *. set (k := Z.log2 num - Z.log2 den) in *.
  destruct (Z.leb_spec (den * 2 ^ Z.max k 0) (num * 2 ^ Z.max (- k) 0)) as [Hle|_]; [by apply (scale_le _ _ k N) in Hle|].
  pose proof (Z.log2_spec num Hn). pose proof (Z.log2_spec den Hd). pose proof (Z.log2_nonneg den).
  pose proof (Z.log2_nonneg num).
  apply Z.le_trans with (2 ^ Z.succ (Z.log2 den) * 2 ^ (k - 1 + N)).
  { apply Z.mul_le_mono_nonneg_r; [apply Z.pow_nonneg; lia|lia]. }
  rewrite <- Z.pow_add_r by lia. replace (Z.succ (Z.log2 den) + (k - 1 + N)) with (Z.log2 num + N) by lia.
  rewrite Z.pow_add_r by lia. apply Z.mul_le_mono_nonneg_r; [apply Z.pow_nonneg; lia|lia].
Qed.

Lemma floor_log2_q_lt num den : 0 < num -> 0 < den ->
  forall N, 0 <= N -> 0 <= floor_log2_q num den + N -> num * 2 ^ N < den * 2 ^ (floor_log2_q num den + 1 + N).
Proof.
  intros Hn Hd N HN HL. unfold floor_log2_q in *. set (k := Z.log2 num - Z.log2 den) in *.
  destruct (Z.leb_spec (den * 2 ^ Z.max k 0) (num * 2 ^ Z.max (- k) 0)) as [_|Hgt].
  2: { apply Z.nle_gt. intros H. apply Z.lt_nge in Hgt. apply Hgt. apply (scale_le _ _ k N); [lia..|].
       by replace (k - 1 + 1 + N) with (k + N) in H by lia. }
  pose proof (Z.log2_spec num Hn). pose proof (Z.log2_spec den Hd). pose proof (Z.log2_nonneg den).
  pose proof (Z.log2_nonneg num). pose proof (pow2_pos N HN). pose proof (pow2_pos (k + 1 + N) ltac:(lia)).
  apply Z.lt_le_trans with (2 ^ Z.succ (Z.log2 num) * 2 ^ N); [nia|].
  rewrite <- Z.pow_add_r by lia. replace (Z.succ (Z.log2 num) + N) with (Z.log2 den + (k + 1 + N)) by lia.
  rewrite Z.pow_add_r by lia. nia.
Qed.

Lemma round_div_even_le a d B : 0 < d -> 0 <= a <= d * B -> 0 <= round_div_even a d <= B.
Proof.
  intros Hd Ha. unfold round_div_even. pose proof (Z.div_mod a d ltac:(lia)) as E.
  pose proof (Z.mod_pos_bound a d Hd). pose proof (Z.div_pos a d ltac:(lia) Hd).
  destruct (Z.ltb_spec (2 * (a mod d)) d); [nia|]. destruct (_ <? _); [nia|]. case_match; nia.
Qed.

Lemma round_q_within num den c t : 0 <= num -> 0 < den -> 0 <= c < 2 ^ 53 -> -1074 <= t <= 971 ->
  (forall N, 0 <= N -> 0 <= t + N -> num * 2 ^ N <= den * c * 2 ^ (t + N)) -> dwithin (round_q false num den) c t.
Proof.
  intros Hn Hd Hc Ht R. unfold round_q. destruct (Z.eqb_spec num 0) as [->|Hn0].
  { exists 0, 0. split; [done|]. split; [done|]. intros N _ HN. rewrite Z.mul_0_l. apply Z.mul_nonneg_nonneg; [lia|].
    apply Z.pow_nonneg. lia. }
  set (e := round_exp num den). set (L := floor_log2_q num den). set (M := Z.abs t + Z.abs L + Z.abs e).
  pose proof (floor_log2_q_le num den ltac:(lia) Hd M ltac:(lia) ltac:(lia)) as HL. fold L in HL.
  specialize (R M ltac:(lia) ltac:(lia)). pose proof (pow2_pos (t + M) ltac:(lia)) as HtM.
  assert (2 ^ (L + M) <= c * 2 ^ (t + M)) as HLc by nia.
  assert (0 < c) as Hc0 by (pose proof (pow2_pos (L + M) ltac:(lia)); nia).
  assert (L <= Z.log2 c + t) as Hlog.
  { apply Z.log2_le_mono in HLc. rewrite Z.log2_pow2, Z.log2_mul_pow2 in HLc by lia. lia. }
  assert (Z.log2 c <= 52) as Hl by (apply Z.lt_succ_r, Z.log2_lt_pow2; simpl; lia).
  assert (e <= t) as He by (unfold e, round_exp; fold L; lia).
  assert (num * 2 ^ Z.max (- e) 0 <= den * 2 ^ Z.max e 0 * (c * 2 ^ (t - e))) as Hb.
  { replace (den * 2 ^ Z.max e 0 * (c * 2 ^ (t - e))) with (den * c * 2 ^ (t - e) * 2 ^ Z.max (- - e) 0)
      by (rewrite Z.opp_involutive; ring).
    apply (scale_le _ _ (- e) (M + e)); [lia..|]. rewrite <- Z.mul_assoc, <- Z.pow_add_r by lia.
    replace (- e + (M + e)) with M by lia. by replace (t - e + (M + e)) with (t + M) by lia. }
  pose proof (pow2_pos (Z.max e 0) ltac:(lia)) as Pe. pose proof (pow2_pos (Z.max (- e) 0) ltac:(lia)) as Pn.
  assert (0 < den * 2 ^ Z.max e 0) as Pd by nia. assert (0 <= num * 2 ^ Z.max (- e) 0) as Pnum by nia.
  pose proof (round_div_even_le _ _ _ Pd (conj Pnum Hb)) as [Hq0 Hq].
  assert (round_div_even (num * 2 ^ Z.max (- e) 0) (den * 2 ^ Z.max e 0) <= 2 ^ 53) as Hq53.
  { apply round_div_even_le; [done|]. split; [done|].
    pose proof (floor_log2_q_lt num den ltac:(lia) Hd M ltac:(lia) ltac:(lia)) as HU. fold L in HU.
    replace (den * 2 ^ Z.max e 0 * 2 ^ 53) with (den * 2 ^ 53 * 2 ^ Z.max (- - e) 0)
      by (rewrite Z.opp_involutive; ring).
    apply (scale_le _ _ (- e) (M + e)); [lia..|]. rewrite <- Z.mul_assoc, <- Z.pow_add_r by lia.
    replace (- e + (M + e)) with M by lia. apply Z.lt_le_incl. eapply Z.lt_le_trans; [exact HU|].
    apply Z.mul_le_mono_nonneg_l; [lia|]. apply Z.pow_le_mono_r; [lia|]. unfold e, round_exp. fold L. lia. }
  set (q := round_div_even _ _) in *.
  destruct (Z.leb_spec (2 ^ 1024) (q * 2 ^ Z.max e 0)) as [Ho|_].
  { exfalso. apply Z.le_ngt in Ho. apply Ho. destruct (Z.le_ge_cases 0 e) as [Hp|Hp].
    - rewrite Z.max_l by done. apply Z.le_lt_trans with (c * 2 ^ (t - e) * 2 ^ e).
      + apply Z.mul_le_mono_nonneg_r; [apply Z.pow_nonneg; lia|done].
      + rewrite <- Z.mul_assoc, <- Z.pow_add_r by lia. replace (t - e + e) with t by lia.
        apply Z.lt_le_trans with (2 ^ 53 * 2 ^ t); [apply Z.mul_lt_mono_pos_r; [apply pow2_pos|]; lia|].
        rewrite <- Z.pow_add_r by lia. apply Z.pow_le_mono_r; lia.
    - rewrite Z.max_r, Z.pow_0_r, Z.mul_1_r by done. eapply Z.le_lt_trans; [exact Hq53|]. apply Z.pow_lt_mono_r; lia. }
  apply (dwithin_intro _ _ _ _ M); [done|lia..|]. replace (t + M) with (t - e + (e + M)) by lia.
  rewrite (Z.pow_add_r 2 (t - e)), Z.mul_assoc by lia. apply Z.mul_le_mono_nonneg_r; [apply Z.pow_nonneg; lia|done].
Qed.

(** The rules for expressions. *)
Lemma dwithin_weaken x c t c' t' N : 0 <= t + N -> 0 <= t' + N -> c * 2 ^ (t + N) <= c' * 2 ^ (t' + N) ->
  dwithin x c t -> dwithin x c' t'.
Proof.
  intros H1 H2 Hle (m & e & -> & Hm & H). set (K := Z.abs N + Z.abs e + Z.abs t + Z.abs t').
  apply (dwithin_intro _ _ _ _ K); [done|lia..|]. eapply Z.le_trans; [apply H; lia|]. by apply (rescale_le _ _ _ _ N); lia.
Qed.

Lemma dval_within x c t : 0 <= c -> dval x c t -> dwithin x c t.
Proof.
  intros Hc (m & e & -> & H). set (K := Z.abs e + Z.abs t). specialize (H K ltac:(lia) ltac:(lia)) as E.
  apply (dwithin_intro _ _ _ _ K); [|lia..]. pose proof (pow2_pos (e + K) ltac:(lia)).
  pose proof (pow2_pos (t + K) ltac:(lia)). nia.
Qed.

Lemma dlit_within n : 0 <= n < 2 ^ 53 -> dwithin (dlit n 0) n 0.
Proof.
  intros Hn. unfold dlit. destruct (Z.ltb_spec n 0); [lia|]. apply round_q_within; [simpl; lia..|].
  intros N H1 H2. rewrite Z.abs_eq by lia. change (10 ^ Z.max 0 0) with 1. change (10 ^ Z.max (-0) 0) with 1.
  by rewrite Z.mul_1_r, Z.mul_1_l, Z.add_0_l.
Qed.

Lemma double_of_Z_within n k : 0 <= n <= 2 ^ k -> 0 <= k <= 971 -> dwithin (double_of_Z n) 1 k.
Proof.
  intros Hn Hk. unfold double_of_Z. destruct (Z.ltb_spec n 0); [lia|]. apply round_q_within; [lia..|].
  intros N H1 H2. rewrite Z.abs_eq, Z.pow_add_r by lia. pose proof (pow2_pos N H1). nia.
Qed.

Lemma scale_split_le x y k t K N : 0 <= K -> 0 <= k + K -> 0 <= t + K -> 0 <= N -> 0 <= t + N ->
  x * 2 ^ (k + K) <= y * 2 ^ (t + K) -> x * 2 ^ Z.max k 0 * 2 ^ N <= 2 ^ Z.max (- k) 0 * y * 2 ^ (t + N).
Proof.
  intros HK HkK HtK HN HtN E. destruct (scale_split k K HK HkK) as [Ek EK].
  pose proof (pow2_pos (K - Z.max (- k) 0) ltac:(lia)) as P. pose proof (pow2_pos K HK) as PK.
  apply (Z.mul_le_mono_pos_r _ _ (2 ^ (K - Z.max (- k) 0))); [done|].
  transitivity (x * 2 ^ (k + K) * 2 ^ N); [rewrite Ek; lia|].
  transitivity (y * 2 ^ (t + N) * 2 ^ K); [|rewrite EK; lia].
  apply Z.le_trans with (y * 2 ^ (t + K) * 2 ^ N); [apply Z.mul_le_mono_nonneg_r; [apply Z.pow_nonneg; lia|done]|].
  rewrite <- !Z.mul_assoc, <- !Z.pow_add_r by lia. replace (t + N + K) with (t + K + N) by lia. done.
Qed.

Lemma dmul_within x y c1 t1 c2 t2 : dwithin x c1 t1 -> dwithin y c2 t2 -> 0 <= c1 -> 0 <= c2 -> c1 * c2 < 2 ^ 53 ->
  -1074 <= t1 + t2 <= 971 -> dwithin (dmul x y) (c1 * c2) (t1 + t2).
Proof.
  intros (m1 & e1 & -> & H1 & B1) (m2 & e2 & -> & H2 & B2) Hc1 Hc2 Hc Ht. simpl.
  destruct (Z.ltb_spec (m1 * m2) 0); [nia|]. unfold dval_num, dval_den. rewrite Z.abs_eq by nia.
  apply round_q_within; [apply Z.mul_nonneg_nonneg; [nia|apply Z.pow_nonneg; lia]|apply pow2_pos; lia|nia|done|].
  intros N HN HtN. set (K1 := Z.abs e1 + Z.abs t1). set (K2 := Z.abs e2 + Z.abs t2).
  assert (m1 * m2 * 2 ^ (e1 + e2 + (K1 + K2)) <= c1 * c2 * 2 ^ (t1 + t2 + (K1 + K2))) as E.
  { specialize (B1 K1 ltac:(lia) ltac:(lia)). specialize (B2 K2 ltac:(lia) ltac:(lia)).
    replace (e1 + e2 + (K1 + K2)) with ((e1 + K1) + (e2 + K2)) by lia.
    replace (t1 + t2 + (K1 + K2)) with ((t1 + K1) + (t2 + K2)) by lia.
    rewrite (Z.pow_add_r 2 (e1 + K1)), (Z.pow_add_r 2 (t1 + K1)) by lia.
    pose proof (pow2_pos (e1 + K1) ltac:(lia)). pose proof (pow2_pos (e2 + K2) ltac:(lia)).
    transitivity ((m1 * 2 ^ (e1 + K1)) * (m2 * 2 ^ (e2 + K2))); [apply Z.eq_le_incl; ring|].
    transitivity ((c1 * 2 ^ (t1 + K1)) * (c2 * 2 ^ (t2 + K2))); [|apply Z.eq_le_incl; ring].
    apply Z.mul_le_mono_nonneg; [|done| |done]; apply Z.mul_nonneg_nonneg; lia. }
  apply (scale_split_le (m1 * m2) (c1 * c2) (e1 + e2) (t1 + t2) (K1 + K2)); lia.
Qed.

Lemma dadd_within x y c1 c2 t : dwithin x c1 t -> dwithin y c2 t -> 0 <= c1 -> 0 <= c2 -> c1 + c2 < 2 ^ 53 ->
  -1074 <= t <= 971 -> dwithin (dadd x y) (c1 + c2) t.
Proof.
  intros (m1 & e1 & -> & H1 & B1) (m2 & e2 & -> & H2 & B2) Hc1 Hc2 Hc Ht. simpl. set (e := Z.min e1 e2).
  pose proof (pow2_pos (e1 - e) ltac:(lia)). pose proof (pow2_pos (e2 - e) ltac:(lia)).
  set (s := m1 * 2 ^ (e1 - e) + m2 * 2 ^ (e2 - e)). assert (0 <= s) as Hs by (unfold s; nia).
  destruct (Z.ltb_spec s 0); [lia|]. unfold dval_num, dval_den. rewrite Z.abs_eq by lia.
  apply round_q_within; [apply Z.mul_nonneg_nonneg; [lia|apply Z.pow_nonneg; lia]|apply pow2_pos; lia|lia|done|].
  intros N HN HtN. set (K := Z.abs e1 + Z.abs e2 + Z.abs t).
  apply (scale_split_le s (c1 + c2) e t K); [lia..|]. specialize (B1 K ltac:(lia) ltac:(lia)).
  specialize (B2 K ltac:(lia) ltac:(lia)). unfold s.
  rewrite Z.mul_add_distr_r, <- !Z.mul_assoc, <- !Z.pow_add_r, Z.mul_add_distr_r by lia.
  replace (e1 - e + (e + K)) with (e1 + K) by lia. replace (e2 - e + (e + K)) with (e2 + K) by lia. lia.
Qed.

Lemma dtrunc_within x c t : dwithin x c t -> 0 <= c -> 0 <= t -> 0 <= dtrunc x <= c * 2 ^ t.
Proof.
  intros (m & e & -> & Hm & B) Hc Ht. simpl. specialize (B (Z.max (- e) 0) ltac:(lia) ltac:(lia)).
  replace (e + Z.max (- e) 0) with (Z.max e 0) in B by lia. rewrite Z.pow_add_r, Z.mul_assoc in B by lia.
  pose proof (pow2_pos (Z.max (- e) 0) ltac:(lia)). pose proof (pow2_pos (Z.max e 0) ltac:(lia)).
  rewrite Z.quot_div_nonneg by nia. split; [apply Z.div_pos; nia|]. apply Z.div_le_upper_bound; [done|lia].
Qed.

(** The same, by computation. *)
Definition dwithin_b (x : double) (c t N : Z) : bool :=
  match x with
  | DFin m e => (0 <=? m) && (0 <=? e + N) && (0 <=? t + N) && (m * 2 ^ (e + N) <=? c * 2 ^ (t + N))
  | _ => false
  end.

Lemma dwithin_compute x c t N : dwithin_b x c t N = true -> dwithin x c t.
Proof.
  destruct x as [m e| |]; [|done..]. simpl. intros [[[H1 H2]%andb_prop H3]%andb_prop H4]%andb_prop.
  apply (dwithin_intro _ _ _ _ N); lia.
Qed.
