(* ===== verification/DoubleOrder.v ===== *)
(** * DoubleOrder: rounding is monotone

    Sums, products and conversions of doubles that are not negative keep the order of
    their exact values. *)

From S2P Require Import Prelude Text Double DoubleBounds.
From Stdlib Require Import ZArith Lia Bool.
From stdpp Require Import base list numbers.
Local Open Scope Z_scope.

(** Half-even division keeps the order of fractions. *)
Lemma round_div_even_spec a d : 0 < d -> exists q, round_div_even a d = q /\
  (2 * a < d * (2 * q + 1) \/ 2 * a = d * (2 * q + 1) /\ Z.even q = true) /\
  (d * (2 * q - 1) < 2 * a \/ d * (2 * q - 1) = 2 * a /\ Z.even q = true).
Proof.
  intros Hd. unfold round_div_even. pose proof (Z.div_mod a d ltac:(lia)) as E. pose proof (Z.mod_pos_bound a d Hd) as Hr.
  set (q := a / d) in *. set (r := a mod d) in *. eexists. split; [reflexivity|].
  destruct (Z.ltb_spec (2 * r) d) as [H1|H1]; [split; left; nia|].
  destruct (Z.ltb_spec d (2 * r)) as [H2|H2]; [split; left; nia|].
  assert (2 * r = d) as Er by lia. destruct (Z.even q) eqn:Ev; split; try (left; nia); right; split; try nia; try done.
  by rewrite Z.even_add, Ev.
Qed.

Lemma round_div_even_mono a1 d1 a2 d2 : 0 < d1 -> 0 < d2 -> a1 * d2 <= a2 * d1 -> round_div_even a1 d1 <= round_div_even a2 d2.
Proof.
  intros H1 H2 H. destruct (round_div_even_spec a1 d1 H1) as (q1 & -> & U1 & L1).
  destruct (round_div_even_spec a2 d2 H2) as (q2 & -> & U2 & L2).
  destruct (Z.le_gt_cases q1 q2) as [|Hgt]; [done|exfalso].
  assert (d1 * (2 * q1 - 1) * d2 <= 2 * a1 * d2) as A by (destruct L1 as [?|[? _]]; nia).
  assert (2 * a2 * d1 <= d2 * (2 * q2 + 1) * d1) as B by (destruct U2 as [?|[? _]]; nia).
  assert (d1 * d2 * (2 * q1 - 1) <= d1 * d2 * (2 * q2 + 1)) as C by nia.
  assert (2 * q1 - 1 <= 2 * q2 + 1) as D by (apply Z.mul_le_mono_pos_l in C; nia).
  assert (q1 = q2 + 1) as -> by lia.
  destruct U2 as [U2|[_ E2]]; [nia|]. destruct L1 as [L1|[_ E1]]; [nia|].
  rewrite Z.even_add, E2 in E1. done.
Qed.

Lemma floor_log2_q_mono n1 d1 n2 d2 : 0 < n1 -> 0 < d1 -> 0 < d2 -> n1 * d2 <= n2 * d1 ->
  floor_log2_q n1 d1 <= floor_log2_q n2 d2.
Proof.
  intros Hn Hd1 Hd2 H. assert (0 < n2) as Hn2 by nia. set (L1 := floor_log2_q n1 d1). set (L2 := floor_log2_q n2 d2).
  set (N := Z.abs L1 + Z.abs L2 + 1).
  pose proof (floor_log2_q_le n1 d1 Hn Hd1 N ltac:(lia) ltac:(lia)) as A. fold L1 in A.
  pose proof (floor_log2_q_lt n2 d2 Hn2 Hd2 N ltac:(lia) ltac:(lia)) as B. fold L2 in B.
  pose proof (pow2_pos N ltac:(lia)). pose proof (pow2_pos (L1 + N) ltac:(lia)). pose proof (pow2_pos (L2 + 1 + N) ltac:(lia)).
  assert (d1 * 2 ^ (L1 + N) * d2 < d2 * 2 ^ (L2 + 1 + N) * d1) as C by nia.
  assert (2 ^ (L1 + N) < 2 ^ (L2 + 1 + N)) as D by nia.
  apply Z.pow_lt_mono_r_iff in D; lia.
Qed.

(** The mantissa of a number of at least [2^L] has 53 bits. *)
Lemma round_mantissa num den e : 0 < num -> 0 < den -> e = floor_log2_q num den - 52 ->
  2 ^ 52 <= round_div_even (num * 2 ^ Z.max (- e) 0) (den * 2 ^ Z.max e 0).
Proof.
  intros Hn Hd He. pose proof (pow2_pos (Z.max e 0) ltac:(lia)). pose proof (pow2_pos (Z.max (- e) 0) ltac:(lia)).
  rewrite <- (round_div_even_exact 1 (2 ^ 52)) by lia. apply round_div_even_mono; [lia|nia|]. rewrite !Z.mul_1_r.
  set (N := Z.abs e + 53). pose proof (floor_log2_q_le num den Hn Hd N ltac:(lia) ltac:(lia)) as A.
  replace (floor_log2_q num den + N) with (52 + (e + N)) in A by lia. rewrite Z.pow_add_r in A by lia.
  rewrite Z.mul_assoc. apply (scale_le _ _ e N); [lia..|]. nia.
Qed.

Lemma round_q_mono n1 d1 n2 d2 m e : 0 <= n1 -> 0 < d1 -> 0 < d2 -> n1 * d2 <= n2 * d1 ->
  round_q false n2 d2 = DFin m e -> dwithin (round_q false n1 d1) m e.
Proof.
  intros Hn Hd1 Hd2 H. unfold round_q at 1. destruct (Z.eqb_spec n2 0) as [->|Hn2].
  { intros [= <- <-]. assert (n1 = 0) as -> by nia. exists 0, 0. done. }
  assert (0 < n2) as P2 by nia. set (e2 := round_exp n2 d2).
  set (q2 := round_div_even (n2 * 2 ^ Z.max (- e2) 0) (d2 * 2 ^ Z.max e2 0)).
  destruct (Z.leb_spec (2 ^ 1024) (q2 * 2 ^ Z.max e2 0)) as [|Hfin]; [done|]. intros [= <- <-].
  pose proof (pow2_pos (Z.max e2 0) ltac:(lia)) as Pe. pose proof (pow2_pos (Z.max (- e2) 0) ltac:(lia)) as Pn.
  assert (0 <= q2) as Hq2.
  { rewrite <- (round_div_even_exact 1 0) by lia. apply round_div_even_mono; nia. }
  destruct (Z.eqb_spec n1 0) as [->|Hn1].
  { exists 0, 0. split; [done|]. split; [done|]. intros N _ HN. pose proof (pow2_pos _ HN). nia. }
  assert (floor_log2_q n1 d1 <= floor_log2_q n2 d2) as HL by (apply floor_log2_q_mono; lia).
  assert (round_exp n1 d1 <= e2) as He by (unfold e2, round_exp; lia).
  destruct (decide (round_exp n1 d1 = e2)) as [Ee|Hne].
  - unfold round_q. destruct (Z.eqb_spec n1 0); [done|]. rewrite Ee.
    assert (round_div_even (n1 * 2 ^ Z.max (- e2) 0) (d1 * 2 ^ Z.max e2 0) <= q2) as Hq by (apply round_div_even_mono; nia).
    set (q1 := round_div_even (n1 * 2 ^ Z.max (- e2) 0) _) in *.
    assert (0 <= q1) by (rewrite <- (round_div_even_exact 1 0) by lia; apply round_div_even_mono; nia).
    destruct (Z.leb_spec (2 ^ 1024) (q1 * 2 ^ Z.max e2 0)); [nia|].
    apply (dwithin_intro _ _ _ _ (Z.abs e2)); [done|lia..|]. pose proof (pow2_pos (e2 + Z.abs e2) ltac:(lia)). nia.
  - assert (e2 = floor_log2_q n2 d2 - 52) as E2 by (unfold e2, round_exp in *; lia).
    assert (floor_log2_q n1 d1 < floor_log2_q n2 d2) as HL' by (unfold e2, round_exp in *; lia).
    assert (2 ^ 52 <= q2) as Hm by (by apply round_mantissa).
    assert (e2 <= 971) as Hmax.
    { destruct (Z.le_gt_cases e2 971); [done|exfalso]. rewrite Z.max_l in Hfin by lia.
      assert (2 ^ 1024 <= 2 ^ 52 * 2 ^ e2) by (rewrite <- Z.pow_add_r by lia; apply Z.pow_le_mono_r; lia). nia. }
    apply (dwithin_weaken _ (2 ^ 52) e2 _ _ (Z.abs e2)); [lia..| |].
    { pose proof (pow2_pos (e2 + Z.abs e2) ltac:(lia)). nia. }
    apply round_q_within; [done..|lia|unfold e2, round_exp in *; lia|]. intros N HN HeN.
    set (M := Z.abs (floor_log2_q n1 d1) + N).
    pose proof (floor_log2_q_lt n1 d1 ltac:(lia) Hd1 M ltac:(lia) ltac:(lia)) as B.
    assert (n1 * 2 ^ M <= d1 * 2 ^ 52 * 2 ^ (e2 + M)) as C.
    { apply Z.lt_le_incl. eapply Z.lt_le_trans; [exact B|]. rewrite <- Z.mul_assoc, <- Z.pow_add_r by lia.
      apply Z.mul_le_mono_nonneg_l; [lia|]. apply Z.pow_le_mono_r; lia. }
    pose proof (pow2_pos (M - N) ltac:(lia)). apply (Z.mul_le_mono_pos_r _ _ (2 ^ (M - N))); [done|].
    assert (forall x k, 0 <= k + N -> x * 2 ^ (k + N) * 2 ^ (M - N) = x * 2 ^ (k + M)) as Sc.
    { intros x k Hk. rewrite <- Z.mul_assoc, <- Z.pow_add_r by lia. do 2 f_equal. lia. }
    rewrite (Sc _ e2) by done. specialize (Sc n1 0 ltac:(lia)). rewrite !Z.add_0_l in Sc. by rewrite Sc.
Qed.

(** Two numbers compared at a common scale, compared at their own. *)
Lemma cross_scale x y A A' A2 B B' B2 P : 0 < A2 -> 0 < B2 -> 0 <= P -> P = A' * A2 -> P = B' * B2 -> x * (A * A2) <= y * (B * B2) ->
  x * A * B' <= y * B * A'.
Proof.
  intros HA HB HP EA EB H. apply (Z.mul_le_mono_pos_r _ _ (A2 * B2)); [by apply Z.mul_pos_pos|].
  replace (x * A * B' * (A2 * B2)) with (x * (A * A2) * P) by (rewrite EB; ring).
  replace (y * B * A' * (A2 * B2)) with (y * (B * B2) * P) by (rewrite EA; ring). by apply Z.mul_le_mono_nonneg_r.
Qed.

Lemma quot_le x A A' y B B' : 0 <= x -> 0 < A -> 0 < A' -> 0 < B -> 0 < B' -> x * A * B' <= y * B * A' ->
  0 <= x * A ÷ A' <= y * B ÷ B'.
Proof.
  intros Hx HA HA' HB HB' H. assert (0 <= x * A) as H1 by nia. assert (0 <= y * B) as H2 by nia.
  generalize dependent (x * A). generalize dependent (y * B). clear x y A B Hx HA HB. intros u Hu v H Hv.
  rewrite !Z.quot_div_nonneg by lia. split; [by apply Z.div_pos|].
  apply Z.div_le_lower_bound; [done|]. pose proof (Z.mul_div_le v A' HA'). pose proof (Z.div_pos v A' Hv HA'). nia.
Qed.

Lemma div_scale m1 m2 c E1 S F P T : 0 <= c -> 0 <= S -> 0 < F -> 0 <= T -> E1 * S = P * F -> m1 * E1 <= c * T -> S <= m2 * F ->
  m1 * P <= m2 * c * T.
Proof.
  intros Hc HS HF HT E H1 H2. apply (Z.mul_le_mono_pos_r _ _ F); [done|]. rewrite <- Z.mul_assoc, <- E, Z.mul_assoc.
  transitivity (c * T * S); [by apply Z.mul_le_mono_nonneg_r|].
  transitivity (c * T * (m2 * F)); [|apply Z.eq_le_incl; ring]. apply Z.mul_le_mono_nonneg_l; [by apply Z.mul_nonneg_nonneg|done].
Qed.

(** Conversion, products by a factor and truncation keep the order. *)
Lemma double_of_Z_mono a b m e : 0 <= a <= b -> double_of_Z b = DFin m e -> dwithin (double_of_Z a) m e.
Proof.
  intros Hab. unfold double_of_Z. destruct (Z.ltb_spec a 0), (Z.ltb_spec b 0); try lia.
  apply round_q_mono; lia.
Qed.

Lemma dmul_mono x m1 e1 mc ec m e : dwithin x m1 e1 -> 0 <= mc ->
  dmul (DFin m1 e1) (DFin mc ec) = DFin m e -> dwithin (dmul x (DFin mc ec)) m e.
Proof.
  intros (m0 & e0 & -> & H0 & B) Hc. cbn [dmul].
  assert (0 <= m1) as H1.
  { specialize (B (Z.abs e0 + Z.abs e1) ltac:(lia) ltac:(lia)). pose proof (pow2_pos (e0 + (Z.abs e0 + Z.abs e1)) ltac:(lia)).
    pose proof (pow2_pos (e1 + (Z.abs e0 + Z.abs e1)) ltac:(lia)). nia. }
  destruct (Z.ltb_spec (m1 * mc) 0); [nia|]. destruct (Z.ltb_spec (m0 * mc) 0); [nia|].
  unfold dval_num, dval_den. rewrite !Z.abs_eq by nia. apply round_q_mono.
  - pose proof (pow2_pos (Z.max (e0 + ec) 0) ltac:(lia)). nia.
  - apply pow2_pos. lia.
  - apply pow2_pos. lia.
  - set (a := e0 + ec). set (b := e1 + ec). set (N := Z.abs a + Z.abs b).
    pose proof (pow2_pos (N - Z.max (- a) 0) ltac:(lia)) as PA. pose proof (pow2_pos (N - Z.max (- b) 0) ltac:(lia)) as PB.
    pose proof (pow2_pos N ltac:(lia)) as PN.
    specialize (B (ec + N) ltac:(lia) ltac:(lia)). replace (e0 + (ec + N)) with (a + N) in B by (unfold a; lia).
    replace (e1 + (ec + N)) with (b + N) in B by (unfold b; lia). apply (Z.mul_le_mono_nonneg_l _ _ mc) in B; [|done].
    destruct (scale_split a N ltac:(lia) ltac:(lia)) as [Ea EN], (scale_split b N ltac:(lia) ltac:(lia)) as [Eb EN'].
    apply (cross_scale _ _ _ _ _ _ _ _ _ PA PB (Z.lt_le_incl _ _ PN) EN EN'). rewrite <- Ea, <- Eb.
    rewrite (Z.mul_comm m0), (Z.mul_comm m1), <- !(Z.mul_assoc mc). exact B.
Qed.

Lemma dtrunc_mono x m e : dwithin x m e -> 0 <= dtrunc x <= dtrunc (DFin m e).
Proof.
  intros (m0 & e0 & -> & H0 & B). simpl. set (N := Z.abs e0 + Z.abs e).
  pose proof (pow2_pos (N - Z.max (- e0) 0) ltac:(lia)) as PA. pose proof (pow2_pos (N - Z.max (- e) 0) ltac:(lia)) as PB.
  pose proof (pow2_pos N ltac:(lia)) as PN. specialize (B N ltac:(lia) ltac:(lia)).
  apply quot_le; [done|apply pow2_pos, Z.le_max_r..|].
  destruct (scale_split e0 N ltac:(lia) ltac:(lia)) as [Ea EN], (scale_split e N ltac:(lia) ltac:(lia)) as [Eb EN'].
  apply (cross_scale _ _ _ _ _ _ _ _ _ PA PB (Z.lt_le_incl _ _ PN) EN EN'). by rewrite <- Ea, <- Eb.
Qed.

(** [y] is finite and at least 1. *)
Definition at_least_one (y : double) : Prop :=
  exists m e, y = DFin m e /\ 0 < m /\ forall N, 0 <= N -> 0 <= e + N -> 2 ^ N <= m * 2 ^ (e + N).

Lemma round_q_one num den : 0 < den <= num -> is_finite (round_q false num den) = true -> at_least_one (round_q false num den).
Proof.
  intros H F. destruct (round_q false num den) as [m e| |] eqn:E; [|done..].
  pose proof (round_q_mono 1 1 num den m e ltac:(lia) ltac:(lia) ltac:(lia) ltac:(lia) E) as W.
  replace (round_q false 1 1) with (DFin (2 ^ 52) (-52)) in W by (vm_compute; reflexivity).
  destruct W as (m0 & e0 & [= <- <-] & _ & B). exists m, e. split; [done|].
  assert (forall N, 0 <= N -> 0 <= e + N -> 2 ^ N <= m * 2 ^ (e + N)) as A.
  { intros N HN HeN. specialize (B (N + 52) ltac:(lia) ltac:(lia)). replace (-52 + (N + 52)) with N in B by lia.
    replace (e + (N + 52)) with (52 + (e + N)) in B by lia. rewrite Z.pow_add_r in B by lia. nia. }
  split; [|done]. specialize (A (Z.abs e) ltac:(lia) ltac:(lia)). pose proof (pow2_pos (Z.abs e) ltac:(lia)).
  pose proof (pow2_pos (e + Z.abs e) ltac:(lia)). nia.
Qed.

(** Division by a number that is at least 1 keeps a bound. *)
Lemma ddiv_within x y c t : dwithin x c t -> at_least_one y -> 0 <= c < 2 ^ 53 -> -1074 <= t <= 971 -> dwithin (ddiv x y) c t.
Proof.
  intros (m1 & e1 & -> & H1 & B1) (m2 & e2 & -> & H2 & B2) Hc Ht. cbn [ddiv].
  destruct (Z.eqb_spec m2 0); [lia|]. destruct (Z.ltb_spec (m1 * m2) 0); [nia|]. rewrite !Z.abs_eq by lia.
  pose proof (pow2_pos (Z.max (e1 - e2) 0) ltac:(lia)) as P1. pose proof (pow2_pos (Z.max (e2 - e1) 0) ltac:(lia)) as P2.
  apply round_q_within; [nia|nia|done|done|]. intros N HN HtN.
  set (k := e1 - e2). replace (e2 - e1) with (- k) in * by (unfold k; lia). fold k in P1.
  set (K := Z.abs e1 + Z.abs e2 + Z.abs t + N).
  assert (0 <= t + K /\ 0 <= k + K /\ 0 <= K) as (HtK & HkK & HK) by lia.
  assert (2 ^ (e1 + K) * 2 ^ Z.abs e2 = 2 ^ (k + K) * 2 ^ (e2 + Z.abs e2)) as Ep
    by (rewrite <- !Z.pow_add_r by lia; f_equal; lia).
  pose proof (pow2_pos (e2 + Z.abs e2) ltac:(lia)) as PF.
  specialize (B1 K ltac:(lia) HtK). specialize (B2 (Z.abs e2) ltac:(lia) ltac:(lia)).
  pose proof (div_scale m1 m2 c _ _ _ _ _ (proj1 Hc) (Z.pow_nonneg 2 (Z.abs e2) ltac:(done)) PF (Z.pow_nonneg 2 (t + K) ltac:(done)) Ep B1 B2) as C.
  pose proof (scale_split_le m1 (m2 * c) k t K N HK HkK HtK HN HtN C) as D. clear -D. lia.
Qed.

Lemma double_of_Z_one n : 1 <= n < 2 ^ 64 -> at_least_one (double_of_Z n).
Proof.
  intros Hn. destruct (double_of_Z_within n 64 ltac:(lia) ltac:(lia)) as (m & e & E & _).
  unfold double_of_Z in *. destruct (Z.ltb_spec n 0); [lia|]. apply round_q_one; [lia|]. by rewrite E.
Qed.
