(* ===== verification/Random.v ===== *)
(** * Random: draws from a pseudo-random generator

    The tools draw from [std::mt19937_64] through the standard distributions.  What a
    generator promises is an interface, [Rng] with its laws [RngOk]: a real draw is in
    [[0, 1)] and an integer draw in the range asked for.  Programs that draw are state
    transformers over the generator, with a rule of reasoning about every outcome. *)

From S2P Require Import Prelude Text Double DoubleBounds.
From Stdlib Require Import ZArith Lia Bool.
From stdpp Require Import base list numbers.
Local Open Scope Z_scope.

Declare Scope random_scope.
Delimit Scope random_scope with random.

(** [std::uniform_real_distribution<double>(0.0, 1.0)] and
    [std::uniform_int_distribution(lo, hi)]. *)
Class Rng (S : Type) := { draw_unit : S -> double * S; draw_int : Z -> Z -> S -> Z * S }.
Class RngOk (S : Type) `{Rng S} := {
  draw_unit_range : forall s, dwithin (draw_unit s).1 1 0 /\ dltb (draw_unit s).1 (dlit 1 0) = true;
  draw_int_range : forall lo hi s, lo <= hi -> lo <= (draw_int lo hi s).1 <= hi }.

Definition G (S A : Type) : Type := S -> A * S.

Definition ret {S A} (a : A) : G S A := fun s => (a, s).
Definition bind {S A B} (m : G S A) (k : A -> G S B) : G S B := fun s => let '(a, s) := m s in k a s.

Notation "'draw' x := m 'in' k" := (bind m (fun x => k))
  (at level 10, x name, m at level 100, k at level 200) : random_scope.

Section Programs.
Context {S : Type} `{Rng S}.

Definition roll : G S double := draw_unit.
Definition uniform (lo hi : Z) : G S Z := draw_int lo hi.

(** An element of a list that is not empty. *)
Definition pick_of {A} (l : list A) (d : A) : G S A :=
  bind (uniform 0 (Z.of_nat (length l) - 1)) (fun i => ret (nth (Z.to_nat i) l d)).

(** Every outcome of [m] satisfies [Q]. *)
Definition always {A} (m : G S A) (Q : A -> Prop) : Prop := forall s, Q (m s).1.

Lemma always_ret {A} (a : A) (Q : A -> Prop) : Q a -> always (ret a) Q.
Proof. intros HQ s. done. Qed.

Lemma always_bind {A B} (m : G S A) (k : A -> G S B) (P : A -> Prop) (Q : B -> Prop) :
  always m P -> (forall a, P a -> always (k a) Q) -> always (bind m k) Q.
Proof. intros Hm Hk s. unfold bind. specialize (Hm s). destruct (m s) as [a s']. by apply Hk. Qed.

Lemma always_impl {A} (m : G S A) (P Q : A -> Prop) : always m P -> (forall a, P a -> Q a) -> always m Q.
Proof. intros Hm HPQ s. apply HPQ, Hm. Qed.

Lemma always_if {A} (b : bool) (m n : G S A) (Q : A -> Prop) :
  (b = true -> always m Q) -> (b = false -> always n Q) -> always (if b then m else n) Q.
Proof. destruct b; auto. Qed.

Context `{!RngOk S}.

Lemma always_roll : always roll (fun u => dwithin u 1 0).
Proof. intros s. apply draw_unit_range. Qed.

Lemma always_uniform lo hi : lo <= hi -> always (uniform lo hi) (fun i => lo <= i <= hi).
Proof. intros Hle s. by apply draw_int_range. Qed.

Lemma always_pick_of {A} (l : list A) d (Q : A -> Prop) : l <> [] -> Forall Q l -> always (pick_of l d) Q.
Proof.
  intros Hl HQ. eapply always_bind; [apply always_uniform; destruct l; [done|]; simpl; lia|].
  intros i Hi. apply always_ret. rewrite Forall_forall in HQ. apply HQ, nth_In. simpl in Hi. lia.
Qed.
End Programs.

(** A congruential generator, an instance. *)
Definition lcg (s : Z) : Z := (s * 6364136223846793005 + 1442695040888963407) mod 2 ^ 64.
#[export] Instance lcg_rng : Rng Z := {
  draw_unit s := (DFin (Z.shiftr s 11 mod 2 ^ 53) (-53), lcg s);
  draw_int lo hi s := (lo + Z.shiftr s 11 mod (hi - lo + 1), lcg s) }.

#[export] Instance lcg_ok : RngOk Z.
Proof.
  split.
  - intros s. cbn [draw_unit lcg_rng fst]. pose proof (Z.mod_pos_bound (Z.shiftr s 11) (2 ^ 53) ltac:(lia)) as Hm.
    set (m := Z.shiftr s 11 mod 2 ^ 53) in *. split; [apply (dwithin_intro _ _ _ _ 53); simpl; lia|].
    rewrite (dltb_exact _ _ m (-53) 1 0 53); [apply Z.ltb_lt; simpl; lia|apply dval_refl| |lia..].
    by apply (double_of_Z_exact 1).
  - intros lo hi s Hle. cbn [draw_int lcg_rng fst].
    pose proof (Z.mod_pos_bound (Z.shiftr s 11) (hi - lo + 1) ltac:(lia)). lia.
Qed.
