(* ===== verification/RequestGen.v ===== *)
(** * RequestGen: synthetic requests

    [RequestGenerator::fill] of include/policy/request_gen.hpp, which feeds the load
    generator and the golden corpus: one definition per paragraph of the function, in
    the order in which they draw.  Every request it makes is well formed, whatever the
    generator draws and whatever the mix. *)

From S2P Require Import Prelude Text Wire Double DoubleBounds Random.
From Stdlib Require Import ZArith Lia Bool.
From stdpp Require Import base list numbers sets.
Local Open Scope Z_scope.
Local Open Scope random_scope.

Record RequestMix := mkMix {
  mx_unknown_imsi : double; mx_usage_in_request : double; mx_roaming : double; mx_tethering : double;
  mx_emergency : double; mx_imei_absent : double; mx_imei_blocked : double; mx_off_peak : double }.

Definition default_mix : RequestMix :=
  mkMix (dlit 2 (-2)) (dlit 25 (-2)) (dlit 8 (-2)) (dlit 5 (-2)) (dlit 1 (-3)) (dlit 5 (-2)) (dlit 2 (-3)) (dlit 15 (-2)).

Record Generator := mkGen {
  gn_imsis : list Z; gn_blocked_imeis : list Z; gn_visited_plmns : list Z; gn_dnn_count : Z; gn_mix : RequestMix }.

Definition new_generator (imsis blocked visited : list Z) (dnn_count : Z) (mix : RequestMix) : Generator :=
  mkGen imsis blocked visited (if dnn_count =? 0 then 1 else dnn_count) mix.

Section Fill.
Context {S : Type} `{Rng S}.
Variable g : Generator.

Definition fill_imsi : G S Z :=
  let unknown := uniform 999000000000000 999999999999999 in
  match gn_imsis g with
  | [] => unknown
  | imsis => draw u := roll in
      if dleb (mx_unknown_imsi (gn_mix g)) u then pick_of imsis 0 else unknown
  end.

Definition fill_imei : G S Z :=
  draw imei_roll := roll in
  if dltb imei_roll (mx_imei_absent (gn_mix g)) then ret 0
  else if dltb imei_roll (dadd (mx_imei_absent (gn_mix g)) (mx_imei_blocked (gn_mix g))) &&
          negb (bool_decide (gn_blocked_imeis g = [])) then pick_of (gn_blocked_imeis g) 0
  else uniform 350000000000000 359999999999999.

Definition fill_rat : G S Z :=
  draw rat_roll := roll in
  ret (rat_code (if dltb rat_roll (dlit 55 (-2)) then kLte else if dltb rat_roll (dlit 93 (-2)) then kNr else kWlan)).

Definition fill_dnn : G S Z :=
  draw dnn_roll := roll in
  if dltb dnn_roll (dlit 70 (-2)) then ret 0
  else if dltb dnn_roll (dlit 88 (-2)) then ret (u8 (1 mod gn_dnn_count g))
  else draw i := uniform 0 (gn_dnn_count g - 1) in ret (u8 i).

Definition fill_plmn : G S Z :=
  draw u := roll in
  if dltb u (mx_roaming (gn_mix g)) && negb (bool_decide (gn_visited_plmns g = []))
  then pick_of (gn_visited_plmns g) 0 else ret 0.

Definition fill_tac : G S Z := draw t := uniform 1 65534 in ret (u16 t).

Definition fill_5qi : G S Z :=
  draw qos_roll := roll in
  ret (if dltb qos_roll (dlit 80 (-2)) then 9 else if dltb qos_roll (dlit 95 (-2)) then 8 else 1).

Definition fill_minute : G S Z :=
  draw u := roll in
  if dltb u (mx_off_peak (gn_mix g)) then draw i := uniform 120 359 in ret (u16 i)
  else draw i := uniform 360 (1439 + 119) in ret (u16 (i mod 1440)).

Definition fill_flag (p : double) (flag flags : Z) : G S Z :=
  draw u := roll in ret (if dltb u p then Z.lor flags flag else flags).

Definition fill_gb : G S double :=
  draw u := roll in
  if dltb u (dlit 70 (-2)) then draw v := roll in ret (dmul v (dlit 8 0))
  else if dltb u (dlit 92 (-2)) then draw v := roll in ret (dadd (dlit 8 0) (dmul v (dlit 10 0)))
  else draw v := roll in ret (dadd (dlit 18 0) (dmul v (dlit 20 0))).

(** The flags and the usage that goes with the last of them. *)
Definition fill_usage (flags : Z) : G S (Z * Z) :=
  draw u := roll in
  if dltb u (mx_usage_in_request (gn_mix g)) then
    draw gb := fill_gb in ret (Z.lor flags kReqFlagUsageValid, dtrunc (dmul gb (dlit 1 9)))
  else ret (flags, 0).

Definition fill : G S PolicyRequest :=
  draw imsi := fill_imsi in
  draw imei := fill_imei in
  draw rat_type := fill_rat in
  draw dnn_id := fill_dnn in
  draw plmn := fill_plmn in
  draw tac := fill_tac in
  draw requested_5qi := fill_5qi in
  draw local_minute := fill_minute in
  draw flags := fill_flag (mx_tethering (gn_mix g)) kReqFlagTetheringDetected 0 in
  draw flags := fill_flag (mx_emergency (gn_mix g)) kReqFlagEmergency flags in
  draw fu := fill_usage flags in
  ret (mkRequest kMagicVersion 0 imsi imei 0 fu.2 plmn tac rat_type dnn_id requested_5qi fu.1 local_minute 100000 500000 0).
End Fill.

(** ** Every request is well formed *)

(** What the pools hold. *)
Record gen_ok (g : Generator) : Prop := {
  go_imsis : Forall (fun i => 0 < i < 2 ^ 64) (gn_imsis g);
  go_blocked : Forall (fits 64) (gn_blocked_imeis g);
  go_visited : Forall (fits 32) (gn_visited_plmns g);
  go_dnn : 1 <= gn_dnn_count g < 256 }.

(** A request as the generator makes them. *)
Record synthetic (g : Generator) (r : PolicyRequest) : Prop := {
  sy_msg : msg_ok r;
  sy_magic : rq_magic_version r = kMagicVersion;
  sy_imsi : rq_imsi r ∈ gn_imsis g \/ 999000000000000 <= rq_imsi r <= 999999999999999;
  sy_imei : rq_imei r = 0 \/ rq_imei r ∈ gn_blocked_imeis g \/ 350000000000000 <= rq_imei r <= 359999999999999;
  sy_rat : 0 <= rq_rat_type r < 3;
  sy_dnn : 0 <= rq_dnn_id r < gn_dnn_count g;
  sy_plmn : rq_plmn r = 0 \/ rq_plmn r ∈ gn_visited_plmns g;
  sy_tac : 1 <= rq_tac r <= 65534;
  sy_5qi : rq_requested_5qi r ∈ [9; 8; 1];
  sy_minute : 0 <= rq_local_minute r < 1440;
  sy_flags : 0 <= rq_flags r < 8;
  sy_usage : 0 <= rq_bytes_used_period r <= 38000000000 /\
    (Z.testbit (rq_flags r) 2 = false -> rq_bytes_used_period r = 0);
  sy_untouched : rq_seq r = 0 /\ rq_client_ts_ns r = 0 }.

Section Sound.
Context {S : Type} `{RngOk S}.
Variable g : Generator.
Hypothesis Hg : gen_ok g.

#[local] Ltac step := eapply always_bind; [apply always_roll|]; intros ? ?.

Lemma pool_ok {A} (l : list A) d : l <> [] -> always (S := S) (pick_of l d) (fun x => x ∈ l).
Proof using All. intros Hl. apply always_pick_of; [done|]. by apply list.Forall_forall. Qed.

Lemma fill_imsi_ok : always (S := S) (fill_imsi g)
  (fun i => i ∈ gn_imsis g \/ 999000000000000 <= i <= 999999999999999).
Proof using All.
  unfold fill_imsi. destruct (gn_imsis g) as [|i l].
  { eapply always_impl; [by apply always_uniform|]. by right. }
  step. apply always_if; intros _; (eapply always_impl; [|]).
  - by apply pool_ok.
  - by left.
  - by apply always_uniform.
  - by right.
Qed.

Lemma fill_imei_ok : always (S := S) (fill_imei g)
  (fun i => i = 0 \/ i ∈ gn_blocked_imeis g \/ 350000000000000 <= i <= 359999999999999).
Proof using All.
  step. apply always_if; intros _; [apply always_ret; by left|]. apply always_if; intros E.
  - apply andb_prop in E as [_ E]. eapply always_impl; [apply pool_ok|by right; left].
    intros E'. by rewrite bool_decide_true in E.
  - eapply always_impl; [by apply always_uniform|]. by right; right.
Qed.

Lemma fill_rat_ok : always (S := S) fill_rat (fun r => 0 <= r < 3).
Proof using All. step. apply always_ret. by repeat case_match. Qed.

Lemma fill_dnn_ok : always (S := S) (fill_dnn g) (fun d => 0 <= d < gn_dnn_count g).
Proof using All.
  destruct Hg as [_ _ _ Hd]. assert (forall i, 0 <= i < gn_dnn_count g -> 0 <= u8 i < gn_dnn_count g) as Hu.
  { intros i Hi. rewrite wrap_id; [done|]. split; [lia|]. change (2 ^ 8) with 256. lia. }
  step. apply always_if; intros _; [apply always_ret; lia|]. apply always_if; intros _.
  - apply always_ret, Hu, Z.mod_pos_bound. lia.
  - eapply always_bind; [apply always_uniform; lia|]. intros i Hi. simpl in Hi. apply always_ret, Hu. lia.
Qed.

Lemma fill_plmn_ok : always (S := S) (fill_plmn g) (fun p => p = 0 \/ p ∈ gn_visited_plmns g).
Proof using All.
  step. apply always_if; intros E; [|apply always_ret; by left]. apply andb_prop in E as [_ E].
  eapply always_impl; [apply pool_ok|by right]. intros E'. by rewrite bool_decide_true in E.
Qed.

Lemma u16_in n : 0 <= n < 2 ^ 16 -> u16 n = n.
Proof using. intros Hn. by apply wrap_id. Qed.

Lemma fill_tac_ok : always (S := S) fill_tac (fun t => 1 <= t <= 65534).
Proof using All.
  eapply always_bind; [by apply always_uniform|]. intros t Ht. apply always_ret. simpl in Ht. rewrite u16_in by lia. lia.
Qed.

Lemma fill_5qi_ok : always (S := S) fill_5qi (fun q => q ∈ [9; 8; 1]).
Proof using All. step. apply always_ret. repeat case_match; set_solver. Qed.

Lemma fill_minute_ok : always (S := S) (fill_minute g) (fun m => 0 <= m < 1440).
Proof using All.
  step. apply always_if; intros _; (eapply always_bind; [by apply always_uniform|]); intros i Hi; simpl in Hi; apply always_ret.
  - rewrite u16_in; lia.
  - pose proof (Z.mod_pos_bound i 1440 ltac:(lia)). rewrite u16_in; lia.
Qed.

Lemma fill_flag_ok p k flags : (k < 2)%nat -> 0 <= flags < 4 ->
  always (S := S) (fill_flag p (Z.shiftl 1 (Z.of_nat k)) flags) (fun f => 0 <= f < 4).
Proof using All.
  intros Hk Hf. step. apply always_ret. case_match; [|done].
  assert (flags = 0 \/ flags = 1 \/ flags = 2 \/ flags = 3) as Hc by lia.
  destruct k as [|[|]]; [| |lia]; by destruct Hc as [->|[->|[->| ->]]].
Qed.

Lemma unit_scaled v n : dwithin v 1 0 -> 0 <= n < 2 ^ 53 -> dwithin (dmul v (dlit n 0)) n 0.
Proof using.
  intros Hv Hn. pose proof (dmul_within v (dlit n 0) 1 0 n 0 Hv (dlit_within n Hn) ltac:(lia) ltac:(lia) ltac:(lia) ltac:(lia)) as W.
  by rewrite Z.mul_1_l in W.
Qed.

Lemma fill_gb_ok : always (S := S) fill_gb (fun gb => dwithin gb 38 0).
Proof using All.
  assert (forall x n, dwithin x n 0 -> n <= 38 -> dwithin x 38 0) as W.
  { intros x n Hx Hn. apply (dwithin_weaken x n 0 38 0 0); simpl; (lia || done). }
  step. apply always_if; intros _; [|apply always_if; intros _]; step; apply always_ret.
  - apply (W _ 8); [by apply unit_scaled|done].
  - apply (W _ (8 + 10)); [|done]. by apply dadd_within; [apply dlit_within|apply unit_scaled|..].
  - apply (W _ (18 + 20)); [|done]. by apply dadd_within; [apply dlit_within|apply unit_scaled|..].
Qed.

Lemma billion_within : dwithin (dlit 1 9) 1000000000 0.
Proof using. apply dval_within; [done|]. by apply (double_of_Z_exact 1000000000). Qed.

Lemma fill_usage_ok flags : 0 <= flags < 4 -> always (S := S) (fill_usage g flags)
  (fun fu => 0 <= fu.1 < 8 /\ 0 <= fu.2 <= 38000000000 /\ (Z.testbit fu.1 2 = false -> fu.2 = 0)).
Proof using All.
  intros Hf. assert (flags = 0 \/ flags = 1 \/ flags = 2 \/ flags = 3) as Hc by lia.
  step. apply always_if; intros _; [|apply always_ret; simpl; lia].
  eapply always_bind; [apply fill_gb_ok|]. intros gb Hgb. apply always_ret.
  pose proof (dmul_within _ _ _ _ _ _ Hgb billion_within ltac:(done) ltac:(done) ltac:(done) ltac:(done)) as Hw.
  apply dtrunc_within in Hw; [|done..]. simpl in *. split; [by destruct Hc as [->|[->|[->| ->]]]|].
  split; [done|]. intros Hb. by destruct Hc as [->|[->|[->| ->]]].
Qed.
Lemma magic_fits : fits 32 kMagicVersion.
Proof using. by vm_compute. Qed.

Lemma fill_ok : always (S := S) (fill g) (synthetic g).
Proof using All.
  unfold fill. eapply always_bind; [apply fill_imsi_ok|]. intros imsi Hi. eapply always_bind; [apply fill_imei_ok|].
  intros imei He. eapply always_bind; [apply fill_rat_ok|]. intros rat Hr. eapply always_bind; [apply fill_dnn_ok|].
  intros dnn Hd. eapply always_bind; [apply fill_plmn_ok|]. intros plmn Hp. eapply always_bind; [apply fill_tac_ok|].
  intros tac Ht. eapply always_bind; [apply fill_5qi_ok|]. intros q Hq. eapply always_bind; [apply fill_minute_ok|].
  intros m Hm. eapply always_bind; [by apply (fill_flag_ok _ 0%nat); [lia|]|]. intros f1 H1.
  eapply always_bind; [by apply (fill_flag_ok _ 1%nat); [lia|]|]. intros f2 H2.
  eapply always_bind; [by apply fill_usage_ok|]. intros [f u] (Hf & Hu & Hz). apply always_ret. simpl in *.
  destruct Hg as [Gi Gb Gv Gd]. split; try done. simpl. unfold msg_ok, fields_ok. simpl.
  unfold request_widths, request_fields. simpl.
  repeat (apply Forall2_cons; split); [exact magic_fits|..|constructor]; unfold fits; try lia.
  - destruct Hi as [Hi|Hi]; [|lia]. rewrite list.Forall_forall in Gi. specialize (Gi _ Hi). lia.
  - destruct He as [->|[He|He]]; [lia| |lia]. rewrite list.Forall_forall in Gb. exact (Gb _ He).
  - destruct Hp as [->|Hp]; [lia|]. rewrite list.Forall_forall in Gv. exact (Gv _ Hp).
  - apply list_elem_of_In in Hq as [<-|[<-|[<-|[]]]]; lia.
Qed.

(** C37: Every request the traffic generator makes is a well-formed datagram, whatever
    it draws: the IMSI is of the roster or of the unassigned range, access type, DNN,
    5QI and minute are in their ranges, a usage snapshot is at most 38 GB and is there
    only under its flag, and the sequence number and time stamp are left at zero. *)
Theorem fill_wf s : synthetic g (fill (S := S) g s).1.
Proof using All. apply fill_ok. Qed.
End Sound.

(** ** Samples *)

Definition sample_gen : Generator :=
  new_generator [310260100000000; 310410100000000] [350000000000001] [262001; 46000] 3 default_mix.

Lemma sample_gen_ok : gen_ok sample_gen.
Proof. split; [by repeat constructor..|done]. Qed.

Lemma fill_wf_witness : gen_ok sample_gen /\ synthetic sample_gen (fill (S := Z) sample_gen 42).1.
Proof. split; [exact sample_gen_ok|]. apply (fill_wf sample_gen sample_gen_ok 42). Defined.

Example sample_fill : let r := (fill (S := Z) sample_gen 42).1 in
  (rq_imsi r, rq_plmn r, rq_local_minute r) = (999163774668235, 262001, 237).
Proof. by vm_compute. Qed.
