(* ===== verification/Probe.v ===== *)
(** * Probe: linear probing over a power-of-two table

    The probe loop that [FlatSet64] and [SubscriberStore] share, over any slot
    type with a key (key 0 is the empty sentinel), and its theory: the loop
    terminates while one slot is free, and the table represents a finite map
    ([repr], with stdpp's [gmap] as the abstract specification). *)

From S2P Require Import Prelude.
From Stdlib Require Import ZArith Lia Bool.
From stdpp Require Import base list numbers gmap.
Local Open Scope Z_scope.

(** splitmix64 finalizer. *)
Definition splitmix64 (x : Z) : Z :=
  let x := u64 (x + 0x9E3779B97F4A7C15) in
  let x := u64 (Z.lxor x (Z.shiftr x 30) * 0xBF58476D1CE4E5B9) in
  let x := u64 (Z.lxor x (Z.shiftr x 27) * 0x94D049BB133111EB) in
  Z.lxor x (Z.shiftr x 31).

Class Slotted (A : Type) := {
  slot_key : A -> Z;
  slot_empty : A;
  slot_empty_key : slot_key slot_empty = 0 }.

Section Probe.
Context {A : Type} `{Slotted A}.
Implicit Types (slots : list A) (k i : Z) (a : A).

Definition slot_at slots i : A := nth (Z.to_nat i) slots slot_empty.

(** [for (;;)] from position [i]: stop at the key or at an empty slot.
    [None] is a loop that has not stopped within [fuel] iterations. *)
Fixpoint probe (fuel : nat) slots (mask k i : Z) : option Z :=
  match fuel with
  | O => None
  | S f =>
      let s := slot_at slots i in
      if slot_key s =? k then Some i
      else if slot_key s =? 0 then Some i
      else probe f slots mask k (Z.land (i + 1) mask)
  end.

Context (hash : Z -> Z).

(** The probe of a key: [i = hash(key) & mask_; for (;;) ...].  After as many
    iterations as there are slots every slot has been visited. *)
Definition locate slots (mask k : Z) : option Z :=
  probe (length slots) slots mask k (Z.land (hash k) mask).

Definition slot_store slots (i : Z) (a : A) : list A := <[Z.to_nat i := a]> slots.

Definition occupied slots : nat := length (filter (fun a => slot_key a <> 0) slots).

(** ** Invariant and abstraction *)

Definition cap slots : Z := Z.of_nat (length slots).
Definition home slots k : Z := hash k mod cap slots.
Definition nth_probe slots k d : Z := (home slots k + d) mod cap slots.

(** Every stored key is reached from its home through slots that are neither
    empty nor hold the same key. *)
Definition probe_ok slots : Prop :=
  forall j, 0 <= j < cap slots -> slot_key (slot_at slots j) <> 0 ->
  let k := slot_key (slot_at slots j) in
  forall d, 0 <= d < (j - home slots k) mod cap slots ->
    slot_key (slot_at slots (nth_probe slots k d)) <> 0 /\
    slot_key (slot_at slots (nth_probe slots k d)) <> k.

Record repr slots (m : gmap Z A) : Prop := {
  repr_pow : exists n, 0 <= n /\ cap slots = 2 ^ n;
  repr_probe : probe_ok slots;
  repr_map : forall k a, m !! k = Some a <->
    k <> 0 /\ slot_key a = k /\ exists j, 0 <= j < cap slots /\ slot_at slots j = a;
  repr_size : occupied slots = size m }.

Lemma land_mask n z : 0 <= n -> Z.land z (2 ^ n - 1) = z mod 2 ^ n.
Proof. intros. rewrite <- Z.land_ones by done. f_equal. rewrite Z.ones_equiv. lia. Qed.

Lemma slot_at_lookup slots j : 0 <= j < cap slots ->
  slots !! Z.to_nat j = Some (slot_at slots j).
Proof.
  intros [? ?]. unfold cap, slot_at in *.
  destruct (slots !! Z.to_nat j) as [a|] eqn:E.
  - by rewrite (nth_lookup_Some _ _ _ _ E).
  - apply lookup_ge_None in E. lia.
Qed.

Lemma slot_at_store slots i a j : 0 <= i < cap slots -> 0 <= j ->
  slot_at (slot_store slots i a) j = if decide (i = j) then a else slot_at slots j.
Proof.
  intros Hi Hj. unfold slot_at, slot_store, cap in *. rewrite !nth_lookup.
  case_decide as E; [subst; rewrite list_lookup_insert_eq by lia; done|].
  by rewrite list_lookup_insert_ne by lia.
Qed.

Lemma cap_store slots i a : cap (slot_store slots i a) = cap slots.
Proof. unfold cap, slot_store. by rewrite length_insert. Qed.

Lemma occupied_store slots i a : 0 <= i < cap slots -> slot_key a <> 0 ->
  Z.of_nat (occupied (slot_store slots i a)) =
  Z.of_nat (occupied slots) + (if decide (slot_key (slot_at slots i) = 0) then 1 else 0).
Proof.
  intros Hi Ha. pose proof (slot_at_lookup slots i Hi) as Hl.
  unfold occupied, slot_store.
  rewrite <- (take_drop_middle slots (Z.to_nat i) _ Hl) at 2.
  rewrite insert_take_drop by (unfold cap in Hi; lia).
  rewrite !filter_app, !filter_cons, !length_app.
  rewrite (decide_True _ _ Ha). repeat case_decide; try done; simpl; lia.
Qed.

Lemma free_slot slots : (occupied slots < length slots)%nat ->
  exists j, 0 <= j < cap slots /\ slot_key (slot_at slots j) = 0.
Proof.
  unfold occupied, cap. induction slots as [|a slots IH]; simpl; [lia|].
  rewrite filter_cons. case_decide as Ha; simpl; intros Hlt.
  - destruct IH as (j & Hj & E); [lia|]. exists (j + 1). split; [lia|].
    unfold slot_at in *. replace (Z.to_nat (j + 1)) with (S (Z.to_nat j)) by lia. done.
  - exists 0. split; [lia|]. change (slot_key a = 0).
    destruct (decide (slot_key a = 0)); [done|]. by destruct Ha.
Qed.

(** ** The probe sequence *)

Lemma probe_finds slots mask k n fuel d e : 0 <= n -> cap slots = 2 ^ n -> mask = 2 ^ n - 1 ->
  (forall x, 0 <= x -> 0 <= nth_probe slots k x < cap slots) ->
  0 <= d <= e -> e < d + Z.of_nat fuel ->
  slot_key (slot_at slots (nth_probe slots k e)) ∈ [k; 0] ->
  exists e0, d <= e0 <= e /\
    slot_key (slot_at slots (nth_probe slots k e0)) ∈ [k; 0] /\
    (forall x, d <= x < e0 -> slot_key (slot_at slots (nth_probe slots k x)) ∉ [k; 0]) /\
    probe fuel slots mask k (nth_probe slots k d) = Some (nth_probe slots k e0).
Proof.
  intros Hn Hcap -> Hr. revert d. induction fuel as [|f IH]; intros d Hd He Hk; [lia|]. simpl.
  destruct (Z.eqb_spec (slot_key (slot_at slots (nth_probe slots k d))) k) as [E|E1].
  { exists d. split; [lia|]. rewrite E. split; [apply elem_of_cons; by left|].
    split; [intros; lia|done]. }
  destruct (Z.eqb_spec (slot_key (slot_at slots (nth_probe slots k d))) 0) as [E|E2].
  { exists d. split; [lia|]. rewrite E. split; [apply elem_of_cons; right; by left|].
    split; [intros; lia|done]. }
  assert (slot_key (slot_at slots (nth_probe slots k d)) ∉ [k; 0]) as Hnot.
  { intros Hin. apply elem_of_cons in Hin as [?|Hin]; [done|].
    apply elem_of_cons in Hin as [?|Hin]; [done|]. by apply elem_of_nil in Hin. }
  assert (d <> e) by (intros ->; done).
  destruct (IH (d + 1)) as (e0 & He0 & Hin & Hbefore & Hp); [lia..|done|].
  exists e0. split; [lia|]. split; [done|]. split.
  { intros x Hx. destruct (decide (x = d)) as [->|]; [done|]. apply Hbefore. lia. }
  rewrite <- Hp. f_equal. rewrite land_mask by done. unfold nth_probe. rewrite Hcap.
  pose proof (Z.pow_pos_nonneg 2 n).
  rewrite Z.add_mod_idemp_l by lia. f_equal. lia.
Qed.

Lemma nth_probe_range slots k x : 0 < cap slots -> 0 <= nth_probe slots k x < cap slots.
Proof. intros. apply Z.mod_pos_bound. done. Qed.

Lemma nth_probe_dist slots k j : 0 <= j < cap slots ->
  nth_probe slots k ((j - home slots k) mod cap slots) = j.
Proof.
  intros Hj. unfold nth_probe. rewrite Z.add_mod_idemp_r by lia.
  replace (home slots k + (j - home slots k)) with j by lia. by apply Z.mod_small.
Qed.

Lemma dist_nth_probe slots k d : 0 < cap slots -> 0 <= d < cap slots ->
  (nth_probe slots k d - home slots k) mod cap slots = d.
Proof.
  intros Hc Hd. unfold nth_probe. rewrite Zminus_mod_idemp_l.
  replace (home slots k + d - home slots k) with d by lia. by apply Z.mod_small.
Qed.

Lemma nth_probe_inj slots k d d' : 0 < cap slots -> 0 <= d < cap slots ->
  0 <= d' < cap slots -> nth_probe slots k d = nth_probe slots k d' -> d = d'.
Proof.
  intros Hc Hd Hd' E. rewrite <- (dist_nth_probe slots k d), E by done.
  by apply dist_nth_probe.
Qed.

Lemma repr_cap_pos slots m : repr slots m -> 0 < cap slots.
Proof. intros [(n & Hn & ->) _ _ _]. by apply Z.pow_pos_nonneg. Qed.

(** The slot a probe stops at, as an offset from the home of the key. *)
Lemma locate_offset slots m k : repr slots m -> k <> 0 -> (size m < length slots)%nat ->
  exists e, 0 <= e < cap slots /\
    locate slots (cap slots - 1) k = Some (nth_probe slots k e) /\
    slot_key (slot_at slots (nth_probe slots k e)) ∈ [k; 0] /\
    (forall x, 0 <= x < e -> slot_key (slot_at slots (nth_probe slots k x)) ∉ [k; 0]).
Proof.
  intros R Hk Hsz. pose proof (repr_cap_pos _ _ R) as Hc.
  destruct R as [(n & Hn & Hcap) Hok Hmap Hocc].
  destruct (free_slot slots) as (j & Hj & Hz); [lia|].
  destruct (probe_finds slots (cap slots - 1) k n (length slots) 0
              ((j - home slots k) mod cap slots)) as (e & He & Hin & Hb & Hp);
    [done|done|by rewrite Hcap|intros; by apply nth_probe_range| | | |].
  - pose proof (Z.mod_pos_bound (j - home slots k) (cap slots) Hc). lia.
  - pose proof (Z.mod_pos_bound (j - home slots k) (cap slots) Hc). unfold cap in *. lia.
  - rewrite nth_probe_dist by done. rewrite Hz. apply elem_of_cons; right; by left.
  - pose proof (Z.mod_pos_bound (j - home slots k) (cap slots) Hc).
    exists e. split; [lia|]. split; [|by split].
    rewrite <- Hp. unfold locate. f_equal. rewrite Hcap at 1.
    rewrite land_mask by done. unfold nth_probe, home. rewrite Z.add_0_r, Z.mod_mod by lia.
    by rewrite Hcap.
Qed.

(** ** Lookup and insertion *)

Lemma in_key_or_0 (x k : Z) : x ∈ [k; 0] <-> x = k \/ x = 0.
Proof. rewrite !elem_of_cons, elem_of_nil. tauto. Qed.

(** A probe stops at the slot of its key when the key is stored and at a free
    slot otherwise. *)
Lemma locate_spec slots m k : repr slots m -> k <> 0 -> (size m < length slots)%nat ->
  exists i, locate slots (cap slots - 1) k = Some i /\ 0 <= i < cap slots /\
    match m !! k with
    | Some a => slot_at slots i = a /\ slot_key a = k
    | None => slot_key (slot_at slots i) = 0
    end.
Proof.
  intros R Hk Hsz. pose proof (repr_cap_pos _ _ R) as Hc.
  destruct (locate_offset slots m k R Hk Hsz) as (e & He & Hl & Hin & Hb).
  exists (nth_probe slots k e). split; [done|].
  split; [by apply nth_probe_range|].
  destruct (m !! k) as [a|] eqn:E.
  - apply (repr_map _ _ R) in E as (_ & Hka & j & Hj & Hja).
    set (d := (j - home slots k) mod cap slots).
    assert (0 <= d < cap slots) as Hd by (apply Z.mod_pos_bound; done).
    assert (nth_probe slots k d = j) as Ed by (by apply nth_probe_dist).
    assert (e = d) as ->; [|by rewrite Ed].
    pose proof (repr_probe _ _ R j Hj) as Hok. rewrite Hja, Hka in Hok.
    destruct (Z.lt_trichotomy e d) as [Hlt|[?|Hgt]]; [exfalso|done|exfalso].
    + destruct (Hok Hk e) as [H0 H1]; [unfold d in Hlt; lia|].
      apply in_key_or_0 in Hin. tauto.
    + apply (Hb d); [lia|]. rewrite Ed, Hja, Hka. apply in_key_or_0. by left.
  - apply in_key_or_0 in Hin as [Hin|Hin]; [|done]. exfalso.
    assert (m !! k = Some (slot_at slots (nth_probe slots k e))) as E'; [|congruence].
    apply (repr_map _ _ R). split; [done|]. split; [done|].
    eexists. split; [|done]. by apply nth_probe_range.
Qed.

Lemma home_store slots i a k : home (slot_store slots i a) k = home slots k.
Proof. unfold home. by rewrite cap_store. Qed.
Lemma nth_probe_store slots i a k d :
  nth_probe (slot_store slots i a) k d = nth_probe slots k d.
Proof. unfold nth_probe. by rewrite home_store, cap_store. Qed.

Lemma probe_ok_store slots i a k e : 0 < cap slots -> probe_ok slots -> slot_key a = k ->
  k <> 0 -> 0 <= e < cap slots -> i = nth_probe slots k e ->
  slot_key (slot_at slots i) ∈ [k; 0] ->
  (forall x, 0 <= x < e -> slot_key (slot_at slots (nth_probe slots k x)) ∉ [k; 0]) ->
  probe_ok (slot_store slots i a).
Proof.
  intros Hc Hok Ha Hk He Hi Hin Hb j Hj.
  assert (0 <= i < cap slots) as Hir by (rewrite Hi; by apply nth_probe_range).
  rewrite cap_store in Hj. rewrite slot_at_store by lia.
  case_decide as Hij; [rewrite Ha; intros _; simpl|intros Hkj; simpl]; intros d Hd;
    rewrite home_store, cap_store in Hd; rewrite nth_probe_store.
  - subst j. rewrite Hi, dist_nth_probe in Hd by done.
    rewrite slot_at_store by (done || apply nth_probe_range; done).
    case_decide as Hx.
    + rewrite Hi in Hx. apply nth_probe_inj in Hx; [lia|done|lia|lia].
    + specialize (Hb d Hd). rewrite in_key_or_0 in Hb. tauto.
  - destruct (Hok j Hj Hkj d Hd) as [H0 H1].
    rewrite slot_at_store by (done || apply nth_probe_range; done).
    case_decide as Hx; [|done]. rewrite <- Hx in H0, H1.
    apply in_key_or_0 in Hin as [Hin|Hin]; [|done]. rewrite Ha. by rewrite <- Hin.
Qed.

(** A key occupies at most one slot. *)
Lemma probe_ok_unique slots i j : 0 < cap slots -> probe_ok slots ->
  0 <= i < cap slots -> 0 <= j < cap slots ->
  slot_key (slot_at slots i) = slot_key (slot_at slots j) ->
  slot_key (slot_at slots i) <> 0 -> i = j.
Proof.
  intros Hc Hok Hi Hj E Hk. set (k := slot_key (slot_at slots i)) in *.
  pose proof (Z.mod_pos_bound (i - home slots k) (cap slots) Hc).
  pose proof (Z.mod_pos_bound (j - home slots k) (cap slots) Hc).
  pose proof (nth_probe_dist slots k i Hi) as Ei.
  pose proof (nth_probe_dist slots k j Hj) as Ej.
  destruct (Z.lt_trichotomy ((i - home slots k) mod cap slots)
              ((j - home slots k) mod cap slots)) as [Hlt|[Heq|Hgt]].
  - destruct (Hok j Hj ltac:(by rewrite <- E) ((i - home slots k) mod cap slots)) as [_ Hne];
      rewrite <- E in *; [lia|]. by rewrite Ei in Hne.
  - rewrite <- Ei, <- Ej. by rewrite Heq.
  - destruct (Hok i Hi Hk ((j - home slots k) mod cap slots)) as [_ Hne]; [fold k; lia|].
    fold k in Hne. rewrite Ej in Hne. by rewrite E in Hne.
Qed.

(** Storing a record at the slot its probe stops at inserts it in the map. *)
Lemma store_repr slots m k i a : repr slots m -> k <> 0 -> (size m < length slots)%nat ->
  slot_key a = k -> locate slots (cap slots - 1) k = Some i ->
  repr (slot_store slots i a) (<[k := a]> m).
Proof.
  intros R Hk Hsz Ha Hl. pose proof (repr_cap_pos _ _ R) as Hc.
  destruct (locate_offset slots m k R Hk Hsz) as (e & He & Hl' & Hin & Hb).
  destruct (locate_spec slots m k R Hk Hsz) as (i' & Hl'' & Hi & Hm).
  rewrite Hl in Hl', Hl''. injection Hl' as Ei. injection Hl'' as <-.
  assert (probe_ok (slot_store slots i a)) as Hok.
  { apply (probe_ok_store slots i a k e); try done; [apply (repr_probe _ _ R)|].
    by rewrite Ei. }
  split; [rewrite cap_store; apply R|done| |].
  - intros k' a'. rewrite cap_store. rewrite lookup_insert. case_decide as Ek.
    + subst k'. split.
      * intros [= <-]. split; [done|]. split; [done|]. exists i. split; [done|].
        rewrite slot_at_store by lia. by rewrite decide_True.
      * intros (_ & Hka & j & Hj & Hja). rewrite slot_at_store in Hja by lia.
        case_decide as Eij; [by f_equal|]. exfalso. apply Eij.
        assert (m !! k = Some a') as Ea' by (apply (repr_map _ _ R); eauto).
        rewrite Ea' in Hm. destruct Hm as [Hm1 Hm2].
        apply (probe_ok_unique slots); [done|apply (repr_probe _ _ R)|done|done| |].
        -- by rewrite Hm1, Hja.
        -- by rewrite Hm1, Hm2.
    + rewrite (repr_map _ _ R). split; intros (H0 & Hka & j & Hj & Hja).
      * split; [done|]. split; [done|]. exists j. split; [done|].
        rewrite slot_at_store by lia. rewrite decide_False; [done|].
        intros ->. rewrite Ei in Hja. apply in_key_or_0 in Hin. rewrite Hja, Hka in Hin.
        destruct Hin; congruence.
      * split; [done|]. split; [done|]. exists j. split; [done|].
        rewrite slot_at_store in Hja by lia. case_decide; [congruence|done].
  - apply Nat2Z.inj. rewrite occupied_store by (rewrite ?Ha; done).
    rewrite (repr_size _ _ R). destruct (m !! k) as [b|] eqn:Eb.
    + destruct Hm as [Hm1 Hm2]. rewrite Hm1, Hm2, decide_False by done.
      rewrite map_size_insert_Some by eauto. lia.
    + rewrite Hm, decide_True by done. rewrite map_size_insert_None by done. lia.
Qed.

Lemma empty_repr n : 0 <= n ->
  repr (replicate (Z.to_nat (2 ^ n)) slot_empty) (∅ : gmap Z A).
Proof.
  intros Hn. pose proof (Z.pow_pos_nonneg 2 n).
  assert (forall j, slot_key (slot_at (replicate (Z.to_nat (2 ^ n)) slot_empty) j) = 0) as E.
  { intros j. unfold slot_at. rewrite nth_lookup.
    destruct (_ !! _) as [a|] eqn:L; simpl; [|apply slot_empty_key].
    apply lookup_replicate in L as [-> _]. apply slot_empty_key. }
  split.
  - exists n. split; [done|]. unfold cap. rewrite length_replicate. lia.
  - intros j _ Hj. by rewrite E in Hj.
  - intros k a. rewrite lookup_empty. split; [done|]. intros (Hk0 & Hka & j & _ & <-).
    rewrite E in Hka. congruence.
  - rewrite map_size_empty. unfold occupied. clear.
    induction (Z.to_nat (2 ^ n)) as [|c IH]; simpl; [done|].
    rewrite filter_cons, decide_False; [exact IH|]. rewrite slot_empty_key. auto.
Qed.
End Probe.

(** ** Table sizes *)

(** [while (p < n) p <<= 1;] on a 64-bit [p]; [None] if it has not stopped. *)
Fixpoint pow2_loop (fuel : nat) (p n : Z) : option Z :=
  match fuel with
  | O => None
  | S f => if p <? n then pow2_loop f (u64 (Z.shiftl p 1)) n else Some p
  end.

Lemma pow2_loop_spec fuel j n : 0 <= j -> n <= 2 ^ 63 -> j + Z.of_nat fuel > 63 -> j <= 63 ->
  exists m, j <= m <= 63 /\ pow2_loop fuel (2 ^ j) n = Some (2 ^ m) /\ n <= 2 ^ m /\
    (m = j \/ 2 ^ (m - 1) < n).
Proof.
  revert j. induction fuel as [|f IH]; intros j Hj Hn Hf Hj63; [lia|]. simpl.
  destruct (Z.ltb_spec (2 ^ j) n) as [Hlt|Hge].
  - assert (j < 63) by (apply (Z.pow_lt_mono_r_iff 2); lia).
    rewrite Z.shiftl_mul_pow2 by lia. rewrite <- Z.pow_add_r by lia.
    rewrite wrap_id by (split; [apply Z.pow_nonneg; lia|apply Z.pow_lt_mono_r; lia]).
    destruct (IH (j + 1)) as (m & Hm & -> & Hle & Hmin); [lia..|].
    exists m. split; [lia|]. split; [done|]. split; [done|]. right.
    destruct Hmin as [->|?]; [|done]. by replace (j + 1 - 1) with j by lia.
  - exists j. split; [lia|]. split; [done|]. split; [done|by left].
Qed.
