(* ===== verification/FlatSet.v ===== *)
(** * FlatSet: the open-addressing key set ([include/policy/flat_set.hpp])

    [FlatSet64], the set behind the IMEI blocklist and the roaming-partner
    table.  [None] stands for a probe or sizing loop that does not stop. *)

From S2P Require Import Prelude Probe.
From Stdlib Require Import ZArith Lia Bool.
From stdpp Require Import base list numbers gmap sets.
Local Open Scope Z_scope.

#[export] Instance key_slot : Slotted Z :=
  {| slot_key := fun k => k; slot_empty := 0; slot_empty_key := eq_refl |}.

Record FlatSet64 := mkFlatSet { fs_slots : list Z; fs_mask : Z; fs_size : Z }.

Definition fs_empty : FlatSet64 := mkFlatSet [] 0 0.

Definition fs_insert (s : FlatSet64) (key : Z) : option FlatSet64 :=
  if key =? 0 then Some s
  else match locate splitmix64 (fs_slots s) (fs_mask s) key with
       | None => None
       | Some i =>
           if slot_at (fs_slots s) i =? key then Some s
           else Some (mkFlatSet (slot_store (fs_slots s) i key) (fs_mask s) (fs_size s + 1))
       end.

Fixpoint fs_insert_all (s : FlatSet64) (keys : list Z) : option FlatSet64 :=
  match keys with
  | [] => Some s
  | k :: ks => match fs_insert s k with Some s' => fs_insert_all s' ks | None => None end
  end.

Definition rebuild (keys : list Z) : option FlatSet64 :=
  match keys with
  | [] => Some fs_empty
  | _ =>
      match pow2_loop 64 8 (u64 (Z.of_nat (length keys) * 2)) with
      | None => None
      | Some cap =>
          fs_insert_all (mkFlatSet (replicate (Z.to_nat cap) 0) (cap - 1) 0) keys
      end
  end.

Definition fs_contains (s : FlatSet64) (key : Z) : option bool :=
  if (length (fs_slots s) =? 0)%nat || (key =? 0) then Some false
  else match locate splitmix64 (fs_slots s) (fs_mask s) key with
       | None => None
       | Some i => Some (slot_at (fs_slots s) i =? key)
       end.

(** [for_each]: the live keys. *)
Definition fs_keys (s : FlatSet64) : list Z := filter (fun k => k <> 0) (fs_slots s).

(** ** A set is represented by the map from each key to itself *)

Definition id_map (X : gset Z) : gmap Z Z := set_to_map (fun k => (k, k)) X.

Lemma id_map_lookup X k a : id_map X !! k = Some a <-> k ∈ X /\ a = k.
Proof.
  unfold id_map. rewrite lookup_set_to_map by (by intros ?? _ _).
  split; [intros (? & ? & [= -> ->])|intros [? ->]]; eauto.
Qed.

Lemma id_map_insert X k : <[k := k]> (id_map X) = id_map ({[k]} ∪ X).
Proof.
  apply map_eq. intros j. apply option_eq. intros a.
  rewrite lookup_insert_Some, !id_map_lookup, elem_of_union, elem_of_singleton. split.
  - intros [[-> ->]|(? & ? & ->)]; auto.
  - intros [[->|?] ->]; [by left|]. destruct (decide (k = j)); [by left|by right].
Qed.

Lemma id_map_size X : size (id_map X) = size X.
Proof.
  rewrite <- (size_dom (D := gset Z)). f_equal. apply set_eq. intros k.
  rewrite elem_of_dom. split.
  - intros [a Ha]. by apply id_map_lookup in Ha as [? _].
  - intros Hk. exists k. by apply id_map_lookup.
Qed.

Lemma id_map_empty : id_map ∅ = ∅.
Proof. apply map_eq. intros k. apply option_eq. intros a. rewrite id_map_lookup. set_solver. Qed.

(** [s] holds exactly the keys of [X] and at least one slot is free. *)
Record fs_repr (s : FlatSet64) (X : gset Z) : Prop := {
  fs_repr_table : repr splitmix64 (fs_slots s) (id_map X);
  fs_repr_mask : fs_mask s = cap (fs_slots s) - 1;
  fs_repr_size : fs_size s = Z.of_nat (size X) }.

Lemma fs_insert_repr s X key : fs_repr s X -> (size X < length (fs_slots s))%nat ->
  exists s', fs_insert s key = Some s' /\ length (fs_slots s') = length (fs_slots s) /\
    fs_repr s' (if decide (key = 0) then X else {[key]} ∪ X).
Proof.
  intros [R Hm Hs] Hsz. unfold fs_insert.
  destruct (Z.eqb_spec key 0) as [->|Hk]; [by exists s|]. rewrite decide_False by done.
  destruct (locate_spec splitmix64 (fs_slots s) (id_map X) key R Hk) as (i & Hl & Hi & Hf);
    [by rewrite id_map_size|].
  rewrite Hm, Hl. destruct (id_map X !! key) as [a|] eqn:E.
  - apply id_map_lookup in E as E'. destruct E' as [Hin ->]. destruct Hf as [-> _].
    rewrite Z.eqb_refl. exists s. split; [done|]. split; [done|].
    replace ({[key]} ∪ X) with X by set_solver. done.
  - simpl in Hf. rewrite Hf. destruct (Z.eqb_spec 0 key); [done|].
    eexists. split; [done|]. simpl. split; [apply length_insert|].
    assert (key ∉ X) as Hnin.
    { intros Hin. assert (id_map X !! key = Some key) as E' by (by apply id_map_lookup). congruence. }
    split; simpl.
    + rewrite <- id_map_insert. eapply store_repr; try done. by rewrite id_map_size.
    + by rewrite cap_store.
    + rewrite size_union, size_singleton by set_solver. lia.
Qed.

Lemma fs_insert_all_repr s X keys : fs_repr s X ->
  (size X + length keys < length (fs_slots s))%nat ->
  exists s', fs_insert_all s keys = Some s' /\ length (fs_slots s') = length (fs_slots s) /\
    fs_repr s' ((list_to_set keys ∖ {[0]}) ∪ X).
Proof.
  revert s X. induction keys as [|k ks IH]; intros s X R Hsz; simpl in *.
  - exists s. split; [done|]. split; [done|]. by replace (∅ ∖ {[0]} ∪ X) with X by set_solver.
  - destruct (fs_insert_repr s X k R) as (s1 & -> & Hl1 & R1); [lia|].
    destruct (IH s1 _ R1) as (s2 & -> & Hl2 & R2).
    { rewrite Hl1. case_decide; [lia|].
      pose proof (size_union_alt {[k]} X). pose proof (subseteq_size (X ∖ {[k]}) X ltac:(set_solver)).
      rewrite size_singleton in *. lia. }
    exists s2. split; [done|]. split; [lia|].
    replace (({[k]} ∪ list_to_set ks) ∖ {[0]} ∪ X) with
      ((list_to_set ks ∖ {[0]}) ∪ (if decide (k = 0) then X else {[k]} ∪ X)); [done|].
    case_decide; set_solver.
Qed.

Lemma list_to_set_size (l : list Z) : (size (list_to_set l : gset Z) <= length l)%nat.
Proof.
  induction l as [|a l IH]; [done|]. cbn [list_to_set length].
  pose proof (size_union_alt {[a]} (list_to_set l : gset Z)).
  pose proof (subseteq_size (list_to_set l ∖ {[a]}) (list_to_set l : gset Z) ltac:(set_solver)).
  rewrite size_singleton in *. lia.
Qed.

Lemma fs_contains_repr s X k : fs_repr s X -> (size X < length (fs_slots s))%nat -> 0 ∉ X ->
  fs_contains s k = Some (bool_decide (k ∈ X)).
Proof.
  intros [R Hm _] Hsz H0. unfold fs_contains.
  destruct (Nat.eqb_spec (length (fs_slots s)) 0); [lia|]. simpl.
  destruct (Z.eqb_spec k 0) as [->|Hk]; [by rewrite bool_decide_false|].
  destruct (locate_spec splitmix64 (fs_slots s) _ k R Hk) as (i & Hl & Hi & Hf).
  { by rewrite id_map_size. }
  rewrite Hm, Hl. f_equal. apply eq_true_iff_eq. rewrite bool_decide_eq_true, Z.eqb_eq.
  destruct (id_map _ !! k) as [a|] eqn:Ek.
  - apply id_map_lookup in Ek as [Hin ->]. destruct Hf as [-> _]. done.
  - simpl in Hf. rewrite Hf. split; [congruence|]. intros Hin. exfalso.
    assert (id_map X !! k = Some k) as E'; [by apply id_map_lookup|congruence].
Qed.

(** What a set promises its clients: [contains] always answers, and answers
    membership in [X]. *)
Definition fs_holds (s : FlatSet64) (X : gset Z) : Prop :=
  forall k, fs_contains s k = Some (bool_decide (k ∈ X)).

Lemma fs_empty_holds : fs_holds fs_empty ∅.
Proof. intros k. simpl. by rewrite bool_decide_false by set_solver. Qed.

Lemma rebuild_holds keys : Z.of_nat (length keys) < 2 ^ 61 ->
  exists s, rebuild keys = Some s /\ fs_holds s (list_to_set keys ∖ {[0]}) /\
    fs_size s = Z.of_nat (size (list_to_set keys ∖ {[0]} : gset Z)).
Proof.
  intros Hlen. destruct keys as [|k0 ks].
  { exists fs_empty. split; [done|]. split; [|done].
    replace (list_to_set [] ∖ {[0]}) with (∅ : gset Z) by set_solver. apply fs_empty_holds. }
  unfold rebuild. set (keys := k0 :: ks) in *.
  rewrite wrap_id by (unfold fits; lia).
  destruct (pow2_loop_spec 64 3 (Z.of_nat (length keys) * 2)) as (n & Hn & E & Hge & _); [lia..|].
  change 8 with (2 ^ 3). rewrite E.
  assert (0 < Z.of_nat (length keys)) by (unfold keys; simpl; lia). clearbody keys.
  assert (Z.of_nat (length (replicate (Z.to_nat (2 ^ n)) 0)) = 2 ^ n) as El.
  { rewrite length_replicate. pose proof (Z.pow_pos_nonneg 2 n). lia. }
  destruct (fs_insert_all_repr (mkFlatSet (replicate (Z.to_nat (2 ^ n)) 0) (2 ^ n - 1) 0) ∅ keys)
    as (s & Es & Hls & R).
  { split; simpl; [rewrite id_map_empty; exact (empty_repr (A := Z) splitmix64 n ltac:(lia))| |done].
    unfold cap. by rewrite El. }
  { cbn [fs_slots]. rewrite size_empty. lia. }
  rewrite union_empty_r_L in R. pose proof (list_to_set_size keys) as Hle.
  assert (size (list_to_set keys ∖ {[0%Z]} : gset Z) < length (fs_slots s))%nat as Hsz.
  { rewrite Hls. cbn [fs_slots]. pose proof (subseteq_size
      (list_to_set keys ∖ {[0]}) (list_to_set keys : gset Z)
      ltac:(by apply subseteq_difference_l)). lia. }
  exists s. split; [done|]. split; [|apply (fs_repr_size _ _ R)]. intros k.
  apply (fs_contains_repr s _ k R Hsz). rewrite elem_of_difference, elem_of_singleton. tauto.
Qed.

(** C28: [rebuild] always returns a set that answers [contains] for every key:
    true exactly for the non-zero keys of the list (duplicates and zeros
    dropped), whatever the collisions, and every probe stops.  [size] counts
    the distinct keys.  The bound is the largest [std::vector] of 64-bit keys. *)
Theorem rebuild_contains keys : Z.of_nat (length keys) < 2 ^ 61 ->
  exists s, rebuild keys = Some s /\
    (forall k, fs_contains s k = Some (bool_decide (k <> 0 /\ k ∈ keys))) /\
    fs_size s = Z.of_nat (size (list_to_set keys ∖ {[0]} : gset Z)).
Proof.
  intros Hlen. destruct (rebuild_holds keys Hlen) as (s & E & H & Hs).
  exists s. split; [done|]. split; [|done]. intros k. rewrite H. f_equal.
  apply bool_decide_ext.
  rewrite elem_of_difference, elem_of_list_to_set, elem_of_singleton. tauto.
Qed.

Lemma rebuild_contains_witness :
  exists s, rebuild [310260; 310410; 0; 310260] = Some s /\
    (forall k, fs_contains s k = Some (bool_decide (k <> 0 /\ k ∈ [310260; 310410; 0; 310260]))) /\
    fs_size s = 2.
Proof.
  destruct (rebuild_contains [310260; 310410; 0; 310260] ltac:(simpl; lia)) as (s & E & H & Hs).
  exists s. split; [exact E|]. split; [exact H|]. rewrite Hs. vm_compute. reflexivity.
Defined.
