(* ===== verification/Store.v ===== *)
(** * Store: the subscriber table
      ([include/policy/subscriber_store.hpp], [src/subscriber_store.cpp])

    A flat open-addressing table of records keyed by packed IMSI, grown by
    doubling, with the relaxed usage counter updates and the CSV loader.  The
    abstract specification is a finite map from IMSI to record.  [None] stands
    for a loop that does not stop. *)

From S2P Require Import Prelude Text Imsi Double Probe.
From Stdlib Require Import ZArith Lia Bool Ascii String.
From stdpp Require Import base list numbers strings gmap.
Local Open Scope Z_scope.

Inductive SubscriberStatus := kActive | kSuspended | kBarred.
Definition status_code (s : SubscriberStatus) : Z :=
  match s with kActive => 0 | kSuspended => 1 | kBarred => 2 end.

Definition kSubRoamingAllowed : Z := Z.shiftl 1 0.
Definition kSubTetheringAllowed : Z := Z.shiftl 1 1.
Definition kSubVolteEnabled : Z := Z.shiftl 1 2.
Definition kSubTestSubscriber : Z := Z.shiftl 1 3.

(** The 16 reserved padding bytes carry no data and are omitted. *)
Record SubscriberRecord := mkRecord {
  s_imsi : Z; s_imei : Z; s_plan_id : Z; s_status : Z; s_bytes_used_period : Z;
  s_period_reset_ts : Z; s_home_plmn : Z; s_flags : Z }.

#[export] Instance SubscriberRecord_eq_dec : EqDecision SubscriberRecord.
Proof. solve_decision. Defined.

Definition zero_record : SubscriberRecord := mkRecord 0 0 0 0 0 0 0 0.

(** [__atomic_load_n(&r.bytes_used_period, RELAXED)]. *)
Definition load_usage (r : SubscriberRecord) : Z := s_bytes_used_period r.

#[export] Instance record_slot : Slotted SubscriberRecord :=
  {| slot_key := s_imsi; slot_empty := zero_record; slot_empty_key := eq_refl |}.

Record SubscriberStore := mkStore {
  st_slots : list SubscriberRecord; st_mask : Z; st_size : Z; st_max_load_factor : double }.

Definition next_pow2 (n : Z) : option Z := pow2_loop 64 8 n.

(** [std::clamp(load_factor, 0.25, 0.9)]. *)
Definition clamp_load_factor (lf : double) : double :=
  if dltb lf (dlit 25 (-2)) then dlit 25 (-2)
  else if dltb (dlit 9 (-1)) lf then dlit 9 (-1) else lf.

Definition slots_for (n : Z) (load_factor : double) : option Z :=
  next_pow2 (u64 (dceil (ddiv (double_of_Z (Z.max n 4)) (clamp_load_factor load_factor)))).

Definition new_store (expected_subscribers : Z) (max_load_factor : double)
  : option SubscriberStore :=
  let mlf := clamp_load_factor max_load_factor in
  match slots_for expected_subscribers mlf with
  | None => None
  | Some cap => Some (mkStore (replicate (Z.to_nat cap) zero_record) (cap - 1) 0 mlf)
  end.

Definition hash (x : Z) : Z := splitmix64 x.

Definition find (s : SubscriberStore) (imsi : Z) : option (option SubscriberRecord) :=
  if imsi =? 0 then Some None
  else match locate hash (st_slots s) (st_mask s) imsi with
       | None => None
       | Some i =>
           let r := slot_at (st_slots s) i in
           Some (if s_imsi r =? imsi then Some r else None)
       end.

(** The slot index behind the returned pointer. *)
Definition find_mutable (s : SubscriberStore) (imsi : Z) : option (option Z) :=
  if imsi =? 0 then Some None
  else match locate hash (st_slots s) (st_mask s) imsi with
       | None => None
       | Some i => Some (if s_imsi (slot_at (st_slots s) i) =? imsi then Some i else None)
       end.

(** The probe loop at the end of [upsert]. *)
Definition place (s : SubscriberStore) (rec : SubscriberRecord) : option SubscriberStore :=
  match locate hash (st_slots s) (st_mask s) (s_imsi rec) with
  | None => None
  | Some i =>
      let slots := slot_store (st_slots s) i rec in
      if s_imsi (slot_at (st_slots s) i) =? s_imsi rec
      then Some (mkStore slots (st_mask s) (st_size s) (st_max_load_factor s))
      else Some (mkStore slots (st_mask s) (st_size s + 1) (st_max_load_factor s))
  end.

Definition over_load (s : SubscriberStore) : bool :=
  dltb (dmul (double_of_Z (Z.of_nat (length (st_slots s)))) (st_max_load_factor s))
       (double_of_Z (st_size s + 1)).

(** The loop of [grow] over the old slots, given the [upsert] it calls. *)
Fixpoint reinsert (ups : SubscriberStore -> SubscriberRecord -> option (bool * SubscriberStore))
    (old : list SubscriberRecord) (s : SubscriberStore) : option SubscriberStore :=
  match old with
  | [] => Some s
  | r :: old' =>
      if negb (s_imsi r =? 0) then
        match ups s r with Some (_, s') => reinsert ups old' s' | None => None end
      else reinsert ups old' s
  end.

Definition grow (ups : SubscriberStore -> SubscriberRecord -> option (bool * SubscriberStore))
    (s : SubscriberStore) (new_capacity : Z) : option SubscriberStore :=
  reinsert ups (st_slots s)
    (mkStore (replicate (Z.to_nat new_capacity) zero_record) (new_capacity - 1) 0
             (st_max_load_factor s)).

(** [upsert] calls [grow], which calls [upsert]: [depth] bounds the nesting. *)
Fixpoint upsert_at (depth : nat) (s : SubscriberStore) (rec : SubscriberRecord)
  : option (bool * SubscriberStore) :=
  match depth with
  | O => None
  | S depth' =>
      if s_imsi rec =? 0 then Some (false, s)
      else
        let s' :=
          if over_load s
          then grow (upsert_at depth') s (u64 (Z.of_nat (length (st_slots s)) * 2))
          else Some s in
        match s' with
        | None => None
        | Some s' => match place s' rec with Some s'' => Some (true, s'') | None => None end
        end
  end.

(** Re-insertion never grows the doubled table again, so two levels are enough
    ([upsert_rep]). *)
Definition upsert : SubscriberStore -> SubscriberRecord -> option (bool * SubscriberStore) :=
  upsert_at 2.

Definition set_usage (r : SubscriberRecord) (v : Z) : SubscriberRecord :=
  mkRecord (s_imsi r) (s_imei r) (s_plan_id r) (s_status r) v (s_period_reset_ts r)
    (s_home_plmn r) (s_flags r).

Definition add_usage_record (bytes : Z) (r : SubscriberRecord) : SubscriberRecord :=
  set_usage r (u64 (s_bytes_used_period r + bytes)).

Definition reset_record (new_reset_ts : Z) (r : SubscriberRecord) : SubscriberRecord :=
  mkRecord (s_imsi r) (s_imei r) (s_plan_id r) (s_status r) 0 new_reset_ts
    (s_home_plmn r) (s_flags r).

Definition with_slots (s : SubscriberStore) (l : list SubscriberRecord) : SubscriberStore :=
  mkStore l (st_mask s) (st_size s) (st_max_load_factor s).

Definition add_usage (s : SubscriberStore) (imsi bytes : Z) : option SubscriberStore :=
  match find_mutable s imsi with
  | None => None
  | Some None => Some s
  | Some (Some i) =>
      Some (with_slots s
              (slot_store (st_slots s) i (add_usage_record bytes (slot_at (st_slots s) i))))
  end.

Definition reset_period (s : SubscriberStore) (imsi new_reset_ts : Z)
  : option (bool * SubscriberStore) :=
  match find_mutable s imsi with
  | None => None
  | Some None => Some (false, s)
  | Some (Some i) =>
      Some (true, with_slots s
              (slot_store (st_slots s) i (reset_record new_reset_ts (slot_at (st_slots s) i))))
  end.

(** [stats()]: capacity, bytes and the probe lengths; the two quotients are
    doubles. *)
Record StoreStats := mkStats {
  stat_size : Z; stat_capacity : Z; stat_memory_bytes : Z; stat_load_factor : double;
  stat_mean_probe_length : double; stat_max_probe_length : Z }.

Fixpoint probe_lengths (s : SubscriberStore) (i : Z) (l : list SubscriberRecord) : list Z :=
  match l with
  | [] => []
  | r :: l' =>
      let rest := probe_lengths s (i + 1) l' in
      if s_imsi r =? 0 then rest
      else
        let home := Z.land (hash (s_imsi r)) (st_mask s) in
        (Z.land (u64 (i - home)) (st_mask s) + 1) :: rest
  end.

Definition stats (s : SubscriberStore) : StoreStats :=
  let lens := probe_lengths s 0 (st_slots s) in
  let total := foldr Z.add 0 lens in
  let cap := Z.of_nat (length (st_slots s)) in
  mkStats (st_size s) cap (cap * 64)
    (if negb (cap =? 0) then ddiv (double_of_Z (st_size s)) (double_of_Z cap) else DFin 0 0)
    (if negb (st_size s =? 0) then ddiv (double_of_Z total) (double_of_Z (st_size s))
     else DFin 0 0)
    (foldr Z.max 0 lens).

(** ** Bulk load from CSV *)

Definition trim (s : string) : string :=
  drop_while_end is_blank_cr (drop_while is_blank_cr s).

(** Up to [n] comma-separated fields; text after the last wanted comma is
    dropped. *)
Fixpoint split_fields (n : nat) (line : string) : list string :=
  match n with
  | O => []
  | S n' =>
      match split_at_char "," line with
      | None => [line]
      | Some (f, rest) => f :: split_fields n' rest
      end
  end.

Definition parse_u64 (s : string) : option Z :=
  match trim s with
  | EmptyString => None
  | t => digits_loop t 0
  end.

Definition parse_status (s : string) : option SubscriberStatus :=
  let s := trim s in
  if bool_decide (s ∈ ["ACTIVE"; "active"; "0"]%string) then Some kActive
  else if bool_decide (s ∈ ["SUSPENDED"; "suspended"; "1"]%string) then Some kSuspended
  else if bool_decide (s ∈ ["BARRED"; "barred"; "2"]%string) then Some kBarred
  else None.

Definition sub_flag_of (tok : string) : Z :=
  if String.eqb tok "roaming" then kSubRoamingAllowed
  else if String.eqb tok "tethering" then kSubTetheringAllowed
  else if String.eqb tok "volte" then kSubVolteEnabled
  else if String.eqb tok "test" then kSubTestSubscriber
  else 0.

(** One iteration per '|'-separated token; a string of length [n] has at most
    [n + 1] tokens. *)
Fixpoint parse_sub_flags_loop (fuel : nat) (s : string) (flags : Z) : Z :=
  match fuel with
  | O => flags
  | S f =>
      match split_at_char "|" s with
      | None => Z.lor flags (sub_flag_of (trim s))
      | Some (tok, rest) => parse_sub_flags_loop f rest (Z.lor flags (sub_flag_of (trim tok)))
      end
  end.
Definition parse_sub_flags (s : string) : Z :=
  parse_sub_flags_loop (S (String.length s)) s 0.

(** One data row: the record, or the message given to [note]. *)
Definition parse_row (plan_names : list string) (sv : string) : string + SubscriberRecord :=
  let f := split_fields 8 sv in
  let n := length f in
  let fld i := nth i f EmptyString in
  if (n <? 7)%nat then
    inl ("expected at least 7 comma-separated fields, got " +:+ to_string (Z.of_nat n))%string
  else
    match parse_imsi (trim (fld 0%nat)) with
    | None | Some 0 => inl ("invalid IMSI '" +:+ trim (fld 0%nat) +:+ "'")%string
    | Some imsi =>
        match parse_imei (trim (fld 1%nat)) with
        | None => inl ("invalid IMEI '" +:+ trim (fld 1%nat) +:+ "'")%string
        | Some imei =>
            match index_of (trim (fld 2%nat)) plan_names with
            | None => inl ("unknown plan '" +:+ trim (fld 2%nat) +:+ "'")%string
            | Some plan =>
                match parse_status (fld 3%nat) with
                | None => inl ("invalid status '" +:+ trim (fld 3%nat) +:+ "'")%string
                | Some status =>
                    match parse_u64 (fld 4%nat), parse_u64 (fld 5%nat),
                          parse_plmn (trim (fld 6%nat)) with
                    | Some used, Some reset_ts, Some plmn =>
                        inr (mkRecord imsi imei (u32 plan) (status_code status) used reset_ts
                               plmn (if (8 <=? n)%nat then parse_sub_flags (fld 7%nat) else 0))
                    | _, _, _ => inl "invalid usage/reset/plmn field"%string
                    end
                end
            end
        end
    end.

Definition kMaxReportedErrors : nat := 32.

Record LoadResult := mkLoad { ld_loaded : Z; ld_skipped : Z; ld_errors : list string }.

Definition load_ok (r : LoadResult) : bool := match ld_errors r with [] => true | _ => false end.

Definition note (path : string) (line_no : Z) (msg : string) (r : LoadResult) : LoadResult :=
  let n := length (ld_errors r) in
  mkLoad (ld_loaded r) (ld_skipped r + 1)
    (if (n <? kMaxReportedErrors)%nat
     then ld_errors r ++ [(path +:+ ":" +:+ to_string line_no +:+ ": " +:+ msg)%string]
     else if (n =? kMaxReportedErrors)%nat then ld_errors r ++ ["... further errors suppressed"%string]
     else ld_errors r).

(** The [std::getline] loop over the lines of the file. *)
Fixpoint load_lines (path : string) (plan_names : list string) (lines : list string)
    (line_no : Z) (header_seen : bool) (s : SubscriberStore) (r : LoadResult)
  : option (SubscriberStore * LoadResult) :=
  match lines with
  | [] => Some (s, r)
  | line :: lines' =>
      let line_no := line_no + 1 in
      let sv := trim line in
      match sv with
      | EmptyString => load_lines path plan_names lines' line_no header_seen s r
      | String c _ =>
          if Ascii.eqb c "#" then load_lines path plan_names lines' line_no header_seen s r
          else if negb header_seen && String.eqb (str_take 4 sv) "imsi" then
            load_lines path plan_names lines' line_no true s r
          else
            match parse_row plan_names sv with
            | inl msg => load_lines path plan_names lines' line_no true s (note path line_no msg r)
            | inr rec =>
                match upsert s rec with
                | None => None
                | Some (_, s') =>
                    load_lines path plan_names lines' line_no true s'
                      (mkLoad (ld_loaded r + 1) (ld_skipped r) (ld_errors r))
                end
            end
      end
  end.

(** [file] is the list of lines of the file, [None] when it cannot be opened. *)
Definition load_csv (s : SubscriberStore) (path : string) (file : option (list string))
    (plan_names : list string) : option (SubscriberStore * LoadResult) :=
  match file with
  | None => Some (s, mkLoad 0 0 [("cannot open subscriber file: " +:+ path)%string])
  | Some lines => load_lines path plan_names lines 0 false s (mkLoad 0 0 [])
  end.

(** ** The table as a finite map *)

(** [mlf] is the exact value [c * 2^t], between a quarter and one. *)
Record lf_ok (mlf : double) (c t : Z) : Prop := {
  lf_val : dval mlf c t;
  lf_c : 0 < c < 2 ^ 53;
  lf_t : -1000 <= t < 0;
  lf_lo : 2 ^ (- t) <= 4 * c;
  lf_hi : c < 2 ^ (- t) }.

(** The invariant of the table, with the map [m] it stands for: the occupancy
    never exceeds the load factor, so a probe always meets a free slot. *)
Record store_rep (s : SubscriberStore) (m : gmap Z SubscriberRecord) : Prop := {
  sr_repr : repr hash (st_slots s) m;
  sr_mask : st_mask s = cap (st_slots s) - 1;
  sr_size : st_size s = Z.of_nat (size m);
  sr_cap : exists n, 3 <= n <= 61 /\ cap (st_slots s) = 2 ^ n;
  sr_load : exists c t, lf_ok (st_max_load_factor s) c t /\
    Z.of_nat (size m) * 2 ^ (- t) <= cap (st_slots s) * c }.

Lemma store_free s m : store_rep s m -> (size m < length (st_slots s))%nat.
Proof.
  intros [_ _ _ (n & Hn & Hcap) (c & t & L & Hload)].
  pose proof (lf_t _ _ _ L). pose proof (pow2_pos (- t) ltac:(lia)).
  pose proof (pow2_pos n ltac:(lia)). pose proof (lf_hi _ _ _ L). unfold cap in *. nia.
Qed.

Lemma store_locate s m k : store_rep s m -> k <> 0 ->
  exists i, locate hash (st_slots s) (st_mask s) k = Some i /\ 0 <= i < cap (st_slots s) /\
    match m !! k with
    | Some a => slot_at (st_slots s) i = a /\ s_imsi a = k
    | None => s_imsi (slot_at (st_slots s) i) = 0
    end.
Proof.
  intros R Hk. rewrite (sr_mask _ _ R).
  exact (locate_spec hash _ m k (sr_repr _ _ R) Hk (store_free _ _ R)).
Qed.

Lemma store_lookup_0 s m : store_rep s m -> m !! 0 = None.
Proof.
  intros R. destruct (m !! 0) as [r|] eqn:E; [|done].
  apply (repr_map _ _ _ (sr_repr _ _ R)) in E as [[] _]. done.
Qed.

Lemma find_lookup s m k : store_rep s m -> find s k = Some (m !! k).
Proof.
  intros R. unfold find. destruct (Z.eqb_spec k 0) as [->|Hk].
  { by rewrite (store_lookup_0 s m R). }
  destruct (store_locate s m k R Hk) as (i & -> & _ & Hm). do 2 f_equal.
  destruct (m !! k) as [a|].
  - destruct Hm as [-> ->]. by rewrite Z.eqb_refl.
  - rewrite Hm. destruct (Z.eqb_spec 0 k); [congruence|done].
Qed.

Lemma over_load_spec s m n c t : store_rep s m -> lf_ok (st_max_load_factor s) c t ->
  cap (st_slots s) = 2 ^ n -> 3 <= n <= 61 -> Z.of_nat (size m) < 2 ^ 50 ->
  over_load s = (cap (st_slots s) * c <? (Z.of_nat (size m) + 1) * 2 ^ (- t)).
Proof.
  intros R L Hcap Hn Hsz. unfold over_load. fold (cap (st_slots s)).
  rewrite (sr_size _ _ R), Hcap. pose proof (lf_t _ _ _ L) as Ht. pose proof (lf_c _ _ _ L).
  pose proof (double_of_pow2_exact n ltac:(lia)) as D1.
  pose proof (dmul_exact _ _ _ _ _ _ c 0 D1 (lf_val _ _ _ L) ltac:(lia) ltac:(lia) ltac:(lia)
                ltac:(lia) ltac:(lia) ltac:(lia)) as D2.
  pose proof (double_of_Z_exact (Z.of_nat (size m) + 1)) as D3.
  specialize (D3 ltac:(lia)).
  rewrite (dltb_exact _ _ _ _ _ _ (- t) D2 D3) by lia.
  replace (n + t + 0 + - t) with n by lia. rewrite Z.add_0_l. f_equal. lia.
Qed.

Lemma place_refines s m rec : store_rep s m -> s_imsi rec <> 0 ->
  over_load s = false -> Z.of_nat (size m) < 2 ^ 50 ->
  exists s', place s rec = Some s' /\ store_rep s' (<[s_imsi rec := rec]> m) /\
    cap (st_slots s') = cap (st_slots s) /\ st_max_load_factor s' = st_max_load_factor s.
Proof.
  intros R Hk Hov Hsz. destruct (sr_cap _ _ R) as (n & Hn & Hcap).
  destruct (sr_load _ _ R) as (c & t & L & Hload).
  rewrite (over_load_spec s m n c t R L Hcap Hn Hsz) in Hov. apply Z.ltb_ge in Hov.
  destruct (store_locate s m _ R Hk) as (i & Hi & Hir & Hm). unfold place. rewrite Hi.
  rewrite (sr_mask _ _ R) in Hi.
  pose proof (Probe.store_repr hash _ m (s_imsi rec) i rec (sr_repr _ _ R) Hk (store_free _ _ R)
                eq_refl Hi) as R'.
  pose proof (lf_t _ _ _ L). pose proof (pow2_pos (- t) ltac:(lia)).
  assert (forall sz, sz = Z.of_nat (size (<[s_imsi rec := rec]> m)) ->
    sz <= Z.of_nat (size m) + 1 ->
    store_rep (mkStore (slot_store (st_slots s) i rec) (st_mask s) sz (st_max_load_factor s))
      (<[s_imsi rec := rec]> m)) as Build.
  { intros sz E Hle. split; simpl; rewrite ?cap_store; [done|by apply R|done|by eauto|].
    exists c, t. split; [done|]. nia. }
  destruct (m !! s_imsi rec) as [a|] eqn:Em.
  - destruct Hm as [-> ->]. rewrite Z.eqb_refl. eexists. split; [done|].
    simpl. rewrite cap_store. split; [|done]. rewrite (sr_size _ _ R).
    apply Build; [|lia]. by rewrite map_size_insert_Some by eauto.
  - rewrite Hm. destruct (Z.eqb_spec 0 (s_imsi rec)); [congruence|]. eexists. split; [done|].
    simpl. rewrite cap_store. split; [|done]. rewrite (sr_size _ _ R).
    apply Build; [|lia]. rewrite map_size_insert_None by done. lia.
Qed.

Lemma upsert_at_fits d s m rec : store_rep s m -> s_imsi rec <> 0 ->
  over_load s = false -> Z.of_nat (size m) < 2 ^ 50 ->
  exists s', upsert_at (S d) s rec = Some (true, s') /\
    store_rep s' (<[s_imsi rec := rec]> m) /\
    cap (st_slots s') = cap (st_slots s) /\ st_max_load_factor s' = st_max_load_factor s.
Proof.
  intros R Hk Hov Hsz. simpl. destruct (Z.eqb_spec (s_imsi rec) 0); [done|]. rewrite Hov.
  destruct (place_refines s m rec R Hk Hov Hsz) as (s' & -> & H). eauto.
Qed.

(** The loop of [grow], when the new table has room for every record of [m]:
    it inserts records of [m] only, and every record it meets. *)
Lemma reinsert_spec d old s m' m c t n : store_rep s m' -> m' ⊆ m ->
  Forall (fun r => s_imsi r <> 0 -> m !! s_imsi r = Some r) old ->
  lf_ok (st_max_load_factor s) c t -> cap (st_slots s) = 2 ^ n -> 3 <= n <= 61 ->
  Z.of_nat (size m) < 2 ^ 50 -> (Z.of_nat (size m) + 1) * 2 ^ (- t) <= 2 ^ n * c ->
  exists s' m'', reinsert (upsert_at (S d)) old s = Some s' /\ store_rep s' m'' /\
    m' ⊆ m'' /\ m'' ⊆ m /\ cap (st_slots s') = 2 ^ n /\
    st_max_load_factor s' = st_max_load_factor s /\
    Forall (fun r => s_imsi r <> 0 -> m'' !! s_imsi r = Some r) old.
Proof.
  intros R Hsub Hold L Hcap Hn Hsz Hroom.
  pose proof (lf_t _ _ _ L). pose proof (pow2_pos (- t) ltac:(lia)).
  revert s m' R Hsub L Hcap.
  induction Hold as [|r old Hr Hold IH]; intros s m' R Hsub L Hcap; cbn [reinsert].
  { exists s, m'. auto 10. }
  destruct (Z.eqb_spec (s_imsi r) 0) as [E|E]; cbn [negb].
  { destruct (IH s m' R Hsub L Hcap) as (s' & m'' & Hs' & Q1 & Q2 & Q3 & Q4 & Q5 & Q6).
    exists s', m''. do 6 (split; [done|]). constructor; [done|done]. }
  specialize (Hr E). pose proof (map_subseteq_size _ _ Hsub).
  destruct (upsert_at_fits d s m' r R E) as (s1 & -> & R1 & C1 & M1).
  { rewrite (over_load_spec s m' n c t R L Hcap Hn) by lia. apply Z.ltb_ge. nia. }
  { lia. }
  destruct (IH s1 (<[s_imsi r := r]> m')) as (s' & m'' & Hs' & Q1 & Q2 & Q3 & Q4 & Q5 & Q6).
  { done. } { by apply insert_subseteq_l. } { by rewrite M1. } { by rewrite C1. }
  assert (m'' !! s_imsi r = Some r) as Hm''.
  { eapply lookup_weaken; [|exact Q2]. apply lookup_insert_eq. }
  exists s', m''. split; [done|]. split; [done|]. split; [|split; [done|]].
  { apply map_subseteq_spec. intros k x Hx.
    destruct (decide (k = s_imsi r)) as [->|Hne].
    - rewrite Hm''. rewrite <- Hr. eapply lookup_weaken; [exact Hx|done].
    - eapply lookup_weaken; [|exact Q2]. by rewrite lookup_insert_ne. }
  split; [done|]. split; [by rewrite Q5|]. by constructor.
Qed.

Lemma slots_in_map s m : store_rep s m ->
  Forall (fun r => s_imsi r <> 0 -> m !! s_imsi r = Some r) (st_slots s).
Proof.
  intros R. apply Forall_lookup. intros i r Hi Hr. apply (repr_map _ _ _ (sr_repr _ _ R)).
  split; [done|]. split; [done|]. exists (Z.of_nat i).
  pose proof (lookup_lt_Some _ _ _ Hi). unfold cap, slot_at. split; [lia|].
  rewrite Nat2Z.id. by rewrite (nth_lookup_Some _ _ _ _ Hi).
Qed.

Lemma map_in_slots s m k r : store_rep s m -> m !! k = Some r ->
  s_imsi r = k /\ k <> 0 /\ r ∈ st_slots s.
Proof.
  intros R Hr. apply (repr_map _ _ _ (sr_repr _ _ R)) in Hr as (Hk & Hrk & j & Hj & E).
  split; [done|]. split; [done|]. rewrite <- E. eapply list_elem_of_lookup_2.
  by apply slot_at_lookup.
Qed.

(** Growing keeps every subscriber: the doubled table stands for the same map. *)
Lemma grow_preserves d s m : store_rep s m -> over_load s = true ->
  Z.of_nat (size m) < 2 ^ 50 ->
  exists s', grow (upsert_at (S d)) s (u64 (Z.of_nat (length (st_slots s)) * 2)) = Some s' /\
    store_rep s' m /\ over_load s' = false.
Proof.
  intros R Hov Hsz. destruct (sr_cap _ _ R) as (n & Hn & Hcap).
  destruct (sr_load _ _ R) as (c & t & L & Hload).
  rewrite (over_load_spec s m n c t R L Hcap Hn Hsz) in Hov. apply Z.ltb_lt in Hov.
  pose proof (lf_t _ _ _ L). pose proof (lf_lo _ _ _ L). pose proof (lf_c _ _ _ L).
  pose proof (pow2_pos (- t) ltac:(lia)). rewrite Hcap in *.
  assert (n < 53) as Hn53.
  { apply (Z.pow_lt_mono_r_iff 2); [lia..|].
    apply (Z.mul_lt_mono_pos_r (2 ^ (- t))); [done|].
    apply Z.le_lt_trans with (2 ^ n * (4 * c)); [apply Z.mul_le_mono_nonneg_l; lia|].
    replace (2 ^ 53) with (8 * 2 ^ 50) by lia. nia. }
  fold (cap (st_slots s)). rewrite Hcap.
  replace (2 ^ n * 2) with (2 ^ (n + 1)) by (rewrite Z.pow_add_r by lia; lia).
  rewrite wrap_id by (split; [apply Z.pow_nonneg; lia|apply Z.pow_lt_mono_r; lia]).
  unfold grow. pose proof (pow2_pos (n + 1) ltac:(lia)).
  assert (2 ^ (n + 1) = 2 * 2 ^ n) as Hdbl by (rewrite Z.pow_add_r by lia; lia).
  assert (8 <= 2 ^ n) by (change 8 with (2 ^ 3); apply Z.pow_le_mono_r; lia).
  assert (cap (replicate (Z.to_nat (2 ^ (n + 1))) zero_record) = 2 ^ (n + 1)) as Hc0
    by (unfold cap; rewrite length_replicate; lia).
  assert (store_rep (mkStore (replicate (Z.to_nat (2 ^ (n + 1))) zero_record)
            (2 ^ (n + 1) - 1) 0 (st_max_load_factor s)) ∅) as R0.
  { split; cbn [st_slots st_mask st_size st_max_load_factor].
    - exact (@empty_repr SubscriberRecord record_slot hash (n + 1) ltac:(lia)).
    - by rewrite Hc0.
    - by rewrite map_size_empty.
    - exists (n + 1). split; [lia|done].
    - exists c, t. split; [done|]. rewrite map_size_empty, Hc0. nia. }
  destruct (reinsert_spec d (st_slots s) _ ∅ m c t (n + 1) R0) as
    (s' & m'' & -> & R' & _ & Hsub & Hcap' & Hlf & Hall);
    [apply map_empty_subseteq|by apply slots_in_map|done|done|lia|done|nia|].
  assert (m'' = m) as ->.
  { apply map_subseteq_po; [done|]. apply map_subseteq_spec. intros k r Hr.
    destruct (map_in_slots s m k r R Hr) as (<- & Hk & Hin).
    rewrite Forall_forall in Hall. by apply Hall. }
  exists s'. split; [done|]. split; [done|]. simpl in Hlf.
  rewrite (over_load_spec s' m (n + 1) c t R') by (rewrite ?Hlf; done || lia).
  apply Z.ltb_ge. rewrite Hcap'. nia.
Qed.

Lemma upsert_rep s m rec : store_rep s m -> Z.of_nat (size m) < 2 ^ 50 -> s_imsi rec <> 0 ->
  exists s', upsert s rec = Some (true, s') /\ store_rep s' (<[s_imsi rec := rec]> m).
Proof.
  intros R Hsz Hk. destruct (over_load s) eqn:Hov.
  - destruct (grow_preserves 0 s m R Hov Hsz) as (s1 & Hg & R1 & Hov1).
    destruct (place_refines s1 m rec R1 Hk Hov1 Hsz) as (s2 & Hp & R2 & _).
    exists s2. split; [|done]. unfold upsert. cbn [upsert_at].
    destruct (Z.eqb_spec (s_imsi rec) 0); [done|]. rewrite Hov.
    unfold upsert_at in Hg. rewrite Hg. by rewrite Hp.
  - destruct (upsert_at_fits 1 s m rec R Hk Hov Hsz) as (s' & Hs' & R' & _). eauto.
Qed.

Lemma dval_unique_dltb x y c1 t1 c2 t2 N : dval x c1 t1 -> dval y c2 t2 ->
  0 <= t1 + N -> 0 <= t2 + N -> dltb x y = false -> c2 * 2 ^ (t2 + N) <= c1 * 2 ^ (t1 + N).
Proof.
  intros H1 H2 ? ? E. rewrite (dltb_exact x y c1 t1 c2 t2 N) in E by done.
  by apply Z.ltb_ge in E.
Qed.

(** ** Construction *)

(** A finite double of the range a configuration can hold. *)
Definition finite_double (x : double) : Prop :=
  exists c t, dval x c t /\ Z.abs c < 2 ^ 53 /\ -1074 <= t <= 971.

Lemma quarter_val : dval (dlit 25 (-2)) 1 (-2).
Proof.
  exists (2 ^ 52), (-54). split; [vm_compute; reflexivity|]. intros N HN HN2.
  rewrite <- Z.pow_add_r, Z.mul_1_l by lia. f_equal. lia.
Qed.

Lemma nine_tenths_val : exists c, dval (dlit 9 (-1)) c (-53) /\ 2 ^ 52 <= c < 2 ^ 53.
Proof. exists 8106479329266893. split; [apply dval_refl|lia]. Qed.

Lemma clamp_ok lf : finite_double lf -> exists c t, lf_ok (clamp_load_factor lf) c t.
Proof.
  intros (c & t & V & Hc & Ht). unfold clamp_load_factor.
  destruct (dltb lf (dlit 25 (-2))) eqn:E1.
  { exists 1, (-2). split; [apply quarter_val|lia..]. }
  destruct nine_tenths_val as (c9 & V9 & H9).
  destruct (dltb (dlit 9 (-1)) lf) eqn:E2.
  { exists c9, (-53). split; [done|lia|lia| |]; change (- -53) with 53; lia. }
  apply (dval_unique_dltb _ _ _ _ _ _ (Z.abs t + 60) V quarter_val) in E1; [|lia..].
  apply (dval_unique_dltb _ _ _ _ _ _ (Z.abs t + 60) V9 V) in E2; [|lia..].
  set (K := Z.abs t + 60) in *.
  assert (0 < 2 ^ (-2 + K)) by (apply pow2_pos; lia).
  assert (0 < 2 ^ (t + K)) as Hp by (apply pow2_pos; lia).
  assert (0 < 2 ^ (-53 + K)) by (apply pow2_pos; lia).
  assert (2 ^ K = 4 * 2 ^ (-2 + K)) as HK
    by (change 4 with (2 ^ 2); rewrite <- Z.pow_add_r by lia; f_equal; lia).
  assert (2 ^ K = 2 ^ 53 * 2 ^ (-53 + K)) as HK2
    by (rewrite <- Z.pow_add_r by lia; f_equal; lia).
  assert (0 < c) by nia.
  assert (c * 2 ^ (t + K) < 2 ^ K) as Hlt by nia.
  assert (t < 0) as Ht0.
  { apply (Z.add_lt_mono_r _ _ K). rewrite Z.add_0_l.
    apply (Z.pow_lt_mono_r_iff 2); [lia..|]. nia. }
  assert (2 ^ K = 2 ^ (- t) * 2 ^ (t + K)) as HK3
    by (rewrite <- Z.pow_add_r by lia; f_equal; lia).
  assert (2 ^ (- t) <= 4 * c) as Hlo by nia.
  assert (- t < 56) by (apply (Z.pow_lt_mono_r_iff 2); lia).
  exists c, t. split; [done|lia|lia|done|].
  apply (Z.mul_lt_mono_pos_r (2 ^ (t + K))); [done|]. by rewrite <- HK3.
Qed.

Lemma slots_for_ok n mlf c t : 0 <= n <= 2 ^ 50 -> lf_ok (clamp_load_factor mlf) c t ->
  exists k, 3 <= k <= 61 /\ slots_for n mlf = Some (2 ^ k).
Proof.
  intros Hn L. unfold slots_for, next_pow2. set (x := ddiv _ _).
  assert (0 <= dceil x <= 2 ^ 52 + 1) as Hx.
  { subst x. destruct (double_of_Z_exact (Z.max n 4) ltac:(lia)) as (m1 & e1 & -> & V1).
    destruct (lf_val _ _ _ L) as (m2 & e2 & -> & V2). cbn [ddiv].
    destruct (Z.eqb_spec m2 0) as [|Hm2]; [simpl; lia|].
    pose proof (lf_c _ _ _ L). pose proof (lf_t _ _ _ L). pose proof (lf_lo _ _ _ L).
    set (N := Z.abs e1 + Z.abs e2 + Z.abs t).
    specialize (V1 N ltac:(lia) ltac:(lia)). specialize (V2 N ltac:(lia) ltac:(lia)).
    rewrite Z.add_0_l in V1.
    pose proof (pow2_pos (e1 + N) ltac:(lia)). pose proof (pow2_pos (e2 + N) ltac:(lia)).
    pose proof (pow2_pos N ltac:(lia)). pose proof (pow2_pos (t + N) ltac:(lia)).
    assert (0 < m1) by (apply (Z.mul_pos_cancel_r _ (2 ^ (e1 + N))); [done|rewrite V1; lia]).
    assert (0 < m2) by (apply (Z.mul_pos_cancel_r _ (2 ^ (e2 + N))); [done|rewrite V2; lia]).
    destruct (Z.ltb_spec (m1 * m2) 0); [pose proof (Z.mul_pos_pos m1 m2); lia|]. rewrite !Z.abs_eq by lia.
    apply round_q_dceil; [|lia| |].
    - apply Z.mul_pos_pos; [done|apply pow2_pos; lia].
    - apply Z.mul_pos_pos; [done|apply pow2_pos; lia].
    - assert (2 ^ N = 2 ^ (- t) * 2 ^ (t + N)) as EN
        by (rewrite <- Z.pow_add_r by lia; f_equal; lia).
      assert (m1 * 2 ^ (e1 + N) <= m2 * 2 ^ 52 * 2 ^ (e2 + N)) as Hle.
      { rewrite V1, EN. clear V1. replace (m2 * 2 ^ 52 * 2 ^ (e2 + N)) with (2 ^ 52 * (m2 * 2 ^ (e2 + N)))
          by ring. rewrite V2, !Z.mul_assoc. apply Z.mul_le_mono_nonneg_r; [lia|].
        apply Z.le_trans with (2 ^ 50 * (4 * c)); [apply Z.mul_le_mono_nonneg; lia|lia]. }
      destruct (Z.le_ge_cases e1 e2).
      + rewrite (Z.max_r (e1 - e2)), (Z.max_l (e2 - e1)), Z.pow_0_r, Z.mul_1_r by lia.
        replace (e2 + N) with (e2 - e1 + (e1 + N)) in Hle by lia.
        rewrite (Z.pow_add_r 2 (e2 - e1)) in Hle by lia.
        apply (Z.mul_le_mono_pos_r _ _ (2 ^ (e1 + N))); [done|]. lia.
      + rewrite (Z.max_l (e1 - e2)), (Z.max_r (e2 - e1)), Z.pow_0_r, Z.mul_1_r by lia.
        replace (e1 + N) with (e1 - e2 + (e2 + N)) in Hle by lia.
        rewrite (Z.pow_add_r 2 (e1 - e2)) in Hle by lia.
        apply (Z.mul_le_mono_pos_r _ _ (2 ^ (e2 + N))); [done|]. lia. }
  rewrite wrap_id by (split; lia).
  destruct (pow2_loop_spec 64 3 (dceil x)) as (k & Hk & E & Hle & Hmin); [lia..|].
  change (2 ^ 3) with 8 in E. exists k. split; [|done]. split; [lia|].
  destruct Hmin as [->|Hmin]; [lia|].
  assert (k - 1 < 60); [|lia]. apply (Z.pow_lt_mono_r_iff 2); lia.
Qed.

Lemma clamp_idemp lf c t : lf_ok (clamp_load_factor lf) c t ->
  clamp_load_factor (clamp_load_factor lf) = clamp_load_factor lf.
Proof.
  intros _. unfold clamp_load_factor at 2 3.
  destruct (dltb lf (dlit 25 (-2))) eqn:E1; [vm_compute; reflexivity|].
  destruct (dltb (dlit 9 (-1)) lf) eqn:E2; [vm_compute; reflexivity|].
  unfold clamp_load_factor. by rewrite E1, E2.
Qed.

Lemma new_store_rep n lf : 0 <= n <= 2 ^ 50 -> finite_double lf ->
  exists s, new_store n lf = Some s /\ store_rep s ∅.
Proof.
  intros Hn Hlf. destruct (clamp_ok lf Hlf) as (c & t & L).
  destruct (slots_for_ok n (clamp_load_factor lf) c t Hn) as (k & Hk & E);
    [by rewrite (clamp_idemp lf c t L)|].
  unfold new_store. rewrite E. eexists. split; [done|].
  assert (cap (replicate (Z.to_nat (2 ^ k)) zero_record) = 2 ^ k) as Hc0
    by (unfold cap; rewrite length_replicate; pose proof (pow2_pos k); lia).
  split; cbn [st_slots st_mask st_size st_max_load_factor].
  - exact (@empty_repr SubscriberRecord record_slot hash k ltac:(lia)).
  - by rewrite Hc0.
  - by rewrite map_size_empty.
  - by exists k.
  - exists c, t. split; [done|]. rewrite map_size_empty, Hc0.
    pose proof (lf_c _ _ _ L). pose proof (pow2_pos k ltac:(lia)). nia.
Qed.

(** ** Counter updates *)

Lemma find_mutable_lookup s m k : store_rep s m ->
  match m !! k with
  | Some r => exists i, find_mutable s k = Some (Some i) /\ 0 <= i < cap (st_slots s) /\
      slot_at (st_slots s) i = r /\ s_imsi r = k /\ k <> 0 /\
      locate hash (st_slots s) (st_mask s) k = Some i
  | None => find_mutable s k = Some None
  end.
Proof.
  intros R. unfold find_mutable. destruct (Z.eqb_spec k 0) as [->|Hk].
  { by rewrite (store_lookup_0 s m R). }
  destruct (store_locate s m k R Hk) as (i & E & Hi & Hm). rewrite E.
  destruct (m !! k) as [a|].
  - destruct Hm as [Hs Hk']. exists i. rewrite Hs, Hk', Z.eqb_refl. by rewrite <- Hk' at 2.
  - rewrite Hm. by destruct (Z.eqb_spec 0 k); [congruence|].
Qed.

(** A read-modify-write of the record of [k] that keeps its key. *)
Lemma modify_rep s m k r i f : store_rep s m -> m !! k = Some r -> k <> 0 ->
  slot_at (st_slots s) i = r -> s_imsi (f r) = k ->
  locate hash (st_slots s) (st_mask s) k = Some i ->
  store_rep (with_slots s (slot_store (st_slots s) i (f r))) (<[k := f r]> m).
Proof.
  intros R Hr Hk Hs Hf Hl. rewrite (sr_mask _ _ R) in Hl.
  pose proof (Probe.store_repr hash _ m k i (f r) (sr_repr _ _ R) Hk (store_free _ _ R) Hf Hl).
  assert (size (<[k := f r]> m) = size m) as Hsz by (by rewrite map_size_insert_Some by eauto).
  destruct R as [? ? ? ? ?]. split; cbn [with_slots st_slots st_mask st_size st_max_load_factor];
    rewrite ?cap_store, ?Hsz; done.
Qed.

(** ** Refinement: any run of updates against the finite map *)

Inductive StoreOp :=
| OpUpsert (rec : SubscriberRecord)
| OpAddUsage (imsi bytes : Z)
| OpResetPeriod (imsi new_reset_ts : Z).

(** The calls, with the result each reports ([add_usage] reports none). *)
Definition run_op (s : SubscriberStore) (op : StoreOp) : option (bool * SubscriberStore) :=
  match op with
  | OpUpsert rec => upsert s rec
  | OpAddUsage k bytes => match add_usage s k bytes with Some s' => Some (true, s') | None => None end
  | OpResetPeriod k ts => reset_period s k ts
  end.

Fixpoint run_ops (s : SubscriberStore) (ops : list StoreOp)
  : option (list bool * SubscriberStore) :=
  match ops with
  | [] => Some ([], s)
  | op :: ops' =>
      match run_op s op with
      | None => None
      | Some (b, s') =>
          match run_ops s' ops' with Some (bs, s'') => Some (b :: bs, s'') | None => None end
      end
  end.

(** What the table promises, on a finite map. *)
Definition spec_op (m : gmap Z SubscriberRecord) (op : StoreOp)
  : bool * gmap Z SubscriberRecord :=
  match op with
  | OpUpsert rec => if s_imsi rec =? 0 then (false, m) else (true, <[s_imsi rec := rec]> m)
  | OpAddUsage k bytes => (true, alter (add_usage_record bytes) k m)
  | OpResetPeriod k ts => (bool_decide (is_Some (m !! k)), alter (reset_record ts) k m)
  end.

Fixpoint spec_ops (m : gmap Z SubscriberRecord) (ops : list StoreOp)
  : list bool * gmap Z SubscriberRecord :=
  match ops with
  | [] => ([], m)
  | op :: ops' =>
      let '(b, m') := spec_op m op in
      let '(bs, m'') := spec_ops m' ops' in (b :: bs, m'')
  end.

Lemma alter_None {A} (f : A -> A) k (m : gmap Z A) : m !! k = None -> alter f k m = m.
Proof.
  intros H. apply map_eq. intros j. destruct (decide (k = j)) as [->|].
  - by rewrite lookup_alter_eq, H.
  - by rewrite lookup_alter_ne.
Qed.

Lemma alter_Some {A} (f : A -> A) k (m : gmap Z A) a :
  m !! k = Some a -> alter f k m = <[k := f a]> m.
Proof.
  intros H. apply map_eq. intros j. destruct (decide (k = j)) as [->|].
  - by rewrite lookup_alter_eq, H, lookup_insert_eq.
  - by rewrite lookup_alter_ne, lookup_insert_ne.
Qed.

Lemma spec_op_size m op : (size (spec_op m op).2 <= size m + 1)%nat.
Proof.
  destruct op as [rec|k b|k ts]; simpl.
  - case_match; simpl; [lia|]. rewrite map_size_insert.
    destruct (m !! s_imsi rec); unfold id; lia.
  - destruct (m !! k) eqn:E; [erewrite alter_Some by done|rewrite alter_None by done; lia].
    rewrite map_size_insert_Some by eauto. lia.
  - destruct (m !! k) eqn:E; [erewrite alter_Some by done|rewrite alter_None by done; lia].
    rewrite map_size_insert_Some by eauto. lia.
Qed.

Lemma run_op_refines s m op : store_rep s m -> Z.of_nat (size m) < 2 ^ 50 ->
  exists s', run_op s op = Some ((spec_op m op).1, s') /\ store_rep s' (spec_op m op).2.
Proof.
  intros R Hsz. destruct op as [rec|k b|k ts]; simpl.
  - destruct (Z.eqb_spec (s_imsi rec) 0) as [E|E].
    + exists s. split; [|done]. unfold upsert. simpl. by rewrite E.
    + by apply upsert_rep.
  - unfold add_usage. pose proof (find_mutable_lookup s m k R) as F.
    destruct (m !! k) as [r|] eqn:Em.
    + destruct F as (i & -> & _ & Hs & Hk & Hk0 & Hl). rewrite Hs. eexists. split; [done|].
      rewrite (alter_Some _ _ _ _ Em). by apply (modify_rep s m k r i (add_usage_record b)).
    + rewrite F, alter_None by done. eauto.
  - unfold reset_period. pose proof (find_mutable_lookup s m k R) as F.
    destruct (m !! k) as [r|] eqn:Em.
    + destruct F as (i & -> & _ & Hs & Hk & Hk0 & Hl). rewrite Hs.
      rewrite bool_decide_true by eauto. eexists. split; [done|].
      rewrite (alter_Some _ _ _ _ Em). by apply (modify_rep s m k r i (reset_record ts)).
    + rewrite F, alter_None, bool_decide_false by (done || by intros []). eauto.
Qed.

Lemma run_ops_refines ops s m : store_rep s m ->
  Z.of_nat (size m) + Z.of_nat (length ops) < 2 ^ 50 ->
  exists s', run_ops s ops = Some ((spec_ops m ops).1, s') /\ store_rep s' (spec_ops m ops).2.
Proof.
  revert s m. induction ops as [|op ops IH]; intros s m R Hsz; simpl; [eauto|].
  simpl in Hsz. destruct (run_op_refines s m op R ltac:(lia)) as (s1 & -> & R1).
  pose proof (spec_op_size m op). destruct (spec_op m op) as [b m1]. simpl in *.
  destruct (IH s1 m1 R1) as (s2 & -> & R2); [lia|].
  destruct (spec_ops m1 ops) as [bs m2]. eauto.
Qed.

(** C2: The subscriber table refines a finite map.  From a table built with any
    finite load factor, every sequence of [upsert], [add_usage] and
    [reset_period] calls returns (no probe loop runs forever, through any number
    of growths), reports the results the map reports, and afterwards [find]
    answers exactly what the map holds for every IMSI. *)
Theorem store_refines_map n lf ops : 0 <= n <= 2 ^ 50 -> finite_double lf ->
  Z.of_nat (length ops) < 2 ^ 50 ->
  exists s0 s, new_store n lf = Some s0 /\
    run_ops s0 ops = Some ((spec_ops ∅ ops).1, s) /\
    forall imsi, find s imsi = Some ((spec_ops ∅ ops).2 !! imsi).
Proof.
  intros Hn Hlf Hops. destruct (new_store_rep n lf Hn Hlf) as (s0 & E0 & R0).
  destruct (run_ops_refines ops s0 ∅ R0) as (s & E & R); [by rewrite map_size_empty|].
  exists s0, s. split; [done|]. split; [done|]. intros k. by apply find_lookup.
Qed.

(** Six subscribers in an 8-slot table with load factor 0.5: it grows. *)
Definition sample_ops : list StoreOp :=
  map (fun k => OpUpsert (mkRecord k 0 0 0 10 0 0 0)) [1; 2; 3; 4; 5; 6; 1] ++
  [OpAddUsage 3 (2 ^ 64 - 4); OpResetPeriod 9 7].

Lemma store_refines_map_witness :
  exists s0 s, new_store 4 (dlit 5 (-1)) = Some s0 /\
    run_ops s0 sample_ops = Some ((spec_ops ∅ sample_ops).1, s) /\
    forall imsi, find s imsi = Some ((spec_ops ∅ sample_ops).2 !! imsi).
Proof.
  apply (store_refines_map 4 (dlit 5 (-1)) sample_ops); [lia| |vm_compute; reflexivity].
  exists (2 ^ 52), (-53). split; [apply dval_refl|lia].
Defined.

Example sample_run_grows : exists s0 s, new_store 4 (dlit 5 (-1)) = Some s0 /\
  length (st_slots s0) = 8%nat /\ (exists bs, run_ops s0 sample_ops = Some (bs, s)) /\
  length (st_slots s) = 16%nat /\ (r ← (find s 3); s_bytes_used_period <$> r) = Some 6.
Proof. do 2 eexists. split; [vm_compute; reflexivity|]. split; [vm_compute; reflexivity|].
  split; [eexists; vm_compute; reflexivity|]. split; vm_compute; reflexivity. Qed.

(** ** The CSV loader *)

(** The lines of the file that are data: blank lines and comments dropped, and
    then the first remaining line when it is a header. *)
Definition is_content (line : string) : bool :=
  match trim line with
  | EmptyString => false
  | String c _ => negb (Ascii.eqb c "#")
  end.
Definition is_header (line : string) : bool := String.eqb (str_take 4 (trim line)) "imsi".
Definition data_lines (lines : list string) : list string :=
  match List.filter is_content lines with
  | l :: rest => if is_header l then rest else l :: rest
  | [] => []
  end.

Definition row_map (plan_names : list string) (m : gmap Z SubscriberRecord) (line : string)
  : gmap Z SubscriberRecord :=
  match parse_row plan_names (trim line) with
  | inl _ => m
  | inr rec => <[s_imsi rec := rec]> m
  end.
Definition row_bad (plan_names : list string) (line : string) : bool :=
  match parse_row plan_names (trim line) with inl _ => true | inr _ => false end.

Lemma parse_row_key plans sv rec : parse_row plans sv = inr rec -> s_imsi rec <> 0.
Proof.
  unfold parse_row. intros H.
  repeat (case_match; try discriminate); simplify_eq; simpl; lia.
Qed.

Definition load_post (plans : list string) (lines : list string) (m : gmap Z SubscriberRecord)
    (r : LoadResult) (s' : SubscriberStore) (r' : LoadResult) : Prop :=
  store_rep s' (foldl (row_map plans) m lines) /\
  ld_skipped r' = ld_skipped r + Z.of_nat (length (List.filter (row_bad plans) lines)) /\
  ld_loaded r' + ld_skipped r' = ld_loaded r + ld_skipped r + Z.of_nat (length lines) /\
  ((length (ld_errors r) <= 33)%nat -> (length (ld_errors r') <= 33)%nat) /\
  ((ld_errors r = [] <-> ld_skipped r = 0) -> 0 <= ld_skipped r ->
   (ld_errors r' = [] <-> ld_skipped r' = 0)).

Lemma note_errors path n msg r :
  ld_errors (note path n msg r) <> [] /\
  ((length (ld_errors r) <= 33)%nat -> (length (ld_errors (note path n msg r)) <= 33)%nat).
Proof.
  unfold note, kMaxReportedErrors. simpl.
  destruct (Nat.ltb_spec (length (ld_errors r)) 32).
  { rewrite length_app. simpl. split; [by destruct (ld_errors r)|lia]. }
  destruct (Nat.eqb_spec (length (ld_errors r)) 32).
  { rewrite length_app. simpl. split; [by destruct (ld_errors r)|lia]. }
  split; [|done]. intros E. rewrite E in *. simpl in *. lia.
Qed.

(** One data row, then the rest of the file. *)
Lemma load_row path plans line lines n s m r :
  store_rep s m -> Z.of_nat (size m) < 2 ^ 50 ->
  is_content line = true -> forall seen, (seen = true \/ is_header line = false) ->
  exists s1 r1, load_lines path plans (line :: lines) n seen s r =
      load_lines path plans lines (n + 1) true s1 r1 /\ load_post plans [line] m r s1 r1.
Proof.
  intros R Hsz Hc seen Hseen. cbn [load_lines]. unfold is_content, is_header in *.
  destruct (trim line) as [|c sv] eqn:E; [done|].
  destruct (Ascii.eqb c "#"); [done|].
  assert (negb seen && String.eqb (str_take 4 (String c sv)) "imsi" = false) as ->.
  { destruct Hseen as [->| ->]; [done|by destruct seen]. }
  unfold load_post. cbn [foldl List.filter]. unfold row_map at 1, row_bad at 1. rewrite E.
  destruct (parse_row plans (String c sv)) as [msg|rec] eqn:P.
  - do 2 eexists. split; [done|]. split; [done|].
    destruct (note_errors path (n + 1) msg r) as [Hne Hlen]. simpl. split; [lia|].
    split; [lia|]. split; [done|]. intros _ H0. split; [done|lia].
  - destruct (upsert_rep s m rec R Hsz (parse_row_key _ _ _ P)) as (s1 & -> & R1).
    do 2 eexists. split; [done|]. split; [done|]. simpl. split; [lia|]. split; [lia|].
    split; [done|]. by intros.
Qed.

Lemma row_map_size plans m line : (size (row_map plans m line) <= size m + 1)%nat.
Proof.
  unfold row_map. case_match; [lia|]. rewrite map_size_insert. case_match; unfold id; lia.
Qed.

Lemma load_post_cons plans line lines m r s1 r1 s2 r2 :
  0 <= ld_skipped r ->
  load_post plans [line] m r s1 r1 ->
  load_post plans lines (row_map plans m line) r1 s2 r2 ->
  load_post plans (line :: lines) m r s2 r2.
Proof.
  intros H0 (_ & A2 & A3 & A4 & A5) (B1 & B2 & B3 & B4 & B5). split; [done|].
  cbn [List.filter] in *. destruct (row_bad plans line); cbn [length] in *;
    (split; [lia|]; split; [lia|]; split; [by auto|]; intros H1 H2; apply B5; [by auto|lia]).
Qed.

Lemma load_seen path plans lines n s m r : store_rep s m ->
  Z.of_nat (size m) + Z.of_nat (length lines) < 2 ^ 50 -> 0 <= ld_skipped r ->
  exists s' r', load_lines path plans lines n true s r = Some (s', r') /\
    load_post plans (List.filter is_content lines) m r s' r'.
Proof.
  revert n s m r. induction lines as [|line lines IH]; intros n s m r R Hsz H0.
  { exists s, r. split; [done|]. split; [done|]. simpl. split; [lia|]. split; [lia|]. auto. }
  cbn [length] in Hsz. cbn [List.filter]. destruct (is_content line) eqn:C.
  - destruct (load_row path plans line lines n s m r R ltac:(lia) C true) as (s1 & r1 & -> & P1);
      [by left|].
    pose proof P1 as (R1 & S1 & _). pose proof (row_map_size plans m line).
    destruct (IH (n + 1) s1 (row_map plans m line) r1) as (s2 & r2 & -> & P2); [done|lia| |].
    { rewrite S1. lia. }
    exists s2, r2. split; [done|]. by eapply load_post_cons.
  - unfold is_content in C. cbn [load_lines]. destruct (trim line) as [|c sv];
      [|apply negb_false_iff in C; rewrite C]; apply IH; (done || lia).
Qed.

Lemma load_lines_spec path plans lines n s m r : store_rep s m ->
  Z.of_nat (size m) + Z.of_nat (length lines) < 2 ^ 50 -> 0 <= ld_skipped r ->
  exists s' r', load_lines path plans lines n false s r = Some (s', r') /\
    load_post plans (data_lines lines) m r s' r'.
Proof.
  revert n s m r. induction lines as [|line lines IH]; intros n s m r R Hsz H0.
  { exists s, r. split; [done|]. split; [done|]. simpl. split; [lia|]. split; [lia|]. auto. }
  cbn [length] in Hsz. unfold data_lines. cbn [List.filter].
  destruct (is_content line) eqn:C; [destruct (is_header line) eqn:Hh|].
  - cbn [load_lines]. unfold is_content, is_header in *.
    destruct (trim line) as [|c sv]; [done|]. apply negb_true_iff in C. rewrite C, Hh. simpl.
    apply load_seen; (done || lia).
  - destruct (load_row path plans line lines n s m r R ltac:(lia) C false) as (s1 & r1 & -> & P1);
      [by right|].
    pose proof P1 as (R1 & S1 & _). pose proof (row_map_size plans m line).
    destruct (load_seen path plans lines (n + 1) s1 (row_map plans m line) r1)
      as (s2 & r2 & -> & P2); [done|lia|rewrite S1; lia|].
    exists s2, r2. split; [done|]. by eapply load_post_cons.
  - unfold is_content in C. cbn [load_lines]. destruct (trim line) as [|c sv];
      [|apply negb_false_iff in C; rewrite C]; apply IH; (done || lia).
Qed.

(** C23: Bulk load.  Whatever the file holds, [load_csv] returns, every data row
    is either stored or counted as skipped, the table then answers exactly for
    the well-formed rows (a later row of the same IMSI replaces an earlier one)
    over what it held before, the load is reported clean exactly when no row was
    skipped, and at most 33 messages are kept. *)
Theorem load_csv_spec n lf path lines plans : 0 <= n <= 2 ^ 50 -> finite_double lf ->
  Z.of_nat (length lines) < 2 ^ 50 ->
  exists s0 s r, new_store n lf = Some s0 /\
    load_csv s0 path (Some lines) plans = Some (s, r) /\
    (forall imsi, find s imsi = Some (foldl (row_map plans) ∅ (data_lines lines) !! imsi)) /\
    ld_loaded r + ld_skipped r = Z.of_nat (length (data_lines lines)) /\
    ld_skipped r = Z.of_nat (length (List.filter (row_bad plans) (data_lines lines))) /\
    (load_ok r = true <-> ld_skipped r = 0) /\ (length (ld_errors r) <= 33)%nat.
Proof.
  intros Hn Hlf Hl. destruct (new_store_rep n lf Hn Hlf) as (s0 & E0 & R0).
  destruct (load_lines_spec path plans lines 0 s0 ∅ (mkLoad 0 0 []) R0)
    as (s & r & E & P); [by rewrite map_size_empty|done|].
  destruct P as (R & S & T & L & OK).
  exists s0, s, r. split; [done|]. split; [done|]. split; [intros; by apply find_lookup|].
  simpl in *. split; [lia|]. split; [lia|]. split; [|apply L; lia].
  unfold load_ok. rewrite <- OK by done. by destruct (ld_errors r).
Qed.

Definition sample_csv : list string :=
  ["imsi,imei,plan,status,used,reset,plmn,flags";
   "# comment";
   "262011234567890,0,gold,ACTIVE,100,0,26201,roaming|volte";
   "262011234567891,0,lead,ACTIVE,100,0,26201"]%string.

Lemma load_csv_spec_witness :
  exists s0 s r, new_store 4 (dlit 5 (-1)) = Some s0 /\
    load_csv s0 "subs.csv" (Some sample_csv) ["gold"%string] = Some (s, r) /\
    (forall imsi, find s imsi =
       Some (foldl (row_map ["gold"%string]) ∅ (data_lines sample_csv) !! imsi)) /\
    ld_loaded r + ld_skipped r = Z.of_nat (length (data_lines sample_csv)) /\
    ld_skipped r =
      Z.of_nat (length (List.filter (row_bad ["gold"%string]) (data_lines sample_csv))) /\
    (load_ok r = true <-> ld_skipped r = 0) /\ (length (ld_errors r) <= 33)%nat.
Proof.
  apply load_csv_spec; [lia| |vm_compute; reflexivity].
  exists (2 ^ 52), (-53). split; [apply dval_refl|lia].
Defined.

Example sample_csv_rows : map (row_bad ["gold"%string]) (data_lines sample_csv) = [false; true].
Proof. reflexivity. Qed.

(** What an accepted row says: the record is keyed by a nonzero IMSI, within its
    widths, and its plan id is the index of the plan the row names. *)
Definition row_plan (sv : string) : string := trim (nth 2 (split_fields 8 sv) EmptyString).
Record row_record (plans : list string) (sv : string) (rec : SubscriberRecord) : Prop := {
  rr_imsi : 0 < s_imsi rec /\ fits 64 (s_imsi rec);
  rr_imei : fits 64 (s_imei rec);
  rr_plan : 0 <= s_plan_id rec < Z.of_nat (length plans);
  rr_plan_name : plans !! Z.to_nat (s_plan_id rec) = Some (row_plan sv);
  rr_status : 0 <= s_status rec <= 2;
  rr_usage : fits 64 (s_bytes_used_period rec);
  rr_home : fits 32 (s_home_plmn rec) }.

Lemma parse_u64_fits s n : parse_u64 s = Some n -> fits 64 n.
Proof. unfold parse_u64. destruct (trim s); [done|]. apply digits_loop_fits. by apply fits_0. Qed.

Lemma parse_row_record plans sv rec : Z.of_nat (length plans) <= 32 ->
  parse_row plans sv = inr rec -> row_record plans sv rec.
Proof.
  intros Hp. unfold parse_row. intros H.
  destruct (_ <? _)%nat; [done|].
  destruct (parse_imsi _) as [imsi|] eqn:E1; [|done].
  assert (fits 64 imsi) as F1 by (by eapply parse_imsi_fits).
  destruct imsi as [|p|p]; try (destruct F1; lia); [done|].
  destruct (parse_imei _) as [imei|] eqn:E2; [|done].
  assert (fits 64 imei) by (by eapply parse_imei_fits).
  destruct (index_of _ plans) as [i|] eqn:E3; [|done]. pose proof (index_of_bound _ _ _ E3).
  apply index_of_lookup in E3. destruct (parse_status _) as [st|]; [|done].
  assert (0 <= status_code st <= 2) by (destruct st; simpl; lia).
  destruct (parse_u64 (nth 4 _ _)) as [used|] eqn:E4; [|done]. apply parse_u64_fits in E4.
  destruct (parse_u64 _); [|done]. destruct (parse_plmn _) as [plmn|] eqn:E5; [|done].
  apply parse_plmn_fits in E5. injection H as <-.
  split; simpl; rewrite ?wrap_id by (split; lia); done.
Qed.

(** A row that is accepted yields a record within the machine widths of the
    table, with a real status and with the index of the plan it names: the decision
    engine never sees an out-of-range plan index from the loader. *)
Theorem parse_row_wf plans sv rec : Z.of_nat (length plans) <= 32 ->
  parse_row plans sv = inr rec -> row_record plans sv rec.
Proof. apply parse_row_record. Qed.

Lemma parse_row_wf_witness : exists rec,
  parse_row ["gold"%string] "262011234567890,0,gold,ACTIVE,100,0,26201,roaming|volte" = inr rec /\
  row_record ["gold"%string] "262011234567890,0,gold,ACTIVE,100,0,26201,roaming|volte" rec.
Proof.
  eexists. split; [vm_compute; reflexivity|].
  apply (parse_row_wf ["gold"%string] "262011234567890,0,gold,ACTIVE,100,0,26201,roaming|volte");
    [simpl; lia|vm_compute; reflexivity].
Defined.
