(* ===== verification/Rules.v ===== *)
(** * Rules: the compiled rule representation ([include/policy/rules.hpp])

    The data the rule compiler produces and the decision engine reads: the
    feature-bit layout, actions, compiled rules, plans, time windows and the
    immutable rule set. *)

From S2P Require Import Prelude Text FlatSet.
From Stdlib Require Import ZArith Lia Bool Ascii String.
From stdpp Require Import base list numbers strings gmap.
Local Open Scope Z_scope.

Definition kMaxPlans : Z := 32.
Definition kMaxDnns : Z := 16.
Definition kMaxTimeWindows : Z := 8.
Definition kMaxUsageThresholds : Z := 8.
Definition kMaxRedirects : Z := 16.
Definition kMaxRules : Z := 4096.

(** ** Feature bit layout *)
Module feat.
Definition kRatBase : Z := 0.
Definition kRatBits : Z := 8.
Definition kDnnBase : Z := 8.
Definition kDnnBits : Z := 16.
Definition kStatusActive : Z := 24.
Definition kStatusSuspended : Z := 25.
Definition kStatusBarred : Z := 26.
Definition kStatusUnknown : Z := 27.
Definition kHomePlmn : Z := 28.
Definition kRoaming : Z := 29.
Definition kRoamingPartner : Z := 30.
Definition kRoamingAllowed : Z := 31.
Definition kImeiKnown : Z := 32.
Definition kImeiBlocked : Z := 33.
Definition kTetheringDetected : Z := 34.
Definition kTetheringAllowed : Z := 35.
Definition kEmergency : Z := 36.
Definition kQuotaExhausted : Z := 37.
Definition kPeriodExpired : Z := 38.
Definition kRequestedGbr : Z := 39.
Definition kTimeWindowBase : Z := 40.
Definition kUsageThresholdBase : Z := 48.
Definition bit (b : Z) : Z := Z.shiftl 1 b.
End feat.

(** ** Actions and rules *)

Definition kInheritQos : Z := Z.shiftl 1 0.
Definition kInheritAmbr : Z := Z.shiftl 1 1.
Definition kInheritQuota : Z := Z.shiftl 1 2.
Definition kInheritRatingGroup : Z := Z.shiftl 1 3.
Definition kInheritAll : Z := 0x0F.

(** The [reserved] bytes of both structs carry no data and are omitted. *)
Record Action := mkAction {
  a_quota_bytes : Z; a_ambr_ul_kbps : Z; a_ambr_dl_kbps : Z; a_rating_group : Z;
  a_quota_validity_s : Z; a_verdict : Z; a_reason : Z; a_qos_5qi : Z; a_arp : Z;
  a_set_flags : Z; a_redirect_id : Z; a_inherit_mask : Z }.
Definition zero_action : Action := mkAction 0 0 0 0 0 0 0 0 0 0 0 0.

Record CompiledRule := mkRule {
  r_match_mask : Z; r_match_value : Z; r_plan_mask : Z; r_id : Z; r_priority : Z;
  r_action : Action }.

Definition kPlanTetheringAllowed : Z := Z.shiftl 1 0.
Definition kPlanRoamingAllowed : Z := Z.shiftl 1 1.

Record PlanConfig := mkPlan {
  p_quota_bytes : Z; p_quota_validity_s : Z; p_rating_group : Z; p_ambr_ul_kbps : Z;
  p_ambr_dl_kbps : Z; p_id : Z; p_qos_5qi : Z; p_arp : Z; p_flags : Z }.
Definition default_plan : PlanConfig := mkPlan 0 0 0 0 0 0 9 8 0.

(** ** Time windows *)

Record TimeWindow := mkWindow { w_start_minute : Z; w_end_minute : Z }.
Definition default_window : TimeWindow := mkWindow 0 0.

Definition contains (w : TimeWindow) (m : Z) : bool :=
  if w_start_minute w <=? w_end_minute w
  then (w_start_minute w <=? m) && (m <? w_end_minute w)
  else (w_start_minute w <=? m) || (m <? w_end_minute w).

(** A window is the arc of the 24-hour clock from its start up to, and not
    including, its end: going clockwise, a minute is inside exactly when it comes
    before the end does.  A window whose start equals its end is empty. *)
Theorem contains_is_clock_arc w m :
  0 <= w_start_minute w < 1440 -> 0 <= w_end_minute w < 1440 -> 0 <= m < 1440 ->
  contains w m = ((m - w_start_minute w) mod 1440 <?
                  (w_end_minute w - w_start_minute w) mod 1440).
Proof.
  intros Hs He Hm. unfold contains.
  assert (forall a b, 0 <= a < 1440 -> 0 <= b < 1440 ->
    (a - b) mod 1440 = if b <=? a then a - b else a - b + 1440) as E.
  { intros a b Ha Hb. destruct (Z.leb_spec b a).
    - apply Z.mod_small. lia.
    - symmetry. apply (Z.mod_unique_pos _ _ (-1)); lia. }
  rewrite !E by done. repeat case_match; lia.
Qed.

(** 22:00-06:00 contains midnight and not noon. *)
Lemma contains_is_clock_arc_witness :
  contains (mkWindow 1320 360) 0 = ((0 - 1320) mod 1440 <? (360 - 1320) mod 1440).
Proof. apply (contains_is_clock_arc (mkWindow 1320 360) 0); simpl; lia. Defined.

(** ** Rule sets *)

(** The fixed-size arrays are lists of their capacity, with the counts beside
    them as in the code; the tables of names and the provenance fields follow. *)
Record RuleSet := mkRuleSet {
  rs_version : Z;
  rs_rules : list CompiledRule;
  rs_plans : list PlanConfig;
  rs_plan_count : Z;
  rs_time_windows : list TimeWindow;
  rs_time_window_count : Z;
  rs_usage_thresholds_permille : list Z;
  rs_usage_threshold_count : Z;
  rs_roaming_partners : FlatSet64;
  rs_imei_blocklist : FlatSet64;
  rs_plan_names : list string;
  rs_dnn_names : list string;
  rs_redirect_targets : list string;
  rs_default_action : Action;
  rs_source_path : string;
  rs_source_sha256 : string;
  rs_loaded_at_unix_ns : Z }.

Definition plan (rs : RuleSet) (plan_id : Z) : option PlanConfig :=
  if plan_id <? rs_plan_count rs
  then Some (nth (Z.to_nat plan_id) (rs_plans rs) default_plan) else None.

Definition rule_bytes (rs : RuleSet) : Z := Z.of_nat (length (rs_rules rs)) * 64.

Definition empty_rule_set (version : Z) : RuleSet :=
  mkRuleSet version [] (replicate 32 default_plan) 0 (replicate 8 default_window) 0
    (replicate 8 0) 0 fs_empty fs_empty [] [] [] zero_action EmptyString EmptyString 0.

(** ** Well-formed rule sets

    What [evaluate] relies on: every field within its machine width, the counts
    within the arrays. *)

Record action_ok (a : Action) : Prop := {
  ao_quota : fits 64 (a_quota_bytes a);
  ao_ul : fits 32 (a_ambr_ul_kbps a);
  ao_dl : fits 32 (a_ambr_dl_kbps a);
  ao_rg : fits 32 (a_rating_group a);
  ao_validity : fits 32 (a_quota_validity_s a);
  ao_verdict : fits 8 (a_verdict a);
  ao_reason : fits 8 (a_reason a);
  ao_5qi : fits 8 (a_qos_5qi a);
  ao_arp : fits 8 (a_arp a);
  ao_flags : fits 8 (a_set_flags a);
  ao_redirect : fits 8 (a_redirect_id a);
  ao_inherit : fits 8 (a_inherit_mask a) }.

Record plan_ok (p : PlanConfig) : Prop := {
  po_quota : fits 64 (p_quota_bytes p);
  po_validity : fits 32 (p_quota_validity_s p);
  po_rg : fits 32 (p_rating_group p);
  po_ul : fits 32 (p_ambr_ul_kbps p);
  po_dl : fits 32 (p_ambr_dl_kbps p);
  po_5qi : fits 8 (p_qos_5qi p);
  po_arp : fits 8 (p_arp p);
  po_flags : fits 16 (p_flags p) }.

Record rule_ok (r : CompiledRule) : Prop := {
  ro_mask : fits 64 (r_match_mask r);
  ro_value : fits 64 (r_match_value r);
  ro_plans : fits 32 (r_plan_mask r);
  ro_id : fits 32 (r_id r);
  ro_action : action_ok (r_action r) }.

(** [partners] and [blocked] are the sets the two tables stand for. *)
Record rule_set_ok (rs : RuleSet) (partners blocked : gset Z) : Prop := {
  rso_version : fits 32 (rs_version rs);
  rso_rules : Forall rule_ok (rs_rules rs);
  rso_plans_len : Z.of_nat (length (rs_plans rs)) = kMaxPlans;
  rso_plans : Forall plan_ok (rs_plans rs);
  rso_plan_count : 0 <= rs_plan_count rs <= kMaxPlans;
  rso_window_count : 0 <= rs_time_window_count rs <= kMaxTimeWindows;
  rso_thresholds : Forall (fits 32) (rs_usage_thresholds_permille rs);
  rso_threshold_count : 0 <= rs_usage_threshold_count rs <= kMaxUsageThresholds;
  rso_partners : fs_holds (rs_roaming_partners rs) partners;
  rso_blocked : fs_holds (rs_imei_blocklist rs) blocked;
  rso_default : action_ok (rs_default_action rs) }.

Lemma plan_lookup_ok rs P B k p : rule_set_ok rs P B -> 0 <= k ->
  plan rs k = Some p -> plan_ok p.
Proof.
  intros R Hk. unfold plan. destruct (Z.ltb_spec k (rs_plan_count rs)); [|done].
  intros [= <-]. pose proof (rso_plans_len _ _ _ R). pose proof (rso_plan_count _ _ _ R).
  pose proof (rso_plans _ _ _ R) as F. rewrite Forall_forall in F. apply F.
  apply list_elem_of_In, nth_In. lia.
Qed.
