(* ===== verification/Engine.v ===== *)
(** * Engine: the decision path ([include/policy/engine.hpp], [src/engine.cpp])

    The feature word of a request, the first-match scan over the compiled rules
    and the decision built from the winning action.  [now] is the reading of the
    coarse clock; [None] stands for a set lookup that does not stop, which
    [build_features_bits] excludes. *)

From S2P Require Import Prelude Text Wire Double Probe FlatSet Store Rules.
From Stdlib Require Import ZArith Lia Bool Ascii String.
From stdpp Require Import base list numbers strings gmap.
Local Open Scope Z_scope.

(** ** GBR classes *)

Definition gbr_5qis : list Z := [1; 2; 3; 4; 65; 66; 67; 71; 72; 73; 74; 75; 76].
Definition gbr_lo_bits : Z :=
  fold_left (fun m q => if q <? 64 then Z.lor m (Z.shiftl 1 q) else m) gbr_5qis 0.
Definition gbr_hi_bits : Z :=
  fold_left (fun m q => if (64 <=? q) && (q <? 128) then Z.lor m (Z.shiftl 1 (q - 64)) else m)
    gbr_5qis 0.
Definition kGbrLo : Z := gbr_lo_bits.
Definition kGbrHi : Z := gbr_hi_bits.

Definition is_gbr_5qi (q : Z) : bool :=
  if q <? 64 then has_bit (Z.shiftr kGbrLo q) 1
  else if q <? 128 then has_bit (Z.shiftr kGbrHi (q - 64)) 1
  else false.

(** ** Usage thresholds *)

(** With a 128-bit type. *)
Definition usage_at_least_permille (usage quota permille : Z) : bool :=
  if quota =? 0 then false
  else wrap 128 (quota * permille) <=? wrap 128 (usage * 1000).

(** Without one. *)
Definition usage_at_least_permille_fallback (usage quota permille : Z) : bool :=
  if quota =? 0 then false
  else
    let whole := u64 (quota / 1000 * permille) in
    let remainder := u64 (quota mod 1000 * permille) / 1000 in
    u64 (whole + remainder) <=? usage.

(** ** Features *)

Definition plan_bit_for (rec : option SubscriberRecord) : Z :=
  match rec with
  | None => 0
  | Some rec => if kMaxPlans <=? s_plan_id rec then 0 else Z.shiftl 1 (s_plan_id rec)
  end.

(** [for (i = 0; i < n; ++i) if (c(i)) f |= bit(base + i);] *)
Definition set_bits (base : Z) (n : Z) (c : nat -> bool) (f : Z) : Z :=
  fold_left (fun f i => set_if (c i) (feat.bit (base + Z.of_nat i)) f) (seq 0 (Z.to_nat n)) f.

Definition request_features (rs : RuleSet) (req : PolicyRequest) : option Z :=
  let f := 0 in
  let f := set_if (rq_rat_type req <? feat.kRatBits)
             (feat.bit (feat.kRatBase + rq_rat_type req)) f in
  let f := set_if (rq_dnn_id req <? feat.kDnnBits)
             (feat.bit (feat.kDnnBase + rq_dnn_id req)) f in
  f ← (if negb (rq_imei req =? 0) then
         let f := Z.lor f (feat.bit feat.kImeiKnown) in
         blocked ← fs_contains (rs_imei_blocklist rs) (rq_imei req);
         Some (set_if blocked (feat.bit feat.kImeiBlocked) f)
       else Some f);
  let f := set_if (has_bit (rq_flags req) kReqFlagTetheringDetected)
             (feat.bit feat.kTetheringDetected) f in
  let f := set_if (has_bit (rq_flags req) kReqFlagEmergency) (feat.bit feat.kEmergency) f in
  let f := set_if (is_gbr_5qi (rq_requested_5qi req)) (feat.bit feat.kRequestedGbr) f in
  let minute := u16 (rq_local_minute req mod 1440) in
  Some (set_bits feat.kTimeWindowBase (rs_time_window_count rs)
          (fun i => contains (nth i (rs_time_windows rs) default_window) minute) f).

Definition status_bit (status : Z) : Z :=
  if status =? status_code kActive then feat.bit feat.kStatusActive
  else if status =? status_code kSuspended then feat.bit feat.kStatusSuspended
  else if status =? status_code kBarred then feat.bit feat.kStatusBarred
  else feat.bit feat.kStatusUnknown.

(** The usage a decision is based on. *)
Definition usage_of (req : PolicyRequest) (rec : SubscriberRecord) : Z :=
  if has_bit (rq_flags req) kReqFlagUsageValid then rq_bytes_used_period req
  else load_usage rec.

Definition build_features (now : Z) (rs : RuleSet) (req : PolicyRequest)
    (rec : option SubscriberRecord) : option Z :=
  f ← request_features rs req;
  match rec with
  | None => Some (Z.lor (Z.lor f (feat.bit feat.kStatusUnknown)) (feat.bit feat.kRoaming))
  | Some rec =>
      let f := Z.lor f (status_bit (s_status rec)) in
      f ← (if rq_plmn req =? s_home_plmn rec then Some (Z.lor f (feat.bit feat.kHomePlmn))
           else
             let f := Z.lor f (feat.bit feat.kRoaming) in
             partner ← fs_contains (rs_roaming_partners rs) (rq_plmn req);
             Some (set_if partner (feat.bit feat.kRoamingPartner) f));
      let f := set_if (has_bit (s_flags rec) kSubRoamingAllowed)
                 (feat.bit feat.kRoamingAllowed) f in
      let pl := plan rs (s_plan_id rec) in
      let plan_tethering :=
        match pl with Some p => has_bit (p_flags p) kPlanTetheringAllowed | None => false end in
      let f := set_if (plan_tethering || has_bit (s_flags rec) kSubTetheringAllowed)
                 (feat.bit feat.kTetheringAllowed) f in
      let usage := usage_of req rec in
      let quota := match pl with Some p => p_quota_bytes p | None => 0 end in
      let f := set_if (negb (quota =? 0) && (quota <=? usage))
                 (feat.bit feat.kQuotaExhausted) f in
      let f := set_bits feat.kUsageThresholdBase (rs_usage_threshold_count rs)
                 (fun i => usage_at_least_permille usage quota
                             (nth i (rs_usage_thresholds_permille rs) 0)) f in
      Some (set_if (negb (now =? 0) && negb (s_period_reset_ts rec =? 0) &&
                    (s_period_reset_ts rec <=? now)) (feat.bit feat.kPeriodExpired) f)
  end.

(** ** The decision *)

Definition rule_matches (f plan_bit : Z) (r : CompiledRule) : bool :=
  (Z.land f (r_match_mask r) =? r_match_value r) &&
  negb (negb (r_plan_mask r =? 0) && (Z.land (r_plan_mask r) plan_bit =? 0)).

(** The scan: the first rule that matches. *)
Fixpoint scan (f plan_bit : Z) (rules : list CompiledRule) : option CompiledRule :=
  match rules with
  | [] => None
  | r :: rules' => if rule_matches f plan_bit r then Some r else scan f plan_bit rules'
  end.

Definition decide_action (rs : RuleSet) (req : PolicyRequest) (rec : option SubscriberRecord)
    (hit : option CompiledRule) : PolicyDecision :=
  let act := match hit with Some r => r_action r | None => rs_default_action rs end in
  let pl := match rec with Some rec => plan rs (s_plan_id rec) | None => None end in
  let inh m := match pl with Some p => if has_bit (a_inherit_mask act) m then Some p else None
                           | None => None end in
  let from {A} m (p : PlanConfig -> A) (a : A) := match inh m with Some pl => p pl | None => a end in
  let usage := if has_bit (rq_flags req) kReqFlagUsageValid then rq_bytes_used_period req
               else match rec with Some rec => load_usage rec | None => 0 end in
  let quota_bytes := from kInheritQuota
    (fun p => if usage <? p_quota_bytes p then p_quota_bytes p - usage else 0)
    (a_quota_bytes act) in
  let flags := set_if (has_bit (rq_flags req) kReqFlagUsageValid) kFlagUsageFromRequest
                 (a_set_flags act) in
  let deny := a_verdict act =? verdict_code kDeny in
  let keep v := if deny then 0 else v in
  mkDecision kMagicVersion (rq_seq req) (rq_client_ts_ns req)
    (keep quota_bytes)
    (keep (from kInheritAmbr p_ambr_ul_kbps (a_ambr_ul_kbps act)))
    (keep (from kInheritAmbr p_ambr_dl_kbps (a_ambr_dl_kbps act)))
    (from kInheritRatingGroup p_rating_group (a_rating_group act))
    (keep (from kInheritQuota p_quota_validity_s (a_quota_validity_s act)))
    (match hit with Some r => r_id r | None => 0 end)
    (rs_version rs)
    (a_verdict act)
    (match hit with Some r => a_reason (r_action r) | None => reason_code kNoMatchingRule end)
    (keep (from kInheritQos p_qos_5qi (a_qos_5qi act)))
    (keep (from kInheritQos p_arp (a_arp act)))
    flags (a_redirect_id act) 0 0.

Definition evaluate (now : Z) (rs : RuleSet) (req : PolicyRequest)
    (rec : option SubscriberRecord) : option PolicyDecision :=
  f ← build_features now rs req rec;
  let plan_bit := plan_bit_for rec in
  Some (decide_action rs req rec (scan f plan_bit (rs_rules rs))).

(** The overload that looks the subscriber up first. *)
Definition evaluate_in_store (now : Z) (rs : RuleSet) (store : SubscriberStore)
    (req : PolicyRequest) : option PolicyDecision :=
  rec ← Store.find store (rq_imsi req);
  evaluate now rs req rec.

Definition malformed_decision (seq client_ts_ns policy_version : Z) : PolicyDecision :=
  mkDecision kMagicVersion seq client_ts_ns 0 0 0 0 0 0 policy_version
    (verdict_code kDeny) (reason_code kMalformedRequest) 0 0 0 0 0 0.

(** ** The feature dump *)

Definition kNamed : list (Z * string) :=
  [(feat.kStatusActive, "status=ACTIVE"); (feat.kStatusSuspended, "status=SUSPENDED");
   (feat.kStatusBarred, "status=BARRED"); (feat.kStatusUnknown, "status=UNKNOWN");
   (feat.kHomePlmn, "home_plmn"); (feat.kRoaming, "roaming");
   (feat.kRoamingPartner, "roaming_partner"); (feat.kRoamingAllowed, "roaming_allowed");
   (feat.kImeiKnown, "imei_known"); (feat.kImeiBlocked, "imei_blocked");
   (feat.kTetheringDetected, "tethering_detected");
   (feat.kTetheringAllowed, "tethering_allowed"); (feat.kEmergency, "emergency");
   (feat.kQuotaExhausted, "quota_exhausted"); (feat.kPeriodExpired, "period_expired");
   (feat.kRequestedGbr, "requested_gbr")]%string.

Definition add (out name : string) : string :=
  match out with EmptyString => name | _ => (out +:+ " " +:+ name)%string end.

Definition describe_features (rs : RuleSet) (f : Z) : string :=
  let on b := has_bit f (feat.bit b) in
  let step {A} (test : A -> bool) (text : A -> string) (l : list A) (out : string) :=
    fold_left (fun out x => if test x then add out (text x) else out) l out in
  let out := step (fun i => on (feat.kRatBase + Z.of_nat i))
    (fun i => "rat=" +:+ rat_name (Z.of_nat i))%string (seq 0 8) EmptyString in
  let out := step (fun i => on (feat.kDnnBase + Z.of_nat i))
    (fun i => "dnn=" +:+ (if (i <? length (rs_dnn_names rs))%nat
                          then nth i (rs_dnn_names rs) EmptyString
                          else to_string (Z.of_nat i)))%string (seq 0 16) out in
  let out := step (fun nb => on nb.1) snd kNamed out in
  let out := step (fun i => on (feat.kTimeWindowBase + Z.of_nat i))
    (fun i => let w := nth i (rs_time_windows rs) default_window in
       "time_window[" +:+ to_string (w_start_minute w) +:+ "-" +:+
       to_string (w_end_minute w) +:+ "]")%string
    (seq 0 (Z.to_nat (rs_time_window_count rs))) out in
  let out := step (fun i => on (feat.kUsageThresholdBase + Z.of_nat i))
    (fun i => "usage>=" +:+ to_string (nth i (rs_usage_thresholds_permille rs) 0) +:+
       "permille")%string
    (seq 0 (Z.to_nat (rs_usage_threshold_count rs))) out in
  match out with EmptyString => "(none)"%string | _ => out end.

(** ** Bits *)

Lemma set_bits_S base n c f : set_bits base (Z.of_nat (S n)) c f =
  set_if (c n) (feat.bit (base + Z.of_nat n)) (set_bits base (Z.of_nat n) c f).
Proof.
  unfold set_bits. rewrite !Nat2Z.id, seq_S, fold_left_app. done.
Qed.

Lemma testbit_set_bits base n c f j : 0 <= base -> 0 <= n ->
  Z.testbit (set_bits base n c f) j =
  Z.testbit f j || ((base <=? j) && (j <? base + n) && c (Z.to_nat (j - base))).
Proof.
  intros Hb Hn. replace n with (Z.of_nat (Z.to_nat n)) by lia.
  induction (Z.to_nat n) as [|k IH].
  { change (Z.of_nat 0) with 0. rewrite Z.add_0_r. unfold set_bits. cbn [Z.to_nat seq fold_left].
    replace ((base <=? j) && (j <? base)) with false by lia. by rewrite orb_false_r. }
  rewrite set_bits_S. unfold feat.bit. rewrite testbit_set_if, IH by lia.
  destruct (Z.eqb_spec j (base + Z.of_nat k)) as [->|Hne].
  - replace (Z.to_nat (base + Z.of_nat k - base)) with k by lia.
    destruct (Z.leb_spec base (base + Z.of_nat k)); [|lia].
    destruct (Z.ltb_spec (base + Z.of_nat k) (base + Z.of_nat k)); [lia|].
    destruct (Z.ltb_spec (base + Z.of_nat k) (base + Z.of_nat (S k))); [|lia].
    simpl. by rewrite orb_false_r, andb_true_r.
  - rewrite andb_false_r, orb_false_r. f_equal. f_equal.
    destruct (Z.leb_spec base j), (Z.ltb_spec j (base + Z.of_nat k)),
      (Z.ltb_spec j (base + Z.of_nat (S k))); simpl; (done || lia).
Qed.

(** ** The meaning of each feature bit *)

Definition quota_of (rs : RuleSet) (rec : SubscriberRecord) : Z :=
  match plan rs (s_plan_id rec) with Some p => p_quota_bytes p | None => 0 end.

(** The bits a request carries on its own. *)
Definition request_bit (rs : RuleSet) (blocked : gset Z) (req : PolicyRequest) (b : Z) : bool :=
  if b <? feat.kRatBase + feat.kRatBits then b =? rq_rat_type req
  else if b <? feat.kDnnBase + feat.kDnnBits then b =? feat.kDnnBase + rq_dnn_id req
  else if b =? feat.kImeiKnown then negb (rq_imei req =? 0)
  else if b =? feat.kImeiBlocked then negb (rq_imei req =? 0) && bool_decide (rq_imei req ∈ blocked)
  else if b =? feat.kTetheringDetected then Z.testbit (rq_flags req) 0
  else if b =? feat.kEmergency then Z.testbit (rq_flags req) 1
  else if b =? feat.kRequestedGbr then bool_decide (rq_requested_5qi req ∈ gbr_5qis)
  else (feat.kTimeWindowBase <=? b) && (b <? feat.kTimeWindowBase + rs_time_window_count rs) &&
       contains (nth (Z.to_nat (b - feat.kTimeWindowBase)) (rs_time_windows rs) default_window)
         (rq_local_minute req mod 1440).

(** The bits that depend on the subscriber. *)
Definition subscriber_bit (now : Z) (rs : RuleSet) (partners : gset Z) (req : PolicyRequest)
    (rec : option SubscriberRecord) (b : Z) : bool :=
  match rec with
  | None => (b =? feat.kStatusUnknown) || (b =? feat.kRoaming)
  | Some rec =>
      if b =? feat.kStatusActive then s_status rec =? 0
      else if b =? feat.kStatusSuspended then s_status rec =? 1
      else if b =? feat.kStatusBarred then s_status rec =? 2
      else if b =? feat.kStatusUnknown then negb (0 <=? s_status rec) || (2 <? s_status rec)
      else if b =? feat.kHomePlmn then rq_plmn req =? s_home_plmn rec
      else if b =? feat.kRoaming then negb (rq_plmn req =? s_home_plmn rec)
      else if b =? feat.kRoamingPartner then
        negb (rq_plmn req =? s_home_plmn rec) && bool_decide (rq_plmn req ∈ partners)
      else if b =? feat.kRoamingAllowed then Z.testbit (s_flags rec) 0
      else if b =? feat.kTetheringAllowed then
        match plan rs (s_plan_id rec) with Some p => Z.testbit (p_flags p) 0 | None => false end
        || Z.testbit (s_flags rec) 1
      else if b =? feat.kQuotaExhausted then
        (0 <? quota_of rs rec) && (quota_of rs rec <=? usage_of req rec)
      else if b =? feat.kPeriodExpired then
        negb (now =? 0) && negb (s_period_reset_ts rec =? 0) && (s_period_reset_ts rec <=? now)
      else (feat.kUsageThresholdBase <=? b) &&
           (b <? feat.kUsageThresholdBase + rs_usage_threshold_count rs) &&
           (0 <? quota_of rs rec) &&
           (quota_of rs rec * nth (Z.to_nat (b - feat.kUsageThresholdBase))
              (rs_usage_thresholds_permille rs) 0 <=? usage_of req rec * 1000)
  end.

Lemma is_gbr_5qi_spec q : fits 8 q -> is_gbr_5qi q = bool_decide (q ∈ gbr_5qis).
Proof.
  intros [H0 H1]. assert (exists n, (n < 256)%nat /\ q = Z.of_nat n) as (n & Hn & ->)
    by (exists (Z.to_nat q); lia).
  assert (forallb (fun k => Bool.eqb (is_gbr_5qi (Z.of_nat k))
            (bool_decide (Z.of_nat k ∈ gbr_5qis))) (seq 0 256) = true) as H by (vm_compute; reflexivity).
  rewrite forallb_forall in H. apply eqb_prop, H. apply in_seq. lia.
Qed.

Lemma usage_at_least_permille_spec usage quota permille :
  fits 64 usage -> fits 64 quota -> fits 32 permille ->
  usage_at_least_permille usage quota permille =
  (0 <? quota) && (quota * permille <=? usage * 1000).
Proof.
  intros [Hu1 Hu2] [Hq1 Hq2] [Hp1 Hp2]. unfold usage_at_least_permille.
  destruct (Z.eqb_spec quota 0) as [->|]; [done|].
  destruct (Z.ltb_spec 0 quota); [|lia]. simpl.
  assert (2 ^ 128 = 2 ^ 64 * 2 ^ 64) as E128 by reflexivity.
  assert (2 ^ 32 < 2 ^ 64) by lia. assert (1000 < 2 ^ 64) by lia.
  rewrite !wrap_id; [done|split; [nia|]|split; [nia|]]; rewrite E128;
    apply Z.mul_lt_mono_nonneg; lia.
Qed.

(** Without 128-bit arithmetic, the threshold test agrees with the exact one
    when [quota * permille] is a multiple of 1000 (and does not overflow 64 bits);
    the comment in the code claims exactness at every boundary. *)
Theorem permille_fallback_rounds_down usage quota permille :
  fits 64 usage -> 0 < quota -> fits 32 permille -> quota * permille < 2 ^ 64 ->
  quota * 1000 < 2 ^ 64 ->
  usage_at_least_permille_fallback usage quota permille =
    (quota * permille / 1000 <=? usage) /\
  ((quota * permille) mod 1000 = 0 ->
   usage_at_least_permille_fallback usage quota permille =
     usage_at_least_permille usage quota permille).
Proof.
  intros Hu Hq Hp Hov Hq2.
  assert (usage_at_least_permille_fallback usage quota permille =
          (quota * permille / 1000 <=? usage)) as E.
  { unfold usage_at_least_permille_fallback. destruct (Z.eqb_spec quota 0); [lia|].
    pose proof (Z.div_mod quota 1000 ltac:(lia)) as D.
    pose proof (Z.mod_pos_bound quota 1000 ltac:(lia)) as M.
    assert (0 <= quota / 1000) by (apply Z.div_pos; lia). destruct Hp as [Hp _].
    assert (quota * permille = quota / 1000 * permille * 1000 + quota mod 1000 * permille) as S
      by (rewrite D at 1; ring).
    assert (0 <= quota / 1000 * permille) by nia. assert (0 <= quota mod 1000 * permille) by nia.
    assert (quota * permille / 1000 =
            quota / 1000 * permille + quota mod 1000 * permille / 1000) as ->.
    { rewrite S. rewrite Z.div_add_l by lia. done. }
    assert (0 <= quota mod 1000 * permille / 1000 <= quota mod 1000 * permille) as R.
    { split; [apply Z.div_pos; lia|]. apply Z.div_le_upper_bound; lia. }
    rewrite !wrap_id; [done|split; lia|split; lia|].
    rewrite !wrap_id by (split; lia). split; lia. }
  split; [done|]. intros Hm. rewrite E, usage_at_least_permille_spec by (done || split; lia).
  pose proof (Z.div_mod (quota * permille) 1000 ltac:(lia)) as D.
  destruct (Z.ltb_spec 0 quota); [|lia]. simpl. apply eq_true_iff_eq. rewrite !Z.leb_le. lia.
Qed.

(** A quota of 1999 bytes at 500 permille is 999.5 bytes: 999 bytes are below
    the threshold, and the fallback reports it crossed. *)
Lemma permille_fallback_rounds_down_witness :
  usage_at_least_permille_fallback 999 1999 500 = (1999 * 500 / 1000 <=? 999) /\
  usage_at_least_permille 999 1999 500 = false.
Proof.
  split; [|reflexivity].
  apply (permille_fallback_rounds_down 999 1999 500); unfold fits; lia.
Defined.

(** ** The feature word *)

(** The fields of a request within their widths, in the terms used here. *)
Record request_ok (req : PolicyRequest) : Prop := {
  qo_seq : fits 32 (rq_seq req);
  qo_ts : fits 64 (rq_client_ts_ns req);
  qo_rat : fits 8 (rq_rat_type req);
  qo_dnn : fits 8 (rq_dnn_id req);
  qo_5qi : fits 8 (rq_requested_5qi req);
  qo_minute : fits 16 (rq_local_minute req);
  qo_usage : fits 64 (rq_bytes_used_period req) }.

Lemma msg_ok_request_ok req : msg_ok req -> request_ok req.
Proof.
  unfold msg_ok, fields_ok. simpl. unfold request_widths, request_fields. intros H.
  repeat (apply Forall2_cons in H as [? H]). by split.
Qed.

Record record_ok (rec : SubscriberRecord) : Prop := {
  co_plan : fits 32 (s_plan_id rec);
  co_usage : fits 64 (s_bytes_used_period rec) }.

Ltac split_bit b :=
  repeat match goal with
  | |- context [if b =? ?c then _ else _] =>
      destruct (Z.eqb_spec b c) as [->|?]; [|]
  | |- context [if b <? ?c then _ else _] => destruct (Z.ltb_spec b c); [|]
  end.

Lemma request_features_spec rs P B req : rule_set_ok rs P B -> request_ok req ->
  exists f, request_features rs req = Some f /\
    forall b, 0 <= b -> Z.testbit f b = request_bit rs B req b.
Proof.
  intros R Q. unfold request_features.
  pose proof (qo_rat _ Q) as [? _]. pose proof (qo_dnn _ Q) as [? _].
  pose proof (rso_window_count _ _ _ R) as [? Hw].
  pose proof (Z.mod_pos_bound (rq_local_minute req) 1440 ltac:(lia)) as Hmin.
  set (f0 := set_if (rq_dnn_id req <? feat.kDnnBits) _ _).
  set (imei := negb (rq_imei req =? 0)).
  set (f1 := set_if (imei && bool_decide (rq_imei req ∈ B)) (feat.bit feat.kImeiBlocked)
               (set_if imei (feat.bit feat.kImeiKnown) f0)).
  assert ((if imei then
         blocked ← fs_contains (rs_imei_blocklist rs) (rq_imei req);
         Some (set_if blocked (feat.bit feat.kImeiBlocked) (Z.lor f0 (feat.bit feat.kImeiKnown)))
       else Some f0) = Some f1) as ->.
  { unfold f1. destruct imei; [|done]. by rewrite (rso_blocked _ _ _ R). }
  simpl. eexists. split; [done|]. intros b Hb.
  rewrite wrap_id by (split; lia). rewrite is_gbr_5qi_spec by apply Q.
  unfold f1, f0, kReqFlagTetheringDetected, kReqFlagEmergency. rewrite !has_bit_testbit by lia.
  rewrite testbit_set_bits by (done || lia). unfold feat.bit.
  rewrite !testbit_set_if by (unfold feat.kRatBase, feat.kDnnBase; (done || lia)).
  rewrite Z.bits_0. unfold request_bit.
  unfold feat.kTimeWindowBase, feat.kRatBase, feat.kDnnBase, feat.kRatBits, feat.kDnnBits,
    feat.kImeiKnown, feat.kImeiBlocked, feat.kTetheringDetected, feat.kEmergency,
    feat.kRequestedGbr, kMaxTimeWindows in *.
  fold imei. set (w := contains _ _). clearbody w imei. clear f0 f1.
  generalize (bool_decide (rq_requested_5qi req ∈ gbr_5qis)) (bool_decide (rq_imei req ∈ B))
    (Z.testbit (rq_flags req) 0) (Z.testbit (rq_flags req) 1).
  intros g bl t e. clear Q R.
  destruct (Z.ltb_spec b (0 + 8)); [lia|]. destruct (Z.ltb_spec b (8 + 16)); [lia|].
  split_bit b; destruct w, imei, g, bl, t, e; lia.
Qed.

Lemma status_bit_spec st b : Z.testbit (status_bit st) b =
  if b =? feat.kStatusActive then st =? 0
  else if b =? feat.kStatusSuspended then st =? 1
  else if b =? feat.kStatusBarred then st =? 2
  else (b =? feat.kStatusUnknown) && (negb (0 <=? st) || (2 <? st)).
Proof.
  unfold status_bit, feat.bit, status_code, feat.kStatusActive, feat.kStatusSuspended,
    feat.kStatusBarred, feat.kStatusUnknown.
  destruct (Z.eqb_spec st 0); [rewrite testbit_pow2 by lia; split_bit b; lia|].
  destruct (Z.eqb_spec st 1); [rewrite testbit_pow2 by lia; split_bit b; lia|].
  destruct (Z.eqb_spec st 2); rewrite testbit_pow2 by lia; split_bit b; lia.
Qed.

Lemma quota_of_fits rs P B rec : rule_set_ok rs P B -> record_ok rec -> fits 64 (quota_of rs rec).
Proof.
  intros R C. unfold quota_of. destruct (plan rs (s_plan_id rec)) as [p|] eqn:E; [|by apply fits_0].
  eapply po_quota, plan_lookup_ok; [done| |done]. apply C.
Qed.

Lemma usage_of_fits req rec : request_ok req -> record_ok rec -> fits 64 (usage_of req rec).
Proof. intros Q C. unfold usage_of, load_usage. case_match; [apply Q|apply C]. Qed.

Lemma threshold_fits rs P B i : rule_set_ok rs P B ->
  fits 32 (nth i (rs_usage_thresholds_permille rs) 0).
Proof.
  intros R. destruct (nth_in_or_default i (rs_usage_thresholds_permille rs) 0) as [Hin| ->];
    [|by apply fits_0].
  pose proof (rso_thresholds _ _ _ R) as F. rewrite Forall_forall in F.
  apply F. by apply list_elem_of_In.
Qed.

Lemma build_features_spec now rs P B req rec : rule_set_ok rs P B -> request_ok req ->
  (forall r, rec = Some r -> record_ok r) ->
  exists f, build_features now rs req rec = Some f /\
    forall b, 0 <= b ->
      Z.testbit f b = request_bit rs B req b || subscriber_bit now rs P req rec b.
Proof.
  intros R Q C. unfold build_features.
  destruct (request_features_spec rs P B req R Q) as (f0 & -> & H0). cbn [mbind option_bind].
  destruct rec as [rec|]; cbn [subscriber_bit].
  2: { eexists. split; [done|]. intros b Hb. rewrite !Z.lor_spec. unfold feat.bit.
       rewrite !testbit_pow2 by done. by rewrite H0, orb_assoc. }
  specialize (C rec eq_refl). fold (quota_of rs rec).
  set (home := rq_plmn req =? s_home_plmn rec).
  set (fs := Z.lor f0 (status_bit (s_status rec))).
  set (f1 := set_if (negb home && bool_decide (rq_plmn req ∈ P)) (feat.bit feat.kRoamingPartner)
               (set_if (negb home) (feat.bit feat.kRoaming)
                  (set_if home (feat.bit feat.kHomePlmn) fs))).
  assert ((if home then Some (Z.lor fs (feat.bit feat.kHomePlmn))
           else partner ← fs_contains (rs_roaming_partners rs) (rq_plmn req);
                Some (set_if partner (feat.bit feat.kRoamingPartner)
                        (Z.lor fs (feat.bit feat.kRoaming)))) = Some f1) as ->.
  { unfold f1. destruct home; [done|]. by rewrite (rso_partners _ _ _ R). }
  cbn [mbind option_bind]. eexists. split; [done|]. intros b Hb.
  rewrite (testbit_set_if _ _ _ b) by done.
  rewrite testbit_set_bits by (done || apply R).
  rewrite usage_at_least_permille_spec;
    [|by apply usage_of_fits|by eapply quota_of_fits|by eapply threshold_fits].
  assert (fits 64 (quota_of rs rec)) as [Hq _] by (by eapply quota_of_fits).
  pose proof (rso_threshold_count _ _ _ R) as [Ht0 Ht].
  unfold f1, fs, kSubRoamingAllowed, kSubTetheringAllowed, kPlanTetheringAllowed, feat.bit.
  rewrite !testbit_set_if by done. rewrite Z.lor_spec, status_bit_spec, H0 by done.
  set (tp := match plan rs (s_plan_id rec) with Some _ => _ | None => false end).
  assert (tp = match plan rs (s_plan_id rec) with
               | Some p => Z.testbit (p_flags p) 0 | None => false end) as ->.
  { unfold tp. destruct (plan rs (s_plan_id rec)); [|done]. by rewrite has_bit_testbit. }
  rewrite !has_bit_testbit by lia.
  generalize (request_bit rs B req b). intros rb. clear H0 f0 fs f1 R Q C.
  set (thr := quota_of rs rec * _ <=? _). clearbody thr home.
  generalize dependent (quota_of rs rec). intros quota Hq.
  generalize (match plan rs (s_plan_id rec) with
              | Some p => Z.testbit (p_flags p) 0 | None => false end) (Z.testbit (s_flags rec) 0)
    (Z.testbit (s_flags rec) 1) (bool_decide (rq_plmn req ∈ P)).
  intros tp sr st pa.
  unfold kMaxUsageThresholds, feat.kUsageThresholdBase, feat.kPeriodExpired, feat.kQuotaExhausted,
    feat.kTetheringAllowed, feat.kRoamingAllowed, feat.kRoamingPartner, feat.kRoaming,
    feat.kHomePlmn, feat.kStatusUnknown, feat.kStatusBarred, feat.kStatusSuspended,
    feat.kStatusActive in *.
  destruct rb; [by rewrite ?orb_true_l|].
  split_bit b; destruct thr, home, tp, sr, st, pa; lia.
Qed.

Lemma set_bits_fits w base n c f : 0 <= base -> base + n <= w -> fits w f ->
  fits w (set_bits base n c f).
Proof.
  intros Hb Hw Hf. assert (0 <= w) by (pose proof Hf as [? ?];
    destruct (Z.lt_ge_cases w 0); [rewrite Z.pow_neg_r in * by done|]; lia).
  unfold set_bits.
  assert (Forall (fun i => base + Z.of_nat i < w) (seq 0 (Z.to_nat n))) as Hs.
  { apply Forall_forall. intros i Hi. apply elem_of_seq in Hi. lia. }
  revert f Hf. induction Hs as [|i l Hi _ IH]; intros f Hf; simpl; [done|].
  apply IH. apply fits_set_if; [done|done|]. apply fits_pow2. lia.
Qed.

Lemma build_features_fits now rs P B req rec f : rule_set_ok rs P B -> request_ok req ->
  build_features now rs req rec = Some f -> fits 56 f.
Proof.
  intros R Q. pose proof (rso_window_count _ _ _ R) as [_ Hw]. unfold kMaxTimeWindows in Hw.
  pose proof (rso_threshold_count _ _ _ R) as [_ Ht]. unfold kMaxUsageThresholds in Ht.
  pose proof (qo_rat _ Q) as [? _]. pose proof (qo_dnn _ Q) as [? _].
  assert (forall c b g, 0 <= b < 56 -> fits 56 g -> fits 56 (set_if c (feat.bit b) g)) as S
    by (intros; apply fits_set_if; [done|done|by apply fits_pow2]).
  assert (forall b g, 0 <= b < 56 -> fits 56 g -> fits 56 (Z.lor g (feat.bit b))) as L
    by (intros b g ? ?; apply (S true b g); done).
  assert (forall g, request_features rs req = Some g -> fits 56 g) as RF.
  { intros g. unfold request_features. intros E.
    apply bind_Some in E as (g' & E & [= <-]).
    apply set_bits_fits; [done|unfold feat.kTimeWindowBase; lia|].
    do 3 (apply S; [done|]).
    assert (fits 56 (set_if (rq_dnn_id req <? feat.kDnnBits)
      (feat.bit (feat.kDnnBase + rq_dnn_id req)) (set_if (rq_rat_type req <? feat.kRatBits)
          (feat.bit (feat.kRatBase + rq_rat_type req)) 0))) as F0.
    { unfold feat.kDnnBits, feat.kRatBits, feat.kDnnBase, feat.kRatBase, set_if, feat.bit.
      repeat case_match; bool_to_prop; auto 6 using fits_lor, fits_pow2, fits_0 with lia. }
    destruct (negb _); [|by injection E as <-].
    apply bind_Some in E as (bl & _ & [= <-]). apply S; [done|]. by apply L. }
  intros E. unfold build_features in E. apply bind_Some in E as (g & Eg & E).
  apply RF in Eg. destruct rec as [rec|]; [|injection E as <-; by apply L, L].
  apply bind_Some in E as (g' & Eg' & [= <-]). apply S; [done|].
  apply set_bits_fits; [done|unfold feat.kUsageThresholdBase; lia|].
  do 3 (apply S; [done|]).
  assert (fits 56 (Z.lor g (status_bit (s_status rec)))) as Fs
    by (unfold status_bit; repeat case_match; by apply L).
  destruct (_ =? _); [injection Eg' as <-; by apply L|].
  apply bind_Some in Eg' as (pa & _ & [= <-]). apply S; [done|]. by apply L.
Qed.

Lemma scan_spec f pb rules :
  match scan f pb rules with
  | Some r => exists pre post, rules = pre ++ r :: post /\ rule_matches f pb r = true /\
      Forall (fun r' => rule_matches f pb r' = false) pre
  | None => Forall (fun r' => rule_matches f pb r' = false) rules
  end.
Proof.
  induction rules as [|r rules IH]; simpl; [constructor|].
  destruct (rule_matches f pb r) eqn:E; [by exists [], rules|].
  destruct (scan f pb rules) as [r'|]; [|by constructor].
  destruct IH as (pre & post & -> & H1 & H2). exists (r :: pre), post.
  split; [done|]. split; [done|]. by constructor.
Qed.

(** A match is the conjunction of the rule's bit conditions: every bit the mask
    names has the wanted value. *)
Lemma land_eq_iff f mask value : 0 <= f -> 0 <= mask -> 0 <= value ->
  Z.land f mask = value <->
  (forall b, 0 <= b -> Z.testbit value b = true -> Z.testbit mask b = true) /\
  (forall b, 0 <= b -> Z.testbit mask b = true -> Z.testbit f b = Z.testbit value b).
Proof.
  intros Hf Hm Hv. split.
  - intros <-. split; intros b Hb; rewrite Z.land_spec; [by intros [? ?]%andb_true_iff|].
    intros ->. by rewrite andb_true_r.
  - intros [Hsub Heq]. apply Z.bits_inj'. intros b Hb. rewrite Z.land_spec.
    destruct (Z.testbit mask b) eqn:E; [by rewrite andb_true_r, Heq|].
    rewrite andb_false_r. destruct (Z.testbit value b) eqn:E'; [|done].
    by rewrite Hsub in E by done.
Qed.

(** What it means for a rule to apply: every bit its mask names has the wanted value
    in the feature word, and the rule is for every plan or names the plan of the
    subscriber. *)
Definition applies (f : Z) (rec : option SubscriberRecord) (r : CompiledRule) : Prop :=
  (forall b, 0 <= b ->
     Z.testbit (r_match_value r) b = Z.testbit f b && Z.testbit (r_match_mask r) b) /\
  (r_plan_mask r = 0 \/
   exists c, rec = Some c /\ s_plan_id c < kMaxPlans /\ Z.testbit (r_plan_mask r) (s_plan_id c) = true).

Lemma land_shiftl_zero m k : 0 <= k -> Z.land m (Z.shiftl 1 k) = 0 <-> Z.testbit m k = false.
Proof.
  intros Hk. rewrite <- has_bit_testbit by done. unfold has_bit. by rewrite negb_false_iff, Z.eqb_eq.
Qed.

Lemma rule_matches_applies f rec r : (forall c, rec = Some c -> 0 <= s_plan_id c) ->
  rule_matches f (plan_bit_for rec) r = true <-> applies f rec r.
Proof.
  intros HC. unfold rule_matches, applies. rewrite andb_true_iff, Z.eqb_eq.
  assert (Z.land f (r_match_mask r) = r_match_value r <-> (forall b, 0 <= b ->
     Z.testbit (r_match_value r) b = Z.testbit f b && Z.testbit (r_match_mask r) b)) as ->.
  { split; [intros <- b Hb; by rewrite Z.land_spec|]. intros H. apply Z.bits_inj'. intros b Hb.
    by rewrite Z.land_spec, H. }
  assert (negb (negb (r_plan_mask r =? 0) && (Z.land (r_plan_mask r) (plan_bit_for rec) =? 0)) = true <->
    r_plan_mask r = 0 \/ Z.land (r_plan_mask r) (plan_bit_for rec) <> 0) as ->.
  { destruct (Z.eqb_spec (r_plan_mask r) 0), (Z.eqb_spec (Z.land (r_plan_mask r) (plan_bit_for rec)) 0); simpl;
      split; try done; try tauto; by left. }
  assert (Z.land (r_plan_mask r) (plan_bit_for rec) <> 0 <-> exists c, rec = Some c /\ s_plan_id c < kMaxPlans /\
    Z.testbit (r_plan_mask r) (s_plan_id c) = true) as ->; [|done].
  destruct rec as [c|]; simpl.
  2: { rewrite Z.land_0_r. split; [done|]. by intros (? & ? & _). }
  specialize (HC c eq_refl). destruct (Z.leb_spec kMaxPlans (s_plan_id c)).
  - rewrite Z.land_0_r. split; [done|]. intros (? & [= <-] & ? & _). lia.
  - rewrite land_shiftl_zero by done. rewrite not_false_iff_true.
    split; [by exists c|]. by intros (? & [= <-] & _ & ?).
Qed.

(** The hypotheses of a decision: a well-formed rule set, a decoded request and
    a record of the table when the subscriber is known. *)
Section Decision.
Context (now : Z) (rs : RuleSet) (partners blocked : gset Z).
Context (req : PolicyRequest) (rec : option SubscriberRecord).
Hypothesis HR : rule_set_ok rs partners blocked.
Hypothesis HQ : request_ok req.
Hypothesis HC : forall r, rec = Some r -> record_ok r.


(** Exactly one of the four subscriber-status bits is set, and exactly one of
    home and roaming, for every request: the rule author's status conditions
    partition the subscribers. *)
Theorem status_bits_partition : exists f,
  build_features now rs req rec = Some f /\
  (exists b, 24 <= b <= 27 /\ forall b', 24 <= b' <= 27 -> Z.testbit f b' = (b' =? b)) /\
  Z.testbit f feat.kHomePlmn = negb (Z.testbit f feat.kRoaming).
Proof.
  destruct (build_features_spec now rs partners blocked req rec HR HQ HC) as (f & E & H).
  exists f. split; [done|].
  assert (forall b, 24 <= b <= 31 -> request_bit rs blocked req b = false) as Hrb.
  { intros b Hb. unfold request_bit, feat.kRatBase, feat.kRatBits, feat.kDnnBase, feat.kDnnBits,
      feat.kImeiKnown, feat.kImeiBlocked, feat.kTetheringDetected, feat.kEmergency,
      feat.kRequestedGbr, feat.kTimeWindowBase. split_bit b; lia. }
  unfold feat.kHomePlmn, feat.kRoaming. rewrite !H, !Hrb by lia.
  unfold subscriber_bit in *. destruct rec as [r|]; cycle 1.
  { split; [|done]. exists 27. split; [lia|]. intros b' Hb'. rewrite H, Hrb by lia.
    unfold feat.kStatusUnknown, feat.kRoaming. lia. }
  split; [|cbn; by rewrite negb_involutive].
  destruct ((0 <=? s_status r) && (s_status r <=? 2)) eqn:Hst;
    [exists (24 + s_status r)|exists 27]; (split; [bool_to_prop; lia|]); intros b' Hb';
    rewrite H, Hrb by lia;
    unfold feat.kStatusActive, feat.kStatusSuspended, feat.kStatusBarred, feat.kStatusUnknown;
    split_bit b'; lia.
Qed.


Lemma hit_ok f pb :
  action_ok (match scan f pb (rs_rules rs) with
             | Some r => r_action r | None => rs_default_action rs end) /\
  fits 32 (match scan f pb (rs_rules rs) with Some r => r_id r | None => 0 end) /\
  fits 8 (match scan f pb (rs_rules rs) with
          | Some r => a_reason (r_action r) | None => reason_code kNoMatchingRule end).
Proof using HR.
  pose proof (scan_spec f pb (rs_rules rs)) as S.
  destruct (scan _ _ _) as [r|]; [|split; [apply HR|split; [by apply fits_0|by split]]].
  destruct S as (pre & post & Er & _). pose proof (rso_rules _ _ _ HR) as F.
  rewrite Er in F. apply Forall_app in F as [_ F]. apply Forall_cons in F as [F _].
  split; [apply F|]. split; [apply F|]. apply F.
Qed.

(** The decision exists and each of its fields fits. *)
Lemma evaluate_fits : exists d, evaluate now rs req rec = Some d /\ msg_ok d.
Proof.
  destruct (build_features_spec now rs partners blocked req rec HR HQ HC) as (f & E & _).
  eexists. unfold evaluate. rewrite E. split; [done|].
  set (hit := scan _ _ _). destruct (hit_ok f (plan_bit_for rec)) as (A & Hid & Hre).
  fold hit in A, Hid, Hre.
  set (act := match hit with Some r => r_action r | None => _ end) in *.
  assert (forall k p, 0 <= k -> plan rs k = Some p -> plan_ok p) as HP
    by (intros; by eapply plan_lookup_ok).
  assert (forall r p, rec = Some r -> plan rs (s_plan_id r) = Some p -> plan_ok p) as HP'.
  { intros r p Er Ep. eapply HP; [|done]. destruct (HC r Er) as [[? _] _]. done. }
  pose proof (fits_0 64 ltac:(lia)). pose proof (fits_0 32 ltac:(lia)).
  pose proof (fits_0 8 ltac:(lia)).
  assert (fits 8 (set_if (has_bit (rq_flags req) kReqFlagUsageValid) kFlagUsageFromRequest
    (a_set_flags act))) by (apply fits_set_if; [done|apply A|by split]).
  unfold msg_ok, fields_ok, decide_action. fold act.
  set (usage := if has_bit (rq_flags req) kReqFlagUsageValid then _ else _).
  assert (0 <= usage) as Hu.
  { unfold usage. destruct (has_bit _ _); [apply HQ|]. destruct rec as [r|]; [|done].
    apply (co_usage _ (HC r eq_refl)). }
  clearbody usage. change msg_widths with decision_widths.
  cbn [msg_fields decision_msg]. unfold decision_widths, decision_fields. simpl.
  assert (forall (b : bool) w v, fits w 0 -> fits w v -> fits w (if b then 0 else v)) as K
    by (intros []; done).
  destruct (match rec with Some r => plan rs (s_plan_id r) | None => None end) as [p|] eqn:Ep.
  - assert (plan_ok p) as Pk by (destruct rec; [by eapply HP'|done]).
    assert (forall m w x y, fits w (x p) -> fits w y -> fits w
      (match (if has_bit (a_inherit_mask act) m then Some p else None) with
       | Some q => x q | None => y end)) as I.
    { intros m w x y Hx Hy. destruct (has_bit (a_inherit_mask act) m); [exact Hx|exact Hy]. }
    pose proof (po_quota _ Pk).
    assert (fits 64 (match (if has_bit (a_inherit_mask act) kInheritQuota then Some p else None) with
      | Some q => if usage <? p_quota_bytes q then p_quota_bytes q - usage else 0
      | None => a_quota_bytes act end)).
    { apply I; [|apply A]. destruct (po_quota _ Pk).
      destruct (Z.ltb_spec usage (p_quota_bytes p)); [split; lia|done]. }
    repeat (apply Forall2_cons; split); [..|by constructor];
      try (apply K; [done|]); try done;
      first [by split | apply HQ | apply HR | apply A | apply I; [apply Pk|apply A]].
  - repeat (apply Forall2_cons; split); [..|by constructor];
      try (apply K; [done|]); try done; first [by split | apply HQ | apply HR | apply A].
Qed.

(** Every decision is a well-formed wire message: each field fits its width,
    so what is encoded is what the client decodes. *)
Theorem evaluate_msg_ok : exists d, evaluate now rs req rec = Some d /\ msg_ok d.
Proof. apply evaluate_fits. Qed.
End Decision.

(** ** What a decision grants *)

(** C25: A DENY carries no authorization: every bearer field of the reply (AMBR,
    quota, validity, 5QI and ARP) is zero, whatever the action or the plan say. *)
Theorem deny_carries_no_authorization now rs req rec d :
  evaluate now rs req rec = Some d -> d_verdict d = verdict_code kDeny ->
  d_quota_bytes d = 0 /\ d_ambr_ul_kbps d = 0 /\ d_ambr_dl_kbps d = 0 /\
  d_quota_validity_s d = 0 /\ d_qos_5qi d = 0 /\ d_arp d = 0.
Proof.
  intros E Hv. unfold evaluate in E. apply bind_Some in E as (f & _ & [= <-]).
  simpl in *. by rewrite Hv.
Qed.

(** C26: When the deciding action inherits the plan's quota and does not deny, the
    grant is exactly what remains: grant plus consumed usage is the plan quota,
    or nothing once the usage has reached it.  Usage reported in the request
    replaces the stored counter, and the reply says so. *)
Theorem quota_grant_is_remaining now rs partners blocked req rec p d f :
  rule_set_ok rs partners blocked -> request_ok req -> record_ok rec ->
  plan rs (s_plan_id rec) = Some p ->
  build_features now rs req (Some rec) = Some f ->
  evaluate now rs req (Some rec) = Some d ->
  let act := match scan f (plan_bit_for (Some rec)) (rs_rules rs) with
             | Some r => r_action r | None => rs_default_action rs end in
  has_bit (a_inherit_mask act) kInheritQuota = true -> a_verdict act <> verdict_code kDeny ->
  d_quota_bytes d + Z.min (usage_of req rec) (p_quota_bytes p) = p_quota_bytes p /\
  d_quota_validity_s d = p_quota_validity_s p /\
  (Z.testbit (rq_flags req) 2 = true -> Z.testbit (d_flags d) 5 = true).
Proof.
  intros R Q C Hp Hf E act Hinh Hv. unfold evaluate in E. rewrite Hf in E.
  change (Some (decide_action rs req (Some rec)
    (scan f (plan_bit_for (Some rec)) (rs_rules rs))) = Some d) in E.
  apply (inj Some) in E. subst d. unfold decide_action. fold act. clearbody act. cbn [d_quota_bytes d_quota_validity_s d_flags].
  rewrite Hp, Hinh. destruct (Z.eqb_spec (a_verdict act) (verdict_code kDeny)); [done|].
  fold (usage_of req rec). pose proof (usage_of_fits req rec Q C) as [? _].
  split; [destruct (Z.ltb_spec (usage_of req rec) (p_quota_bytes p)); lia|].
  split; [done|]. unfold kReqFlagUsageValid. rewrite has_bit_testbit by lia. intros ->.
  unfold kFlagUsageFromRequest. rewrite testbit_set_if by lia. by rewrite orb_true_r.
Qed.

(** The decision of a table lookup: the table promises a map, and the engine
    evaluates the record the map holds. *)
Lemma evaluate_in_store_rep now rs s m req : store_rep s m ->
  evaluate_in_store now rs s req = evaluate now rs req (m !! rq_imsi req).
Proof. intros R. unfold evaluate_in_store. by rewrite (find_lookup s m _ R). Qed.

(** Whatever sequence of updates the subscriber table has gone through, the
    decision for a request is the decision on the record that sequence leaves for
    its IMSI in a finite map, and a well-formed rule set always gives one. *)
Theorem evaluate_in_store_total now rs partners blocked n lf ops req :
  rule_set_ok rs partners blocked -> request_ok req ->
  0 <= n <= 2 ^ 50 -> finite_double lf -> Z.of_nat (length ops) < 2 ^ 50 ->
  map_Forall (fun _ => record_ok) (spec_ops ∅ ops).2 ->
  exists s0 bs s d, new_store n lf = Some s0 /\ run_ops s0 ops = Some (bs, s) /\
    evaluate_in_store now rs s req = Some d /\
    evaluate now rs req ((spec_ops ∅ ops).2 !! rq_imsi req) = Some d.
Proof.
  intros HR HQ Hn Hlf Hops HC. destruct (new_store_rep n lf Hn Hlf) as (s0 & E0 & R0).
  destruct (run_ops_refines ops s0 ∅ R0) as (s & E & R); [by rewrite map_size_empty|].
  set (rec := (spec_ops ∅ ops).2 !! rq_imsi req) in *.
  destruct (build_features_spec now rs partners blocked req rec HR HQ) as (f & Ef & _).
  { intros r Hr. by apply (HC (rq_imsi req)). }
  exists s0, (spec_ops ∅ ops).1, s. eexists. split; [done|]. split; [done|].
  rewrite (evaluate_in_store_rep now rs s _ req R). fold rec.
  unfold evaluate. by rewrite Ef.
Qed.

(** ** Samples *)

Definition set_of (keys : list Z) : FlatSet64 :=
  match rebuild keys with Some s => s | None => fs_empty end.

(** Barred subscribers are denied; home subscribers of plan 0 are allowed with
    everything inherited. *)
Definition sample_rule_set : RuleSet :=
  mkRuleSet 7
    [mkRule (feat.bit feat.kStatusBarred) (feat.bit feat.kStatusBarred) 0 10 1
       (mkAction 0 0 0 0 0 1 3 0 0 0 0 0);
     mkRule (Z.lor (feat.bit feat.kHomePlmn) (feat.bit feat.kImeiBlocked))
       (feat.bit feat.kHomePlmn) 1 20 2 (mkAction 0 0 0 0 0 0 15 0 0 0 0 kInheritAll)]
    (mkPlan 5000 3600 10 1000 2000 0 9 8 1 :: replicate 31 default_plan) 1
    (mkWindow 1320 360 :: replicate 7 default_window) 1
    (800 :: replicate 7 0) 1
    (set_of [310410]) (set_of [350000000000001]) ["gold"%string] ["internet"%string] []
    (mkAction 0 0 0 0 0 1 13 0 0 0 0 0) EmptyString EmptyString 0.

Definition sample_record : SubscriberRecord := mkRecord 262011234567890 0 0 0 1200 0 26201 1.
Definition sample_query : PolicyRequest :=
  mkRequest kMagicVersion 42 262011234567890 1 99 0 26201 7 1 0 9 0 60 0 0 0.

Lemma set_of_holds keys : Z.of_nat (length keys) < 2 ^ 61 ->
  fs_holds (set_of keys) (list_to_set keys ∖ {[0]}).
Proof. intros H. destruct (rebuild_holds keys H) as (s & E & Hs & _). unfold set_of. by rewrite E. Qed.

Lemma sample_rule_set_ok : rule_set_ok sample_rule_set
  (list_to_set [310410] ∖ {[0]}) (list_to_set [350000000000001] ∖ {[0]}).
Proof.
  split; try (by apply set_of_holds); try (by split); try reflexivity;
    repeat constructor; vm_compute; (done || by intros ?).
Qed.

Lemma sample_query_ok : request_ok sample_query.
Proof. repeat constructor; vm_compute; (done || by intros ?). Qed.

Lemma sample_record_ok : record_ok sample_record.
Proof. repeat constructor; vm_compute; (done || by intros ?). Qed.

Lemma sample_known r : Some sample_record = Some r -> record_ok r.
Proof. intros [= <-]. apply sample_record_ok. Qed.

(** A small table without subscribers. *)
Lemma empty_table_rep : exists store, new_store 4 (dlit 5 (-1)) = Some store /\ store_rep store ∅.
Proof. apply new_store_rep; [lia|]. exists (2 ^ 52), (-53). split; [apply dval_refl|lia]. Qed.


Lemma status_bits_partition_witness : exists f,
  build_features 0 sample_rule_set sample_query (Some sample_record) = Some f /\
  (exists b, 24 <= b <= 27 /\ forall b', 24 <= b' <= 27 -> Z.testbit f b' = (b' =? b)) /\
  Z.testbit f feat.kHomePlmn = negb (Z.testbit f feat.kRoaming).
Proof.
  exact (status_bits_partition 0 _ _ _ _ _ sample_rule_set_ok sample_query_ok sample_known).
Defined.


Lemma evaluate_msg_ok_witness :
  exists d, evaluate 0 sample_rule_set sample_query (Some sample_record) = Some d /\ msg_ok d.
Proof.
  exact (evaluate_msg_ok 0 _ _ _ _ _ sample_rule_set_ok sample_query_ok sample_known).
Defined.

Definition barred_record : SubscriberRecord := mkRecord 262011234567890 0 0 2 1200 0 26201 1.

Lemma deny_carries_no_authorization_witness : exists d,
  evaluate 0 sample_rule_set sample_query (Some barred_record) = Some d /\
  d_verdict d = verdict_code kDeny /\ d_rule_id d = 10 /\
  d_quota_bytes d = 0 /\ d_ambr_ul_kbps d = 0 /\ d_ambr_dl_kbps d = 0 /\
  d_quota_validity_s d = 0 /\ d_qos_5qi d = 0 /\ d_arp d = 0.
Proof.
  eexists. split; [vm_compute; reflexivity|]. split; [reflexivity|]. split; [reflexivity|].
  apply (deny_carries_no_authorization 0 sample_rule_set sample_query (Some barred_record));
    vm_compute; reflexivity.
Defined.

(** 1200 of 5000 bytes are used: 3800 are granted. *)
Lemma quota_grant_is_remaining_witness : exists d,
  evaluate 0 sample_rule_set sample_query (Some sample_record) = Some d /\
  d_quota_bytes d + Z.min (usage_of sample_query sample_record) 5000 = 5000 /\
  d_quota_bytes d = 3800.
Proof.
  eexists. split; [vm_compute; reflexivity|]. split; [|reflexivity].
  apply (quota_grant_is_remaining 0 sample_rule_set _ _ sample_query sample_record
           (mkPlan 5000 3600 10 1000 2000 0 9 8 1) _ 1140599030018
           sample_rule_set_ok sample_query_ok sample_record_ok);
    try (vm_compute; reflexivity); vm_compute; discriminate.
Defined.

Lemma evaluate_in_store_total_witness : exists s0 bs s d,
  new_store 4 (dlit 5 (-1)) = Some s0 /\
  run_ops s0 [OpUpsert sample_record; OpAddUsage 262011234567890 100] = Some (bs, s) /\
  evaluate_in_store 0 sample_rule_set s sample_query = Some d /\
  evaluate 0 sample_rule_set sample_query
    ((spec_ops ∅ [OpUpsert sample_record; OpAddUsage 262011234567890 100]).2 !!
       rq_imsi sample_query) = Some d.
Proof.
  apply (evaluate_in_store_total 0 sample_rule_set _ _ 4 (dlit 5 (-1))
    [OpUpsert sample_record; OpAddUsage 262011234567890 100] sample_query
    sample_rule_set_ok sample_query_ok); [lia| |vm_compute; reflexivity|].
  - exists (2 ^ 52), (-53). split; [apply dval_refl|lia].
  - intros k r H. cbn [spec_ops spec_op sample_record s_imsi Z.eqb snd] in H.
    apply lookup_alter_Some in H as [(-> & r' & H & ->)|[_ H]];
      rewrite lookup_insert in H; case_decide; simplify_eq;
      (split; vm_compute; done || (split; [discriminate|reflexivity])).
Defined.
