(* ===== verification/Rcu.v ===== *)
(** * Rcu: publication and reclamation of rule-set snapshots

    [RcuDomain] of include/policy/rcu.hpp as a transition system.  Every atomic
    access of the code is one labelled step ([step], executable), and an execution
    is an arbitrary interleaving of the steps of any number of threads and of the
    control plane, the only writer.  Memory is sequentially consistent: the fences
    of [read] and [synchronize] are there to forbid the one reordering (a reader's
    epoch store after its pointer load) that could be observed.  Snapshots are
    numbers handed out by an allocator; the model records which were freed. *)

From S2P Require Import Prelude.
From Stdlib Require Import ZArith Lia Bool.
From stdpp Require Import base list numbers.
Local Open Scope Z_scope.

(** ** State *)

Definition kQuiescent : Z := 0.

Record ReaderSlot := mkSlot { sl_epoch : Z; sl_in_use : bool }.

(** Where a reader thread stands: outside, in the scan of [register_reader], in
    [read] after the load of the global epoch, after the store of its slot's
    epoch, holding a guard, and in [unregister_reader] between its two stores. *)
Inductive Phase :=
| POut
| PScan (i : nat)
| PRead (idx : nat) (e : Z)
| PEnter (idx : nat)
| PGuard (idx : nat) (p : option nat)
| PLeave (idx : nat).

(** [t_slot] is the result of [register_reader]. *)
Record Thread := mkThread { t_slot : option nat; t_phase : Phase }.

(** The control plane: idle, in [publish] after the exchange ([reclaim] when it
    was called by [swap_and_reclaim]), after the epoch increment, and in
    [synchronize] with slots below [i] already passed. *)
Inductive Writer :=
| WIdle
| WSwapped (reclaim : bool) (old : option nat)
| WBumped (old : option nat)
| WWait (old : option nat) (target : Z) (i : nat).

Record RcuDomain := mkDomain {
  current_ : option nat;
  global_epoch_ : Z;
  slots_ : list ReaderSlot;
  retired_ : list nat;
  d_writer : Writer;
  d_threads : list Thread;
  d_next : nat;          (* snapshots allocated so far *)
  d_freed : list nat;
  d_dropped : list nat   (* results of [publish] that its caller did not keep *) }.

Definition new_domain (max_readers : nat) (threads : nat) : RcuDomain :=
  mkDomain None 1 (replicate max_readers (mkSlot kQuiescent false)) [] WIdle
    (replicate threads (mkThread None POut)) 0 [] [].

(** ** Updates *)

Definition set_slots (l : list ReaderSlot) (d : RcuDomain) : RcuDomain :=
  mkDomain (current_ d) (global_epoch_ d) l (retired_ d) (d_writer d) (d_threads d)
    (d_next d) (d_freed d) (d_dropped d).
Definition set_thread (t : nat) (th : Thread) (d : RcuDomain) : RcuDomain :=
  mkDomain (current_ d) (global_epoch_ d) (slots_ d) (retired_ d) (d_writer d)
    (<[t := th]> (d_threads d)) (d_next d) (d_freed d) (d_dropped d).
Definition set_writer (w : Writer) (d : RcuDomain) : RcuDomain :=
  mkDomain (current_ d) (global_epoch_ d) (slots_ d) (retired_ d) w (d_threads d)
    (d_next d) (d_freed d) (d_dropped d).

(** [slots_[k].epoch.store(e)] *)
Definition store_epoch (k : nat) (e : Z) (d : RcuDomain) : option RcuDomain :=
  sl ← slots_ d !! k; Some (set_slots (<[k := mkSlot e (sl_in_use sl)]> (slots_ d)) d).
(** [slots_[k].in_use.store(b)] *)
Definition store_in_use (k : nat) (b : bool) (d : RcuDomain) : option RcuDomain :=
  sl ← slots_ d !! k; Some (set_slots (<[k := mkSlot (sl_epoch sl) b]> (slots_ d)) d).

(** ** Steps *)

Inductive Label :=
| LRegister (t : nat)            (* call of register_reader *)
| LCas (t : nat)                 (* one compare_exchange of its scan *)
| LUnregister (t : nat)          (* unregister_reader: the epoch store *)
| LRelease (t : nat)             (* unregister_reader: the in_use store *)
| LReadEpoch (t idx : nat)       (* read(idx): load of the global epoch *)
| LEnter (t : nat)               (* read: store of the slot's epoch *)
| LLoad (t : nat)                (* read: load of the current pointer *)
| LDrop (t : nat)                (* destructor of the guard *)
| LExchange (reclaim : bool)     (* publish: exchange *)
| LBump                          (* publish: fetch_add *)
| LTarget                        (* synchronize: load of the target epoch *)
| LCheck                         (* synchronize: one look at one slot *)
| LTimeout                       (* synchronize: the deadline has passed *)
| LFree.                         (* swap_and_reclaim: the deletes *)

(** The condition under which [synchronize] goes on to the next slot. *)
Definition slot_passed (target : Z) (sl : ReaderSlot) : bool :=
  (sl_epoch sl =? kQuiescent) || (target <=? sl_epoch sl).

Definition option_list {A} (o : option A) : list A := match o with Some x => [x] | None => [] end.

Definition reader_step (l : Label) (d : RcuDomain) : option RcuDomain :=
  match l with
  | LRegister t =>
      match d_threads d !! t with
      | Some (mkThread None POut) => Some (set_thread t (mkThread None (PScan 0)) d)
      | _ => None
      end
  | LCas t =>
      match d_threads d !! t with
      | Some (mkThread None (PScan i)) =>
          match slots_ d !! i with
          | None => Some (set_thread t (mkThread None POut) d)
          | Some sl =>
              if sl_in_use sl then Some (set_thread t (mkThread None (PScan (S i))) d)
              else d' ← store_in_use i true d; Some (set_thread t (mkThread (Some i) POut) d')
          end
      | _ => None
      end
  | LUnregister t =>
      match d_threads d !! t with
      | Some (mkThread (Some k) POut) =>
          d' ← store_epoch k kQuiescent d; Some (set_thread t (mkThread (Some k) (PLeave k)) d')
      | _ => None
      end
  | LRelease t =>
      match d_threads d !! t with
      | Some (mkThread (Some k) (PLeave _)) =>
          d' ← store_in_use k false d; Some (set_thread t (mkThread None POut) d')
      | _ => None
      end
  | LReadEpoch t idx =>
      match d_threads d !! t, slots_ d !! idx with
      | Some (mkThread s POut), Some _ =>
          Some (set_thread t (mkThread s (PRead idx (global_epoch_ d))) d)
      | _, _ => None
      end
  | LEnter t =>
      match d_threads d !! t with
      | Some (mkThread s (PRead idx e)) =>
          d' ← store_epoch idx e d; Some (set_thread t (mkThread s (PEnter idx)) d')
      | _ => None
      end
  | LLoad t =>
      match d_threads d !! t with
      | Some (mkThread s (PEnter idx)) =>
          Some (set_thread t (mkThread s (PGuard idx (current_ d))) d)
      | _ => None
      end
  | LDrop t =>
      match d_threads d !! t with
      | Some (mkThread s (PGuard idx _)) =>
          d' ← store_epoch idx kQuiescent d; Some (set_thread t (mkThread s POut) d')
      | _ => None
      end
  | _ => None
  end.

Definition writer_step (l : Label) (d : RcuDomain) : option RcuDomain :=
  match l, d_writer d with
  | LExchange reclaim, WIdle =>
      Some (mkDomain (Some (d_next d)) (global_epoch_ d) (slots_ d) (retired_ d)
        (WSwapped reclaim (current_ d)) (d_threads d) (S (d_next d)) (d_freed d) (d_dropped d))
  | LBump, WSwapped reclaim old =>
      Some (mkDomain (current_ d) (u64 (global_epoch_ d + 1)) (slots_ d) (retired_ d)
        (if reclaim then WBumped old else WIdle) (d_threads d) (d_next d) (d_freed d)
        (if reclaim then d_dropped d else option_list old ++ d_dropped d))
  | LTarget, WBumped old => Some (set_writer (WWait old (global_epoch_ d) 0) d)
  | LCheck, WWait old target i =>
      sl ← slots_ d !! i;
      Some (if slot_passed target sl then set_writer (WWait old target (S i)) d else d)
  | LTimeout, WWait old target i =>
      sl ← slots_ d !! i;
      if slot_passed target sl then None else
      Some (mkDomain (current_ d) (global_epoch_ d) (slots_ d) (retired_ d ++ option_list old)
        WIdle (d_threads d) (d_next d) (d_freed d) (d_dropped d))
  | LFree, WWait old target i =>
      if (length (slots_ d) <=? i)%nat then
        Some (mkDomain (current_ d) (global_epoch_ d) (slots_ d) [] WIdle (d_threads d)
          (d_next d) (retired_ d ++ option_list old ++ d_freed d) (d_dropped d))
      else None
  | _, _ => None
  end.

Definition step (l : Label) (d : RcuDomain) : option RcuDomain :=
  match l with
  | LExchange _ | LBump | LTarget | LCheck | LTimeout | LFree => writer_step l d
  | _ => reader_step l d
  end.

Fixpoint exec (ls : list Label) (d : RcuDomain) : option RcuDomain :=
  match ls with [] => Some d | l :: ls => d' ← step l d; exec ls d' end.

(** [~RcuDomain]: what the destructor frees. *)
Definition destroy (d : RcuDomain) : list nat := option_list (current_ d) ++ retired_ d ++ d_freed d.

(** ** Executions *)

(** [d] is reached from [d0] through states that satisfy [P]. *)
Inductive reach (P : RcuDomain -> Prop) (d0 : RcuDomain) : RcuDomain -> Prop :=
| reach_refl : reach P d0 d0
| reach_step d l d' : reach P d0 d -> step l d = Some d' -> P d' -> reach P d0 d'.

(** The slot a phase works on. *)
Definition uses (ph : Phase) (idx : nat) : Prop :=
  match ph with
  | PRead i _ | PEnter i | PGuard i _ | PLeave i => i = idx
  | _ => False
  end.

(** No two threads are in a critical section on one slot. *)
Definition exclusive (d : RcuDomain) : Prop :=
  forall t1 t2 th1 th2 idx, d_threads d !! t1 = Some th1 -> d_threads d !! t2 = Some th2 ->
    uses (t_phase th1) idx -> uses (t_phase th2) idx -> t1 = t2.

(** The epoch counter has not wrapped: fewer than [2^64 - 1] publications. *)
Definition unwrapped (d : RcuDomain) : Prop := Z.of_nat (d_next d) < 2 ^ 64 - 1.

(** A guard on a snapshot that was deleted. *)
Definition use_after_free (d : RcuDomain) : Prop :=
  exists t s idx p, d_threads d !! t = Some (mkThread s (PGuard idx (Some p))) /\ p ∈ d_freed d.

Definition old_of (w : Writer) : list nat :=
  match w with WIdle => [] | WSwapped _ o | WBumped o | WWait o _ _ => option_list o end.

(** Every snapshot ever published, where it is now. *)
Definition accounted (d : RcuDomain) : list nat :=
  option_list (current_ d) ++ old_of (d_writer d) ++ retired_ d ++ d_dropped d ++ d_freed d.

Definition swapped (w : Writer) : bool := match w with WSwapped _ _ => true | _ => false end.

(** What a guard on [x], which is no longer current, at a slot of epoch [e] must
    satisfy: [x] is not yet freed, the epoch is older than the next target, and a
    running [synchronize] has not passed the slot. *)
Record stale_ok (d : RcuDomain) (idx : nat) (e : Z) (x : nat) : Prop := {
  so_kept : x ∈ old_of (d_writer d) ++ retired_ d ++ d_dropped d;
  so_epoch : swapped (d_writer d) = false -> e < global_epoch_ d;
  so_scan : forall old target i, d_writer d = WWait old target i -> (i <= idx)%nat }.

Definition phase_ok (d : RcuDomain) (ph : Phase) : Prop :=
  match ph with
  | PRead _ e => 1 <= e <= global_epoch_ d
  | PEnter idx => exists sl, slots_ d !! idx = Some sl /\ 1 <= sl_epoch sl <= global_epoch_ d
  | PGuard idx p => exists sl, slots_ d !! idx = Some sl /\ 1 <= sl_epoch sl <= global_epoch_ d /\
      forall x, p = Some x -> current_ d <> Some x -> stale_ok d idx (sl_epoch sl) x
  | _ => True
  end.

Record inv (d : RcuDomain) : Prop := {
  v_epoch : 1 <= global_epoch_ d;
  v_next : global_epoch_ d + Z.b2z (swapped (d_writer d)) <= 1 + Z.of_nat (d_next d);
  v_alloc : accounted d ≡ₚ seq 0 (d_next d);
  v_target : forall old target i, d_writer d = WWait old target i -> target = global_epoch_ d;
  v_threads : forall t th, d_threads d !! t = Some th -> phase_ok d (t_phase th) }.

Lemma new_domain_inv n m : inv (new_domain n m).
Proof.
  split; simpl; try done. intros t th H. apply lookup_replicate in H as [-> _]. done.
Qed.

(** ** Steps of readers *)

(** A phase does not notice changes of slots it does not use, nor of [in_use]. *)
Lemma phase_ok_slots d l ph : phase_ok d ph ->
  (forall idx sl, uses ph idx -> slots_ d !! idx = Some sl ->
     exists sl', l !! idx = Some sl' /\ sl_epoch sl' = sl_epoch sl) ->
  phase_ok (set_slots l d) ph.
Proof.
  destruct ph as [|i|i e|i|i p|i]; simpl; try done.
  - intros (sl & E & H) K. destruct (K i sl eq_refl E) as (sl' & E' & Ee).
    exists sl'. by rewrite Ee.
  - intros (sl & E & H & Hs) K. destruct (K i sl eq_refl E) as (sl' & E' & Ee).
    exists sl'. rewrite Ee. split; [done|]. split; [done|]. intros x Hx Hc.
    by destruct (Hs x Hx Hc); split.
Qed.

Lemma phase_ok_thread d t th ph : phase_ok d ph -> phase_ok (set_thread t th d) ph.
Proof.
  destruct ph; simpl; try done. intros (sl & E & H & Hs). exists sl. split; [done|]. split; [done|].
  intros x Hx Hc. by destruct (Hs x Hx Hc); split.
Qed.

(** A step that changes one thread and the slots, in a way the others do not
    notice. *)
Lemma inv_reader d l t th : inv d ->
  (forall t' th' idx sl, t' <> t -> d_threads d !! t' = Some th' -> uses (t_phase th') idx ->
     slots_ d !! idx = Some sl -> exists sl', l !! idx = Some sl' /\ sl_epoch sl' = sl_epoch sl) ->
  phase_ok (set_slots l d) (t_phase th) -> inv (set_thread t th (set_slots l d)).
Proof.
  intros [] K Hth. split; try done. intros t' th'. cbn [d_threads set_thread set_slots].
  rewrite list_lookup_insert_Some. intros H. apply phase_ok_thread. revert H. intros [(-> & -> & _)|[Hne E]]; [done|].
  eapply (phase_ok_slots d l (t_phase th')); [by eapply v_threads0|]. intros; by eapply K.
Qed.

Lemma set_slots_same d : set_slots (slots_ d) d = d.
Proof. by destruct d. Qed.

Lemma inv_thread d t th : inv d -> phase_ok d (t_phase th) -> inv (set_thread t th d).
Proof.
  intros I H. rewrite <- (set_slots_same d) at 1. apply inv_reader; [done| |by rewrite set_slots_same].
  intros; eauto.
Qed.

Lemma inv_in_use d d' t th k b : inv d -> store_in_use k b d = Some d' ->
  uses (t_phase th) = (fun _ => False) -> phase_ok d (t_phase th) -> inv (set_thread t th d').
Proof.
  unfold store_in_use. destruct (slots_ d !! k) as [sl|] eqn:E; [|done].
  intros I [= <-] Hu Hth. apply inv_reader; [done|..].
  - intros t' th' idx sl' _ _ _ E'. destruct (decide (k = idx)) as [->|].
    + eexists. split; [apply list_lookup_insert_eq; by eapply lookup_lt_Some|].
      rewrite E in E'. by simplify_eq.
    + exists sl'. by rewrite list_lookup_insert_ne.
  - apply phase_ok_slots; [done|]. rewrite Hu. done.
Qed.

(** The store of an epoch is safe when no other thread is using the slot. *)
Lemma inv_epoch d d' t th k e : inv d -> store_epoch k e d = Some d' ->
  (forall t' th', t' <> t -> d_threads d !! t' = Some th' -> ~ uses (t_phase th') k) ->
  phase_ok d' (t_phase th) -> inv (set_thread t th d').
Proof.
  unfold store_epoch. destruct (slots_ d !! k) as [sl|] eqn:E; [|done].
  intros I [= <-] Hex Hth. apply inv_reader; [done| |done].
  intros t' th' idx sl' Hne Et Hu E'. destruct (decide (k = idx)) as [->|].
  - by destruct (Hex _ _ Hne Et).
  - exists sl'. by rewrite list_lookup_insert_ne.
Qed.

Lemma exclusive_others d t th k : exclusive d -> d_threads d !! t = Some th ->
  uses (t_phase th) k -> forall t' th', t' <> t -> d_threads d !! t' = Some th' ->
  ~ uses (t_phase th') k.
Proof. intros X Et Hu t' th' Hne Et' Hu'. by destruct (Hne (X _ _ _ _ _ Et' Et Hu' Hu)). Qed.

Lemma reader_step_inv l d d' : inv d -> exclusive d -> exclusive d' ->
  reader_step l d = Some d' -> inv d'.
Proof.
  intros I X X' E. pose proof (v_threads _ I) as VT. destruct l as [t|t|t|t|t idx|t|t|t|?| | | | |];
    simpl in E; try done;
    destruct (d_threads d !! t) as [[s ph]|] eqn:Et; try done;
    specialize (VT _ _ Et); simpl in VT.
  - destruct s, ph; simplify_eq. by apply inv_thread.
  - destruct s, ph as [|i| | | |]; try done. destruct (slots_ d !! i) as [sl|]; simplify_eq;
      [|by apply inv_thread]. destruct (sl_in_use sl); simplify_eq; [by apply inv_thread|].
    destruct (store_in_use i true d) eqn:Es; simplify_eq/=. by eapply inv_in_use.
  - destruct s as [k|], ph; try done. destruct (store_epoch k kQuiescent d) as [d1|] eqn:Es; simplify_eq/=.
    eapply inv_epoch; [done..| |done]. intros t' th' Hne Et' Hu.
    assert (d_threads d1 = d_threads d) as Hd.
    { unfold store_epoch in Es. by destruct (slots_ d !! k); simplify_eq/=. }
    apply Hne. eapply (X' t' t th' (mkThread (Some k) (PLeave k)) k); [..|done|done]; simpl; rewrite Hd.
    + by rewrite list_lookup_insert_ne.
    + apply list_lookup_insert_eq. by eapply lookup_lt_Some.
  - destruct s as [k|], ph; try done. destruct (store_in_use k false d) eqn:Es; simplify_eq/=.
    by eapply inv_in_use.
  - destruct ph; try done. destruct (slots_ d !! idx); simplify_eq. apply inv_thread; [done|].
    simpl. pose proof (v_epoch _ I). lia.
  - destruct ph as [| |idx e| | |]; try done. destruct (store_epoch idx e d) as [d1|] eqn:Es; simplify_eq/=.
    eapply inv_epoch; [done..| |].
    { eapply exclusive_others; [done..|]. done. }
    unfold store_epoch in Es. destruct (slots_ d !! idx) as [sl|] eqn:El; simplify_eq/=.
    eexists. split; [apply list_lookup_insert_eq; by eapply lookup_lt_Some|]. done.
  - destruct ph as [| | |idx| |]; simplify_eq. apply inv_thread; [done|]. simpl.
    destruct VT as (sl & El & H). exists sl. split; [done|]. split; [done|]. by intros x -> [].
  - destruct ph as [| | | |idx p|]; try done. destruct (store_epoch idx kQuiescent d) eqn:Es; simplify_eq/=.
    eapply inv_epoch; [done..| |done]. eapply exclusive_others; [done..|]. done.
Qed.

(** ** Steps of the writer *)

(** Guards on the current snapshot need nothing more than their epoch; the
    writer's steps have to keep [stale_ok] for the others. *)
Lemma phase_ok_writer d d' ph : slots_ d' = slots_ d ->
  global_epoch_ d <= global_epoch_ d' ->
  (forall idx sl x, ph = PGuard idx (Some x) -> slots_ d !! idx = Some sl ->
     1 <= sl_epoch sl <= global_epoch_ d ->
     (current_ d = Some x \/ stale_ok d idx (sl_epoch sl) x) -> current_ d' <> Some x ->
     stale_ok d' idx (sl_epoch sl) x) ->
  phase_ok d ph -> phase_ok d' ph.
Proof.
  intros Es Ee K. destruct ph as [|i|i e|i|i p|i]; simpl; try done; rewrite ?Es.
  - lia.
  - intros (sl & E & H). exists sl. split; [done|]. lia.
  - intros (sl & E & H & Hs). exists sl. split; [done|]. split; [lia|].
    intros x -> Hc. eapply K; eauto.
    destruct (decide (current_ d = Some x)); [by left|right; by apply Hs].
Qed.

Lemma accounted_split d : accounted d ≡ₚ
  (old_of (d_writer d) ++ retired_ d ++ d_dropped d) ++ option_list (current_ d) ++ d_freed d.
Proof. unfold accounted. solve_Permutation. Qed.

Lemma exchange_inv d reclaim : inv d -> d_writer d = WIdle ->
  inv (mkDomain (Some (d_next d)) (global_epoch_ d) (slots_ d) (retired_ d)
    (WSwapped reclaim (current_ d)) (d_threads d) (S (d_next d)) (d_freed d) (d_dropped d)).
Proof.
  intros [E1 E2 A _ T] W. split; cbn -[seq]; try done.
  - rewrite W in E2. simpl in E2. lia.
  - unfold accounted in *. rewrite W in A. rewrite seq_S, <- A. cbn -[seq]. solve_Permutation.
  - intros t th Et. eapply phase_ok_writer; [..|by eapply T]; simpl; [done|lia|].
    intros idx sl x _ El He Hx _. split; simpl; try done. destruct Hx as [->|[Hk _ _]].
    + by apply elem_of_app; left; left.
    + rewrite W in Hk. apply elem_of_app. by right.
Qed.

Lemma bump_inv d reclaim old : inv d -> unwrapped d -> d_writer d = WSwapped reclaim old ->
  inv (mkDomain (current_ d) (u64 (global_epoch_ d + 1)) (slots_ d) (retired_ d)
    (if reclaim then WBumped old else WIdle) (d_threads d) (d_next d) (d_freed d)
    (if reclaim then d_dropped d else option_list old ++ d_dropped d)).
Proof.
  intros [E1 E2 A _ T] U W. unfold unwrapped in U. rewrite W in E2. simpl in E2.
  rewrite (wrap_id 64) by (unfold fits; lia). split; simpl.
  - lia.
  - destruct reclaim; simpl; lia.
  - rewrite <- A. unfold accounted. simpl. rewrite W. destruct reclaim; simpl; solve_Permutation.
  - by destruct reclaim.
  - intros t th Et. eapply phase_ok_writer; [..|by eapply T]; simpl; [done|lia|].
    intros idx sl x _ El He Hx Hc. destruct Hx as [?|[Hk _ _]]; [done|].
    split; simpl; [|lia|by destruct reclaim].
    rewrite W in Hk. simpl in Hk. destruct reclaim; simpl; [done|].
    rewrite !elem_of_app in *. tauto.
Qed.

(** A step that changes nothing but the writer, without freeing anything. *)
Lemma wait_inv d w : inv d -> swapped (d_writer d) = false -> swapped w = false ->
  old_of w = old_of (d_writer d) ->
  (forall old target i, w = WWait old target i -> target = global_epoch_ d /\
     forall idx sl, (idx < i)%nat -> slots_ d !! idx = Some sl ->
       slot_passed target sl = true \/ exists i', d_writer d = WWait old target i' /\ (idx < i')%nat) ->
  inv (set_writer w d).
Proof.
  intros [E1 E2 A V T] W W' Ho Hw. split; simpl; try done.
  - rewrite W in E2. by rewrite W'.
  - unfold accounted in *. simpl. by rewrite Ho.
  - intros old target i E. by destruct (Hw _ _ _ E).
  - intros t th Et. eapply phase_ok_writer; [..|by eapply T]; simpl; [done|lia|].
    intros idx sl x _ El He Hx Hc. destruct Hx as [?|[Hk Hs Hi]]; [done|].
    split; simpl; [by rewrite Ho|auto|]. intros old target i E.
    destruct (Hw _ _ _ E) as [-> Hp]. destruct (decide (i <= idx)%nat); [done|].
    destruct (Hp idx sl) as [Hq|(i' & E' & Hlt)]; [lia|done|..].
    + unfold slot_passed, kQuiescent in Hq. specialize (Hs W). bool_to_prop. lia.
    + specialize (Hi _ _ _ E'). lia.
Qed.

Lemma timeout_inv d old target i : inv d -> d_writer d = WWait old target i ->
  inv (mkDomain (current_ d) (global_epoch_ d) (slots_ d) (retired_ d ++ option_list old)
    WIdle (d_threads d) (d_next d) (d_freed d) (d_dropped d)).
Proof.
  intros [E1 E2 A _ T] W. rewrite W in E2. split; simpl; try done.
  - rewrite <- A. unfold accounted. simpl. rewrite W. simpl. solve_Permutation.
  - intros t th Et. eapply phase_ok_writer; [..|by eapply T]; simpl; [done|lia|].
    intros idx sl x _ El He Hx Hc. destruct Hx as [?|[Hk Hs _]]; [done|].
    rewrite W in Hs, Hk. split; simpl in *; [|auto|done].
    rewrite !elem_of_app in *. tauto.
Qed.

Lemma free_inv d old target i : inv d -> d_writer d = WWait old target i ->
  (length (slots_ d) <= i)%nat ->
  inv (mkDomain (current_ d) (global_epoch_ d) (slots_ d) [] WIdle (d_threads d)
    (d_next d) (retired_ d ++ option_list old ++ d_freed d) (d_dropped d)).
Proof.
  intros [E1 E2 A _ T] W Hi. rewrite W in E2. split; simpl; try done.
  - rewrite <- A. unfold accounted. simpl. rewrite W. simpl. solve_Permutation.
  - intros t th Et. eapply phase_ok_writer; [..|by eapply T]; simpl; [done|lia|].
    intros idx sl x _ El He Hx Hc. destruct Hx as [?|[_ _ Hs]]; [done|].
    apply lookup_lt_Some in El. specialize (Hs _ _ _ W). lia.
Qed.

Lemma writer_step_inv l d d' : inv d -> unwrapped d -> writer_step l d = Some d' -> inv d'.
Proof.
  intros I U E. unfold writer_step in E.
  destruct (d_writer d) as [|r o|o|o tg i] eqn:W, l; try done.
  - simplify_eq. by apply exchange_inv.
  - simplify_eq. by apply bump_inv.
  - simplify_eq. apply wait_inv; rewrite ?W; try done. intros ? ? ? [= <- <- <-]. split; [done|lia].
  - destruct (slots_ d !! i) as [sl|] eqn:El; simplify_eq/=. destruct (slot_passed tg sl) eqn:P; [|done].
    apply wait_inv; rewrite ?W; try done. intros ? ? ? [= <- <- <-].
    split; [by eapply v_target|]. intros idx sl' Hlt El'.
    destruct (decide (idx = i)) as [->|]; [left; congruence|right; exists i; split; [done|lia]].
  - destruct (slots_ d !! i) as [sl|]; simplify_eq/=. destruct (slot_passed tg sl); simplify_eq.
    by eapply timeout_inv.
  - destruct (Nat.leb_spec (length (slots_ d)) i); simplify_eq. by eapply free_inv.
Qed.

Lemma step_inv l d d' : inv d -> exclusive d -> exclusive d' -> unwrapped d -> step l d = Some d' -> inv d'.
Proof.
  intros I X X' U E. destruct l; first [exact (reader_step_inv _ _ _ I X X' E) | exact (writer_step_inv _ _ _ I U E)].
Qed.

(** ** No use after free *)

Definition disciplined (d : RcuDomain) : Prop := exclusive d /\ unwrapped d.

Lemma new_domain_disciplined n m : disciplined (new_domain n m).
Proof.
  split; [|done]. intros t1 t2 th1 th2 idx E1 _. simpl in E1.
  apply lookup_replicate in E1 as [-> _]. done.
Qed.

Lemma reach_inv n m d : reach disciplined (new_domain n m) d -> disciplined d /\ inv d.
Proof.
  induction 1 as [|d l d' _ [[X U] I] E [X' U']].
  - split; [apply new_domain_disciplined|apply new_domain_inv].
  - split; [done|]. by eapply step_inv.
Qed.

Lemma inv_no_uaf d : inv d -> ~ use_after_free d.
Proof.
  intros [_ _ A _ T] (t & s & idx & p & Et & Hf). specialize (T _ _ Et). simpl in T.
  destruct T as (sl & _ & _ & Hs).
  assert (NoDup (accounted d)) as N by (rewrite A; apply NoDup_seq).
  rewrite accounted_split in N. apply list.NoDup_app in N as (_ & N1 & N2).
  destruct (decide (current_ d = Some p)) as [Ec|Hc].
  - rewrite Ec in N2. apply list.NoDup_app in N2 as (_ & N2 & _). apply (N2 p); [by left|done].
  - destruct (Hs p eq_refl Hc) as [Hk _ _]. apply (N1 p Hk). apply elem_of_app. by right.
Qed.

(** C4: No reader ever holds a snapshot that was deleted: for any number of slots
    and threads and any interleaving of registrations, reads, guard drops,
    publications, grace periods (timeouts and retries included) and deletions in
    which no two threads are in a critical section on the same slot and the epoch
    has not wrapped. *)
Theorem rcu_no_use_after_free n m d :
  reach disciplined (new_domain n m) d -> ~ use_after_free d.
Proof. intros R. apply inv_no_uaf. by apply (reach_inv n m). Qed.

(** No snapshot is lost and none is deleted twice: at every moment each
    published snapshot is exactly one of the current one, the one being retired,
    a parked one, one whose publisher kept no pointer, or a deleted one; and once
    the control plane is idle and every replacement went through
    [swap_and_reclaim], the destructor completes the deletion of all of them. *)
Theorem rcu_accounting n m d : reach disciplined (new_domain n m) d ->
  NoDup (accounted d) /\ (forall x, x ∈ accounted d <-> (x < d_next d)%nat) /\
  (d_writer d = WIdle -> d_dropped d = [] -> destroy d ≡ₚ seq 0 (d_next d)).
Proof.
  intros R. apply reach_inv in R as [_ [_ _ A _ _]]. split; [rewrite A; apply NoDup_seq|]. split.
  - intros x. rewrite A, elem_of_seq. lia.
  - intros W D. rewrite <- A. unfold accounted, destroy. by rewrite W, D.
Qed.

(** ** Registration *)

(** Threads read at the slot that [register_reader] gave them. *)
Definition own_slots (d : RcuDomain) : Prop :=
  forall t th idx, d_threads d !! t = Some th -> uses (t_phase th) idx -> t_slot th = Some idx.

Record registered (d : RcuDomain) : Prop := {
  rg_in_use : forall t th k, d_threads d !! t = Some th -> t_slot th = Some k ->
    exists sl, slots_ d !! k = Some sl /\ sl_in_use sl = true;
  rg_inj : forall t1 t2 th1 th2 k, d_threads d !! t1 = Some th1 -> d_threads d !! t2 = Some th2 ->
    t_slot th1 = Some k -> t_slot th2 = Some k -> t1 = t2 }.

Lemma registered_thread d l t th th' : registered d -> d_threads d !! t = Some th ->
  t_slot th' = t_slot th ->
  (forall k sl, slots_ d !! k = Some sl -> exists sl', l !! k = Some sl' /\ sl_in_use sl' = sl_in_use sl) ->
  registered (set_thread t th' (set_slots l d)).
Proof.
  intros [R1 R2] Et Es K. split; simpl.
  - intros t' th1 k. rewrite list_lookup_insert_Some. intros [(-> & <- & _)|[_ E]] Hk.
    + rewrite Es in Hk. destruct (R1 _ _ _ Et Hk) as (sl & El & Hu).
      destruct (K _ _ El) as (sl' & ? & ?). exists sl'. split; [done|congruence].
    + destruct (R1 _ _ _ E Hk) as (sl & El & Hu). destruct (K _ _ El) as (sl' & ? & ?).
      exists sl'. split; [done|congruence].
  - intros t1 t2 th1 th2 k. rewrite !list_lookup_insert_Some.
    intros [(<- & <- & _)|[_ E1]] [(<- & <- & _)|[_ E2]]; rewrite ?Es; eauto.
Qed.

Lemma registered_phase d t th th' : registered d -> d_threads d !! t = Some th ->
  t_slot th' = t_slot th -> registered (set_thread t th' d).
Proof.
  intros. rewrite <- (set_slots_same d). eapply registered_thread; [done..|]. intros; eauto.
Qed.

Lemma registered_epoch d d' t th th' k e : registered d -> d_threads d !! t = Some th ->
  t_slot th' = t_slot th -> store_epoch k e d = Some d' -> registered (set_thread t th' d').
Proof.
  unfold store_epoch. destruct (slots_ d !! k) as [sl|] eqn:E; [|done].
  intros R Et Es [= <-]. eapply registered_thread; [done..|]. intros j sl' Ej.
  destruct (decide (k = j)) as [->|]; [|exists sl'; by rewrite list_lookup_insert_ne].
  eexists. split; [apply list_lookup_insert_eq; by eapply lookup_lt_Some|].
  rewrite E in Ej. by simplify_eq.
Qed.

Lemma registered_claim d d' t i sl : registered d -> slots_ d !! i = Some sl ->
  sl_in_use sl = false -> store_in_use i true d = Some d' ->
  registered (set_thread t (mkThread (Some i) POut) d').
Proof.
  unfold store_in_use. intros [R1 R2] E Hf. rewrite E. intros [= <-].
  assert (forall t' th', d_threads d !! t' = Some th' -> t_slot th' <> Some i) as Free.
  { intros t' th' E' Hs. destruct (R1 _ _ _ E' Hs) as (sl' & El & Hu). congruence. }
  assert (i < length (slots_ d))%nat by (by eapply lookup_lt_Some).
  split; simpl.
  - intros t' th k. rewrite list_lookup_insert_Some. intros [(-> & <- & _)|[_ E']] Hk.
    + simplify_eq/=. eexists. by rewrite list_lookup_insert_eq.
    + destruct (R1 _ _ _ E' Hk) as (sl' & El & Hu). exists sl'. split; [|done].
      rewrite list_lookup_insert_ne; [done|]. intros <-. by apply (Free _ _ E').
  - intros t1 t2 th1 th2 k. rewrite !list_lookup_insert_Some.
    intros [(<- & <- & _)|[_ E1]] [(<- & <- & _)|[_ E2]] H1 H2; simplify_eq/=; eauto;
      exfalso; by eapply Free.
Qed.

Lemma registered_release d d' t k ph : registered d -> d_threads d !! t = Some (mkThread (Some k) ph) ->
  store_in_use k false d = Some d' -> registered (set_thread t (mkThread None POut) d').
Proof.
  unfold store_in_use. intros [R1 R2] Et. destruct (slots_ d !! k) as [sl|] eqn:E; [|done].
  intros [= <-]. split; simpl.
  - intros t' th j. rewrite list_lookup_insert_Some. intros [(-> & <- & _)|[Hne E']] Hj; [done|].
    destruct (R1 _ _ _ E' Hj) as (sl' & El & Hu). exists sl'. split; [|done].
    rewrite list_lookup_insert_ne; [done|]. intros <-. by destruct (Hne (R2 _ _ _ _ _ Et E' eq_refl Hj)).
  - intros t1 t2 th1 th2 j. rewrite !list_lookup_insert_Some.
    intros [(<- & <- & _)|[_ E1]] [(<- & <- & _)|[_ E2]] H1 H2; simplify_eq/=; eauto.
Qed.

Lemma registered_writer l d d' : registered d -> writer_step l d = Some d' -> registered d'.
Proof.
  intros R E. assert (slots_ d' = slots_ d /\ d_threads d' = d_threads d) as [Es Et].
  { unfold writer_step in E. destruct (d_writer d), l; simplify_option_eq; repeat case_match; simplify_eq; done. }
  destruct R. split; rewrite Et, ?Es; auto.
Qed.

Lemma registered_step l d d' : registered d -> step l d = Some d' -> registered d'.
Proof.
  intros R E. destruct l as [t|t|t|t|t idx|t|t|t|?| | | | |];
    try exact (registered_writer _ _ _ R E); simpl in E;
    destruct (d_threads d !! t) as [[s ph]|] eqn:Et; try done.
  - destruct s, ph; simplify_eq. by eapply registered_phase.
  - destruct s, ph as [|i| | | |]; try done. destruct (slots_ d !! i) as [sl|] eqn:El; simplify_eq;
      [|by eapply registered_phase]. destruct (sl_in_use sl) eqn:Eu; simplify_eq; [by eapply registered_phase|].
    destruct (store_in_use i true d) eqn:Es; simplify_eq/=. by eapply registered_claim.
  - destruct s as [k|], ph; try done. destruct (store_epoch k kQuiescent d) eqn:Es; simplify_eq/=.
    by eapply registered_epoch.
  - destruct s as [k|], ph; try done. destruct (store_in_use k false d) eqn:Es; simplify_eq/=.
    by eapply registered_release.
  - destruct ph; try done. destruct (slots_ d !! idx); simplify_eq. by eapply registered_phase.
  - destruct ph as [| |idx e| | |]; try done. destruct (store_epoch idx e d) eqn:Es; simplify_eq/=.
    by eapply registered_epoch.
  - destruct ph; simplify_eq. by eapply registered_phase.
  - destruct ph as [| | | |idx p|]; try done. destruct (store_epoch idx kQuiescent d) eqn:Es; simplify_eq/=.
    by eapply registered_epoch.
Qed.

Lemma reach_registered n m P d : reach P (new_domain n m) d -> registered d.
Proof.
  induction 1 as [|d l d' _ IH E _]; [|by eapply registered_step].
  split; simpl.
  - intros t th k E. apply lookup_replicate in E as [-> _]. done.
  - intros t1 t2 th1 th2 k E1. apply lookup_replicate in E1 as [-> _]. done.
Qed.

(** Registration makes the domain safe: if every thread reads at the slot that
    [register_reader] gave it, and the epoch has not wrapped, then at every moment
    no two threads share a slot, whatever the interleaving of the scans, and no
    reader holds a deleted snapshot. *)
Theorem rcu_registered_safe n m d :
  reach (fun d => own_slots d /\ unwrapped d) (new_domain n m) d ->
  exclusive d /\ ~ use_after_free d.
Proof.
  intros R. assert (reach disciplined (new_domain n m) d) as RD.
  { induction R as [|d l d' R IH E [Ho U]]; [constructor|]. econstructor; [done..|].
    split; [|done]. assert (registered d') as [_ Hi].
    { eapply registered_step; [|done]. by eapply reach_registered. }
    intros t1 t2 th1 th2 idx E1 E2 U1 U2. eapply Hi; [done..|by eapply Ho|by eapply Ho]. }
  apply reach_inv in RD as [[X _] I]. split; [done|by apply inv_no_uaf].
Qed.

(** ** The grace period ends *)

Definition all_passed (d : RcuDomain) : Prop :=
  Forall (fun sl => slot_passed (global_epoch_ d) sl = true) (slots_ d).

Lemma exec_checks old tg k i d : d_writer d = WWait old tg i ->
  Forall (fun sl => slot_passed tg sl = true) (slots_ d) -> (i + k <= length (slots_ d))%nat ->
  exec (replicate k LCheck) d = Some (set_writer (WWait old tg (i + k)) d).
Proof.
  revert i d. induction k as [|k IH]; intros i d W F L; simpl.
  { rewrite Nat.add_0_r, <- W. by destruct d. }
  unfold writer_step. rewrite W. destruct (lookup_lt_is_Some_2 (slots_ d) i) as [sl El]; [lia|].
  rewrite El. simpl. pose proof (Forall_lookup_1 _ _ _ _ F El) as P. simpl in P. rewrite P.
  rewrite (IH (S i)); [|done|done|simpl; lia].
  by replace (i + S k)%nat with (S i + k)%nat by lia.
Qed.

Lemma exec_app l1 l2 d : exec (l1 ++ l2) d = exec l1 d ≫= exec l2.
Proof. revert d. induction l1 as [|l l1 IH]; intros d; [done|]. simpl. destruct (step l d); simpl; [apply IH|done]. Qed.


(** ** Sample executions *)

(** Every state on the way of [ls] from [d] satisfies [P]. *)
Fixpoint path (P : RcuDomain -> Prop) (ls : list Label) (d : RcuDomain) : Prop :=
  match ls with
  | [] => True
  | l :: ls => match step l d with Some d' => P d' /\ path P ls d' | None => False end
  end.

Lemma path_reach P ls d0 d d' : reach P d0 d -> path P ls d -> exec ls d = Some d' -> reach P d0 d'.
Proof.
  revert d. induction ls as [|l ls IH]; simpl; intros d R Hp E; [by simplify_eq|].
  destruct (step l d) as [d1|] eqn:Es; [|done]. destruct Hp as [HP Hp].
  eapply (IH d1); [by econstructor|done|done].
Qed.

(** One reader on one slot: a reload that times out while the reader holds the
    first snapshot, then one that frees both old snapshots. *)
Definition sample_run : list Label :=
  [LExchange false; LBump; LRegister 0; LCas 0; LReadEpoch 0 0; LEnter 0; LLoad 0;
   LExchange true; LBump; LTarget; LCheck; LTimeout; LDrop 0; LReadEpoch 0 0; LEnter 0; LLoad 0;
   LExchange true; LBump; LTarget; LCheck; LDrop 0; LCheck; LFree; LReadEpoch 0 0; LEnter 0; LLoad 0].
Definition sample_state : RcuDomain :=
  Eval vm_compute in match exec sample_run (new_domain 1 1) with Some d => d | None => new_domain 1 1 end.

Definition solo (d : RcuDomain) : Prop :=
  length (d_threads d) = 1%nat /\ (d_next d <= 3)%nat /\
  Forall (fun th => match t_phase th with
    | PRead i _ | PEnter i | PGuard i _ | PLeave i => t_slot th = Some i | _ => True end) (d_threads d).

Lemma solo_exclusive d : length (d_threads d) = 1%nat -> exclusive d.
Proof.
  intros L t1 t2 th1 th2 idx E1 E2 _ _. apply lookup_lt_Some in E1, E2. lia.
Qed.
Lemma solo_ok d : solo d -> disciplined d /\ own_slots d /\ unwrapped d.
Proof.
  intros (L & N & F). assert (unwrapped d) as U by (unfold unwrapped; lia).
  split; [split; [by apply solo_exclusive|done]|]. split; [|done].
  intros t th idx Et Hu. pose proof (Forall_lookup_1 _ _ _ _ F Et) as H. simpl in H.
  destruct (t_phase th); simpl in Hu; simplify_eq; done.
Qed.
Lemma reach_mono (P Q : RcuDomain -> Prop) d0 d : (forall d, P d -> Q d) -> reach P d0 d -> reach Q d0 d.
Proof. intros H. induction 1; [constructor|]. econstructor; eauto. Qed.
Lemma sample_reach : reach solo (new_domain 1 1) sample_state.
Proof.
  apply (path_reach _ sample_run _ (new_domain 1 1)); [constructor| |by vm_compute].
  vm_compute; repeat split; repeat constructor.
Qed.

Lemma rcu_no_use_after_free_witness :
  d_freed sample_state = [0; 1]%nat /\ current_ sample_state = Some 2%nat /\ ~ use_after_free sample_state.
Proof.
  split; [done|]. split; [done|]. apply (rcu_no_use_after_free 1 1).
  eapply reach_mono; [|exact sample_reach]. apply solo_ok.
Defined.

Lemma rcu_accounting_witness : destroy sample_state ≡ₚ [0; 1; 2]%nat.
Proof.
  apply (rcu_accounting 1 1 sample_state); [|done|].
  { eapply reach_mono; [|exact sample_reach]. apply solo_ok. }
  by vm_compute.
Defined.

Lemma rcu_registered_safe_witness : exclusive sample_state /\ ~ use_after_free sample_state.
Proof.
  apply (rcu_registered_safe 1 1). eapply reach_mono; [|exact sample_reach].
  intros d H. by apply solo_ok in H as [_ H].
Defined.

Definition waiting_state : RcuDomain :=
  mkDomain (Some 1%nat) 3 [mkSlot 0 true; mkSlot 3 true] [] (WBumped (Some 0%nat)) [] 2 [] [].

(** ** The control plane's own slots *)

(** [ControlPlane] builds the domain with [workers + 4] slots and reads at
    [max_readers - 1], [- 2] and [- 3] without registering them; the UDP server and
    the HTTP front both register [workers] readers.  With two workers the second
    HTTP worker is given the slot that the admin endpoints read at. *)
Definition admin_slot (max_readers : nat) : nat := max_readers - 3.
Definition shared_slot_run : list Label :=
  [LExchange false; LBump;
   LRegister 0; LCas 0; LRegister 1; LCas 1; LCas 1;
   LRegister 2; LCas 2; LCas 2; LCas 2; LRegister 3; LCas 3; LCas 3; LCas 3; LCas 3;
   LReadEpoch 3 3; LEnter 3; LLoad 3;
   LReadEpoch 4 (admin_slot (2 + 4)); LEnter 4; LLoad 4; LDrop 4;
   LExchange true; LBump; LTarget; LCheck; LCheck; LCheck; LCheck; LCheck; LCheck; LFree].

(** Registration does not protect the slots the control plane uses: with two
    UDP and two HTTP workers over [2 + 4] slots, an admin request that overlaps a
    decision on the shared slot makes the slot look quiescent, and a reload then
    deletes the rule set that the HTTP worker is still evaluating. *)
Theorem unregistered_slot_use_after_free :
  exists d, exec shared_slot_run (new_domain (2 + 4) 5) = Some d /\ use_after_free d.
Proof.
  eexists. split; [by vm_compute|]. exists 3%nat, (Some 3%nat), 3%nat, 0%nat. split; [done|by left].
Qed.

(** The slots that have been given out, one per registered thread. *)
Definition granted (d : RcuDomain) : list nat := omap t_slot (d_threads d).
Definition refused (d : RcuDomain) : list Thread := filter (fun th => t_slot th = None) (d_threads d).

Lemma step_sizes l d d' : step l d = Some d' ->
  length (slots_ d') = length (slots_ d) /\ length (d_threads d') = length (d_threads d).
Proof.
  intros E. destruct l; simpl in E; unfold store_epoch, store_in_use in E; repeat (case_match; simplify_option_eq); try done;
    simpl; rewrite ?length_insert; done.
Qed.

Lemma reach_sizes n m P d : reach P (new_domain n m) d -> length (slots_ d) = n /\ length (d_threads d) = m.
Proof.
  induction 1 as [|d l d' _ [IH1 IH2] E _]; [simpl; by rewrite !length_replicate|].
  apply step_sizes in E as [E1 E2]. by rewrite E1, E2.
Qed.

Lemma granted_nodup d : registered d -> NoDup (granted d).
Proof.
  intros [_ Hi]. unfold granted. revert Hi. generalize (d_threads d) as l. induction l as [|th l IH]; intros Hi; [constructor|].
  assert (NoDup (omap t_slot l)) as Hnd.
  { apply IH. intros t1 t2 th1 th2 k E1 E2 S1 S2. enough (S t1 = S t2) by lia. by apply (Hi (S t1) (S t2) th1 th2 k). }
  simpl. destruct (t_slot th) as [k|] eqn:Ek; [|done]. constructor; [|done].
  intros Hin. apply list_elem_of_omap in Hin as (th' & Hin & Ek'). apply list_elem_of_lookup in Hin as [t Et].
  enough (0%nat = S t) by lia. by apply (Hi 0%nat (S t) th th' k).
Qed.

Lemma granted_refused d : (length (granted d) + length (refused d) = length (d_threads d))%nat.
Proof.
  unfold granted, refused. induction (d_threads d) as [|th l IH]; [done|]. rewrite filter_cons. simpl.
  destruct (t_slot th) eqn:E; case_decide; try congruence; simpl; unfold omap in IH; lia.
Qed.

(** The domain has [workers + 4] slots, but with the HTTP front twice [workers] threads
    register: above four workers, in every state at least [workers - 4] of them are without
    a slot.  A worker that is refused returns, while its socket stays open and keeps its
    share of the traffic. *)
Theorem surplus_workers_refused workers d : reach (fun _ => True) (new_domain (workers + 4) (2 * workers)) d ->
  (workers <= length (refused d) + 4)%nat.
Proof.
  intros Hr. destruct (reach_sizes _ _ _ _ Hr) as [E1 E2]. pose proof (reach_registered _ _ _ _ Hr) as Hreg.
  pose proof (granted_refused d). enough (length (granted d) <= workers + 4)%nat by lia.
  rewrite <- (length_seq (workers + 4) 0). apply submseteq_length, NoDup_submseteq; [by apply granted_nodup|].
  intros k Hk. apply elem_of_seq. apply list_elem_of_omap in Hk as (th & Hin & Ek). apply list_elem_of_lookup in Hin as [t Et].
  destruct (rg_in_use _ Hreg t th k Et Ek) as (sl & Es & _). apply lookup_lt_Some in Es. lia.
Qed.
