(* ===== verification/Hdr.v ===== *)
(** * Hdr: the latency histogram

    [HdrHistogram] of include/policy/hdr_histogram.hpp: construction, recording,
    merging, the bucket arithmetic, percentile and mean queries.  Recording indexes
    the vector of counts without a check, so the operations that index return an
    [option], [None] standing for an access out of bounds.  Counters are 64-bit
    signed in the code and integers here: they count recorded values. *)

From S2P Require Import Prelude Double.
From Stdlib Require Import ZArith Lia Bool.
From stdpp Require Import base list numbers sorting.
Local Open Scope Z_scope.

Record HdrHistogram := mkHdr {
  lowest_ : Z; highest_ : Z; significant_figures_ : Z;
  unit_magnitude_ : Z;
  sub_bucket_count_magnitude_ : Z;
  sub_bucket_half_count_magnitude_ : Z;
  sub_bucket_count_ : Z;
  sub_bucket_half_count_ : Z;
  sub_bucket_mask_ : Z;
  bucket_count_ : Z;
  counts_ : list Z;
  total_count_ : Z; overflow_count_ : Z; negative_count_ : Z;
  min_ : Z; max_ : Z }.

(** ** Construction *)

Definition int64_max : Z := 2 ^ 63 - 1.

(** The loop that counts buckets; it doubles [smallest_untrackable], so it takes
    fewer than 63 rounds. *)
Fixpoint bucket_loop (fuel : nat) (highest smallest buckets : Z) : option Z :=
  match fuel with
  | O => None
  | S fuel =>
      if smallest <=? highest then
        if int64_max / 2 <? smallest then Some buckets
        else bucket_loop fuel highest (Z.shiftl smallest 1) (buckets + 1)
      else Some buckets
  end.

(** [floor(log2(lowest))] and [ceil(log2(2 * 10^figures))] are written on the
    integers: below [2^32], and on the five values the second is taken of, the
    double results round to the same integers. *)
Definition new_histogram (lowest highest significant_figures : Z) : option HdrHistogram :=
  let lowest := Z.max lowest 1 in
  let figures := Z.min (Z.max significant_figures 1) 5 in
  let highest := if highest <? lowest * 2 then lowest * 2 else highest in
  let unit := Z.log2 lowest in
  let mag := Z.log2_up (2 * 10 ^ figures) in
  let count := Z.shiftl 1 mag in
  let half := count / 2 in
  let mask := Z.shiftl (count - 1) unit in
  buckets ← bucket_loop 64 highest (Z.shiftl count unit) 1;
  Some (mkHdr lowest highest figures unit mag (mag - 1) count half mask buckets
    (replicate (Z.to_nat ((buckets + 1) * half)) 0) 0 0 0 0 0).

(** ** Bucket arithmetic *)

Section Buckets.
Context (h : HdrHistogram).

(** [64 - clzll(x)] is the bit length of [x]. *)
Definition bucket_index (value : Z) : Z :=
  let pow2ceiling := Z.log2 (Z.lor value (sub_bucket_mask_ h)) + 1 in
  pow2ceiling - unit_magnitude_ h - (sub_bucket_half_count_magnitude_ h + 1).

Definition sub_bucket_index (value bucket : Z) : Z :=
  Z.shiftr value (bucket + unit_magnitude_ h).

Definition counts_index_for (value : Z) : Z :=
  let b := bucket_index value in
  let s := sub_bucket_index value b in
  Z.shiftl (b + 1) (sub_bucket_half_count_magnitude_ h) + (s - sub_bucket_half_count_ h).

Definition value_from_index (index : Z) : Z :=
  let bucket := Z.shiftr index (sub_bucket_half_count_magnitude_ h) - 1 in
  let sub := Z.land index (sub_bucket_half_count_ h - 1) + sub_bucket_half_count_ h in
  if bucket <? 0 then Z.shiftl (sub - sub_bucket_half_count_ h) (0 + unit_magnitude_ h)
  else Z.shiftl sub (bucket + unit_magnitude_ h).

Definition lowest_equivalent_value (value : Z) : Z :=
  let b := bucket_index value in
  Z.shiftl (sub_bucket_index value b) (b + unit_magnitude_ h).

Definition size_of_equivalent_value_range (value : Z) : Z :=
  let b := bucket_index value in
  let s := sub_bucket_index value b in
  let adjusted := if sub_bucket_count_ h <=? s then b + 1 else b in
  Z.shiftl 1 (unit_magnitude_ h + adjusted).

Definition next_non_equivalent_value (value : Z) : Z :=
  lowest_equivalent_value value + size_of_equivalent_value_range value.
Definition highest_equivalent_value (value : Z) : Z := next_non_equivalent_value value - 1.
Definition median_equivalent_value (value : Z) : Z :=
  lowest_equivalent_value value + Z.shiftr (size_of_equivalent_value_range value) 1.
End Buckets.

(** ** Recording *)

Definition with_counts (l : list Z) (total overflow negative mn mx : Z) (h : HdrHistogram) : HdrHistogram :=
  mkHdr (lowest_ h) (highest_ h) (significant_figures_ h) (unit_magnitude_ h)
    (sub_bucket_count_magnitude_ h) (sub_bucket_half_count_magnitude_ h) (sub_bucket_count_ h)
    (sub_bucket_half_count_ h) (sub_bucket_mask_ h) (bucket_count_ h) l total overflow negative mn mx.

(** [record_n]; [record] is the case of one occurrence. *)
Definition record_n (value count : Z) (h : HdrHistogram) : option HdrHistogram :=
  if count <=? 0 then Some h else
  if value <? 0 then
    Some (with_counts (counts_ h) (total_count_ h) (overflow_count_ h) (negative_count_ h + count)
      (min_ h) (max_ h) h)
  else
    let over := highest_ h <? value in
    let v := if over then highest_ h else value in
    let idx := Z.to_nat (counts_index_for h v) in
    c ← counts_ h !! idx;
    let total := total_count_ h + count in
    Some (with_counts (<[idx := c + count]> (counts_ h)) total
      (if over then overflow_count_ h + count else overflow_count_ h) (negative_count_ h)
      (if (v <? min_ h) || (total =? count) then v else min_ h)
      (if (max_ h <? v) || (total =? count) then v else max_ h) h).

Definition record (value : Z) (h : HdrHistogram) : option HdrHistogram :=
  if value <? 0 then
    Some (with_counts (counts_ h) (total_count_ h) (overflow_count_ h) (negative_count_ h + 1)
      (min_ h) (max_ h) h)
  else
    let over := highest_ h <? value in
    let v := if over then highest_ h else value in
    let idx := Z.to_nat (counts_index_for h v) in
    c ← counts_ h !! idx;
    let total := total_count_ h + 1 in
    Some (with_counts (<[idx := c + 1]> (counts_ h)) total
      (if over then overflow_count_ h + 1 else overflow_count_ h) (negative_count_ h)
      (if (v <? min_ h) || (total =? 1) then v else min_ h)
      (if (max_ h <? v) || (total =? 1) then v else max_ h) h).

Fixpoint record_all (vs : list Z) (h : HdrHistogram) : option HdrHistogram :=
  match vs with [] => Some h | v :: vs => h' ← record v h; record_all vs h' end.

Definition reset (h : HdrHistogram) : HdrHistogram :=
  with_counts (replicate (length (counts_ h)) 0) 0 0 0 0 0 h.

Definition add (h other : HdrHistogram) : bool * HdrHistogram :=
  if negb (length (counts_ h) =? length (counts_ other))%nat ||
     negb (unit_magnitude_ h =? unit_magnitude_ other) ||
     negb (sub_bucket_count_ h =? sub_bucket_count_ other)
  then (false, h)
  else
    let '(mn, mx) :=
      if 0 <? total_count_ other then
        if total_count_ h =? 0 then (min_ other, max_ other)
        else (Z.min (min_ h) (min_ other), Z.max (max_ h) (max_ other))
      else (min_ h, max_ h) in
    (true, with_counts (zip_with Z.add (counts_ h) (counts_ other))
      (total_count_ h + total_count_ other) (overflow_count_ h + overflow_count_ other)
      (negative_count_ h + negative_count_ other) mn mx h).

(** ** Queries *)

Definition hdr_min (h : HdrHistogram) : Z := if total_count_ h =? 0 then 0 else min_ h.
Definition hdr_max (h : HdrHistogram) : Z := if total_count_ h =? 0 then 0 else max_ h.
Definition count_at_value (value : Z) (h : HdrHistogram) : option Z :=
  if value <? 0 then Some 0
  else counts_ h !! Z.to_nat (counts_index_for h (Z.min value (highest_ h))).

(** The rank asked for: [clamp(ceil(percentile / 100 * total), 1, total)]. *)
Definition target_rank (percentile : double) (total : Z) : Z :=
  let p := if dltb percentile (DFin 0 0) then DFin 0 0
           else if dltb (double_of_Z 100) percentile then double_of_Z 100 else percentile in
  let target := dceil (dmul (ddiv p (double_of_Z 100)) (double_of_Z total)) in
  Z.min (Z.max target 1) total.

(** The first index whose running count reaches the target. *)
Fixpoint rank_loop (counts : list Z) (i running target : Z) : option Z :=
  match counts with
  | [] => None
  | c :: counts =>
      if target <=? running + c then Some i else rank_loop counts (i + 1) (running + c) target
  end.

Definition value_at_rank (target : Z) (h : HdrHistogram) : Z :=
  match rank_loop (counts_ h) 0 0 target with
  | Some i => highest_equivalent_value h (value_from_index h i)
  | None => max_ h
  end.

Definition value_at_percentile (percentile : double) (h : HdrHistogram) : Z :=
  if total_count_ h =? 0 then 0 else value_at_rank (target_rank percentile (total_count_ h)) h.

Fixpoint mean_loop (h : HdrHistogram) (counts : list Z) (i : Z) (total : double) : double :=
  match counts with
  | [] => total
  | c :: counts =>
      mean_loop h counts (i + 1)
        (if c =? 0 then total
         else dadd total (dmul (double_of_Z c)
                (double_of_Z (median_equivalent_value h (value_from_index h i)))))
  end.
Definition mean (h : HdrHistogram) : double :=
  if total_count_ h =? 0 then DFin 0 0
  else ddiv (mean_loop h (counts_ h) 0 (DFin 0 0)) (double_of_Z (total_count_ h)).

Definition service_ns : option HdrHistogram := new_histogram 1 10000000 3.

(** ** The buckets *)

(** The derived fields agree with a unit of [2^u] and [2^m] sub-buckets. *)
Record shape (h : HdrHistogram) (u m : Z) : Prop := {
  sh_u : 0 <= u; sh_m : 1 <= m;
  sh_unit : unit_magnitude_ h = u;
  sh_half_mag : sub_bucket_half_count_magnitude_ h = m - 1;
  sh_count : sub_bucket_count_ h = 2 ^ m;
  sh_half : sub_bucket_half_count_ h = 2 ^ (m - 1);
  sh_mask : sub_bucket_mask_ h = (2 ^ m - 1) * 2 ^ u }.

Section Shape.
Context (h : HdrHistogram) (u m : Z) (SH : shape h u m).

Lemma pow_split : 2 ^ m = 2 * 2 ^ (m - 1).
Proof. pose proof (sh_m _ _ _ SH). rewrite <- Z.pow_succ_r by lia. f_equal. lia. Qed.

Lemma bucket_index_eq v : 0 <= v -> bucket_index h v = Z.max (Z.log2 v + 1 - u - m) 0.
Proof.
  destruct SH as [Hu Hm E1 E2 E3 E4 E5]. intros Hv. unfold bucket_index. rewrite E1, E2, E5.
  assert (2 <= 2 ^ m) by (pose proof (Z.pow_le_mono_r 2 1 m); lia).
  rewrite Z.log2_lor by nia. rewrite Z.log2_mul_pow2 by lia.
  replace (2 ^ m - 1) with (Z.pred (2 ^ m)) by lia. rewrite Z.log2_pred_pow2 by lia. lia.
Qed.

(** The position of a value: its bucket and its sub-bucket. *)
Record position (v b s : Z) : Prop := {
  po_b : 0 <= b;
  po_s : 0 <= s < 2 ^ m;
  po_upper : b = 0 \/ 2 ^ (m - 1) <= s;
  po_div : s = v / 2 ^ (b + u) }.

Lemma position_of v : 0 <= v -> position v (bucket_index h v) (sub_bucket_index h v (bucket_index h v)).
Proof.
  intros Hv. pose proof (bucket_index_eq v Hv) as Eb. set (b := bucket_index h v) in *.
  unfold sub_bucket_index. destruct SH as [Hu Hm E1 _ _ _ _]. rewrite E1, Z.shiftr_div_pow2 by lia.
  assert (0 < 2 ^ (b + u)) by (apply Z.pow_pos_nonneg; lia).
  assert (v < 2 ^ (b + u + m)) as Hlt.
  { destruct (decide (v = 0)) as [->|]; [apply Z.pow_pos_nonneg; lia|].
    apply Z.log2_lt_pow2; lia. }
  rewrite Z.pow_add_r in Hlt by lia. split; [lia| | |done].
  - split; [apply Z.div_pos; lia|]. apply Z.div_lt_upper_bound; lia.
  - destruct (decide (b = 0)) as [|Hb]; [by left|right].
    apply Z.div_le_lower_bound; [done|]. rewrite <- Z.pow_add_r by lia.
    transitivity (2 ^ Z.log2 v); [apply Z.pow_le_mono_r; lia|]. apply Z.log2_spec.
    destruct (decide (v = 0)) as [->|]; [|lia]. simpl in Eb. lia.
Qed.

Lemma index_of_position v b s : bucket_index h v = b -> sub_bucket_index h v b = s ->
  counts_index_for h v = b * 2 ^ (m - 1) + s.
Proof.
  intros <- <-. unfold counts_index_for. destruct SH as [Hu Hm _ E2 _ E4 _]. rewrite E2, E4.
  rewrite Z.shiftl_mul_pow2 by lia. lia.
Qed.

Lemma value_of_position v b s : position v b s ->
  value_from_index h (b * 2 ^ (m - 1) + s) = s * 2 ^ (b + u).
Proof.
  intros [Hb Hs Hup _]. pose proof pow_split as Ps. unfold value_from_index.
  destruct SH as [Hu Hm E1 E2 _ E4 _]. rewrite E1, E2, E4.
  assert (0 < 2 ^ (m - 1)) as Hp by (apply Z.pow_pos_nonneg; lia).
  rewrite Z.shiftr_div_pow2 by lia. replace (2 ^ (m - 1) - 1) with (Z.ones (m - 1))
    by (rewrite Z.ones_equiv; lia). rewrite Z.land_ones by lia.
  set (H := 2 ^ (m - 1)) in *. rewrite Z.div_add_l by lia.
  rewrite (Z.add_comm (b * H) s), Z.mod_add by lia.
  destruct (Z.lt_ge_cases s H) as [Hlow|Hhigh].
  - destruct Hup as [->|?]; [|lia]. rewrite (Z.div_small s H), (Z.mod_small s H) by lia.
    simpl. rewrite Z.shiftl_mul_pow2 by lia. f_equal. lia.
  - assert (s / H = 1) as -> by (symmetry; apply Z.div_unique with (s - H); lia).
    assert (s mod H = s - H) as -> by (symmetry; apply Z.mod_unique with 1; lia).
    destruct (Z.ltb_spec (b + 1 - 1) 0); [lia|]. rewrite Z.shiftl_mul_pow2 by lia. f_equal; [lia|]. f_equal. lia.
Qed.

Lemma lowest_of_position v b s : bucket_index h v = b -> sub_bucket_index h v b = s ->
  position v b s -> lowest_equivalent_value h v = s * 2 ^ (b + u).
Proof.
  intros <- <- [Hb _ _ _]. unfold lowest_equivalent_value. destruct SH as [Hu _ E1 _ _ _ _].
  rewrite E1. by rewrite Z.shiftl_mul_pow2 by lia.
Qed.

Lemma size_of_position v b s : bucket_index h v = b -> sub_bucket_index h v b = s ->
  position v b s -> size_of_equivalent_value_range h v = 2 ^ (b + u).
Proof.
  intros Eb Es [Hb Hs _ _]. unfold size_of_equivalent_value_range. rewrite Eb, Es.
  destruct SH as [Hu _ E1 _ E3 _ _]. rewrite E1, E3. destruct (Z.leb_spec (2 ^ m) s); [lia|].
  rewrite Z.shiftl_mul_pow2 by lia. rewrite Z.mul_1_l. f_equal. lia.
Qed.

(** A value lies in its equivalence range, which its index determines. *)
Lemma range_spec v : 0 <= v ->
  lowest_equivalent_value h v <= v <= highest_equivalent_value h v /\
  value_from_index h (counts_index_for h v) = lowest_equivalent_value h v /\
  0 <= counts_index_for h v.
Proof.
  intros Hv. pose proof (position_of v Hv) as P.
  set (b := bucket_index h v) in *. set (s := sub_bucket_index h v b) in *.
  pose proof (sh_m _ _ _ SH). pose proof (sh_u _ _ _ SH).
  rewrite (lowest_of_position v b s) by done. rewrite (index_of_position v b s) by done.
  unfold highest_equivalent_value, next_non_equivalent_value.
  rewrite (lowest_of_position v b s), (size_of_position v b s) by done.
  rewrite (value_of_position v) by done. destruct P as [Hb Hs _ Ed].
  assert (0 < 2 ^ (b + u)) by (apply Z.pow_pos_nonneg; lia).
  assert (0 < 2 ^ (m - 1)) by (apply Z.pow_pos_nonneg; lia).
  pose proof (Z.div_mod v (2 ^ (b + u))). pose proof (Z.mod_pos_bound v (2 ^ (b + u))).
  split; [nia|]. split; [done|]. nia.
Qed.

Lemma index_mono v w : 0 <= v <= w -> counts_index_for h v <= counts_index_for h w.
Proof.
  intros Hvw. pose proof (position_of v ltac:(lia)) as Pv. pose proof (position_of w ltac:(lia)) as Pw.
  assert (bucket_index h v <= bucket_index h w) as Hb.
  { rewrite !bucket_index_eq by lia. pose proof (Z.log2_le_mono v w). lia. }
  set (bv := bucket_index h v) in *. set (bw := bucket_index h w) in *.
  rewrite (index_of_position v bv (sub_bucket_index h v bv)) by done.
  rewrite (index_of_position w bw (sub_bucket_index h w bw)) by done.
  destruct Pv as [? Hsv _ Dv], Pw as [? Hsw Uw Dw]. rewrite pow_split in *.
  assert (0 < 2 ^ (m - 1)) by (apply Z.pow_pos_nonneg; pose proof (sh_m _ _ _ SH); lia).
  destruct (decide (bv = bw)) as [E|]; [|destruct Uw; nia].
  rewrite E. apply Z.add_le_mono_l. rewrite <- E in Dw |- *. rewrite Dv, Dw.
  apply Z.div_le_mono; [|lia]. apply Z.pow_pos_nonneg; pose proof (sh_u _ _ _ SH); lia.
Qed.

(** Indices that some value has are determined by where their range starts. *)
Lemma range_inj v w : 0 <= v -> 0 <= w -> counts_index_for h v = counts_index_for h w ->
  highest_equivalent_value h v = highest_equivalent_value h w.
Proof.
  intros Hv Hw E. pose proof (position_of v Hv) as Pv. pose proof (position_of w Hw) as Pw.
  set (bv := bucket_index h v) in *. set (bw := bucket_index h w) in *.
  set (sv := sub_bucket_index h v bv) in *. set (sw := sub_bucket_index h w bw) in *.
  assert (bv = bw) as Eb.
  { rewrite (index_of_position v bv sv), (index_of_position w bw sw) in E by done.
    destruct Pv as [? Hsv Uv _], Pw as [? Hsw Uw _]. rewrite pow_split in *.
    assert (0 < 2 ^ (m - 1)) by (apply Z.pow_pos_nonneg; pose proof (sh_m _ _ _ SH); lia).
    destruct (Z.lt_total bv bw) as [|[?|?]]; [|done|]; exfalso; destruct Uv, Uw; nia. }
  unfold highest_equivalent_value, next_non_equivalent_value.
  destruct (range_spec v Hv) as (_ & <- & _). destruct (range_spec w Hw) as (_ & <- & _).
  rewrite E, (size_of_position v bv sv), (size_of_position w bw sw) by done. by rewrite Eb.
Qed.
End Shape.

(** ** Well-formed histograms *)

Record hdr_ok (h : HdrHistogram) (u m : Z) : Prop := {
  ho_shape : shape h u m;
  ho_buckets : 1 <= bucket_count_ h;
  ho_length : Z.of_nat (length (counts_ h)) = (bucket_count_ h + 1) * 2 ^ (m - 1);
  ho_highest : 0 <= highest_ h < 2 ^ (m + u + bucket_count_ h - 1);
  ho_figures : 0 <= significant_figures_ h;
  ho_precision : 10 ^ significant_figures_ h <= 2 ^ (m - 1) }.

Lemma bucket_loop_spec fuel highest k b : 0 <= k <= 62 -> highest < 2 ^ 62 ->
  62 - k < Z.of_nat fuel ->
  exists b', bucket_loop fuel highest (2 ^ k) b = Some b' /\ b <= b' /\ highest < 2 ^ (k + (b' - b)).
Proof.
  revert k b. induction fuel as [|fuel IH]; intros k b Hk Hh Hf; [lia|]. simpl.
  destruct (Z.leb_spec (2 ^ k) highest) as [Hle|Hgt].
  2: { exists b. rewrite Z.sub_diag, Z.add_0_r. repeat split; lia. }
  assert (k < 62) by (apply (Z.pow_lt_mono_r_iff 2); lia).
  destruct (Z.ltb_spec (int64_max / 2) (2 ^ k)) as [Hbig|_].
  { change (int64_max / 2) with (2 ^ 62 - 1) in Hbig. lia. }
  rewrite Z.shiftl_mul_pow2 by lia. replace (2 ^ k * 2 ^ 1) with (2 ^ (k + 1)) by (rewrite Z.pow_add_r; lia).
  destruct (IH (k + 1) (b + 1)) as (b' & E & Hb & Hlt); [lia|lia|lia|].
  exists b'. split; [done|]. split; [lia|]. by replace (k + (b' - b)) with (k + 1 + (b' - (b + 1))) by lia.
Qed.

Lemma new_histogram_ok lowest highest figures : lowest < 2 ^ 32 -> highest < 2 ^ 62 ->
  exists h u m, new_histogram lowest highest figures = Some h /\ hdr_ok h u m /\
    u = Z.log2 (Z.max lowest 1) /\ total_count_ h = 0 /\ negative_count_ h = 0 /\ overflow_count_ h = 0 /\
    counts_ h = replicate (length (counts_ h)) 0 /\
    highest_ h = Z.max highest (Z.max lowest 1 * 2) /\ significant_figures_ h = Z.min (Z.max figures 1) 5.
Proof.
  intros Hl Hh. unfold new_histogram.
  set (lo := Z.max lowest 1). set (f := Z.min (Z.max figures 1) 5).
  set (hi := if highest <? lo * 2 then lo * 2 else highest).
  assert (hi = Z.max highest (lo * 2)) as Ehi by (unfold hi; destruct (Z.ltb_spec highest (lo * 2)); lia).
  set (u := Z.log2 lo). set (m := Z.log2_up (2 * 10 ^ f)).
  assert (0 <= u < 32) as Hu by (split; [apply Z.log2_nonneg|apply Z.log2_lt_pow2; lia]).
  assert (20 <= 2 * 10 ^ f <= 200000) as Hf.
  { pose proof (Z.pow_le_mono_r 10 1 f). pose proof (Z.pow_le_mono_r 10 f 5). lia. }
  assert (2 ^ Z.pred m < 2 * 10 ^ f <= 2 ^ m) as Hm by (apply Z.log2_up_spec; lia).
  assert (5 <= m <= 18) as Hm'.
  { split; [change 5 with (Z.log2_up 20)|change 18 with (Z.log2_up 200000)]; apply Z.log2_up_le_mono; lia. }
  rewrite (Z.shiftl_mul_pow2 1 m), Z.mul_1_l by lia. rewrite (Z.shiftl_mul_pow2 (2 ^ m)) by lia.
  rewrite <- Z.pow_add_r by lia. rewrite (Z.shiftl_mul_pow2 (2 ^ m - 1)) by lia.
  assert (2 ^ m = 2 * 2 ^ (m - 1)) as Ps.
  { rewrite <- Z.pow_succ_r by lia. f_equal. lia. }
  destruct (bucket_loop_spec 64 hi (m + u) 1) as (b' & -> & Hb & Hlt); [lia|lia|simpl; lia|].
  cbn [mbind option_bind]. assert (2 ^ m / 2 = 2 ^ (m - 1)) as -> by (rewrite Ps, Z.mul_comm; apply Z.div_mul; lia).
  assert (0 < 2 ^ (m - 1)) by (apply Z.pow_pos_nonneg; lia).
  eexists _, u, m. split; [done|]. split.
  { split; simpl; [by split; try lia|lia|..].
    - rewrite length_replicate. nia.
    - split; [lia|]. by replace (m + u + b' - 1) with (m + u + (b' - 1)) by lia.
    - lia.
    - lia. }
  repeat split; try done. simpl. by rewrite length_replicate.
Qed.

Section Ok.
Context (h : HdrHistogram) (u m : Z) (OK : hdr_ok h u m).
Let SH := ho_shape _ _ _ OK.

(** The index of a recordable value is an index of the vector of counts. *)
Lemma index_in_range v : 0 <= v <= highest_ h ->
  0 <= counts_index_for h v < Z.of_nat (length (counts_ h)).
Proof.
  intros Hv. split; [apply (range_spec h u m SH v ltac:(lia))|]. rewrite (ho_length _ _ _ OK).
  pose proof (position_of h u m SH v ltac:(lia)) as P. pose proof (bucket_index_eq h u m SH v ltac:(lia)) as Eb.
  set (b := bucket_index h v) in *. rewrite (index_of_position h u m SH v b _ eq_refl eq_refl).
  destruct P as [Hb Hs _ _]. rewrite (pow_split h u m SH) in Hs. 
  pose proof (sh_u _ _ _ SH) as Hu. pose proof (sh_m _ _ _ SH) as Hm.
  pose proof (ho_highest _ _ _ OK) as Hh. pose proof (ho_buckets _ _ _ OK) as Hbc.
  assert (b <= bucket_count_ h - 1).
  { destruct (decide (v = 0)) as [->|]; [simpl in Eb; lia|].
    assert (Z.log2 v < m + u + bucket_count_ h - 1) by (apply Z.log2_lt_pow2; lia). lia. }
  assert (0 < 2 ^ (m - 1)) by (apply Z.pow_pos_nonneg; lia). nia.
Qed.

Lemma lowest_same_index v : 0 <= v ->
  0 <= lowest_equivalent_value h v /\
  counts_index_for h (lowest_equivalent_value h v) = counts_index_for h v.
Proof.
  intros Hv. pose proof (position_of h u m SH v Hv) as P. pose proof (sh_u _ _ _ SH). pose proof (sh_m _ _ _ SH).
  set (b := bucket_index h v) in *. set (s := sub_bucket_index h v b) in *.
  pose proof (lowest_of_position h u m SH v b s eq_refl eq_refl P) as El.
  assert (0 < 2 ^ (b + u)) as Hp by (apply Z.pow_pos_nonneg; destruct P; lia).
  assert (0 <= lowest_equivalent_value h v) as Hl by (rewrite El; destruct P; nia).
  split; [done|]. set (w := lowest_equivalent_value h v) in *.
  assert (bucket_index h w = b) as Eb.
  { assert (w <= v) by apply (range_spec h u m SH v Hv).
    pose proof (bucket_index_eq h u m SH w Hl) as Bw. pose proof (bucket_index_eq h u m SH v Hv) as Bv.
    fold b in Bv. pose proof (Z.log2_le_mono w v). destruct P as [Hb Hs [?|Hup] _]; [lia|].
    assert (0 < 2 ^ (m - 1)) by (apply Z.pow_pos_nonneg; lia).
    assert (m - 1 <= Z.log2 s) by (apply Z.log2_le_pow2; lia).
    assert (Z.log2 w = b + u + Z.log2 s) by (rewrite El; apply Z.log2_mul_pow2; lia). lia. }
  rewrite (index_of_position h u m SH w b s Eb), (index_of_position h u m SH v b s eq_refl eq_refl); [done|].
  unfold sub_bucket_index. rewrite (sh_unit _ _ _ SH), Z.shiftr_div_pow2 by (destruct P; lia).
  rewrite El. by apply Z.div_mul; lia.
Qed.

Lemma highest_from_index v : 0 <= v ->
  highest_equivalent_value h (value_from_index h (counts_index_for h v)) = highest_equivalent_value h v.
Proof.
  intros Hv. destruct (range_spec h u m SH v Hv) as (_ & -> & _).
  destruct (lowest_same_index v Hv). by apply (range_inj h u m SH).
Qed.

(** The width of a range is bounded by the value and the significant figures. *)
Lemma range_width v : 0 <= v ->
  highest_equivalent_value h v - lowest_equivalent_value h v < 2 ^ u \/
  (highest_equivalent_value h v - lowest_equivalent_value h v) * 10 ^ significant_figures_ h <= v.
Proof.
  intros Hv. pose proof (position_of h u m SH v Hv) as P. pose proof (sh_u _ _ _ SH).
  set (b := bucket_index h v) in *. set (s := sub_bucket_index h v b) in *.
  unfold highest_equivalent_value, next_non_equivalent_value.
  rewrite (size_of_position h u m SH v b s eq_refl eq_refl P).
  set (L := lowest_equivalent_value h v). replace (L + 2 ^ (b + u) - 1 - L) with (2 ^ (b + u) - 1) by lia.
  clear L.
  destruct P as [Hb Hs [E0|Hup] Ed]; [left; rewrite E0, Z.add_0_l; lia|right].
  assert (0 < 2 ^ (b + u)) by (apply Z.pow_pos_nonneg; lia).
  assert (s * 2 ^ (b + u) <= v) by (rewrite Ed, Z.mul_comm; apply Z.mul_div_le; lia).
  assert (0 < 10 ^ significant_figures_ h) by (apply Z.pow_pos_nonneg; [lia|apply OK]).
  pose proof (ho_precision _ _ _ OK). nia.
Qed.
End Ok.

(** ** What a histogram stands for *)

Fixpoint countb {A} (f : A -> bool) (l : list A) : Z :=
  match l with [] => 0 | x :: l => (if f x then 1 else 0) + countb f l end.

Lemma countb_bounds {A} (f : A -> bool) l : 0 <= countb f l <= Z.of_nat (length l).
Proof. induction l; simpl; [done|]. destruct (f _); lia. Qed.
Lemma countb_app {A} (f : A -> bool) l1 l2 : countb f (l1 ++ l2) = countb f l1 + countb f l2.
Proof. induction l1; simpl; [done|]. lia. Qed.
Lemma countb_all {A} (f : A -> bool) l : Forall (fun x => f x = true) l -> countb f l = Z.of_nat (length l).
Proof. induction 1 as [|x l Hx _ IH]; [done|]. cbn [countb length]. rewrite Hx. lia. Qed.
Lemma countb_none {A} (f : A -> bool) l : Forall (fun x => f x = false) l -> countb f l = 0.
Proof. induction 1 as [|x l Hx _ IH]; [done|]. cbn [countb]. rewrite Hx. lia. Qed.
Lemma countb_perm {A} (f : A -> bool) l1 l2 : l1 ≡ₚ l2 -> countb f l1 = countb f l2.
Proof. induction 1; simpl; lia. Qed.
Lemma countb_split {A} (f g k : A -> bool) l :
  (forall x, (if f x then 1 else 0) = (if g x then 1 else 0) + (if k x then 1 else 0)) ->
  countb f l = countb g l + countb k l.
Proof. intros H. induction l as [|x l IH]; simpl; [done|]. rewrite H. lia. Qed.

Definition at_index (h : HdrHistogram) (i : Z) (v : Z) : bool := counts_index_for h v =? i.
Definition below_index (h : HdrHistogram) (i : Z) (v : Z) : bool := counts_index_for h v <? i.

(** [h] holds the values [ys], already clamped to the trackable range. *)
Record holds (h : HdrHistogram) (ys : list Z) : Prop := {
  hl_range : Forall (fun v => 0 <= v <= highest_ h) ys;
  hl_counts : forall i c, counts_ h !! i = Some c -> c = countb (at_index h (Z.of_nat i)) ys;
  hl_total : total_count_ h = Z.of_nat (length ys);
  hl_min : ys <> [] -> min_ h ∈ ys /\ Forall (fun v => min_ h <= v) ys;
  hl_max : ys <> [] -> max_ h ∈ ys /\ Forall (fun v => v <= max_ h) ys }.

(** The values that reach the counts. *)
Definition clamp_values (highest : Z) (vs : list Z) : list Z :=
  map (fun v => Z.min v highest) (List.filter (fun v => 0 <=? v) vs).

Lemma with_counts_ok h u m l t o n mn mx : length l = length (counts_ h) -> hdr_ok h u m ->
  hdr_ok (with_counts l t o n mn mx h) u m.
Proof. intros L [[] ? ? ? ? ?]. split; simpl; try done. by rewrite L. Qed.

(** The cases of a minimum and a maximum updated by one value. *)
Lemma extreme_min ys v mn t : t = Z.of_nat (length ys) + 1 ->
  (ys <> [] -> mn ∈ ys /\ Forall (fun x => mn <= x) ys) ->
  let mn' := if (v <? mn) || (t =? 1) then v else mn in
  mn' ∈ ys ++ [v] /\ Forall (fun x => mn' <= x) (ys ++ [v]).
Proof.
  intros -> H. destruct ys as [|y ys].
  { simpl. rewrite orb_true_r. split; [left|by repeat constructor]. }
  destruct H as [Hin Hall]; [done|]. simpl length. destruct (Z.eqb_spec (Z.of_nat (S (length ys)) + 1) 1); [lia|].
  rewrite orb_false_r. destruct (Z.ltb_spec v mn).
  - split; [apply elem_of_app; right; left|]. apply Forall_app. split; [|by repeat constructor].
    eapply Forall_impl; [done|]. simpl. lia.
  - split; [apply elem_of_app; by left|]. apply Forall_app. split; [done|]. by repeat constructor.
Qed.
Lemma extreme_max ys v mx t : t = Z.of_nat (length ys) + 1 ->
  (ys <> [] -> mx ∈ ys /\ Forall (fun x => x <= mx) ys) ->
  let mx' := if (mx <? v) || (t =? 1) then v else mx in
  mx' ∈ ys ++ [v] /\ Forall (fun x => x <= mx') (ys ++ [v]).
Proof.
  intros -> H. destruct ys as [|y ys].
  { simpl. rewrite orb_true_r. split; [left|by repeat constructor]. }
  destruct H as [Hin Hall]; [done|]. simpl length. destruct (Z.eqb_spec (Z.of_nat (S (length ys)) + 1) 1); [lia|].
  rewrite orb_false_r. destruct (Z.ltb_spec mx v).
  - split; [apply elem_of_app; right; left|]. apply Forall_app. split; [|by repeat constructor].
    eapply Forall_impl; [done|]. simpl. lia.
  - split; [apply elem_of_app; by left|]. apply Forall_app. split; [done|]. by repeat constructor.
Qed.

Lemma record_holds h u m ys v : hdr_ok h u m -> holds h ys ->
  exists h', record v h = Some h' /\ hdr_ok h' u m /\
    holds h' (ys ++ clamp_values (highest_ h) [v]) /\ highest_ h' = highest_ h /\
    length (counts_ h') = length (counts_ h) /\
    negative_count_ h' = negative_count_ h + (if v <? 0 then 1 else 0) /\
    overflow_count_ h' = overflow_count_ h + (if highest_ h <? v then 1 else 0).
Proof.
  intros OK [Hr Hc Ht Hmn Hmx]. unfold record, clamp_values. pose proof (ho_highest _ _ _ OK) as Hh.
  destruct (Z.ltb_spec v 0) as [Hneg|Hv].
  { eexists. split; [done|]. split; [by apply with_counts_ok|]. simpl.
    destruct (Z.leb_spec 0 v); [lia|]. simpl. rewrite app_nil_r.
    split; [by split|]. repeat split; try done. destruct (Z.ltb_spec (highest_ h) v); lia. }
  set (w := if highest_ h <? v then highest_ h else v).
  assert (w = Z.min v (highest_ h)) as Ew by (unfold w; destruct (Z.ltb_spec (highest_ h) v); lia).
  assert (0 <= w <= highest_ h) as Hw by lia.
  pose proof (index_in_range h u m OK w Hw) as Hi. set (i := counts_index_for h w) in *.
  destruct (lookup_lt_is_Some_2 (counts_ h) (Z.to_nat i)) as [c Ec]; [lia|].
  rewrite Ec. cbn [mbind option_bind]. eexists. split; [done|].
  split; [apply with_counts_ok; [by rewrite length_insert|done]|]. simpl.
  destruct (Z.leb_spec 0 v); [|lia]. simpl. rewrite <- Ew. split.
  { split; simpl.
    - apply Forall_app. split; [done|]. by repeat constructor; simpl; lia.
    - intros j c'. rewrite list_lookup_insert_Some, countb_app. simpl. unfold at_index at 2. simpl.
      change (counts_index_for (with_counts _ _ _ _ _ _ h) w) with i.
      intros [(<- & <- & _)|[Hne E]].
      + rewrite Z2Nat.id by lia. rewrite Z.eqb_refl. apply Hc in Ec. rewrite Z2Nat.id in Ec by lia.
        change (countb (at_index (with_counts _ _ _ _ _ _ h) i) ys) with (countb (at_index h i) ys). lia.
      + destruct (Z.eqb_spec i (Z.of_nat j)); [lia|]. apply Hc in E.
        change (countb (at_index (with_counts _ _ _ _ _ _ h) (Z.of_nat j)) ys)
          with (countb (at_index h (Z.of_nat j)) ys). lia.
    - rewrite length_app. simpl. lia.
    - intros _. apply extreme_min; [lia|done].
    - intros _. apply extreme_max; [lia|done]. }
  repeat split; [by rewrite length_insert|lia|]. destruct (_ <? _); lia.
Qed.

Lemma record_all_holds h u m ys vs : hdr_ok h u m -> holds h ys ->
  exists h', record_all vs h = Some h' /\ hdr_ok h' u m /\
    holds h' (ys ++ clamp_values (highest_ h) vs) /\ highest_ h' = highest_ h /\
    length (counts_ h') = length (counts_ h) /\
    negative_count_ h' = negative_count_ h + countb (fun v => v <? 0) vs /\
    overflow_count_ h' = overflow_count_ h + countb (fun v => highest_ h <? v) vs.
Proof.
  revert h ys. induction vs as [|v vs IH]; intros h ys OK H; simpl.
  { exists h. rewrite app_nil_r, !Z.add_0_r. done. }
  destruct (record_holds h u m ys v OK H) as (h1 & -> & OK1 & H1 & Eh & El & En & Eo).
  destruct (IH h1 _ OK1 H1) as (h2 & E2 & OK2 & H2 & Eh2 & El2 & En2 & Eo2). simpl.
  exists h2. split; [done|]. split; [done|]. rewrite Eh in *. split.
  { unfold clamp_values in *. simpl in *. by destruct (0 <=? v); rewrite <- app_assoc in H2. }
  repeat split; try congruence; lia.
Qed.

Lemma record_all_app vs v h0 : record_all (vs ++ [v]) h0 = record_all vs h0 ≫= record v.
Proof.
  revert h0. induction vs as [|x vs IH]; intros h0; simpl.
  - by destruct (record v h0).
  - destruct (record x h0); simpl; [apply IH|done].
Qed.

Lemma new_histogram_holds lowest highest figures : lowest < 2 ^ 32 -> highest < 2 ^ 62 ->
  exists h u m, new_histogram lowest highest figures = Some h /\ hdr_ok h u m /\ holds h [] /\
    u = Z.log2 (Z.max lowest 1) /\ negative_count_ h = 0 /\ overflow_count_ h = 0 /\
    highest_ h = Z.max highest (Z.max lowest 1 * 2) /\ significant_figures_ h = Z.min (Z.max figures 1) 5.
Proof.
  intros Hl Hh. destruct (new_histogram_ok lowest highest figures Hl Hh)
    as (h & u & m & E & OK & Eu & Et & En & Eo & Ec & Ehi & Ef).
  exists h, u, m. repeat split; try done; try apply OK. intros i c Hi. rewrite Ec in Hi.
  by apply lookup_replicate in Hi as [-> _].
Qed.

(** Recording is total and loses nothing: whatever values are recorded, no
    access leaves the vector of counts; every value is counted once, as negative
    or in the total; those above the trackable range are also counted as overflow
    and kept at its top; minimum and maximum are exact. *)
Theorem hdr_record_total lowest highest figures vs : lowest < 2 ^ 32 -> highest < 2 ^ 62 ->
  exists h0 h, new_histogram lowest highest figures = Some h0 /\ record_all vs h0 = Some h /\
    total_count_ h + negative_count_ h = Z.of_nat (length vs) /\
    negative_count_ h = countb (fun v => v <? 0) vs /\
    overflow_count_ h = countb (fun v => highest_ h0 <? v) vs /\
    (total_count_ h <> 0 -> let ys := clamp_values (highest_ h0) vs in
       hdr_min h ∈ ys /\ hdr_max h ∈ ys /\ Forall (fun y => hdr_min h <= y <= hdr_max h) ys).
Proof.
  intros Hl Hh. destruct (new_histogram_holds lowest highest figures Hl Hh)
    as (h0 & u & m & E & OK & H0 & _ & En & Eo & _).
  destruct (record_all_holds h0 u m [] vs OK H0) as (h & Er & _ & H & Ehi & _ & En' & Eo').
  exists h0, h. split; [done|]. split; [done|]. rewrite En in En'. rewrite Eo in Eo'. simpl in H.
  split.
  { rewrite (hl_total _ _ H), En'. unfold clamp_values. rewrite length_map. clear.
    induction vs as [|v vs IH]; simpl; [done|]. destruct (Z.leb_spec 0 v), (Z.ltb_spec v 0); simpl; lia. }
  split; [lia|]. split; [lia|]. intros Ht ys. subst ys. set (ys := clamp_values _ vs) in *.
  assert (ys <> []) as Hne by (intros Hn; rewrite (hl_total _ _ H), Hn in Ht; done).
  destruct (hl_min _ _ H Hne) as [M1 M2], (hl_max _ _ H Hne) as [X1 X2].
  unfold hdr_min, hdr_max. destruct (Z.eqb_spec (total_count_ h) 0); [done|].
  split; [done|]. split; [done|]. rewrite Forall_forall in *. auto.
Qed.

(** C31: Bounded relative error: every trackable value lies in the range of its
    bucket, the index of a bucket determines the range, and the range is narrower
    than the unit or than [value / 10^figures]. *)
Theorem hdr_relative_error lowest highest figures h v : lowest < 2 ^ 32 -> highest < 2 ^ 62 ->
  new_histogram lowest highest figures = Some h -> 0 <= v <= highest_ h ->
  0 <= counts_index_for h v < Z.of_nat (length (counts_ h)) /\
  value_from_index h (counts_index_for h v) = lowest_equivalent_value h v /\
  lowest_equivalent_value h v <= v <= highest_equivalent_value h v /\
  (highest_equivalent_value h v - lowest_equivalent_value h v < Z.max lowest 1 \/
   (highest_equivalent_value h v - lowest_equivalent_value h v) * 10 ^ significant_figures_ h <= v).
Proof.
  intros Hl Hh E Hv. destruct (new_histogram_holds lowest highest figures Hl Hh)
    as (h' & u & m & E' & OK & _ & Eu & _). assert (h' = h) as -> by congruence.
  pose proof (ho_shape _ _ _ OK) as SH.
  destruct (range_spec h u m SH v ltac:(lia)) as (R1 & R2 & _).
  split; [by apply (index_in_range h u m OK)|]. split; [done|]. split; [done|].
  destruct (range_width h u m OK v ltac:(lia)) as [W|W]; [left|by right].
  pose proof (Z.log2_spec (Z.max lowest 1) ltac:(lia)). rewrite Eu in W. lia.
Qed.

(** ** Percentiles *)

Definition sumZ (l : list Z) : Z := foldr Z.add 0 l.

Lemma rank_loop_spec counts i running target j : Forall (fun c => 0 <= c) counts ->
  (j < length counts)%nat -> running + sumZ (take j counts) < target ->
  target <= running + sumZ (take (S j) counts) ->
  rank_loop counts i running target = Some (i + Z.of_nat j).
Proof.
  revert i running j. induction counts as [|c counts IH]; intros i running j F Hj H1 H2; [simpl in Hj; lia|].
  apply Forall_cons in F as [Hc F]. simpl. destruct j as [|j].
  - simpl in H2. destruct (Z.leb_spec target (running + c)); [f_equal; lia|lia].
  - cbn [take sumZ foldr] in H1, H2. fold (sumZ (take j counts)) in H1. fold (sumZ (take (S j) counts)) in H2.
    assert (0 <= sumZ (take j counts)).
    { clear -F. revert j. induction F; intros [|j]; simpl; try done. specialize (IHF j). unfold sumZ in *. lia. }
    destruct (Z.leb_spec target (running + c)); [lia|].
    rewrite (IH _ _ j); [f_equal; lia|done|simpl in Hj; lia|lia|lia].
Qed.

Lemma prefix_sum h ys j : holds h ys -> (j <= length (counts_ h))%nat ->
  (forall v, v ∈ ys -> 0 <= counts_index_for h v) ->
  sumZ (take j (counts_ h)) = countb (below_index h (Z.of_nat j)) ys.
Proof.
  intros H Hj Hpos. induction j as [|j IH].
  { symmetry. apply countb_none. apply Forall_forall. intros v Hv. unfold below_index.
    specialize (Hpos v Hv). apply Z.ltb_ge. lia. }
  destruct (lookup_lt_is_Some_2 (counts_ h) j) as [c Ec]; [lia|].
  rewrite (take_S_r _ _ c Ec). unfold sumZ in *. rewrite foldr_app. simpl.
  rewrite Z.add_0_r. pose proof (hl_counts _ _ H j c Ec) as Hc.
  assert (forall l (z : Z), foldr Z.add z l = foldr Z.add 0 l + z) as Fz.
  { clear. induction l; intros z; simpl; [lia|]. rewrite IHl. lia. }
  rewrite Fz, IH by lia. rewrite Hc, <- (countb_split (below_index h (Z.of_nat (S j)))); [done|].
  intros v. unfold below_index, at_index.
  destruct (Z.ltb_spec (counts_index_for h v) (Z.of_nat (S j))), (Z.ltb_spec (counts_index_for h v) (Z.of_nat j)),
    (Z.eqb_spec (counts_index_for h v) (Z.of_nat j)); lia.
Qed.

Lemma value_at_rank_spec h u m ys l k v : hdr_ok h u m -> holds h ys -> l ≡ₚ ys ->
  StronglySorted Z.le l -> l !! k = Some v ->
  value_at_rank (Z.of_nat k + 1) h = highest_equivalent_value h v.
Proof.
  intros OK H P SS E. pose proof (ho_shape _ _ _ OK) as SH.
  pose proof (hl_range _ _ H) as Hr. rewrite Forall_forall in Hr.
  assert (forall x, x ∈ l -> 0 <= x <= highest_ h) as Hl by (intros x Hx; apply Hr; by rewrite <- P).
  apply take_drop_middle in E as El. set (l1 := take k l) in *. set (l2 := drop (S k) l) in *.
  assert (length l1 = k) as Lk by (apply length_take_le; apply lookup_lt_Some in E; lia).
  rewrite <- El in SS. apply StronglySorted_app in SS as (S1 & _ & S2). apply StronglySorted_inv in S2 as [_ Hle2].
  assert (0 <= v <= highest_ h) as Hv by (apply Hl; by eapply list_elem_of_lookup_2).
  pose proof (index_in_range h u m OK v Hv) as Hi. set (i := counts_index_for h v) in *.
  assert (forall f, countb f ys = countb f l1 + ((if f v then 1 else 0) + countb f l2)) as Split.
  { intros f. rewrite <- (countb_perm f l ys P), <- El, countb_app. done. }
  assert (forall j, (j <= length (counts_ h))%nat ->
    sumZ (take j (counts_ h)) = countb (below_index h (Z.of_nat j)) ys) as Pre.
  { intros j Hj. apply prefix_sum; [done|done|]. intros x Hx. apply (range_spec h u m SH). by apply Hr. }
  unfold value_at_rank. rewrite (rank_loop_spec _ _ _ _ (Z.to_nat i)).
  - rewrite Z.add_0_l, Z2Nat.id by lia. apply (highest_from_index h u m OK). lia.
  - apply Forall_lookup. intros j c Hc. rewrite (hl_counts _ _ H _ _ Hc). apply countb_bounds.
  - lia.
  - rewrite Pre, Split, Z2Nat.id by lia. unfold below_index at 2. fold i. rewrite Z.ltb_irrefl.
    rewrite (countb_none _ l2).
    + pose proof (countb_bounds (below_index h i) l1). lia.
    + rewrite Forall_forall in *. intros x Hx. unfold below_index.
      pose proof (index_mono h u m SH v x). specialize (Hle2 x Hx).
      destruct (Z.ltb_spec (counts_index_for h x) i); [lia|done].
  - rewrite Pre, Split by lia. rewrite (countb_all _ l1).
    + unfold below_index at 1. fold i. destruct (Z.ltb_spec i (Z.of_nat (S (Z.to_nat i)))); [|lia].
      pose proof (countb_bounds (below_index h (Z.of_nat (S (Z.to_nat i)))) l2). lia.
    + apply Forall_forall. intros x Hx. unfold below_index.
      assert (x <= v) by (apply S1; [done|left]). pose proof (index_mono h u m SH x v).
      assert (0 <= x) by (apply Hl; rewrite <- El; apply elem_of_app; by left). fold i in H1.
      destruct (Z.ltb_spec (counts_index_for h x) (Z.of_nat (S (Z.to_nat i)))); [done|lia].
Qed.

Lemma percentile_of_holds h u m ys p l : hdr_ok h u m -> holds h ys -> l ≡ₚ ys -> StronglySorted Z.le l -> l <> [] ->
  exists v, l !! Z.to_nat (target_rank p (Z.of_nat (length l)) - 1) = Some v /\
    value_at_percentile p h = highest_equivalent_value h v.
Proof.
  intros OK H P SS Hne. assert (total_count_ h = Z.of_nat (length l)) as Et by (by rewrite (hl_total _ _ H), P).
  assert (0 < length l)%nat by (destruct l; simpl; [done|lia]).
  set (k := Z.to_nat (target_rank p (Z.of_nat (length l)) - 1)).
  assert (1 <= target_rank p (Z.of_nat (length l)) <= Z.of_nat (length l)) as Hk
    by (unfold target_rank; lia).
  destruct (lookup_lt_is_Some_2 l k) as [v Ev]; [lia|]. exists v. split; [done|].
  unfold value_at_percentile. rewrite Et. destruct (Z.eqb_spec (Z.of_nat (length l)) 0); [lia|].
  replace (target_rank p (Z.of_nat (length l))) with (Z.of_nat k + 1) by lia.
  by eapply (value_at_rank_spec h u m).
Qed.


(** ** Merging *)

Lemma add_extreme (f : Z -> Z -> Z) (le : Z -> Z -> Prop) (a b : Z) xs ys :
  (forall x y, f x y = x \/ f x y = y) -> (forall x y, le (f x y) x /\ le (f x y) y) ->
  (forall x y z, le x y -> le y z -> le x z) ->
  (xs <> [] -> a ∈ xs /\ Forall (le a) xs) -> (ys <> [] -> b ∈ ys /\ Forall (le b) ys) ->
  xs ++ ys <> [] ->
  let r := match ys with [] => a | _ => match xs with [] => b | _ => f a b end end in
  r ∈ xs ++ ys /\ Forall (le r) (xs ++ ys).
Proof.
  intros Hf Hle Ht Ha Hb Hne. destruct ys as [|y ys].
  { rewrite app_nil_r in *. by apply Ha. }
  destruct Hb as [Hb1 Hb2]; [done|]. destruct xs as [|x xs]; [done|].
  destruct Ha as [Ha1 Ha2]; [done|]. cbn zeta. split.
  - destruct (Hf a b) as [-> | ->]; apply elem_of_app; [by left|by right].
  - apply Forall_app. split; (eapply Forall_impl; [done|]); intros z Hz; (eapply Ht; [|done]); apply Hle.
Qed.

Lemma add_holds h1 h2 u m xs ys : hdr_ok h1 u m -> hdr_ok h2 u m -> holds h1 xs -> holds h2 ys ->
  length (counts_ h1) = length (counts_ h2) -> highest_ h1 = highest_ h2 ->
  exists h, add h1 h2 = (true, h) /\ hdr_ok h u m /\ holds h (xs ++ ys) /\
    negative_count_ h = negative_count_ h1 + negative_count_ h2 /\
    overflow_count_ h = overflow_count_ h1 + overflow_count_ h2.
Proof.
  intros O1 O2 H1 H2 L Eh. unfold add.
  destruct (ho_shape _ _ _ O1) as [_ _ U1 M1 C1 F1 K1], (ho_shape _ _ _ O2) as [_ _ U2 M2 C2 F2 K2].
  rewrite L, Nat.eqb_refl, U1, U2, Z.eqb_refl, C1, C2, Z.eqb_refl. simpl negb. cbn [orb].
  set (mm := if 0 <? total_count_ h2 then _ else _).
  assert (mm = (match ys with [] => min_ h1 | _ => match xs with [] => min_ h2 | _ => Z.min (min_ h1) (min_ h2) end end,
                match ys with [] => max_ h1 | _ => match xs with [] => max_ h2 | _ => Z.max (max_ h1) (max_ h2) end end)) as ->.
  { unfold mm. rewrite (hl_total _ _ H1), (hl_total _ _ H2). by destruct ys, xs. }
  eexists. split; [done|]. split.
  { apply with_counts_ok; [|done]. rewrite length_zip_with. lia. }
  split; [|done]. destruct H1 as [R1 N1 T1 Mn1 Mx1], H2 as [R2 N2 T2 Mn2 Mx2]. split; simpl.
  - apply Forall_app. split; [done|]. by rewrite Eh.
  - intros i c Hi. apply lookup_zip_with_Some in Hi as (c1 & c2 & -> & Hc1 & Hc2).
    rewrite countb_app, (N1 _ _ Hc1), (N2 _ _ Hc2). f_equal.
    assert (forall v, counts_index_for h2 v = counts_index_for h1 v) as Ei.
    { intros v. unfold counts_index_for, bucket_index, sub_bucket_index.
      by rewrite U1, U2, M1, M2, F1, F2, K1, K2. }
    clear -Ei. induction ys as [|y ys IH]; simpl; [done|]. rewrite IH. unfold at_index. by rewrite Ei.
  - rewrite length_app. lia.
  - intros Hne. apply (add_extreme Z.min Z.le); try done; intros; lia.
  - intros Hne. apply (add_extreme Z.max (fun a b => b <= a)); try done; intros; lia.
Qed.

Lemma holds_counts h h' u m ys ys' : hdr_ok h u m -> hdr_ok h' u m -> ys ≡ₚ ys' -> holds h ys -> holds h' ys' ->
  length (counts_ h) = length (counts_ h') -> counts_ h = counts_ h'.
Proof.
  intros O O' P [_ N _ _ _] [_ N' _ _ _] L. apply list_eq_same_length with (length (counts_ h)); [done..|].
  intros i c c' _ Hc Hc'. rewrite (N _ _ Hc), (N' _ _ Hc'), (countb_perm _ _ _ P).
  assert (forall v, counts_index_for h' v = counts_index_for h v) as Ei.
  { intros v. unfold counts_index_for, bucket_index, sub_bucket_index.
    destruct (ho_shape _ _ _ O) as [_ _ U1 M1 _ F1 K1], (ho_shape _ _ _ O') as [_ _ U2 M2 _ F2 K2].
    by rewrite U1, U2, M1, M2, F1, F2, K1, K2. }
  clear -Ei. induction ys' as [|y ys' IH]; simpl; [done|]. rewrite IH. unfold at_index. by rewrite Ei.
Qed.

(** Histograms of one shape that hold the same values answer alike. *)
Lemma holds_same h h' u m ys : hdr_ok h u m -> hdr_ok h' u m -> holds h ys -> holds h' ys ->
  length (counts_ h) = length (counts_ h') ->
  counts_ h = counts_ h' /\ total_count_ h = total_count_ h' /\ hdr_min h = hdr_min h' /\ hdr_max h = hdr_max h'.
Proof.
  intros O O' H H' L.
  assert (total_count_ h = total_count_ h') as Et by (by rewrite (hl_total _ _ H), (hl_total _ _ H')).
  split; [exact (holds_counts h h' u m ys ys O O' (Permutation_refl ys) H H' L)|]. split; [done|].
  unfold hdr_min, hdr_max. rewrite Et, (hl_total _ _ H').
  destruct (Z.eqb_spec (Z.of_nat (length ys)) 0) as [|Hn]; [done|].
  assert (ys <> []) as Hne by (by intros ->).
  destruct (hl_min _ _ H Hne) as [A1 A2], (hl_min _ _ H' Hne) as [B1 B2].
  destruct (hl_max _ _ H Hne) as [C1 C2], (hl_max _ _ H' Hne) as [D1 D2].
  rewrite Forall_forall in A2, B2, C2, D2. split; apply Z.le_antisymm; auto.
Qed.

Lemma clamp_app highest xs ys : clamp_values highest (xs ++ ys) = clamp_values highest xs ++ clamp_values highest ys.
Proof. unfold clamp_values. by rewrite <- map_app, <- List.filter_app. Qed.

Lemma add_shape h1 h2 h : add h1 h2 = (true, h) ->
  length (counts_ h) = length (counts_ h1) /\ highest_ h = highest_ h1.
Proof.
  unfold add. case_match eqn:E; [done|]. case_match. intros [= <-]. simpl. rewrite length_zip_with.
  apply orb_false_iff in E as [E _]. apply orb_false_iff in E as [E _].
  apply negb_false_iff, Nat.eqb_eq in E. split; [lia|done].
Qed.

(** Merging the histograms of two workers gives the histogram of all their
    samples together: the same counts, totals and extremes as one histogram that
    recorded both series, so percentiles of the merge are those of the whole. *)
Theorem hdr_add_is_concat lowest highest figures xs ys : lowest < 2 ^ 32 -> highest < 2 ^ 62 ->
  exists h0 h1 h2 h12 h, new_histogram lowest highest figures = Some h0 /\
    record_all xs h0 = Some h1 /\ record_all ys h0 = Some h2 /\ record_all (xs ++ ys) h0 = Some h12 /\
    add h1 h2 = (true, h) /\ counts_ h = counts_ h12 /\ total_count_ h = total_count_ h12 /\
    negative_count_ h = negative_count_ h12 /\ overflow_count_ h = overflow_count_ h12 /\
    hdr_min h = hdr_min h12 /\ hdr_max h = hdr_max h12.
Proof.
  intros Hl Hh. destruct (new_histogram_holds lowest highest figures Hl Hh)
    as (h0 & u & m & E & OK & H0 & _ & En & Eo & _).
  destruct (record_all_holds h0 u m [] xs OK H0) as (h1 & E1 & O1 & H1 & G1 & L1 & N1 & V1).
  destruct (record_all_holds h0 u m [] ys OK H0) as (h2 & E2 & O2 & H2 & G2 & L2 & N2 & V2).
  destruct (record_all_holds h0 u m [] (xs ++ ys) OK H0) as (h12 & E12 & O12 & H12 & G12 & L12 & N12 & V12).
  destruct (add_holds h1 h2 u m _ _ O1 O2 H1 H2) as (h & Ea & Oh & Hd & Nh & Vh); [congruence..|].
  exists h0, h1, h2, h12, h. do 5 (split; [done|]). rewrite countb_app in N12, V12.
  rewrite clamp_app in H12. destruct (add_shape _ _ _ Ea) as [L _].
  destruct (holds_same h h12 u m _ Oh O12 Hd H12) as (-> & -> & -> & ->); [congruence|].
  repeat split; lia.
Qed.

(** ** Samples *)

Definition sample_values : list Z := [5; 123456; -4; 2000; 99999999; 5000].
Definition sample_hist : HdrHistogram :=
  match new_histogram 1 10000 1 with
  | Some h => h | None => mkHdr 0 0 0 0 0 0 0 0 0 0 [] 0 0 0 0 0 end.

Lemma hdr_record_total_witness : exists h0 h, new_histogram 1 10000 1 = Some h0 /\
  record_all sample_values h0 = Some h /\ negative_count_ h = 1 /\ overflow_count_ h = 2.
Proof.
  destruct (hdr_record_total 1 10000 1 sample_values) as (h0 & h & E & Er & _ & En & Eo & _); [lia..|].
  exists h0, h. split; [done|]. split; [done|]. split; [done|]. rewrite Eo.
  vm_compute in E. by injection E as <-.
Defined.

Lemma hdr_relative_error_witness :
  new_histogram 1 10000 1 = Some sample_hist /\
  lowest_equivalent_value sample_hist 4567 <= 4567 <= highest_equivalent_value sample_hist 4567.
Proof.
  assert (new_histogram 1 10000 1 = Some sample_hist) as E by (by vm_compute). split; [exact E|].
  destruct (hdr_relative_error 1 10000 1 sample_hist 4567) as (_ & _ & H & _);
    [lia|lia|exact E|by vm_compute|]. exact H.
Defined.


Lemma hdr_add_is_concat_witness : exists h0 h1 h2 h, new_histogram 1 10000 1 = Some h0 /\
  record_all [5; -1; 700] h0 = Some h1 /\ record_all sample_values h0 = Some h2 /\ add h1 h2 = (true, h).
Proof.
  destruct (hdr_add_is_concat 1 10000 1 [5; -1; 700] sample_values)
    as (h0 & h1 & h2 & h12 & h & E & E1 & E2 & _ & Ea & _); [lia..|].
  by exists h0, h1, h2, h.
Defined.

(** The bucket count is one short when the trackable range reaches [2^62]: the
    loop stops before the bucket that holds the highest value, and recording that
    value writes past the end of the counts. *)
Theorem hdr_top_bucket_missing : exists h,
  new_histogram 1 (2 ^ 62) 1 = Some h /\ highest_ h = 2 ^ 62 /\ record (2 ^ 62) h = None.
Proof. eexists. split; [by vm_compute|]. by vm_compute. Qed.
