(* ===== verification/HdrText.v ===== *)
(** * HdrText: the standard deviation and the text output of a histogram

    The rest of include/policy/hdr_histogram.hpp: [stddev], [summary_line] and
    [percentile_csv].  A number is printed with a fixed count of decimals as [%.nf] does,
    from the exact value.  The binary logarithm of the C library is an argument: it only
    decides which rows of the distribution are printed, and what is proved of the rows
    holds whatever it returns. *)

From S2P Require Import Prelude Text Double Hdr.
From Stdlib Require Import ZArith Lia Bool Ascii String.
From stdpp Require Import base list numbers strings sorting.
Local Open Scope Z_scope.

(** ** Doubles *)

Definition dneg (x : double) : double :=
  match x with DFin m e => DFin (- m) e | DInf s => DInf (negb s) | DNaN => DNaN end.
Definition dsub (x y : double) : double := dadd x (dneg y).
Definition dfloor (x : double) : Z :=
  match x with DFin m e => m * 2 ^ Z.max e 0 / 2 ^ Z.max (- e) 0 | _ => 0 end.
(** [std::max(x, y)] *)
Definition dmax (x y : double) : double := if dltb x y then y else x.

(** [std::sqrt], rounded correctly: the root of the number scaled by an even power of
    two, with more than 53 bits, and half a unit when it is not exact. *)
Definition dsqrt (x : double) : double :=
  match x with
  | DFin m e =>
      if m =? 0 then DFin 0 0 else if m <? 0 then DNaN else
      let t := (e - 120) / 2 in
      let n := m * 2 ^ (e - 2 * t) in
      let r := Z.sqrt n in
      let q := if r * r =? n then 2 * r else 2 * r + 1 in
      round_q false (q * 2 ^ Z.max (t - 1) 0) (2 ^ Z.max (1 - t) 0)
  | DInf s => if s then DNaN else DInf false
  | DNaN => DNaN
  end.

(** [%.nf] *)
Definition show_fixed (n : nat) (x : double) : string :=
  match x with
  | DNaN => "nan"
  | DInf neg => if neg then "-inf" else "inf"
  | DFin m e =>
      let d := round_div_even (dval_num m e * 10 ^ Z.of_nat n)%Z (dval_den e) in
      (if (m <? 0)%Z then "-" else EmptyString) +:+ to_string (d / 10 ^ Z.of_nat n)%Z +:+
      (match n with O => EmptyString | _ => "." +:+ format_digits n (d mod 10 ^ Z.of_nat n)%Z EmptyString end)
  end%string.

(** [%lld] *)
Definition show_int (v : Z) : string :=
  if v <? 0 then ("-" +:+ to_string (- v))%string else to_string v.

(** ** The standard deviation *)

Fixpoint deviation_loop (h : HdrHistogram) (m : double) (counts : list Z) (i : Z) (sum : double) : double :=
  match counts with
  | [] => sum
  | c :: counts =>
      deviation_loop h m counts (i + 1)
        (if c =? 0 then sum
         else
           let dev := dsub (double_of_Z (median_equivalent_value h (value_from_index h i))) m in
           dadd sum (dmul (dmul dev dev) (double_of_Z c)))
  end.
Definition stddev (h : HdrHistogram) : double :=
  if total_count_ h =? 0 then DFin 0 0
  else dsqrt (ddiv (deviation_loop h (mean h) (counts_ h) 0 (DFin 0 0)) (double_of_Z (total_count_ h))).

(** ** The summary *)

Definition summary_line (unit : string) (h : HdrHistogram) : string :=
  str_take 319
    ("count=" +:+ show_int (total_count_ h) +:+ " min=" +:+ show_int (hdr_min h) +:+
     " p50=" +:+ show_int (value_at_percentile (dlit 50 0) h) +:+
     " p90=" +:+ show_int (value_at_percentile (dlit 90 0) h) +:+
     " p99=" +:+ show_int (value_at_percentile (dlit 99 0) h) +:+
     " p99.9=" +:+ show_int (value_at_percentile (dlit 999 (-1)) h) +:+
     " p99.99=" +:+ show_int (value_at_percentile (dlit 9999 (-2)) h) +:+
     " max=" +:+ show_int (hdr_max h) +:+ " mean=" +:+ show_fixed 1 (mean h) +:+ unit).

(** ** The percentile distribution *)

(** A row: the value, the percentage of the samples up to it, and their number. *)
Record CsvRow := mkRow { cr_value : Z; cr_pct : double; cr_count : Z }.

Section Csv.
Context (log2 : double -> double) (ticks_per_half_distance : Z) (h : HdrHistogram).

(** The next step of the ladder that halves the distance to 100. *)
Definition next_level (level : double) : double :=
  let half_distance := DFin 1 (dfloor (log2 (ddiv (dlit 100 0) (dmax (dlit 1 (-12)) (dsub (dlit 100 0) level)))) + 1) in
  dadd level (ddiv (dlit 100 0) (dmul half_distance (double_of_Z ticks_per_half_distance))).

Definition percent (running : Z) : double :=
  ddiv (dmul (dlit 100 0) (double_of_Z running)) (double_of_Z (total_count_ h)).

Fixpoint csv_loop (counts : list Z) (i running : Z) (level : double) : list CsvRow :=
  match counts with
  | [] => []
  | c :: counts =>
      let running := running + c in
      let pct := percent running in
      if negb (c =? 0) && dleb level pct then
        let level := next_level level in
        mkRow (highest_equivalent_value h (value_from_index h i)) pct running ::
        (if dleb (dlit 100 0) level then [] else csv_loop counts (i + 1) running level)
      else csv_loop counts (i + 1) running level
  end.
Definition csv_rows : list CsvRow := if total_count_ h =? 0 then [] else csv_loop (counts_ h) 0 0 (DFin 0 0).

Definition row_text (r : CsvRow) : string :=
  let inv := if dleb (dlit 100 0) (cr_pct r) then DFin 0 0 else ddiv (dlit 100 0) (dsub (dlit 100 0) (cr_pct r)) in
  str_take 159
    (show_int (cr_value r) +:+ "," +:+ show_fixed 12 (ddiv (cr_pct r) (dlit 100 0)) +:+ "," +:+
     show_int (cr_count r) +:+ "," +:+ show_fixed 2 inv +:+ String "010" EmptyString).
Definition percentile_csv : string :=
  ("Value,Percentile,TotalCount,1/(1-Percentile)" +:+ String "010" EmptyString +:+
   foldr (fun r s => row_text r +:+ s) EmptyString csv_rows)%string.
End Csv.

(** ** The rows are exact *)

(** Every value of a range has the index of the range. *)
Lemma same_range_index h u m v w : hdr_ok h u m -> 0 <= v ->
  lowest_equivalent_value h v <= w <= highest_equivalent_value h v -> counts_index_for h w = counts_index_for h v.
Proof.
  intros OK Hv Hw. pose proof (ho_shape _ _ _ OK) as SH. pose proof (position_of h u m SH v Hv) as P.
  pose proof (sh_u _ _ _ SH). pose proof (sh_m _ _ _ SH). pose proof (pow_split h u m SH) as Em.
  set (b := bucket_index h v) in *. set (s := sub_bucket_index h v b) in *.
  unfold highest_equivalent_value, next_non_equivalent_value in Hw.
  rewrite (size_of_position h u m SH v b s eq_refl eq_refl P), (lowest_of_position h u m SH v b s eq_refl eq_refl P) in Hw.
  destruct P as [Hb Hs Hup Ed]. assert (0 < 2 ^ (b + u)) as Hp by (apply Z.pow_pos_nonneg; lia).
  assert (0 <= w) as Hw0 by nia. assert (0 < 2 ^ (m - 1)) by (apply Z.pow_pos_nonneg; lia).
  assert (w < 2 ^ (b + u + m)) as Hwu by (rewrite Z.pow_add_r by lia; nia).
  assert (bucket_index h w = b) as Eb.
  { rewrite (bucket_index_eq h u m SH w Hw0). destruct (decide (w = 0)) as [->|Hw1].
    { simpl. destruct Hup as [->|?]; [lia|nia]. }
    assert (Z.log2 w < b + u + m) as Hl by (apply Z.log2_lt_pow2; lia).
    destruct Hup as [E0|Hup]; [rewrite E0 in *; lia|].
    enough (b + u + (m - 1) <= Z.log2 w) by lia. apply Z.log2_le_pow2; [lia|]. rewrite Z.pow_add_r by lia. nia. }
  rewrite (index_of_position h u m SH w b s Eb), (index_of_position h u m SH v b s eq_refl eq_refl); [done|].
  unfold sub_bucket_index. rewrite (sh_unit _ _ _ SH), Z.shiftr_div_pow2 by lia.
  symmetry. apply (Z.div_unique _ _ _ (w - s * 2 ^ (b + u))); lia.
Qed.

(** The top of a range separates the values up to its index from the others. *)
Lemma top_separates h u m v w : hdr_ok h u m -> 0 <= v -> 0 <= w ->
  w <= highest_equivalent_value h v <-> counts_index_for h w <= counts_index_for h v.
Proof.
  intros OK Hv Hw. pose proof (ho_shape _ _ _ OK) as SH. destruct (range_spec h u m SH v Hv) as ([Hlo Hhi] & _).
  split; intros H.
  - destruct (Z.le_gt_cases w v) as [Hle|Hgt]; [by apply (index_mono h u m SH)|].
    rewrite (same_range_index h u m v w OK Hv); lia.
  - destruct (Z.le_gt_cases w v) as [Hle|Hgt]; [lia|].
    pose proof (index_mono h u m SH v w ltac:(lia)). rewrite (range_inj h u m SH v w Hv Hw) by lia.
    apply (range_spec h u m SH w Hw).
Qed.

Section Rows.
Context (log2 : double -> double) (ticks : Z) (h : HdrHistogram).

Definition row_at (j : nat) : CsvRow :=
  let running := sumZ (take (S j) (counts_ h)) in
  mkRow (highest_equivalent_value h (value_from_index h (Z.of_nat j))) (percent h running) running.

(** The rows are those of an increasing list of indices with samples. *)
Lemma csv_loop_rows n i level : (i + n = length (counts_ h))%nat ->
  exists js, csv_loop log2 ticks h (drop i (counts_ h)) (Z.of_nat i) (sumZ (take i (counts_ h))) level = map row_at js /\
    StronglySorted lt js /\ Forall (fun j => (i <= j)%nat /\ exists c, counts_ h !! j = Some c /\ c <> 0) js.
Proof.
  revert i level. induction n as [|n IH]; intros i level Hn.
  { rewrite drop_ge by lia. exists []. repeat constructor. }
  destruct (lookup_lt_is_Some_2 (counts_ h) i) as [c Ec]; [lia|].
  rewrite (drop_S _ _ _ Ec). cbn [csv_loop].
  assert (sumZ (take i (counts_ h)) + c = sumZ (take (S i) (counts_ h))) as Es.
  { rewrite (take_S_r _ _ c Ec). unfold sumZ. rewrite foldr_app. simpl. rewrite Z.add_0_r.
    generalize (take i (counts_ h)). induction l as [|x l IHl]; simpl; lia. }
  rewrite Es. replace (Z.of_nat i + 1) with (Z.of_nat (S i)) by lia.
  assert (forall level, exists js, csv_loop log2 ticks h (drop (S i) (counts_ h)) (Z.of_nat (S i))
    (sumZ (take (S i) (counts_ h))) level = map row_at js /\ StronglySorted lt js /\
    Forall (fun j => (i < j)%nat /\ exists c, counts_ h !! j = Some c /\ c <> 0) js) as IH'.
  { intros l'. apply IH. lia. }
  destruct (negb (c =? 0) && _) eqn:E.
  - apply andb_prop in E as [Hc%negb_true_iff%Z.eqb_neq _].
    destruct (dleb (dlit 100 0) _).
    + exists [i]. split; [done|]. split; [repeat constructor|]. constructor; [|constructor]. split; [lia|by exists c].
    + destruct (IH' (next_level log2 ticks level)) as (js & -> & S & F). exists (i :: js). split; [done|]. split.
      * constructor; [done|]. eapply Forall_impl; [exact F|]. simpl. intros j [? _]. done.
      * constructor; [split; [lia|by exists c]|]. eapply Forall_impl; [exact F|]. simpl. intros j [? ?]. split; [lia|done].
  - destruct (IH' level) as (js & -> & S & F). exists js. split; [done|]. split; [done|].
    eapply Forall_impl; [exact F|]. simpl. intros j [? ?]. split; [lia|done].
Qed.
End Rows.

(** What a row says of the samples [ys]. *)
Definition row_exact (h : HdrHistogram) (ys : list Z) (r : CsvRow) : Prop :=
  (exists v, v ∈ ys /\ cr_value r = highest_equivalent_value h v) /\
  cr_count r = countb (fun v => v <=? cr_value r) ys /\ cr_pct r = percent h (cr_count r).
Definition row_before (r r' : CsvRow) : Prop := cr_value r < cr_value r' /\ cr_count r < cr_count r'.

Lemma countb_ext {A} (f g : A -> bool) l : (forall x, x ∈ l -> f x = g x) -> countb f l = countb g l.
Proof.
  induction l as [|x l IH]; intros H; [done|]. simpl. rewrite (H x ltac:(left)), IH; [done|]. intros y Hy. apply H. by right.
Qed.

Lemma countb_lt {A} (f g : A -> bool) l x : (forall y, f y = true -> g y = true) -> x ∈ l -> f x = false -> g x = true ->
  countb f l < countb g l.
Proof.
  intros Hfg Hx Hf Hg. assert (forall l, countb f l <= countb g l) as Hle.
  { clear Hx l. induction l as [|y l IH]; simpl; [done|]. specialize (Hfg y). destruct (f y), (g y); try lia; by rewrite Hfg in *. }
  apply list_elem_of_split in Hx as (l1 & l2 & ->). rewrite !countb_app. simpl. rewrite Hf, Hg.
  pose proof (Hle l1). pose proof (Hle l2). lia.
Qed.

Section Exact.
Context (h : HdrHistogram) (u m : Z) (ys : list Z) (OK : hdr_ok h u m) (H : holds h ys).

(** An index with samples: one of them, and the row. *)
Lemma row_at_exact j c : counts_ h !! j = Some c -> c <> 0 -> exists v, v ∈ ys /\ counts_index_for h v = Z.of_nat j /\
  0 <= v /\ cr_value (row_at h j) = highest_equivalent_value h v /\ row_exact h ys (row_at h j).
Proof.
  intros Ec Hc. pose proof (hl_range _ _ H) as Hr. rewrite Forall_forall in Hr.
  assert (exists v, v ∈ ys /\ counts_index_for h v = Z.of_nat j) as (v & Hv & Ev).
  { rewrite (hl_counts _ _ H j c Ec) in Hc. clear -Hc. induction ys as [|x l IH]; [done|]. simpl in Hc.
    unfold at_index at 1 in Hc. destruct (Z.eqb_spec (counts_index_for h x) (Z.of_nat j)).
    - exists x. split; [left|done].
    - destruct IH as (v & Hv & E); [lia|]. exists v. split; [by right|done]. }
  pose proof (Hr v Hv) as Hv0. pose proof (highest_from_index h u m OK v ltac:(lia)) as Et. rewrite Ev in Et.
  exists v. split; [done|]. split; [done|]. split; [lia|]. split; [exact Et|]. split; [exists v; done|]. split; [|done].
  simpl. rewrite Et. apply lookup_lt_Some in Ec as Hj.
  rewrite (prefix_sum h ys (S j) H); [|lia|].
  - apply countb_ext. intros x Hx. unfold below_index. pose proof (Hr x Hx).
    pose proof (top_separates h u m v x OK ltac:(lia) ltac:(lia)) as Hs.
    destruct (Z.leb_spec x (highest_equivalent_value h v)), (Z.ltb_spec (counts_index_for h x) (Z.of_nat (S j))); lia || done.
  - intros x Hx. apply (range_spec h u m (ho_shape _ _ _ OK)). by apply Hr.
Qed.

Lemma rows_ordered j j' c c' : (j < j')%nat -> counts_ h !! j = Some c -> c <> 0 -> counts_ h !! j' = Some c' -> c' <> 0 ->
  row_before (row_at h j) (row_at h j').
Proof.
  intros Hj Ec Hc Ec' Hc'. destruct (row_at_exact j c Ec Hc) as (v & Hv & Ev & Hv0 & Et & _ & En & _).
  destruct (row_at_exact j' c' Ec' Hc') as (v' & Hv' & Ev' & Hv0' & Et' & _ & En' & _).
  pose proof (top_separates h u m v v' OK Hv0 Hv0') as Hs.
  pose proof (range_spec h u m (ho_shape _ _ _ OK) v' Hv0') as ([_ Hhi] & _).
  assert (cr_value (row_at h j) < cr_value (row_at h j')) as Hlt by lia. split; [done|]. rewrite En, En'.
  apply (countb_lt _ _ _ v'); [|done|apply Z.leb_gt; lia|apply Z.leb_le; lia]. intros y Hy%Z.leb_le. apply Z.leb_le. lia.
Qed.

Lemma csv_rows_exact log2 ticks : Forall (row_exact h ys) (csv_rows log2 ticks h) /\
  StronglySorted row_before (csv_rows log2 ticks h).
Proof.
  unfold csv_rows. destruct (total_count_ h =? 0); [by repeat constructor|].
  destruct (csv_loop_rows log2 ticks h (length (counts_ h)) 0 (DFin 0 0) eq_refl) as (js & E & S & F).
  rewrite drop_0 in E. change (csv_loop log2 ticks h (counts_ h) 0 0 (DFin 0 0) = map (row_at h) js) in E. rewrite E. clear E. induction S as [|j js S IH Hj]; [by repeat constructor|].
  apply Forall_cons_1 in F as [(_ & c & Ec & Hc) F]. destruct (IH F) as [IH1 IH2]. simpl. split.
  - constructor; [|done]. destruct (row_at_exact j c Ec Hc) as (v & _ & _ & _ & _ & Hx). done.
  - constructor; [done|]. rewrite Forall_map. rewrite Forall_forall in Hj, F. apply Forall_forall. intros j' Hj'.
    destruct (F j' Hj') as (_ & c' & Ec' & Hc'). by eapply rows_ordered; [apply Hj| | | |].
Qed.
End Exact.

(** C38: The percentile distribution that a run publishes is exact: whatever the samples and
    whichever rows are printed, each row has a value that is the top of the bucket of a
    sample, the exact number of samples up to that value and their percentage, and the rows
    are in strictly increasing order. *)
Theorem percentile_csv_exact log2 ticks lowest highest figures vs : lowest < 2 ^ 32 -> highest < 2 ^ 62 ->
  exists h0 h, new_histogram lowest highest figures = Some h0 /\ record_all vs h0 = Some h /\
    Forall (row_exact h (clamp_values (highest_ h0) vs)) (csv_rows log2 ticks h) /\
    StronglySorted row_before (csv_rows log2 ticks h).
Proof.
  intros Hl Hh. destruct (new_histogram_holds lowest highest figures Hl Hh) as (h0 & u & m & E & OK & H0 & _).
  destruct (record_all_holds h0 u m [] vs OK H0) as (h & Er & OK' & H & _). exists h0, h. split; [done|]. split; [done|].
  by apply (csv_rows_exact h u m).
Qed.

(** ** Witness *)

(** The floor of the logarithm, as a double. *)
Definition floor_log2 (x : double) : double :=
  match x with DFin m e => if m <=? 0 then DFin 0 0 else DFin (Z.log2 m + e) 0 | _ => x end.

Lemma percentile_csv_exact_witness : exists h0 h, new_histogram 1 10000 1 = Some h0 /\ record_all sample_values h0 = Some h /\
  Forall (row_exact h (clamp_values (highest_ h0) sample_values)) (csv_rows floor_log2 5 h) /\
  map cr_value (csv_rows floor_log2 5 h) = [5; 2047; 5119; 10239] /\ map cr_count (csv_rows floor_log2 5 h) = [1; 2; 3; 5].
Proof.
  destruct (percentile_csv_exact floor_log2 5 1 10000 1 sample_values ltac:(lia) ltac:(lia)) as (h0 & h & E0 & E & F & _).
  exists h0, h. do 3 (split; [assumption|]). injection E0 as <-. vm_compute in E. injection E as <-. split; vm_compute; reflexivity.
Defined.
