(* ===== verification/Sha256.v ===== *)
(** * Sha256: the rules-file fingerprint ([include/policy/sha256.hpp])

    The streaming hash object, byte for byte, and its relation to the one-shot
    definition of the standard: pad the message, cut it into 64-byte blocks and
    fold the compression function over them. *)

From S2P Require Import Prelude Text.
From Stdlib Require Import ZArith Lia Bool Ascii String.
From stdpp Require Import base list numbers strings.
Local Open Scope Z_scope.

Definition rotr (x n : Z) : Z := Z.lor (Z.shiftr x n) (u32 (Z.shiftl x (32 - n))).

(** The constants, in the rows of the source. *)
Definition k_table : list Z :=
  concat [[0x428a2f98; 0x71374491; 0xb5c0fbcf; 0xe9b5dba5; 0x3956c25b; 0x59f111f1; 0x923f82a4];
          [0xab1c5ed5; 0xd807aa98; 0x12835b01; 0x243185be; 0x550c7dc3; 0x72be5d74; 0x80deb1fe];
          [0x9bdc06a7; 0xc19bf174; 0xe49b69c1; 0xefbe4786; 0x0fc19dc6; 0x240ca1cc; 0x2de92c6f];
          [0x4a7484aa; 0x5cb0a9dc; 0x76f988da; 0x983e5152; 0xa831c66d; 0xb00327c8; 0xbf597fc7];
          [0xc6e00bf3; 0xd5a79147; 0x06ca6351; 0x14292967; 0x27b70a85; 0x2e1b2138; 0x4d2c6dfc];
          [0x53380d13; 0x650a7354; 0x766a0abb; 0x81c2c92e; 0x92722c85; 0xa2bfe8a1; 0xa81a664b];
          [0xc24b8b70; 0xc76c51a3; 0xd192e819; 0xd6990624; 0xf40e3585; 0x106aa070; 0x19a4c116];
          [0x1e376c08; 0x2748774c; 0x34b0bcb5; 0x391c0cb3; 0x4ed8aa4a; 0x5b9cca4f; 0x682e6ff3];
          [0x748f82ee; 0x78a5636f; 0x84c87814; 0x8cc70208; 0x90befffa; 0xa4506ceb; 0xbef9a3f7];
          [0xc67178f2]].

Definition at_ (l : list Z) (i : nat) : Z := nth i l 0.

(** [w[0..15]]: big-endian words of the block. *)
Definition block_word (block : list Z) (i : nat) : Z :=
  Z.lor (Z.lor (Z.lor (u32 (Z.shiftl (at_ block (i * 4)) 24))
                      (u32 (Z.shiftl (at_ block (i * 4 + 1)) 16)))
               (u32 (Z.shiftl (at_ block (i * 4 + 2)) 8)))
        (at_ block (i * 4 + 3)).

(** [w[16..63]], in order; [w] holds the words so far. *)
Definition next_word (w : list Z) (i : nat) : Z :=
  let s0 := Z.lxor (Z.lxor (rotr (at_ w (i - 15)) 7) (rotr (at_ w (i - 15)) 18))
              (Z.shiftr (at_ w (i - 15)) 3) in
  let s1 := Z.lxor (Z.lxor (rotr (at_ w (i - 2)) 17) (rotr (at_ w (i - 2)) 19))
              (Z.shiftr (at_ w (i - 2)) 10) in
  u32 (at_ w (i - 16) + s0 + at_ w (i - 7) + s1).
Definition schedule (block : list Z) : list Z :=
  fold_left (fun w i => w ++ [next_word w i]) (seq 16 48) (map (block_word block) (seq 0 16)).

(** One round on [a..h]. *)
Definition round (w : list Z) (s : list Z) (i : nat) : list Z :=
  match s with
  | [a; b; c; d; e; f; g; hh] =>
      let S1 := Z.lxor (Z.lxor (rotr e 6) (rotr e 11)) (rotr e 25) in
      let ch := Z.lxor (Z.land e f) (Z.land (u32 (Z.lnot e)) g) in
      let t1 := u32 (hh + S1 + ch + at_ k_table i + at_ w i) in
      let S0 := Z.lxor (Z.lxor (rotr a 2) (rotr a 13)) (rotr a 22) in
      let maj := Z.lxor (Z.lxor (Z.land a b) (Z.land a c)) (Z.land b c) in
      let t2 := u32 (S0 + maj) in
      [u32 (t1 + t2); a; b; c; u32 (d + t1); e; f; g]
  | _ => s
  end.

Definition transform (h : list Z) (block : list Z) : list Z :=
  let w := schedule block in
  zip_with (fun x y => u32 (x + y)) h (fold_left (round w) (seq 0 64) h).

Record Sha256 := mkSha { sha_h : list Z; sha_buf : list Z; sha_total : Z }.

Definition sha_init : Sha256 :=
  mkSha [0x6a09e667; 0xbb67ae85; 0x3c6ef372; 0xa54ff53a;
         0x510e527f; 0x9b05688c; 0x1f83d9ab; 0x5be0cd19] [] 0.

(** [sha_buf] holds the first [buf_len_] bytes of the buffer.  Every iteration
    consumes at least one byte, so [length data] iterations are enough. *)
Fixpoint update_loop (fuel : nat) (data : list Z) (s : Sha256) : Sha256 :=
  match fuel with
  | O => s
  | S fuel =>
      match data with
      | [] => s
      | _ =>
          let n := Nat.min (length data) (64 - length (sha_buf s)) in
          let buf := sha_buf s ++ take n data in
          let s := if (length buf =? 64)%nat then mkSha (transform (sha_h s) buf) [] (sha_total s)
                   else mkSha (sha_h s) buf (sha_total s) in
          update_loop fuel (drop n data) s
      end
  end.
Definition update (data : list Z) (s : Sha256) : Sha256 :=
  update_loop (length data) data
    (mkSha (sha_h s) (sha_buf s) (u64 (sha_total s + Z.of_nat (length data)))).

(** [while (buf_len_ != 56) update(&pad, 1);] with [pad = 0]: at most 64 turns. *)
Fixpoint pad_loop (fuel : nat) (s : Sha256) : Sha256 :=
  match fuel with
  | O => s
  | S fuel => if (length (sha_buf s) =? 56)%nat then s else pad_loop fuel (update [0] s)
  end.

Definition be_bytes (bits : Z) : list Z :=
  map (fun i => u8 (Z.shiftr bits (56 - 8 * Z.of_nat i))) (seq 0 8).

Definition hex_char (d : Z) : ascii :=
  match String.get (Z.to_nat d) "0123456789abcdef" with Some c => c | None => "0"%char end.
Definition word_hex (w : Z) : string :=
  fold_right (fun b acc =>
    let byte := u8 (Z.shiftr w (24 - 8 * Z.of_nat b)) in
    String (hex_char (Z.shiftr byte 4)) (String (hex_char (Z.land byte 15)) acc))
    EmptyString (seq 0 4).
Definition digest_hex (h : list Z) : string :=
  fold_right (fun w acc => word_hex w +:+ acc)%string EmptyString h.

Definition finish (s : Sha256) : Sha256 :=
  let bits := u64 (sha_total s * 8) in
  let s := update [0x80] s in
  let s := pad_loop 64 s in
  update (be_bytes bits) s.

Definition hex (s : Sha256) : string := digest_hex (sha_h (finish s)).

Fixpoint bytes_of (s : string) : list Z :=
  match s with EmptyString => [] | String c s' => code c :: bytes_of s' end.

Definition hash_hex (s : string) : string := hex (update (bytes_of s) sha_init).

(** ** The reference: one byte at a time, then whole blocks *)

Definition push (s : list Z * list Z) (b : Z) : list Z * list Z :=
  let buf := s.2 ++ [b] in
  if (length buf =? 64)%nat then (transform s.1 buf, []) else (s.1, buf).

Definition core (s : Sha256) : list Z * list Z := (sha_h s, sha_buf s).

Lemma push_take n h buf data : (length buf + n < 64)%nat -> (n <= length data)%nat ->
  fold_left push (take n data) (h, buf) = (h, buf ++ take n data).
Proof.
  revert buf data. induction n as [|n IH]; intros buf data Hb Hn.
  { rewrite take_0. simpl. by rewrite app_nil_r. }
  destruct data as [|d data]; [simpl in Hn; lia|]. simpl in Hn.
  rewrite firstn_cons. cbn [fold_left]. unfold push at 2. cbn [fst snd].
  rewrite length_app. cbn [length].
  destruct (Nat.eqb_spec (length buf + 1) 64); [lia|].
  rewrite IH by (rewrite ?length_app; simpl; lia). by rewrite <- app_assoc.
Qed.

Lemma push_full k h buf data : (length buf + S k = 64)%nat -> (S k <= length data)%nat ->
  fold_left push (take (S k) data) (h, buf) = (transform h (buf ++ take (S k) data), []).
Proof.
  intros Hb Hk. assert (data !! k = Some (nth k data 0)) as Hl.
  { rewrite nth_lookup. destruct (data !! k) eqn:E; [done|]. apply lookup_ge_None in E. lia. }
  rewrite (take_S_r data k (nth k data 0)) by done. rewrite fold_left_app, push_take by lia.
  cbn [fold_left]. unfold push. cbn [fst snd]. rewrite <- app_assoc, length_app, length_app, length_take.
  cbn [length]. destruct (Nat.eqb_spec (length buf + (Nat.min k (length data) + 1)) 64); [done|lia].
Qed.

Lemma update_loop_push fuel data s : (length data <= fuel)%nat -> (length (sha_buf s) < 64)%nat ->
  core (update_loop fuel data s) = fold_left push data (core s) /\
  (length (sha_buf (update_loop fuel data s)) < 64)%nat /\
  sha_total (update_loop fuel data s) = sha_total s.
Proof.
  revert data s. induction fuel as [|fuel IH]; intros data s Hf Hb.
  { destruct data; [done|simpl in Hf; lia]. }
  destruct data as [|d data']; [done|]. cbn [update_loop].
  set (data := d :: data') in *. set (n := Nat.min (length data) (64 - length (sha_buf s))).
  assert (1 <= n)%nat as Hn1 by (subst n data; cbn [length]; lia).
  assert (n <= length data)%nat as Hnd by (subst n; lia).
  assert (length data - n <= fuel)%nat as Hf' by (subst data; cbn [length] in *; lia).
  assert (length (sha_buf s) + n <= 64)%nat by (subst n; lia).
  clearbody data n.
  assert (fold_left push data (core s) =
          fold_left push (drop n data) (fold_left push (take n data) (core s))) as ->
    by (by rewrite <- fold_left_app, take_drop).
  assert (length (sha_buf s ++ take n data) = (length (sha_buf s) + n)%nat) as Hlen
    by (rewrite length_app, length_take; lia).
  destruct (Nat.eqb_spec (length (sha_buf s ++ take n data)) 64) as [E64|N64].
  - destruct (IH (drop n data) (mkSha (transform (sha_h s) (sha_buf s ++ take n data)) [] (sha_total s)))
      as (E & Hl & Ht); [rewrite length_drop; lia|simpl; lia|].
    rewrite E. split; [|by split]. f_equal. unfold core at 1 2. cbn [sha_h sha_buf].
    destruct n as [|k]; [lia|]. rewrite push_full by lia. done.
  - destruct (IH (drop n data) (mkSha (sha_h s) (sha_buf s ++ take n data) (sha_total s)))
      as (E & Hl & Ht); [rewrite length_drop; lia|cbn [sha_buf]; lia|].
    rewrite E. split; [|by split]. f_equal. unfold core. cbn [sha_h sha_buf].
    by rewrite push_take by lia.
Qed.

Lemma update_push data s : (length (sha_buf s) < 64)%nat ->
  core (update data s) = fold_left push data (core s) /\
  (length (sha_buf (update data s)) < 64)%nat /\
  sha_total (update data s) = u64 (sha_total s + Z.of_nat (length data)).
Proof.
  intros Hb. unfold update.
  exact (update_loop_push (length data) data
    (mkSha (sha_h s) (sha_buf s) (u64 (sha_total s + Z.of_nat (length data))))
    (Nat.le_refl _) Hb).
Qed.

(** Length of the buffer after pushing [n] bytes. *)
Lemma push_length data st : (length st.2 < 64)%nat ->
  length (fold_left push data st).2 = ((length st.2 + length data) mod 64)%nat.
Proof.
  revert st. induction data as [|d data IH]; intros [h buf] Hb; cbn [fold_left length fst snd] in *.
  { rewrite Nat.add_0_r, Nat.mod_small; done. }
  unfold push at 2. cbn [fst snd]. rewrite length_app. cbn [length].
  destruct (Nat.eqb_spec (length buf + 1) 64) as [E|E].
  - rewrite IH by (cbn [snd length]; lia). cbn [snd length].
    replace (length buf + S (length data))%nat with (0 + length data + 1 * 64)%nat by lia.
    by rewrite Nat.Div0.mod_add.
  - rewrite IH by (cbn [snd]; rewrite length_app; cbn [length]; lia). cbn [snd].
    rewrite length_app. cbn [length]. f_equal. lia.
Qed.

Lemma pad_loop_push fuel s : (length (sha_buf s) < 64)%nat ->
  ((120 - length (sha_buf s)) mod 64 < fuel)%nat ->
  core (pad_loop fuel s) =
    fold_left push (replicate ((120 - length (sha_buf s)) mod 64) 0) (core s) /\
  (length (sha_buf (pad_loop fuel s)) < 64)%nat.
Proof.
  revert s. induction fuel as [|fuel IH]; intros s Hb Hf; [lia|]. cbn [pad_loop].
  destruct (Nat.eqb_spec (length (sha_buf s)) 56) as [E|E].
  { rewrite E. split; [done|lia]. }
  destruct (update_push [0] s Hb) as (Hc & Hl & _).
  assert (length (sha_buf (update [0] s)) = ((length (sha_buf s) + 1) mod 64)%nat) as Hlen.
  { change (sha_buf (update [0] s)) with (core (update [0] s)).2. rewrite Hc.
    by rewrite push_length. }
  assert ((120 - length (sha_buf s)) mod 64 = S ((120 - length (sha_buf (update [0%Z] s))) mod 64))%nat
    as Hn.
  { rewrite Hlen. destruct (decide (length (sha_buf s) = 63)%nat) as [E63|]; [by rewrite E63|].
    rewrite (Nat.mod_small (length (sha_buf s) + 1)) by lia.
    destruct (decide (length (sha_buf s) < 56)%nat).
    - replace (120 - length (sha_buf s))%nat with (56 - length (sha_buf s) + 1 * 64)%nat by lia.
      replace (120 - (length (sha_buf s) + 1))%nat with (55 - length (sha_buf s) + 1 * 64)%nat by lia.
      rewrite !Nat.Div0.mod_add, !Nat.mod_small by lia. lia.
    - rewrite !Nat.mod_small by lia. lia. }
  destruct (IH (update [0] s) Hl ltac:(lia)) as [IH1 IH2]. split; [|done].
  rewrite IH1, Hn, Hc. done.
Qed.

(** The padded message of the standard. *)
Definition padded (m : list Z) : list Z :=
  m ++ [0x80] ++ replicate ((119 - length m mod 64) mod 64) 0 ++
  be_bytes (u64 (Z.of_nat (length m) * 8)).

Fixpoint chunks (n : nat) (l : list Z) : list (list Z) :=
  match n with O => [] | S n => take 64 l :: chunks n (drop 64 l) end.

Definition sha256_spec (m : list Z) : list Z :=
  fold_left transform (chunks (length (padded m) / 64) (padded m)) (sha_h sha_init).

Lemma push_chunks n l h : length l = (n * 64)%nat ->
  fold_left push l (h, []) = (fold_left transform (chunks n l) h, []).
Proof.
  revert l h. induction n as [|n IH]; intros l h Hl.
  { destruct l; [done|simpl in Hl; lia]. }
  rewrite <- (take_drop 64 l) at 1. rewrite fold_left_app.
  rewrite (push_full 63 h [] l) by (cbn [length]; lia).
  cbn [chunks fold_left]. rewrite IH by (rewrite length_drop; lia). done.
Qed.

Lemma be_bytes_length b : length (be_bytes b) = 8%nat.
Proof. done. Qed.

Lemma padded_length m : exists n, length (padded m) = (n * 64)%nat.
Proof.
  unfold padded. rewrite !length_app, length_replicate, be_bytes_length. cbn [length].
  pose proof (Nat.div_mod (length m) 64 ltac:(lia)) as D.
  pose proof (Nat.mod_upper_bound (length m) 64 ltac:(lia)) as B.
  set (q := (length m / 64)%nat) in *. set (r := (length m mod 64)%nat) in *. rewrite D.
  destruct (decide (r < 56)%nat).
  - replace (119 - r)%nat with (55 - r + 1 * 64)%nat by lia.
    rewrite Nat.Div0.mod_add, Nat.mod_small by lia. exists (q + 1)%nat. lia.
  - rewrite Nat.mod_small by lia. exists (q + 2)%nat. lia.
Qed.

Lemma core_fst s : (core s).1 = sha_h s.
Proof. done. Qed.
Lemma core_init : core sha_init = (sha_h sha_init, []).
Proof. done. Qed.

#[local] Opaque transform update pad_loop be_bytes.

Lemma finish_spec s m : (length (sha_buf s) < 64)%nat ->
  core s = fold_left push m (core sha_init) ->
  sha_total s = u64 (Z.of_nat (length m)) -> sha_h (finish s) = sha256_spec m.
Proof.
  intros Hb Hc Ht. unfold finish. rewrite Ht.
  assert (u64 (u64 (Z.of_nat (length m)) * 8) = u64 (Z.of_nat (length m) * 8)) as ->
    by (unfold wrap; by rewrite Z.mul_mod_idemp_l).
  destruct (update_push [0x80] s Hb) as (Hc1 & Hl1 & _). set (s1 := update [0x80] s) in *.
  assert (length (sha_buf s1) = ((length m mod 64 + 1) mod 64)%nat) as Hlen.
  { change (sha_buf s1) with (core s1).2. rewrite Hc1, Hc, push_length by
      (rewrite push_length by (simpl; lia); apply Nat.mod_upper_bound; lia).
    rewrite push_length by (simpl; lia). done. }
  pose proof (Nat.mod_upper_bound (length m) 64 ltac:(lia)) as Hm.
  assert ((120 - length (sha_buf s1)) mod 64 = (119 - length m mod 64) mod 64)%nat as Hz.
  { rewrite Hlen. destruct (decide (length m mod 64 = 63)%nat) as [->|]; [done|].
    rewrite (Nat.mod_small (_ + 1)) by lia. f_equal. lia. }
  destruct (pad_loop_push 64 s1 Hl1) as [Hc2 Hl2]; [apply Nat.mod_upper_bound; lia|].
  destruct (update_push (be_bytes (u64 (Z.of_nat (length m) * 8))) _ Hl2) as (Hc3 & _ & _).
  rewrite Hc2, Hc1, Hc, Hz, <- !fold_left_app in Hc3.
  fold (padded m) in Hc3. destruct (padded_length m) as [n Hn].
  rewrite core_init in Hc3.
  rewrite (push_chunks n _ _ Hn) in Hc3.
  apply (f_equal fst) in Hc3. rewrite core_fst in Hc3.
  unfold sha256_spec. rewrite Hn, Nat.div_mul by lia. exact Hc3.
Qed.

#[local] Transparent transform update pad_loop be_bytes.

(** C29: The streaming object computes SHA-256: for a message fed in any number of
    pieces, [hex] prints the digest of the whole message as the standard defines
    it, one compression per 64-byte block of the padded message. *)
Theorem sha256_streaming_correct (pieces : list (list Z)) :
  hex (fold_left (fun s p => update p s) pieces sha_init) =
  digest_hex (sha256_spec (concat pieces)).
Proof.
  unfold hex. f_equal.
  assert (forall ps s m, (length (sha_buf s) < 64)%nat ->
    core s = fold_left push m (core sha_init) -> sha_total s = u64 (Z.of_nat (length m)) ->
    sha_h (finish (fold_left (fun s p => update p s) ps s)) = sha256_spec (m ++ concat ps)) as H.
  { induction ps as [|p ps IH]; intros s m Hb Hc Ht; simpl.
    { rewrite app_nil_r. by apply finish_spec. }
    destruct (update_push p s Hb) as (Hc' & Hb' & Ht').
    rewrite app_assoc. apply IH; [done|by rewrite Hc', Hc, fold_left_app|].
    rewrite Ht', Ht, length_app, Nat2Z.inj_add. unfold wrap. by rewrite Z.add_mod_idemp_l. }
  apply (H pieces sha_init []); [simpl; lia|done|done].
Qed.

(** The standard's test vectors. *)
Example sha256_abc :
  hash_hex "abc" = "ba7816bf8f01cfea414140de5dae2223b00361a396177a9cb410ff61f20015ad"%string.
Proof. vm_compute. reflexivity. Qed.
Example sha256_empty :
  hash_hex "" = "e3b0c44298fc1c149afbf4c8996fb92427ae41e4649b934ca495991b7852b855"%string.
Proof. vm_compute. reflexivity. Qed.
