(* ===== verification/Yaml.v ===== *)
(** * Yaml: the rules-file parser ([include/policy/yaml.hpp], [src/yaml.cpp])

    The line splitter, the block and flow parsers and the typed scalar
    accessors.  A position in a string is the suffix that starts there.  The
    recursive-descent functions take fuel; [None] is running out of it, and
    [parse_total] shows that [parse] never does. *)

From S2P Require Import Prelude Text Double.
From Stdlib Require Import ZArith Lia Bool Ascii String.
From stdpp Require Import base list numbers strings.
Local Open Scope Z_scope.

Definition dquote : ascii := "034".
Definition squote : ascii := "'".
Definition newline : ascii := "010".

(** ** Nodes *)

Inductive Node :=
| kNull (line : Z)
| kScalar (line : Z) (scalar : string)
| kMap (line : Z) (map_ : list (string * Node))
| kSeq (line : Z) (seq_ : list Node).

Definition node_line (n : Node) : Z :=
  match n with kNull l | kScalar l _ | kMap l _ | kSeq l _ => l end.
Definition is_null (n : Node) : bool := match n with kNull _ => true | _ => false end.
Definition is_scalar (n : Node) : bool := match n with kScalar _ _ => true | _ => false end.
Definition is_map (n : Node) : bool := match n with kMap _ _ => true | _ => false end.
Definition is_seq (n : Node) : bool := match n with kSeq _ _ => true | _ => false end.
Definition scalar (n : Node) : string := match n with kScalar _ s => s | _ => EmptyString end.
Definition items (n : Node) : list Node := match n with kSeq _ l => l | _ => [] end.
Definition fields (n : Node) : list (string * Node) := match n with kMap _ l => l | _ => [] end.

Fixpoint find_field (l : list (string * Node)) (key : string) : option Node :=
  match l with
  | [] => None
  | (k, v) :: l' => if String.eqb k key then Some v else find_field l' key
  end.
Definition find (n : Node) (key : string) : option Node := find_field (fields n) key.
Definition has (n : Node) (key : string) : bool :=
  match find n key with Some _ => true | None => false end.

(** ** Text helpers *)

Definition rtrim (s : string) : string := drop_while_end is_blank_cr s.
Definition trim (s : string) : string := rtrim (drop_while is_blank s).
Definition iequals (a b : string) : bool := String.eqb (string_map tolower a) (string_map tolower b).

(** [blank_before]: the position is the start of the line or follows a blank. *)
Fixpoint strip_comment_loop (s : string) (in_single in_double blank_before : bool) : string :=
  match s with
  | EmptyString => EmptyString
  | String c s' =>
      if Ascii.eqb c squote && negb in_double then
        String c (strip_comment_loop s' (negb in_single) in_double false)
      else if Ascii.eqb c dquote && negb in_single then
        String c (strip_comment_loop s' in_single (negb in_double) false)
      else if Ascii.eqb c "#" && negb in_single && negb in_double && blank_before then EmptyString
      else String c (strip_comment_loop s' in_single in_double (is_blank c))
  end.
Definition strip_comment (line : string) : string := strip_comment_loop line false false true.

Fixpoint unescape_single (s : string) : string :=
  match s with
  | EmptyString => EmptyString
  | String c s' =>
      match s' with
      | String c2 s'' =>
          if Ascii.eqb c squote && Ascii.eqb c2 squote then String c2 (unescape_single s'')
          else String c (unescape_single s')
      | EmptyString => String c EmptyString
      end
  end.

Definition escape_char (c : ascii) : ascii :=
  if Ascii.eqb c "n" then "010"
  else if Ascii.eqb c "t" then "009"
  else if Ascii.eqb c "r" then "013"
  else if Ascii.eqb c "0" then "000"
  else c.
Fixpoint unescape_double (s : string) : string :=
  match s with
  | EmptyString => EmptyString
  | String c s' =>
      match s' with
      | String c2 s'' =>
          if Ascii.eqb c "\" then String (escape_char c2) (unescape_double s'')
          else String c (unescape_double s')
      | EmptyString => String c EmptyString
      end
  end.

Definition front_is (c : ascii) (s : string) : bool :=
  match s with String d _ => Ascii.eqb d c | EmptyString => false end.
Fixpoint back_is (c : ascii) (s : string) : bool :=
  match s with
  | EmptyString => false
  | String d EmptyString => Ascii.eqb d c
  | String _ s' => back_is c s'
  end.

Definition unquote (s : string) : string :=
  let s := trim s in
  let inner := str_take (String.length s - 2) (str_drop 1 s) in
  if (2 <=? String.length s)%nat && front_is squote s && back_is squote s
  then unescape_single inner
  else if (2 <=? String.length s)%nat && front_is dquote s && back_is dquote s
  then unescape_double inner
  else s.

(** ** Parser state *)

Record Line := mkLine { ln_indent : Z; ln_number : Z; ln_text : string }.

Record Parser := mkParser { lines_ : list Line; error_ : string; error_line_ : Z }.

Definition no_error (p : Parser) : bool :=
  match error_ p with EmptyString => true | _ => false end.

Definition fail (msg : string) (line : Z) (p : Parser) : Parser :=
  if no_error p then mkParser (lines_ p) msg line else p.

(** The text between newlines. *)
Fixpoint split_newlines (s : string) : list string :=
  match s with
  | EmptyString => [EmptyString]
  | String c s' =>
      if Ascii.eqb c newline then EmptyString :: split_newlines s'
      else match split_newlines s' with
           | l :: ls => String c l :: ls
           | [] => [String c EmptyString]
           end
  end.

(** The indent loop: [None] when it meets a tab. *)
Fixpoint scan_indent (raw : string) (indent : Z) : option (Z * string) :=
  match raw with
  | EmptyString => Some (indent, raw)
  | String c raw' =>
      if Ascii.eqb c " " then scan_indent raw' (indent + 1)
      else if Ascii.eqb c "009" then None
      else Some (indent, raw)
  end.

Fixpoint split_lines_loop (raws : list string) (number : Z) (p : Parser) : Parser :=
  match raws with
  | [] => p
  | raw :: raws' =>
      let number := number + 1 in
      match scan_indent raw 0 with
      | None => fail "tab used for indentation; YAML requires spaces" number p
      | Some (indent, rest) =>
          let body := rtrim (strip_comment rest) in
          let p :=
            if negb (String.eqb body "") && negb (String.eqb body "---") &&
               negb (String.eqb body "...")
            then mkParser (lines_ p ++ [mkLine indent number body]) (error_ p) (error_line_ p)
            else p in
          split_lines_loop raws' number p
      end
  end.
Definition split_lines (text : string) (p : Parser) : Parser :=
  split_lines_loop (split_newlines text) 0 p.

Definition is_seq_item (t : string) : bool :=
  match t with
  | String c EmptyString => Ascii.eqb c "-"
  | String c (String c2 _) => Ascii.eqb c "-" && is_blank c2
  | EmptyString => false
  end.

(** Index of the separating colon. *)
Fixpoint key_split_loop (s : string) (i : nat) (in_single in_double : bool) (depth : Z)
  : option nat :=
  match s with
  | EmptyString => None
  | String c s' =>
      if Ascii.eqb c squote && negb in_double then key_split_loop s' (S i) (negb in_single) in_double depth
      else if Ascii.eqb c dquote && negb in_single then key_split_loop s' (S i) in_single (negb in_double) depth
      else if in_single || in_double then key_split_loop s' (S i) in_single in_double depth
      else if Ascii.eqb c "[" || Ascii.eqb c "{" then key_split_loop s' (S i) in_single in_double (depth + 1)
      else if Ascii.eqb c "]" || Ascii.eqb c "}" then key_split_loop s' (S i) in_single in_double (depth - 1)
      else if Ascii.eqb c ":" && (depth =? 0) &&
              (String.eqb s' EmptyString || front_is " " s') then Some i
      else key_split_loop s' (S i) in_single in_double depth
  end.
Definition key_split (s : string) : option nat := key_split_loop s 0 false false 0.

Definition make_scalar (s : string) (line : Z) (p : Parser) : Node * Parser :=
  let s := trim s in
  if String.eqb s "" || String.eqb s "~" || String.eqb s "null" || String.eqb s "Null" ||
     String.eqb s "NULL" then (kNull line, p)
  else if front_is "|" s || front_is ">" s then
    (kNull line, fail "block scalars (| and >) are not supported" line p)
  else if front_is "&" s || front_is "*" s || front_is "!" s then
    (kNull line, fail "anchors, aliases and tags are not supported" line p)
  else (kScalar line (unquote s), p).

(** ** Flow collections *)

Fixpoint read_flow_scalar_loop (s : string) (in_single in_double : bool) : string * string :=
  match s with
  | EmptyString => (EmptyString, EmptyString)
  | String c s' =>
      let continue ins ind :=
        let '(t, rest) := read_flow_scalar_loop s' ins ind in (String c t, rest) in
      if Ascii.eqb c squote && negb in_double then continue (negb in_single) in_double
      else if Ascii.eqb c dquote && negb in_single then continue in_single (negb in_double)
      else if negb in_single && negb in_double &&
              (Ascii.eqb c "," || Ascii.eqb c "]" || Ascii.eqb c "}" || Ascii.eqb c ":")
      then (EmptyString, s)
      else continue in_single in_double
  end.
Definition read_flow_scalar (s : string) : string * string :=
  let '(t, rest) := read_flow_scalar_loop s false false in (rtrim t, rest).

Definition skip_blanks (s : string) : string := drop_while is_blank s.

(** The three functions of the flow parser, each from the suffix at [pos]. *)
Fixpoint parse_flow_value (fuel : nat) (s : string) (line : Z) (p : Parser)
  : option (Node * string * Parser) :=
  match fuel with
  | O => None
  | S fuel =>
      let s := skip_blanks s in
      match s with
      | EmptyString => Some (kNull line, s, fail "unexpected end of flow collection" line p)
      | String c s' =>
          if Ascii.eqb c "[" then parse_flow_seq fuel s' line [] p
          else if Ascii.eqb c "{" then parse_flow_map fuel s' line [] p
          else
            let '(t, rest) := read_flow_scalar s in
            let '(n, p) := make_scalar t line p in Some (n, rest, p)
      end
  end
with parse_flow_seq (fuel : nat) (s : string) (line : Z) (acc : list Node) (p : Parser)
  : option (Node * string * Parser) :=
  match fuel with
  | O => None
  | S fuel =>
      let s := skip_blanks s in
      match s with
      | EmptyString => Some (kSeq line acc, s, fail "unterminated flow sequence" line p)
      | String c s' =>
          if Ascii.eqb c "]" then Some (kSeq line acc, s', p)
          else
            match parse_flow_value fuel s line p with
            | None => None
            | Some (v, s, p) =>
                let acc := acc ++ [v] in
                if negb (no_error p) then Some (kSeq line acc, s, p)
                else
                  let s := skip_blanks s in
                  match s with
                  | String c s' =>
                      if Ascii.eqb c "," then parse_flow_seq fuel s' line acc p
                      else if Ascii.eqb c "]" then Some (kSeq line acc, s', p)
                      else Some (kSeq line acc, s, fail "expected ',' or ']' in flow sequence" line p)
                  | EmptyString =>
                      Some (kSeq line acc, s, fail "expected ',' or ']' in flow sequence" line p)
                  end
            end
      end
  end
with parse_flow_map (fuel : nat) (s : string) (line : Z) (acc : list (string * Node)) (p : Parser)
  : option (Node * string * Parser) :=
  match fuel with
  | O => None
  | S fuel =>
      let s := skip_blanks s in
      match s with
      | EmptyString => Some (kMap line acc, s, fail "unterminated flow mapping" line p)
      | String c s' =>
          if Ascii.eqb c "}" then Some (kMap line acc, s', p)
          else
            let '(t, s) := read_flow_scalar s in
            let key := unquote t in
            let s := skip_blanks s in
            match s with
            | String c s' =>
                if negb (Ascii.eqb c ":") then
                  Some (kMap line acc, s, fail "expected ':' in flow mapping" line p)
                else
                  match parse_flow_value fuel s' line p with
                  | None => None
                  | Some (v, s, p) =>
                      let acc := acc ++ [(key, v)] in
                      if negb (no_error p) then Some (kMap line acc, s, p)
                      else
                        let s := skip_blanks s in
                        match s with
                        | String c s' =>
                            if Ascii.eqb c "," then parse_flow_map fuel s' line acc p
                            else if Ascii.eqb c "}" then Some (kMap line acc, s', p)
                            else Some (kMap line acc, s,
                                       fail "expected ',' or '}' in flow mapping" line p)
                        | EmptyString =>
                            Some (kMap line acc, s,
                                  fail "expected ',' or '}' in flow mapping" line p)
                        end
                  end
            | EmptyString => Some (kMap line acc, s, fail "expected ':' in flow mapping" line p)
            end
      end
  end.

Definition flow_fuel (s : string) : nat := 2 * String.length s + 2.

Definition parse_flow (s : string) (line : Z) (p : Parser) : option (Node * Parser) :=
  match parse_flow_value (flow_fuel s) s line p with
  | None => None
  | Some (n, rest, p) =>
      Some (n, match skip_blanks rest with
               | EmptyString => p
               | _ => fail "trailing characters after flow collection" line p
               end)
  end.

(** ** Block collections *)

Definition line_at (p : Parser) (idx : nat) : option Line := lines_ p !! idx.

(** [lines_[idx].indent = indent; lines_[idx].text = text;] *)
Definition rewrite_line (p : Parser) (idx : nat) (indent : Z) (text : string) : Parser :=
  mkParser (alter (fun l => mkLine indent (ln_number l) text) idx (lines_ p))
    (error_ p) (error_line_ p).

Definition starts_flow (s : string) : bool := front_is "[" s || front_is "{" s.

(** [line] is the line the sequence or mapping starts at and [acc] what its
    loop has collected. *)
Fixpoint parse_block (fuel : nat) (idx : nat) (indent : Z) (p : Parser)
  : option (Node * nat * Parser) :=
  match fuel with
  | O => None
  | S fuel =>
      match line_at p idx with
      | None => Some (kNull 0, idx, p)
      | Some ln =>
          if is_seq_item (ln_text ln) then parse_seq fuel idx indent (ln_number ln) [] p
          else parse_map fuel idx indent (ln_number ln) [] p
      end
  end
with parse_seq (fuel : nat) (idx : nat) (indent line : Z) (acc : list Node) (p : Parser)
  : option (Node * nat * Parser) :=
  match fuel with
  | O => None
  | S fuel =>
      match line_at p idx with
      | None => Some (kSeq line acc, idx, p)
      | Some ln =>
          if negb (no_error p) then Some (kSeq line acc, idx, p)
          else if negb (ln_indent ln =? indent) || negb (is_seq_item (ln_text ln))
          then Some (kSeq line acc, idx, p)
          else
            let rest := trim (str_drop 1 (ln_text ln)) in
            let rest_col := indent + 2 in
            if String.eqb rest "" then
              match line_at p (S idx) with
              | Some next =>
                  if indent <? ln_indent next then
                    match parse_block fuel (S idx) (ln_indent next) p with
                    | None => None
                    | Some (v, idx, p) => parse_seq fuel idx indent line (acc ++ [v]) p
                    end
                  else parse_seq fuel (S idx) indent line (acc ++ [kNull (ln_number ln)]) p
              | None => parse_seq fuel (S idx) indent line (acc ++ [kNull (ln_number ln)]) p
              end
            else if starts_flow rest then
              match parse_flow rest (ln_number ln) p with
              | None => None
              | Some (v, p) => parse_seq fuel (S idx) indent line (acc ++ [v]) p
              end
            else
              match key_split rest with
              | Some _ =>
                  let p := rewrite_line p idx rest_col rest in
                  match parse_map fuel idx rest_col (ln_number ln) [] p with
                  | None => None
                  | Some (v, idx, p) => parse_seq fuel idx indent line (acc ++ [v]) p
                  end
              | None =>
                  let '(v, p) := make_scalar rest (ln_number ln) p in
                  parse_seq fuel (S idx) indent line (acc ++ [v]) p
              end
      end
  end
with parse_map (fuel : nat) (idx : nat) (indent line : Z) (acc : list (string * Node)) (p : Parser)
  : option (Node * nat * Parser) :=
  match fuel with
  | O => None
  | S fuel =>
      match line_at p idx with
      | None => Some (kMap line acc, idx, p)
      | Some ln =>
          if negb (ln_indent ln =? indent) then
            if ln_indent ln <? indent then Some (kMap line acc, idx, p)
            else Some (kMap line acc, idx, fail "unexpected indentation" (ln_number ln) p)
          else if is_seq_item (ln_text ln) then Some (kMap line acc, idx, p)
          else
            match key_split (ln_text ln) with
            | None => Some (kMap line acc, idx, fail "expected 'key: value'" (ln_number ln) p)
            | Some colon =>
                let key := unquote (str_take colon (ln_text ln)) in
                if String.eqb key "" then
                  Some (kMap line acc, idx, fail "empty key" (ln_number ln) p)
                else
                  let value := trim (str_drop (colon + 1) (ln_text ln)) in
                  let idx := S idx in
                  if negb (String.eqb value "") then
                    if starts_flow value then
                      match parse_flow value (ln_number ln) p with
                      | None => None
                      | Some (v, p) => parse_map fuel idx indent line (acc ++ [(key, v)]) p
                      end
                    else
                      let '(v, p) := make_scalar value (ln_number ln) p in
                      parse_map fuel idx indent line (acc ++ [(key, v)]) p
                  else
                    match line_at p idx with
                    | Some next =>
                        if indent <? ln_indent next then
                          match parse_block fuel idx (ln_indent next) p with
                          | None => None
                          | Some (v, idx, p) => parse_map fuel idx indent line (acc ++ [(key, v)]) p
                          end
                        else if (ln_indent next =? indent) && is_seq_item (ln_text next) then
                          match parse_seq fuel idx indent (ln_number next) [] p with
                          | None => None
                          | Some (v, idx, p) => parse_map fuel idx indent line (acc ++ [(key, v)]) p
                          end
                        else parse_map fuel idx indent line (acc ++ [(key, kNull (ln_number ln))]) p
                    | None => parse_map fuel idx indent line (acc ++ [(key, kNull (ln_number ln))]) p
                    end
            end
      end
  end.

Record ParseResult := mkResult { root : Node; error : string; error_line : Z }.
Definition result_ok (r : ParseResult) : bool :=
  match error r with EmptyString => true | _ => false end.

Definition block_fuel (p : Parser) : nat := 4 * length (lines_ p) + 3.

Definition run (p : Parser) : option ParseResult :=
  match line_at p 0 with
  | None => Some (mkResult (kNull 1) EmptyString 0)
  | Some first =>
      match parse_block (block_fuel p) 0 (ln_indent first) p with
      | None => None
      | Some (root, idx, p) =>
          if negb (no_error p) then Some (mkResult (kNull 0) (error_ p) (error_line_ p))
          else
            match line_at p idx with
            | Some ln => Some (mkResult (kNull 0) "unexpected content (check indentation)" (ln_number ln))
            | None => Some (mkResult root EmptyString 0)
            end
      end
  end.

Definition parse (text : string) : option ParseResult :=
  run (split_lines text (mkParser [] EmptyString 0)).

(** ** Typed accessors *)

(** The C string of a [std::string]: up to the first NUL. *)
Fixpoint c_str (s : string) : string :=
  match s with
  | EmptyString => EmptyString
  | String c s' => if Ascii.eqb c "000" then EmptyString else String c (c_str s')
  end.

Fixpoint despace (s : string) : string :=
  match s with
  | EmptyString => EmptyString
  | String c s' => if Ascii.eqb c "_" || Ascii.eqb c " " then despace s' else String c (despace s')
  end.

(** [None] stands for a missing number; the suffix is the text after it. *)
Definition parse_number (s : string) : option (double * string) :=
  match c_str (despace s) with
  | EmptyString => None
  | t =>
      match strtod t with
      | None => None
      | Some (v, suffix) => if is_finite v then Some (v, suffix) else None
      end
  end.

(** [strtol]/[strtoll] on 64 bits: [None] is [end == begin]; the result
    saturates.  [base] 0 selects 16, 8 or 10 by the prefix. *)
Definition oct_digit (c : ascii) : option Z :=
  match dec_digit c with Some d => if d <? 8 then Some d else None | None => None end.
Definition saturate (neg : bool) (v : Z) : Z :=
  if neg then Z.max (- v) (- 2 ^ 63) else Z.min v (2 ^ 63 - 1).
Definition strtoll (s0 : string) (base0 : bool) : option (Z * string) :=
  let '(neg, s) := scan_sign (drop_while is_space s0) in
  let digits dig base t :=
    let '(v, n, rest) := scan_digits dig base t 0 0 in
    if n =? 0 then None else Some (saturate neg v, rest) in
  if base0 && front_is "0" s then
    match str_drop 1 s with
    | String x t =>
        if Ascii.eqb (tolower x) "x" then
          match digits hex_digit 16 t with
          | Some r => Some r
          | None => Some (0, str_drop 1 s)
          end
        else digits oct_digit 8 s
    | EmptyString => digits oct_digit 8 s
    end
  else digits dec_digit 10 s.

Definition as_int (n : Node) : option Z :=
  match n with
  | kScalar _ s =>
      match strtoll (c_str (despace s)) true with
      | Some (v, EmptyString) => Some v
      | _ => None
      end
  | _ => None
  end.

Definition as_uint (n : Node) : option Z :=
  match as_int n with
  | Some v => if v <? 0 then None else Some v
  | None => None
  end.

Definition as_double (n : Node) : option double :=
  match n with
  | kScalar _ s =>
      match parse_number s with
      | Some (v, EmptyString) => Some v
      | _ => None
      end
  | _ => None
  end.

Definition as_bool (n : Node) : option bool :=
  match n with
  | kScalar _ s =>
      if iequals s "true" || iequals s "yes" || iequals s "on" || String.eqb s "1" then Some true
      else if iequals s "false" || iequals s "no" || iequals s "off" || String.eqb s "0"
      then Some false
      else None
  | _ => None
  end.

Definition dzero : double := DFin 0 0.

(** The common prefix of the unit accessors: a finite number that is not
    negative, and its suffix. *)
Definition unit_number (n : Node) : option (double * string) :=
  match n with
  | kScalar _ s =>
      match parse_number s with
      | Some (v, suffix) => if dltb v dzero then None else Some (v, suffix)
      | None => None
      end
  | _ => None
  end.

(** [static_cast] of a double that the caller has bounded above. *)
Definition bounded_trunc (limit : double) (x : double) : option Z :=
  if dltb limit x then None else Some (dtrunc x).

Definition byte_unit (suffix : string) : option Z :=
  if String.eqb suffix "" || iequals suffix "B" then Some 1
  else if iequals suffix "KB" then Some (10 ^ 3)
  else if iequals suffix "MB" then Some (10 ^ 6)
  else if iequals suffix "GB" then Some (10 ^ 9)
  else if iequals suffix "TB" then Some (10 ^ 12)
  else if iequals suffix "KiB" then Some (2 ^ 10)
  else if iequals suffix "MiB" then Some (2 ^ 20)
  else if iequals suffix "GiB" then Some (2 ^ 30)
  else if iequals suffix "TiB" then Some (2 ^ 40)
  else None.

Definition as_bytes (n : Node) : option Z :=
  match unit_number n with
  | None => None
  | Some (v, suffix) =>
      match byte_unit suffix with
      | None => None
      | Some mult => bounded_trunc (dlit 18 18) (dmul v (double_of_Z mult))
      end
  end.

Definition as_kbps (n : Node) : option Z :=
  match unit_number n with
  | None => None
  | Some (v, suffix) =>
      let limit := dlit 429 7 in
      if String.eqb suffix "" || iequals suffix "kbps" || iequals suffix "kb/s"
      then bounded_trunc limit v
      else if iequals suffix "bps" then bounded_trunc limit (ddiv v (double_of_Z 1000))
      else if iequals suffix "Mbps" || iequals suffix "Mb/s"
      then bounded_trunc limit (dmul v (double_of_Z 1000))
      else if iequals suffix "Gbps" || iequals suffix "Gb/s"
      then bounded_trunc limit (dmul v (double_of_Z 1000000))
      else None
  end.

Definition as_seconds (n : Node) : option Z :=
  match unit_number n with
  | None => None
  | Some (v, suffix) =>
      let limit := dlit 429 7 in
      if String.eqb suffix "" || String.eqb suffix "s" || iequals suffix "sec"
      then bounded_trunc limit v
      else if String.eqb suffix "m" || iequals suffix "min"
      then bounded_trunc limit (dmul v (double_of_Z 60))
      else if String.eqb suffix "h" || iequals suffix "hr"
      then bounded_trunc limit (dmul v (double_of_Z 3600))
      else if String.eqb suffix "d" || iequals suffix "day"
      then bounded_trunc limit (dmul v (double_of_Z 86400))
      else None
  end.

(** [strtol(..., nullptr, 10)]: 0 when there is no number. *)
Definition strtol10 (s : string) : Z :=
  match strtoll (c_str s) false with Some (v, _) => v | None => 0 end.

Definition as_time_of_day (n : Node) : option Z :=
  match n with
  | kScalar _ s =>
      match split_at_char ":" s with
      | None => None
      | Some (a, b) =>
          let h := strtol10 a in
          let m := strtol10 b in
          if (h <? 0) || (23 <? h) || (m <? 0) || (59 <? m) then None
          else Some (u16 (h * 60 + m))
      end
  | _ => None
  end.

Definition as_permille (n : Node) : option Z :=
  match unit_number n with
  | None => None
  | Some (v, suffix) =>
      let finish permille :=
        if dltb (double_of_Z 100000) permille then None
        else Some (dtrunc (dadd permille (dlit 5 (-1)))) in
      if String.eqb suffix "%" then finish (dmul v (double_of_Z 10))
      else if String.eqb suffix "" && dleb v (double_of_Z 1)
      then finish (dmul v (double_of_Z 1000))
      else if String.eqb suffix "" then finish (dmul v (double_of_Z 10))
      else None
  end.

(** ** Termination and error positions *)

Lemma drop_while_length q s : (String.length (drop_while q s) <= String.length s)%nat.
Proof. induction s as [|c s IH]; simpl; [done|]. destruct (q c); simpl; lia. Qed.

Lemma read_flow_scalar_length s : (String.length (read_flow_scalar s).2 <= String.length s)%nat.
Proof.
  unfold read_flow_scalar. generalize false at 1 as ins. generalize false as ind.
  induction s as [|c s IH]; intros ind ins; simpl; [done|].
  assert (forall a b, (String.length
    (let '(t, rest) := let '(t, rest) := read_flow_scalar_loop s a b in (String c t, rest) in
     (rtrim t, rest)).2 <= S (String.length s))%nat) as H.
  { intros a b. specialize (IH b a). destruct (read_flow_scalar_loop s a b). simpl in *. lia. }
  repeat case_match; simplify_eq; simpl; try lia;
    match goal with E : read_flow_scalar_loop s ?a ?b = _ |- _ =>
      specialize (H a b); rewrite E in H; exact H end.
Qed.

(** The recorded error, if any, is at a line that satisfies [ok]. *)
Definition err_in (ok : Z -> Prop) (p : Parser) : Prop :=
  no_error p = false -> ok (error_line_ p).

(** From [p] to [p'] no line changed and an error can only have been added at
    [line]. *)
Definition flow_step (line : Z) (p p' : Parser) : Prop :=
  lines_ p' = lines_ p /\ forall ok : Z -> Prop, ok line -> err_in ok p -> err_in ok p'.

Lemma flow_step_refl line p : flow_step line p p.
Proof. by split. Qed.
Lemma flow_step_trans line p q r : flow_step line p q -> flow_step line q r -> flow_step line p r.
Proof. intros [E1 H1] [E2 H2]. split; [congruence|auto]. Qed.
Lemma flow_step_fail line msg p : flow_step line p (fail msg line p).
Proof.
  unfold fail, flow_step, err_in. destruct (no_error p) eqn:E; [|by split; auto]. split; [done|].
  by intros ok Hl _ _.
Qed.
Lemma flow_step_make_scalar s line p : flow_step line p (make_scalar s line p).2.
Proof.
  unfold make_scalar. repeat case_match; simpl; auto using flow_step_refl, flow_step_fail.
Qed.
#[local] Hint Resolve flow_step_refl flow_step_fail flow_step_make_scalar : core.

(** The result of a flow function: it returned, consumed from [s] only, and
    changed the state by a [flow_step]. *)
Definition flow_post (s : string) (line : Z) (p : Parser) (r : option (Node * string * Parser))
  : Prop :=
  exists n rest p', r = Some (n, rest, p') /\ (String.length rest <= String.length s)%nat /\
    flow_step line p p'.

Lemma flow_post_weaken s s' line p p' r : (String.length s' <= String.length s)%nat ->
  flow_step line p p' -> flow_post s' line p' r -> flow_post s line p r.
Proof.
  intros Hl Hs (n & rest & p'' & -> & Hr & Hs'). exists n, rest, p''. split; [done|].
  split; [lia|]. by eapply flow_step_trans.
Qed.

Lemma flow_post_ret n s rest line p p' : (String.length rest <= String.length s)%nat ->
  flow_step line p p' -> flow_post s line p (Some (n, rest, p')).
Proof. intros. by exists n, rest, p'. Qed.

Lemma skip_blanks_cons s c s' : skip_blanks s = String c s' ->
  (S (String.length s') <= String.length s)%nat.
Proof. intros E. pose proof (drop_while_length is_blank s). unfold skip_blanks in E. rewrite E in H. done. Qed.

(** Enough fuel for a suffix of length [n] is [2 * n + 1] for a value and
    [2 * n + 2] for the rest of a collection. *)
Lemma flow_total fuel : forall s line p,
  ((2 * String.length s + 1 <= fuel)%nat -> flow_post s line p (parse_flow_value fuel s line p)) /\
  (forall acc, (2 * String.length s + 2 <= fuel)%nat ->
     flow_post s line p (parse_flow_seq fuel s line acc p)) /\
  (forall acc, (2 * String.length s + 2 <= fuel)%nat ->
     flow_post s line p (parse_flow_map fuel s line acc p)).
Proof.
  induction fuel as [|fuel IH]; intros s line p; [split; [|split]; intros; lia|].
  pose proof (drop_while_length is_blank s) as Hb. fold (skip_blanks s) in Hb.
  split; [|split]; [intros Hf|intros acc Hf..]; cbn [parse_flow_value parse_flow_seq parse_flow_map];
    destruct (skip_blanks s) as [|c s'] eqn:E;
    try (apply flow_post_ret; [simpl; lia|by auto]); pose proof (skip_blanks_cons s c s' E) as Hc.
  - destruct (Ascii.eqb c "[").
    { apply (flow_post_weaken s s' line p p); [lia|done|]. apply (IH s' line p). lia. }
    destruct (Ascii.eqb c "{").
    { apply (flow_post_weaken s s' line p p); [lia|done|]. apply (IH s' line p). lia. }
    pose proof (read_flow_scalar_length (String c s')) as Hr.
    destruct (read_flow_scalar (String c s')) as [t rest].
    pose proof (flow_step_make_scalar t line p). destruct (make_scalar t line p) as [n p'].
    apply flow_post_ret; [simpl in *; lia|done].
  - destruct (Ascii.eqb c "]"); [apply flow_post_ret; [lia|done]|].
    destruct (IH (String c s') line p) as [(v & s1 & p1 & -> & Hl1 & S1) _]; [simpl; lia|].
    simpl in Hl1. destruct (negb (no_error p1)); [apply flow_post_ret; [lia|done]|].
    destruct (skip_blanks s1) as [|c2 s2] eqn:E2.
    { apply flow_post_ret; [simpl; lia|]. eapply flow_step_trans; [done|auto]. }
    apply skip_blanks_cons in E2 as Hc2.
    destruct (Ascii.eqb c2 ",").
    { apply (flow_post_weaken s s2 line p p1); [lia|done|]. apply (IH s2 line p1). lia. }
    destruct (Ascii.eqb c2 "]"); apply flow_post_ret; try (simpl; lia); [done|].
    eapply flow_step_trans; [done|auto].
  - destruct (Ascii.eqb c "}"); [apply flow_post_ret; [lia|done]|].
    pose proof (read_flow_scalar_length (String c s')) as Hr.
    destruct (read_flow_scalar (String c s')) as [t s0]. simpl in Hr.
    destruct (skip_blanks s0) as [|c0 s1] eqn:E0; [apply flow_post_ret; [simpl; lia|by auto]|].
    apply skip_blanks_cons in E0 as Hc0.
    destruct (negb (Ascii.eqb c0 ":")); [apply flow_post_ret; [simpl; lia|by auto]|].
    destruct (IH s1 line p) as [(v & s2 & p1 & -> & Hl1 & S1) _]; [lia|].
    destruct (negb (no_error p1)); [apply flow_post_ret; [lia|done]|].
    destruct (skip_blanks s2) as [|c2 s3] eqn:E2.
    { apply flow_post_ret; [simpl; lia|]. eapply flow_step_trans; [done|auto]. }
    apply skip_blanks_cons in E2 as Hc2.
    destruct (Ascii.eqb c2 ",").
    { apply (flow_post_weaken s s3 line p p1); [lia|done|]. apply (IH s3 line p1). lia. }
    destruct (Ascii.eqb c2 "}"); apply flow_post_ret; try (simpl; lia); [done|].
    eapply flow_step_trans; [done|auto].
Qed.

Lemma parse_flow_total s line p :
  exists n p', parse_flow s line p = Some (n, p') /\ flow_step line p p'.
Proof.
  unfold parse_flow, flow_fuel.
  destruct (flow_total (2 * String.length s + 2) s line p) as [(n & rest & p' & -> & _ & S) _];
    [lia|].
  do 2 eexists. split; [done|]. case_match; [done|]. eapply flow_step_trans; [done|auto].
Qed.

(** From [p] to [p'] the line numbers are the same and an error can only have
    been added at the number of one of the lines. *)
Definition block_step (p p' : Parser) : Prop :=
  ln_number <$> lines_ p' = ln_number <$> lines_ p /\
  forall ok : Z -> Prop, Forall ok (ln_number <$> lines_ p) -> err_in ok p -> err_in ok p'.

Lemma block_step_refl p : block_step p p.
Proof. by split. Qed.
Lemma block_step_trans p q r : block_step p q -> block_step q r -> block_step p r.
Proof.
  intros [E1 H1] [E2 H2]. split; [congruence|]. intros ok F ?. apply H2; [by rewrite E1|auto].
Qed.
Lemma block_step_length p p' : block_step p p' -> length (lines_ p') = length (lines_ p).
Proof. intros [E _]. by rewrite <- (length_fmap ln_number), E, length_fmap. Qed.

Lemma flow_block_step p p' idx ln : line_at p idx = Some ln ->
  flow_step (ln_number ln) p p' -> block_step p p'.
Proof.
  intros Hl [E H]. split; [by rewrite E|]. intros ok F. apply H.
  rewrite Forall_forall in F. apply F. apply list_elem_of_fmap. exists ln.
  split; [done|]. by eapply list_elem_of_lookup_2.
Qed.

Lemma rewrite_block_step p idx indent text : block_step p (rewrite_line p idx indent text).
Proof.
  unfold rewrite_line. split; [|done]. simpl.
  apply list_eq. intros i. rewrite !list_lookup_fmap, list_lookup_alter.
  case_decide as E; [subst i|done]. by destruct (lines_ p !! _).
Qed.

(** The result of a block function started at line [idx]: it returned, it did not
    move back, and the state changed by a [block_step]. *)
Definition block_post (idx : nat) (p : Parser) (r : option (Node * nat * Parser)) : Prop :=
  exists n idx' p', r = Some (n, idx', p') /\ (idx <= idx')%nat /\ block_step p p'.

Lemma block_post_ret n idx idx' p p' : (idx <= idx')%nat -> block_step p p' ->
  block_post idx p (Some (n, idx', p')).
Proof. intros. by exists n, idx', p'. Qed.

Lemma block_post_weaken idx idx' p p' r : (idx <= idx')%nat -> block_step p p' ->
  block_post idx' p' r -> block_post idx p r.
Proof.
  intros Hi Hs (n & i & p'' & -> & Hle & Hs'). exists n, i, p''. split; [done|].
  split; [lia|]. by eapply block_step_trans.
Qed.

(** A mapping parsed at a line it does not consume leaves the lines alone. *)
Definition map_post (idx : nat) (p : Parser) (r : option (Node * nat * Parser)) : Prop :=
  exists n idx' p', r = Some (n, idx', p') /\ (idx <= idx')%nat /\ block_step p p' /\
    (idx' = idx -> lines_ p' = lines_ p).

Lemma map_post_block idx p r : map_post idx p r -> block_post idx p r.
Proof. intros (n & i & p' & H1 & H2 & H3 & _). by exists n, i, p'. Qed.

Lemma map_post_later idx idx' p p' r : (idx < idx')%nat -> block_step p p' ->
  block_post idx' p' r -> map_post idx p r.
Proof.
  intros Hi Hs (n & i & p'' & -> & Hle & Hs'). exists n, i, p''. split; [done|].
  split; [lia|]. split; [by eapply block_step_trans|lia].
Qed.

Lemma map_post_ret n idx p p' : lines_ p' = lines_ p -> block_step p p' ->
  map_post idx p (Some (n, idx, p')).
Proof. intros. by exists n, idx, p'. Qed.

#[local] Hint Resolve block_step_refl : core.

(** What every call with enough fuel does, at one level of fuel. *)
Definition blocks_total (fuel : nat) : Prop := forall idx indent p,
  ((4 * (length (lines_ p) - idx) + 3 <= fuel)%nat ->
     block_post idx p (parse_block fuel idx indent p)) /\
  (forall line acc, (4 * (length (lines_ p) - idx) + 2 <= fuel)%nat ->
     block_post idx p (parse_seq fuel idx indent line acc p)) /\
  (forall line acc, (4 * (length (lines_ p) - idx) + 1 <= fuel)%nat ->
     map_post idx p (parse_map fuel idx indent line acc p)).

(** Continuing a sequence or a mapping strictly after [idx]. *)
Lemma seq_continue fuel idx idx' indent line acc p p' : blocks_total fuel ->
  (4 * (length (lines_ p) - idx) + 2 <= S fuel)%nat -> (idx < length (lines_ p))%nat ->
  (idx < idx')%nat -> block_step p p' ->
  block_post idx p (parse_seq fuel idx' indent line acc p').
Proof.
  intros IH Hf Hlen Hlt Hs. apply (block_post_weaken idx idx' p p'); [lia|done|].
  apply (IH idx' indent p'). rewrite (block_step_length p p' Hs). lia.
Qed.

Lemma map_continue fuel idx idx' indent line acc p p' : blocks_total fuel ->
  (4 * (length (lines_ p) - idx) + 1 <= S fuel)%nat -> (idx < length (lines_ p))%nat ->
  (idx < idx')%nat -> block_step p p' ->
  map_post idx p (parse_map fuel idx' indent line acc p').
Proof.
  intros IH Hf Hlen Hlt Hs. apply (map_post_later idx idx' p p'); [lia|done|].
  apply map_post_block, (IH idx' indent p'). rewrite (block_step_length p p' Hs). lia.
Qed.

Lemma seq_step fuel idx indent line acc p : blocks_total fuel ->
  (4 * (length (lines_ p) - idx) + 2 <= S fuel)%nat ->
  block_post idx p (parse_seq (S fuel) idx indent line acc p).
Proof.
  intros IH Hf. cbn [parse_seq]. destruct (line_at p idx) as [ln|] eqn:E;
    [|by apply block_post_ret].
  assert (idx < length (lines_ p))%nat as Hlen by (by eapply lookup_lt_Some).
  destruct (negb (no_error p)); [by apply block_post_ret|].
  destruct (negb (ln_indent ln =? indent) || negb (is_seq_item (ln_text ln))) eqn:Ei;
    [by apply block_post_ret|].
  set (rest := trim _). destruct (String.eqb rest "").
  { assert (block_post idx p (parse_seq fuel (S idx) indent line
      (acc ++ [kNull (ln_number ln)]) p)) by (by apply seq_continue; auto).
    destruct (line_at p (S idx)) as [next|]; [|done]. destruct (indent <? ln_indent next); [|done].
    destruct (IH (S idx) (ln_indent next) p) as [(v & i & p1 & -> & Hi & S1) _]; [lia|].
    apply seq_continue; (done || lia). }
  destruct (starts_flow rest).
  { destruct (parse_flow_total rest (ln_number ln) p) as (v & p1 & -> & S1).
    apply seq_continue; try (done || lia). by eapply flow_block_step. }
  destruct (key_split rest).
  { pose proof (rewrite_block_step p idx (indent + 2) rest) as Sw.
    destruct (IH idx (indent + 2) (rewrite_line p idx (indent + 2) rest))
      as (_ & _ & Hm). destruct (Hm (ln_number ln) []) as (v & i & p1 & -> & Hi & S1 & Hsame).
    { rewrite (block_step_length _ _ Sw). lia. }
    assert (block_step p p1) as S2 by (by eapply block_step_trans).
    destruct (decide (i = idx)) as [->|Hne]; [|apply seq_continue; (done || lia)].
    destruct fuel as [|fuel]; [lia|]. cbn [parse_seq].
    assert (line_at p1 idx = Some (mkLine (indent + 2) (ln_number ln) rest)) as ->.
    { unfold line_at in *. rewrite Hsame by done. unfold rewrite_line. simpl.
      by rewrite list_lookup_alter_eq, E. }
    destruct (negb (no_error p1)); [by apply block_post_ret|]. simpl.
    destruct (Z.eqb_spec (indent + 2) indent); [lia|]. by apply block_post_ret. }
  pose proof (flow_step_make_scalar rest (ln_number ln) p) as S1.
  destruct (make_scalar rest (ln_number ln) p) as [v p1].
  apply seq_continue; try (done || lia). by eapply flow_block_step.
Qed.

Lemma map_step fuel idx indent line acc p : blocks_total fuel ->
  (4 * (length (lines_ p) - idx) + 1 <= S fuel)%nat ->
  map_post idx p (parse_map (S fuel) idx indent line acc p).
Proof.
  intros IH Hf. cbn [parse_map]. destruct (line_at p idx) as [ln|] eqn:E;
    [|by apply map_post_ret].
  assert (idx < length (lines_ p))%nat as Hlen by (by eapply lookup_lt_Some).
  assert (forall msg, map_post idx p (Some (kMap line acc, idx, fail msg (ln_number ln) p))) as Hfail.
  { intros msg. pose proof (flow_step_fail (ln_number ln) msg p) as S.
    apply map_post_ret; [apply S|]. by eapply flow_block_step. }
  destruct (negb _); [destruct (_ <? _); [by apply map_post_ret|done]|].
  destruct (is_seq_item _); [by apply map_post_ret|].
  destruct (key_split _) as [colon|]; [|done].
  set (key := unquote _). destruct (String.eqb key ""); [done|].
  set (value := trim _). destruct (negb _).
  { destruct (starts_flow value).
    - destruct (parse_flow_total value (ln_number ln) p) as (v & p1 & -> & S1).
      apply map_continue; try (done || lia). by eapply flow_block_step.
    - pose proof (flow_step_make_scalar value (ln_number ln) p) as S1.
      destruct (make_scalar value (ln_number ln) p) as [v p1].
      apply map_continue; try (done || lia). by eapply flow_block_step. }
  assert (map_post idx p (parse_map fuel (S idx) indent line
    (acc ++ [(key, kNull (ln_number ln))]) p)) by (by apply map_continue; auto).
  destruct (line_at p (S idx)) as [next|]; [|done].
  destruct (indent <? ln_indent next).
  { destruct (IH (S idx) (ln_indent next) p) as [(v & i & p1 & -> & Hi & S1) _]; [lia|].
    apply map_continue; (done || lia). }
  destruct (_ && _); [|done].
  destruct (IH (S idx) indent p) as (_ & Hs & _).
  destruct (Hs (ln_number next) []) as (v & i & p1 & -> & Hi & S1); [lia|].
  apply map_continue; (done || lia).
Qed.

Lemma blocks_total_all fuel : blocks_total fuel.
Proof.
  induction fuel as [|fuel IH]; intros idx indent p; [split; [|split]; intros; lia|].
  split; [|split; intros; [by apply seq_step|by apply map_step]].
  intros Hf. cbn [parse_block]. destruct (line_at p idx) as [ln|]; [|by apply block_post_ret].
  destruct (is_seq_item _); [|apply map_post_block]; apply (IH idx indent p); lia.
Qed.

(** The numbers the line splitter gives out are those of the text. *)
Lemma split_lines_spec raws number p N : 0 <= number ->
  number + Z.of_nat (length raws) <= N ->
  Forall (fun l => 1 <= ln_number l <= N) (lines_ p) -> err_in (fun l => 1 <= l <= N) p ->
  Forall (fun l => 1 <= ln_number l <= N) (lines_ (split_lines_loop raws number p)) /\
  err_in (fun l => 1 <= l <= N) (split_lines_loop raws number p).
Proof.
  revert number p. induction raws as [|raw raws IH]; intros number p H0 HN F E; simpl; [done|].
  simpl in HN. destruct (scan_indent raw 0) as [[indent rest]|].
  - apply IH; [lia..| |].
    + case_match; [|done]. simpl. apply Forall_app. split; [done|]. repeat constructor; simpl; lia.
    + by case_match.
  - pose proof (flow_step_fail (number + 1) "tab used for indentation; YAML requires spaces" p) as [S1 S2].
    rewrite S1. split; [done|]. apply S2; [lia|done].
Qed.

(** [run] ends within the fuel [block_fuel] gives it; where its errors point. *)
Lemma parse_returns text : exists r, parse text = Some r /\
  (result_ok r = false -> 1 <= error_line r <= Z.of_nat (length (split_newlines text))).
Proof.
  unfold parse. set (N := Z.of_nat (length (split_newlines text))).
  set (p := split_lines text _).
  assert (Forall (fun l => 1 <= ln_number l <= N) (lines_ p) /\ err_in (fun l => 1 <= l <= N) p)
    as [F E] by (by apply split_lines_spec).
  clearbody p. unfold run. destruct (line_at p 0) as [first|] eqn:E0; [|by eexists].
  destruct (blocks_total_all (block_fuel p) 0%nat (ln_indent first) p) as [(n & i & p' & -> & _ & S) _];
    [unfold block_fuel; lia|].
  destruct S as [Snum Serr].
  assert (Forall (fun l => 1 <= l <= N) (ln_number <$> lines_ p)) as F' by (by apply Forall_fmap).
  destruct (no_error p') eqn:Ne; cbn [negb].
  - destruct (line_at p' i) as [ln|] eqn:El; [|by eexists].
    eexists. split; [done|]. intros _. simpl. rewrite <- Snum in F'.
    rewrite Forall_fmap, Forall_forall in F'. apply (F' ln). by eapply list_elem_of_lookup_2.
  - eexists. split; [done|]. intros _. simpl. by apply Serr.
Qed.

(** C22: Parsing terminates on every text, and every syntax error it reports
    carries the number of a line of that text. *)
Theorem parse_total text : exists r, parse text = Some r /\
  (result_ok r = false -> 1 <= error_line r <= Z.of_nat (length (split_newlines text))).
Proof. apply parse_returns. Qed.

(** ** Ranges of the accessors *)

Definition dnonneg (x : double) : Prop :=
  match x with DFin m _ => 0 <= m | DInf s => s = false | DNaN => False end.

Lemma round_q_nonneg num den : 0 <= num -> 0 < den -> dnonneg (round_q false num den).
Proof.
  intros Hn Hd. unfold round_q. case_match; [done|]. case_match; [done|]. simpl.
  unfold round_div_even.
  set (a := num * _). set (b := den * _).
  assert (0 <= a) by (apply Z.mul_nonneg_nonneg; [done|apply Z.pow_nonneg; lia]).
  assert (0 < b) by (apply Z.mul_pos_pos; [done|apply pow2_pos; lia]).
  assert (0 <= a / b) by (by apply Z.div_pos). repeat case_match; lia.
Qed.

Lemma dmul_nonneg m1 e1 m2 e2 : 0 <= m1 -> 0 <= m2 -> dnonneg (dmul (DFin m1 e1) (DFin m2 e2)).
Proof.
  intros H1 H2. cbn [dmul]. destruct (Z.ltb_spec (m1 * m2) 0); [nia|].
  apply round_q_nonneg; [|apply pow2_pos; lia].
  apply Z.mul_nonneg_nonneg; [lia|apply Z.pow_nonneg; lia].
Qed.

Lemma ddiv_nonneg m1 e1 m2 e2 : 0 <= m1 -> 0 < m2 -> dnonneg (ddiv (DFin m1 e1) (DFin m2 e2)).
Proof.
  intros H1 H2. cbn [ddiv]. destruct (Z.eqb_spec m2 0); [lia|].
  destruct (Z.ltb_spec (m1 * m2) 0); [nia|].
  apply round_q_nonneg.
  - apply Z.mul_nonneg_nonneg; [lia|apply Z.pow_nonneg; lia].
  - apply Z.mul_pos_pos; [lia|apply pow2_pos; lia].
Qed.

Lemma bounded_trunc_range limit K x v : dval limit K 0 -> dnonneg x ->
  bounded_trunc limit x = Some v -> 0 <= v <= K.
Proof.
  intros HK Hx. unfold bounded_trunc. destruct (dltb limit x) eqn:E; [done|]. intros [= <-].
  destruct x as [m e|s|]; [|destruct HK as (? & ? & -> & _); simpl in *; subst; done|done].
  rewrite (dltb_exact _ _ _ _ _ _ (Z.abs e) HK (dval_refl m e)) in E by lia.
  apply Z.ltb_ge in E. simpl in *. rewrite Z.add_0_l in E.
  destruct (Z.le_ge_cases 0 e).
  - rewrite (Z.max_l e 0), (Z.max_r (- e) 0), Z.pow_0_r, Z.quot_1_r by lia.
    pose proof (pow2_pos e ltac:(lia)). split; [nia|].
    rewrite Z.abs_eq, Z.pow_add_r, Z.mul_assoc in E by lia.
    by apply Z.mul_le_mono_pos_r in E.
  - rewrite (Z.max_r e 0), (Z.max_l (- e) 0), Z.pow_0_r, Z.mul_1_r by lia.
    rewrite Z.abs_neq in E by lia. replace (e + - e) with 0 in E by lia.
    pose proof (pow2_pos (- e) ltac:(lia)). rewrite Z.quot_div_nonneg by lia.
    split; [apply Z.div_pos; lia|]. apply Z.div_le_upper_bound; lia.
Qed.

Lemma unit_number_nonneg n v suffix : unit_number n = Some (v, suffix) ->
  exists m e, v = DFin m e /\ 0 <= m.
Proof.
  unfold unit_number, parse_number. destruct n as [|l s| |]; try done.
  destruct (c_str (despace s)) as [|c t]; [done|].
  destruct (strtod (String c t)) as [[w sf]|]; [|done].
  destruct w as [m e|s'|]; simpl; try done. unfold dzero, dltb. intros H.
  destruct (Z.ltb_spec (m * 2 ^ (e - Z.min e 0)) (0 * 2 ^ (0 - Z.min e 0))) as [|Hge]; [done|].
  injection H as <- <-. exists m, e. split; [done|].
  pose proof (pow2_pos (e - Z.min e 0) ltac:(lia)). nia.
Qed.

Lemma limit_bytes : dval (dlit 18 18) 18000000000000000000 0.
Proof.
  exists 8789062500000000, 11. split; [vm_compute; reflexivity|]. intros N HN HN0.
  rewrite Z.pow_add_r, Z.add_0_l by lia. lia.
Qed.

Lemma limit_32 : dval (dlit 429 7) 4290000000 0.
Proof.
  exists 8996782080000000, (-21). split; [vm_compute; reflexivity|]. intros N HN HN0.
  rewrite Z.add_0_l. replace N with (-21 + N + 21) at 2 by lia.
  rewrite (Z.pow_add_r 2 (-21 + N) 21) by lia. lia.
Qed.

Lemma byte_unit_range suffix mult : byte_unit suffix = Some mult -> 1 <= mult < 2 ^ 53.
Proof.
  unfold byte_unit. intros H.
  repeat match type of H with (if ?b then _ else _) = _ =>
    destruct b; [injection H as <-; lia|] end. done.
Qed.

Lemma dval_nonneg x c t : dval x c t -> 0 <= c -> exists m e, x = DFin m e /\ 0 <= m.
Proof.
  intros (m & e & -> & E) Hc. exists m, e. split; [done|].
  specialize (E (Z.abs e + Z.abs t) ltac:(lia) ltac:(lia)).
  pose proof (pow2_pos (e + (Z.abs e + Z.abs t)) ltac:(lia)).
  pose proof (pow2_pos (t + (Z.abs e + Z.abs t)) ltac:(lia)). nia.
Qed.

Lemma as_bytes_range n v : as_bytes n = Some v -> fits 64 v.
Proof.
  unfold as_bytes. destruct (unit_number n) as [[x suffix]|] eqn:E; [|done].
  destruct (byte_unit suffix) as [mult|] eqn:B; [|done]. intros H.
  destruct (unit_number_nonneg _ _ _ E) as (m & e & -> & Hm). apply byte_unit_range in B.
  destruct (dval_nonneg _ _ _ (double_of_Z_exact mult ltac:(lia)) ltac:(lia))
    as (m2 & e2 & Hd & Hm2).
  rewrite Hd in H. apply (bounded_trunc_range _ _ _ _ limit_bytes) in H; [unfold fits; lia|].
  by apply dmul_nonneg.
Qed.

Lemma double_of_Z_pos k : 0 < k < 2 ^ 53 -> exists m e, double_of_Z k = DFin m e /\ 0 < m.
Proof.
  intros Hk. destruct (double_of_Z_exact k ltac:(lia)) as (m & e & E & V). exists m, e.
  split; [done|]. specialize (V (Z.abs e) ltac:(lia) ltac:(lia)).
  pose proof (pow2_pos (e + Z.abs e) ltac:(lia)). pose proof (pow2_pos (0 + Z.abs e) ltac:(lia)). nia.
Qed.

(** The scaled number of the rate and duration accessors. *)
Lemma scaled_nonneg m e k : 0 <= m -> 0 < k < 2 ^ 53 ->
  dnonneg (dmul (DFin m e) (double_of_Z k)) /\ dnonneg (ddiv (DFin m e) (double_of_Z k)).
Proof.
  intros Hm Hk. destruct (double_of_Z_pos k Hk) as (m2 & e2 & -> & H2).
  split; [apply dmul_nonneg; lia|by apply ddiv_nonneg].
Qed.

Ltac scaled_range H :=
  repeat match type of H with (if ?b then _ else _) = _ =>
    destruct b; [apply (bounded_trunc_range _ _ _ _ limit_32) in H;
      [unfold fits; lia|first [assumption|apply scaled_nonneg; [assumption|lia]]]|] end;
  discriminate H.

Lemma as_kbps_range n v : as_kbps n = Some v -> fits 32 v.
Proof.
  unfold as_kbps. destruct (unit_number n) as [[x suffix]|] eqn:E; [|done].
  destruct (unit_number_nonneg _ _ _ E) as (m & e & -> & Hm). intros H. scaled_range H.
Qed.

Lemma as_seconds_range n v : as_seconds n = Some v -> fits 32 v.
Proof.
  unfold as_seconds. destruct (unit_number n) as [[x suffix]|] eqn:E; [|done].
  destruct (unit_number_nonneg _ _ _ E) as (m & e & -> & Hm). intros H. scaled_range H.
Qed.

Lemma as_time_of_day_range n v : as_time_of_day n = Some v -> 0 <= v < 1440.
Proof.
  unfold as_time_of_day. destruct n as [|l s| |]; try done.
  destruct (split_at_char ":" s) as [[a b]|]; [|done].
  destruct (_ || _) eqn:E; [done|]. bool_to_prop. intros [= <-].
  rewrite wrap_id by (split; lia). lia.
Qed.

Lemma saturate_range neg v : 0 <= v -> - 2 ^ 63 <= saturate neg v < 2 ^ 63.
Proof. intros. unfold saturate. case_match; lia. Qed.

Lemma scan_digits_nonneg dig base s v n : (forall c d, dig c = Some d -> 0 <= d) -> 0 <= base ->
  0 <= v -> 0 <= (scan_digits dig base s v n).1.1.
Proof.
  intros Hd Hb. revert v n. induction s as [|c s IH]; intros v n Hv; simpl; [done|].
  destruct (dig c) as [d|] eqn:E; [|done]. apply IH. pose proof (Hd c d E). nia.
Qed.

Lemma dec_digit_nonneg c d : dec_digit c = Some d -> 0 <= d.
Proof.
  unfold dec_digit. destruct (is_digit c) eqn:E; [|done]. intros [= <-].
  apply is_digit_range in E. lia.
Qed.

Lemma as_int_range n v : as_int n = Some v -> - 2 ^ 63 <= v < 2 ^ 63.
Proof.
  destruct n as [|l s| |]; try done. cbn [as_int]. unfold strtoll.
  destruct (scan_sign _) as [neg t].
  assert (forall dig base u, (forall c d, dig c = Some d -> 0 <= d) -> 0 <= base ->
    forall w r, (let '(v, n, rest) := scan_digits dig base u 0 0 in
      if n =? 0 then None else Some (saturate neg v, rest)) = Some (w, r) ->
    - 2 ^ 63 <= w < 2 ^ 63) as D.
  { intros dig base u Hd Hb w r. pose proof (scan_digits_nonneg dig base u 0 0 Hd Hb ltac:(lia)) as H.
    destruct (scan_digits dig base u 0 0) as [[x k] rest]. simpl in H.
    destruct (k =? 0); [done|]. intros [= <- <-]. by apply saturate_range. }
  assert (forall c d, oct_digit c = Some d -> 0 <= d) as Ho.
  { intros c d. unfold oct_digit. destruct (dec_digit c) as [x|] eqn:E; [|done].
    apply dec_digit_nonneg in E. case_match; [|done]. by intros [= <-]. }
  assert (forall c d, hex_digit c = Some d -> 0 <= d) as Hh.
  { intros c d. unfold hex_digit. destruct (is_digit c) eqn:E; [apply is_digit_range in E; intros [= <-]; lia|].
    destruct (_ && _) eqn:E2; [|done]. bool_to_prop. intros [= <-]. lia. }
  intros H. destruct (true && front_is "0" t).
  - destruct (str_drop 1 t) as [|x u] eqn:Eu.
    + destruct (let '(_, _, _) := scan_digits oct_digit 8 t 0 0 in _) as [[w r]|] eqn:E in H;
        [|done]. apply (D oct_digit 8 t Ho ltac:(lia)) in E. destruct r; [|done]. by injection H as <-.
    + destruct (Ascii.eqb (tolower x) "x").
      * destruct (let '(_, _, _) := scan_digits hex_digit 16 u 0 0 in _) as [[w r]|] eqn:E in H.
        -- apply (D hex_digit 16 u Hh ltac:(lia)) in E. destruct r; [|done]. by injection H as <-.
        -- done.
      * destruct (let '(_, _, _) := scan_digits oct_digit 8 t 0 0 in _) as [[w r]|] eqn:E in H;
          [|done]. apply (D oct_digit 8 t Ho ltac:(lia)) in E. destruct r; [|done]. by injection H as <-.
  - destruct (let '(_, _, _) := scan_digits dec_digit 10 t 0 0 in _) as [[w r]|] eqn:E in H;
      [|done]. apply (D dec_digit 10 t dec_digit_nonneg ltac:(lia)) in E. destruct r; [|done].
    by injection H as <-.
Qed.

Lemma as_uint_range n v : as_uint n = Some v -> 0 <= v < 2 ^ 63.
Proof.
  unfold as_uint. destruct (as_int n) as [w|] eqn:E; [|done]. apply as_int_range in E.
  case_match; [done|]. bool_to_prop. intros [= <-]. lia.
Qed.

(** Adding a half and truncating a number of at most [100000]. *)
Lemma dtrunc_add_half x : dnonneg x -> dltb (double_of_Z 100000) x = false ->
  0 <= dtrunc (dadd x (dlit 5 (-1))) <= 100002.
Proof.
  intros Hx E. destruct x as [m e|s|]; [|simpl in *; subst; done|done].
  rewrite (dltb_exact _ _ _ _ _ _ (Z.abs e + 53) (double_of_Z_exact 100000 ltac:(lia))
             (dval_refl m e)) in E by lia.
  apply Z.ltb_ge in E. simpl in Hx.
  change (dlit 5 (-1)) with (DFin (2 ^ 52) (-53)). cbn [dadd].
  set (e' := Z.min e (-53)). set (s := m * 2 ^ (e - e') + 2 ^ 52 * 2 ^ (-53 - e')).
  assert (0 < s) as Hs.
  { unfold s. pose proof (pow2_pos (e - e') ltac:(lia)). pose proof (pow2_pos (-53 - e') ltac:(lia)). nia. }
  destruct (Z.ltb_spec s 0); [lia|]. unfold dval_num, dval_den. rewrite Z.abs_eq by lia.
  assert (e' < 0) by lia. rewrite (Z.max_r e' 0), (Z.max_l (- e') 0), Z.pow_0_r, Z.mul_1_r by lia.
  pose proof (pow2_pos (- e') ltac:(lia)) as Hp.
  assert (s <= 2 ^ (- e') * 100001) as Hle.
  { set (P := 2 ^ (- e')) in *.
    assert (2 * (2 ^ 52 * 2 ^ (-53 - e')) = P) as H1.
    { unfold P. change (2 * (2 ^ 52 * 2 ^ (-53 - e'))) with (2 ^ 1 * (2 ^ 52 * 2 ^ (-53 - e'))).
      rewrite <- !Z.pow_add_r by lia. f_equal. lia. }
    assert (m * 2 ^ (e - e') <= 100000 * P) as H2; [|unfold s; lia].
    pose proof (pow2_pos (Z.abs e + 53 + e') ltac:(lia)) as HQ.
    apply (Z.mul_le_mono_pos_r _ _ (2 ^ (Z.abs e + 53 + e'))); [done|].
    unfold P. rewrite <- !Z.mul_assoc, <- !Z.pow_add_r by lia.
    replace (e - e' + (Z.abs e + 53 + e')) with (e + (Z.abs e + 53)) by lia.
    replace (- e' + (Z.abs e + 53 + e')) with (0 + (Z.abs e + 53)) by lia. done. }
  pose proof (round_q_dceil s (2 ^ (- e')) 100001 Hs ltac:(lia) Hp Hle) as Hc.
  pose proof (round_q_nonneg s (2 ^ (- e')) ltac:(lia) Hp) as Hn.
  destruct (round_q false s (2 ^ (- e'))) as [m' e''|b|]; [|simpl; lia|simpl; lia].
  simpl in Hc, Hn. cbn [dtrunc].
  pose proof (pow2_pos (Z.max (- e'') 0) ltac:(lia)). pose proof (pow2_pos (Z.max e'' 0) ltac:(lia)).
  assert (0 <= m' * 2 ^ Z.max e'' 0) by nia. rewrite Z.quot_div_nonneg by lia.
  split; [apply Z.div_pos; lia|].
  pose proof (Z.div_le_mono (m' * 2 ^ Z.max e'' 0)
    (- (- (m' * 2 ^ Z.max e'' 0) / 2 ^ Z.max (- e'') 0) * 2 ^ Z.max (- e'') 0)
    (2 ^ Z.max (- e'') 0) ltac:(lia)) as M. rewrite Z.div_mul in M by lia.
  etransitivity; [apply M|lia].
  pose proof (Z.mul_div_le (- (m' * 2 ^ Z.max e'' 0)) (2 ^ Z.max (- e'') 0) ltac:(lia)). lia.
Qed.

Lemma as_permille_range n v : as_permille n = Some v -> 0 <= v <= 100002.
Proof.
  unfold as_permille. destruct (unit_number n) as [[x suffix]|] eqn:E; [|done].
  destruct (unit_number_nonneg _ _ _ E) as (m & e & -> & Hm).
  assert (forall y, dnonneg y -> (if dltb (double_of_Z 100000) y then None
    else Some (dtrunc (dadd y (dlit 5 (-1))))) = Some v -> 0 <= v <= 100002) as F.
  { intros y Hy. destruct (dltb _ y) eqn:L; [done|]. intros [= <-]. by apply dtrunc_add_half. }
  intros H.
  repeat match type of H with (if ?b then _ else _) = _ =>
    destruct b; [eapply F; [|exact H]; apply scaled_nonneg; [assumption|lia]|] end. discriminate H.
Qed.

(** The typed accessors return values of the declared machine type and range
    only, for every scalar an operator can write: no conversion wraps. *)
Theorem accessors_in_range n :
  from_option (fun v => 0 <= v < 2 ^ 63) True (as_uint n) /\
  from_option (fits 64) True (as_bytes n) /\ from_option (fits 32) True (as_kbps n) /\
  from_option (fits 32) True (as_seconds n) /\
  from_option (fun v => 0 <= v < 1440) True (as_time_of_day n) /\
  from_option (fun v => 0 <= v <= 100002) True (as_permille n).
Proof.
  split; [destruct (as_uint n) eqn:E; [by apply as_uint_range in E|done]|].
  split; [destruct (as_bytes n) eqn:E; [by apply as_bytes_range in E|done]|].
  split; [destruct (as_kbps n) eqn:E; [by apply as_kbps_range in E|done]|].
  split; [destruct (as_seconds n) eqn:E; [by apply as_seconds_range in E|done]|].
  split; [destruct (as_time_of_day n) eqn:E; [by apply as_time_of_day_range in E|done]|].
  destruct (as_permille n) eqn:E; [by apply as_permille_range in E|done].
Qed.

(** ** Round trips *)

Lemma app_cons c s t : (String c s +:+ t)%string = String c (s +:+ t).
Proof. done. Qed.

Lemma digit_not c d : is_digit c = true -> (code d < 48 \/ 57 < code d) -> Ascii.eqb c d = false.
Proof.
  intros H Hd. destruct (Ascii.eqb_spec c d) as [->|]; [|done].
  apply is_digit_range in H. lia.
Qed.

Definition clean_char (c : ascii) : bool :=
  negb (Ascii.eqb c "_" || Ascii.eqb c " " || Ascii.eqb c "000").
Fixpoint clean (s : string) : bool :=
  match s with EmptyString => true | String c s' => clean_char c && clean s' end.

Lemma clean_id s : clean s = true -> c_str (despace s) = s.
Proof.
  induction s as [|c s IH]; [done|]. simpl. unfold clean_char. intros H. bool_to_prop.
  repeat match goal with E : Ascii.eqb _ _ = false |- _ => rewrite E; clear E end. simpl.
  repeat match goal with E : Ascii.eqb _ _ = false |- _ => rewrite E; clear E end.
  by rewrite IH.
Qed.

Lemma clean_app s t : clean (s +:+ t)%string = clean s && clean t.
Proof.
  induction s as [|c s IH]; [done|]. rewrite app_cons. simpl. by rewrite IH, andb_assoc.
Qed.

Lemma digits_clean s : all_digits s = true -> clean s = true.
Proof.
  induction s as [|c s IH]; [done|]. simpl. intros [Hc Hs]%andb_true_iff. rewrite (IH Hs).
  unfold clean_char. by rewrite !(digit_not c) by (done || vm_compute; auto).
Qed.

(** The first character of [s] is not a digit of the scanned base. *)
Definition stops (dig : ascii -> option Z) (s : string) : Prop :=
  match s with EmptyString => True | String c _ => dig c = None end.

Lemma scan_digits_app s t v n : all_digits s = true -> stops dec_digit t ->
  scan_digits dec_digit 10 (s +:+ t)%string v n =
    (dec_value s v, n + Z.of_nat (String.length s), t).
Proof.
  intros Hs Ht. revert v n Hs. induction s as [|c s IH]; intros v n Hs.
  { change (EmptyString +:+ t)%string with t. destruct t as [|c t]; simpl; [f_equal; f_equal; lia|].
    simpl in Ht. rewrite Ht. f_equal. f_equal. lia. }
  simpl in Hs. apply andb_true_iff in Hs as [Hc Hs]. rewrite app_cons. cbn [scan_digits].
  unfold dec_digit at 1. rewrite Hc. rewrite IH by done. simpl. f_equal. f_equal. lia.
Qed.

(** [std::to_string] writes no leading zero. *)
Lemma to_string_first v : 0 <= v ->
  exists c s, to_string v = String c s /\ is_digit c = true /\ all_digits s = true /\
    (Ascii.eqb c "0" = true -> s = EmptyString).
Proof.
  intros Hv. destruct (to_string_value v Hv) as [Hd Hval].
  pose proof (to_string_length v) as Hl.
  pose proof (dec_length_pos (Z.to_nat (Z.log2 v)) v) as Hp.
  destruct (to_string v) as [|c s] eqn:E; [simpl in Hl; lia|].
  simpl in Hd. apply andb_true_iff in Hd as [Hc Hs]. exists c, s. do 3 (split; [done|]).
  intros Hz%Ascii.eqb_eq. subst c. destruct s as [|c' s']; [done|exfalso].
  change (dec_value (String c' s') 0 = v) in Hval.
  pose proof (dec_value_bound (String c' s') Hs) as Hb. rewrite Hval in Hb.
  change (String.length (String c' s')) with (S (String.length s')) in Hb.
  pose proof (dec_length_upper (Z.to_nat (Z.log2 v)) v (S (String.length s')) ltac:(lia)) as Hu.
  simpl in Hl. specialize (Hu ltac:(lia)). lia.
Qed.

Lemma digit_not_space c s : is_digit c = true -> drop_while is_space (String c s) = String c s.
Proof.
  intros H. simpl. apply is_digit_range in H as Hr. unfold is_space.
  rewrite (digit_not c " ") by (done || vm_compute; auto).
  destruct (Z.leb_spec (code c) 13); [lia|]. by rewrite andb_false_r.
Qed.

Lemma digit_no_sign c s : is_digit c = true -> scan_sign (String c s) = (false, String c s).
Proof.
  intros H. simpl. by rewrite !(digit_not c) by (done || vm_compute; auto).
Qed.

(** Printing an unsigned integer and reading it back is the identity, up to
    the largest value [as_uint] can return. *)
Theorem as_uint_roundtrip l v : 0 <= v < 2 ^ 63 ->
  as_uint (kScalar l (to_string v)) = Some v.
Proof.
  intros Hv. destruct (to_string_value v ltac:(lia)) as [Hd Hval].
  destruct (to_string_first v ltac:(lia)) as (c & s & E & Hc & Hs & Hz).
  unfold as_uint, as_int. rewrite clean_id by (by apply digits_clean).
  assert (strtoll (to_string v) true = Some (v, EmptyString)) as ->; cycle 1.
  { destruct (Z.ltb_spec v 0); [lia|done]. }
  unfold strtoll. rewrite E, digit_not_space, digit_no_sign by done. simpl front_is.
  destruct (Ascii.eqb c "0") eqn:Ez.
  - rewrite (Hz eq_refl) in *. apply Ascii.eqb_eq in Ez. subst c. rewrite E in Hval.
    change (0 = v) in Hval. by subst v.
  - cbn [andb]. rewrite <- E, <- (str_app_nil_r (to_string v)).
    rewrite scan_digits_app by done. rewrite Hval.
    destruct (Z.eqb_spec (0 + Z.of_nat (String.length (to_string v))) 0) as [Hl|_];
      [rewrite E in Hl; simpl in Hl; lia|].
    unfold saturate. by rewrite Z.min_l by lia.
Qed.

Lemma as_uint_roundtrip_witness : as_uint (kScalar 3 (to_string 20000000000)) = Some 20000000000.
Proof. apply (as_uint_roundtrip 3 20000000000). lia. Defined.

Definition byte_units : list (string * Z) :=
  [("", 1); ("B", 1); ("KB", 10 ^ 3); ("MB", 10 ^ 6); ("GB", 10 ^ 9); ("TB", 10 ^ 12);
   ("KiB", 2 ^ 10); ("MiB", 2 ^ 20); ("GiB", 2 ^ 30); ("TiB", 2 ^ 40)]%string.

(** What [strtod] needs of the text after the digits. *)
Definition plain_suffix (s : string) : bool :=
  clean s &&
  match s with
  | EmptyString => true
  | String c _ => negb (is_digit c) && negb (Ascii.eqb c ".") &&
      negb (Ascii.eqb (tolower c) "e") && negb (Ascii.eqb (tolower c) "x")
  end.

Lemma low_not_special c t : is_digit c = true ->
  String.eqb (string_map tolower (str_take 3 (String c t))) "inf" = false /\
  String.eqb (string_map tolower (str_take 3 (String c t))) "nan" = false.
Proof.
  intros Hc. cbn [str_take string_map].
  assert (tolower c = c) as ->.
  { apply is_digit_range in Hc. unfold tolower. destruct (Z.leb_spec 65 (code c)); [lia|done]. }
  cbn [String.eqb]. by rewrite !(digit_not c) by (done || vm_compute; auto).
Qed.

Lemma strtod_digits v suffix : 0 <= v -> plain_suffix suffix = true ->
  strtod (to_string v +:+ suffix)%string = Some (double_of_Z v, suffix).
Proof.
  intros Hv Hsuf. unfold plain_suffix in Hsuf. apply andb_true_iff in Hsuf as [_ Hsuf].
  destruct (to_string_value v Hv) as [Hd Hval].
  destruct (to_string_first v Hv) as (c & s & E & Hc & Hs & Hz).
  assert (stops dec_digit suffix) as Hst.
  { destruct suffix as [|x r]; [done|]. bool_to_prop. simpl. unfold dec_digit.
    by match goal with H : is_digit x = false |- _ => rewrite H end. }
  unfold strtod. rewrite E, app_cons, digit_not_space, digit_no_sign by done.
  destruct (low_not_special c (s +:+ suffix)%string Hc) as [-> ->].
  assert (String.eqb (str_take 2 (string_map tolower (str_take 3 (String c (s +:+ suffix)%string)))) "0x"
          = false) as ->.
  { destruct (Ascii.eqb c "0") eqn:Ez.
    - rewrite (Hz eq_refl). change (EmptyString +:+ suffix)%string with suffix.
      destruct suffix as [|x r]; [by apply Ascii.eqb_eq in Ez as ->|]. bool_to_prop.
      cbn [str_take string_map String.eqb].
      match goal with H : Ascii.eqb (tolower x) "x" = false |- _ => rewrite H end.
      by destruct (Ascii.eqb (tolower c) "0"), r.
    - cbn [str_take string_map].
      assert (tolower c = c) as ->.
      { apply is_digit_range in Hc. unfold tolower. destruct (Z.leb_spec 65 (code c)); [lia|done]. }
      destruct (s +:+ suffix)%string as [|x r]; cbn [str_take string_map String.eqb]; by rewrite Ez. }
  rewrite <- app_cons, <- E. unfold scan_mantissa. rewrite scan_digits_app by done.
  destruct (Z.eqb_spec (0 + Z.of_nat (String.length (to_string v))) 0) as [Hl|Hl];
    [rewrite E in Hl; simpl in Hl; lia|].
  assert (round_q false (v * 10 ^ Z.max (0 - 0) 0) (10 ^ Z.max (- (0 - 0)) 0) = double_of_Z v) as R.
  { unfold double_of_Z. destruct (Z.ltb_spec v 0); [lia|]. rewrite Z.abs_eq by lia.
    change (Z.max (0 - 0) 0) with 0. change (Z.max (- (0 - 0)) 0) with 0.
    by rewrite Z.pow_0_r, Z.mul_1_r. }
  rewrite Hval. destruct suffix as [|x r]; [apply Z.eqb_neq in Hl; rewrite Hl; cbn; by rewrite <- R|].
  bool_to_prop.
  match goal with H : Ascii.eqb x "." = false |- _ => rewrite H end.
  apply Z.eqb_neq in Hl. rewrite Hl. cbn [scan_exponent].
  match goal with H : Ascii.eqb (tolower x) "e" = false |- _ => rewrite H end. by rewrite R.
Qed.

(** A byte size written as an integer and a unit is read exactly: KB to TB are
    powers of ten and KiB to TiB powers of two, with no rounding for any size
    below [2^53] bytes. *)
Theorem as_bytes_exact l v unit mult : (unit, mult) ∈ byte_units -> 0 <= v -> v * mult < 2 ^ 53 ->
  as_bytes (kScalar l (to_string v +:+ unit)%string) = Some (v * mult).
Proof.
  intros Hin Hv Hb.
  assert (plain_suffix unit = true /\ byte_unit unit = Some mult) as [Hp Hu].
  { unfold byte_units in Hin. repeat (apply elem_of_cons in Hin as [[= -> ->]|Hin]; [by split|]).
    by apply elem_of_nil in Hin. }
  pose proof (byte_unit_range _ _ Hu) as Hm.
  assert (v < 2 ^ 53) by nia.
  destruct (to_string_first v Hv) as (c & s & E & Hc & Hs & _).
  unfold as_bytes, unit_number, parse_number.
  rewrite clean_id by (rewrite clean_app, digits_clean by apply (to_string_value v Hv);
    unfold plain_suffix in Hp; by apply andb_true_iff in Hp as [-> _]).
  rewrite E, app_cons at 1. rewrite <- app_cons, <- E, strtod_digits by done.
  pose proof (double_of_Z_exact v ltac:(lia)) as D1. pose proof (double_of_Z_exact mult ltac:(lia)) as D2.
  destruct (dval_nonneg _ _ _ D1 ltac:(lia)) as (m1 & e1 & E1 & Hm1). rewrite E1. cbn [is_finite].
  assert (dltb (DFin m1 e1) dzero = false) as ->.
  { unfold dltb, dzero. apply Z.ltb_ge. pose proof (pow2_pos (e1 - Z.min e1 0) ltac:(lia)). nia. }
  rewrite Hu, <- E1. unfold bounded_trunc.
  pose proof (dmul_exact _ _ _ _ _ _ (v * mult) 0 D1 D2 Hv ltac:(lia) ltac:(lia) ltac:(lia)
    ltac:(nia) ltac:(lia)) as D3.
  rewrite (dltb_exact _ _ _ _ _ _ 0 limit_bytes D3) by lia.
  destruct (Z.ltb_spec (18000000000000000000 * 2 ^ (0 + 0)) (v * mult * 2 ^ (0 + 0 + 0 + 0))); [lia|].
  f_equal. rewrite (dtrunc_exact _ _ _ D3) by nia. lia.
Qed.

Lemma as_bytes_exact_witness : as_bytes (kScalar 1 (to_string 20 +:+ "GiB")%string) = Some (20 * 2 ^ 30).
Proof. apply (as_bytes_exact 1 20 "GiB" (2 ^ 30)); [by repeat constructor|lia|lia]. Defined.

(** A time written HH:MM is read as its minute of the day. *)
Theorem as_time_of_day_hhmm l h m : 0 <= h < 24 -> 0 <= m < 60 ->
  as_time_of_day (kScalar l (format_digits 2 h EmptyString +:+ ":" +:+
                             format_digits 2 m EmptyString)%string) = Some (h * 60 + m).
Proof.
  intros Hh Hm.
  assert (forallb (fun a => forallb (fun b =>
    bool_decide (as_time_of_day (kScalar 0 (format_digits 2 (Z.of_nat a) EmptyString +:+ ":" +:+
      format_digits 2 (Z.of_nat b) EmptyString)%string) = Some (Z.of_nat a * 60 + Z.of_nat b)))
    (seq 0 60)) (seq 0 24) = true) as H by (vm_compute; reflexivity).
  rewrite forallb_forall in H. specialize (H (Z.to_nat h) ltac:(apply in_seq; lia)).
  rewrite forallb_forall in H. specialize (H (Z.to_nat m) ltac:(apply in_seq; lia)).
  apply bool_decide_eq_true in H. rewrite !Z2Nat.id in H by lia. exact H.
Qed.

Lemma as_time_of_day_hhmm_witness : as_time_of_day (kScalar 0 "02:30") = Some 150.
Proof. apply (as_time_of_day_hhmm 0 2 30); lia. Defined.

(** ** Divergences from the header comment *)

(** Text that is not a time is accepted: a field without digits counts as 0
    and trailing characters are ignored. *)
Theorem time_of_day_accepts_junk l :
  as_time_of_day (kScalar l "foo:bar") = Some 0 /\ as_time_of_day (kScalar l "12:30pm") = Some 750.
Proof. split; reflexivity. Qed.

Definition tab : string := String "009" EmptyString.
Definition endl : string := String newline EmptyString.

(** Two inputs the header says are rejected are accepted: a document whose
    first line is indented with a tab parses to null without an error, and a
    second document is merged into the first. *)
Theorem parse_accepts_tab_and_documents :
  parse (tab +:+ "a: 1")%string = Some (mkResult (kNull 1) EmptyString 0) /\
  parse ("a: 1" +:+ endl +:+ "---" +:+ endl +:+ "b: 2")%string =
    Some (mkResult (kMap 1 [("a", kScalar 1 "1"); ("b", kScalar 3 "2")]%string) EmptyString 0).
Proof. split; vm_compute; reflexivity. Qed.
