(* ===== verification/Golden.v ===== *)
(** * Golden: the decision corpus

    src/golden.cpp: one CSV row per (request, expected decision), the loader and
    the comparison used when the corpus is replayed.  The theorems say that the
    loader reads back what the writer wrote, and that the comparison is silent
    exactly on decisions that agree in the fields the corpus pins. *)

From S2P Require Import Prelude Text Imsi Wire Double Store Yaml.
From Stdlib Require Import ZArith Lia Bool Ascii String.
From stdpp Require Import base list numbers strings.
Local Open Scope Z_scope.

(** ** Rows *)

Definition kHeader : string :=
  "imsi,imei,plmn,tac,rat,dnn,req_5qi,req_flags,local_minute,bytes_used,verdict,reason,qos_5qi,arp,ambr_ul_kbps,ambr_dl_kbps,rating_group,quota_bytes,quota_validity_s,rule_id,dec_flags,redirect_id".
Definition kFieldCount : nat := 22.
Definition golden_header : string := kHeader.

(** [strtoull(s, nullptr, 10)]: blanks, a sign, digits; out of range gives the
    largest value, a minus sign negates modulo [2^64]. *)
Definition strtoull10 (s : string) : Z :=
  let '(neg, s) := scan_sign (drop_while is_space s) in
  let '(v, _, _) := scan_digits dec_digit 10 s 0 0 in
  if 2 ^ 64 <=? v then 2 ^ 64 - 1 else if neg then u64 (- v) else v.
Definition to_u64 (s : string) : Z := strtoull10 (c_str s).

Lemma to_u64_fits s : fits 64 (to_u64 s).
Proof.
  unfold to_u64, strtoull10. destruct (scan_sign _) as [neg t].
  pose proof (scan_digits_nonneg dec_digit 10 t 0 0 dec_digit_nonneg ltac:(lia) ltac:(lia)) as H0.
  destruct (scan_digits _ _ _ _ _) as [[v n] rest]. simpl in H0.
  destruct (Z.leb_spec (2 ^ 64) v); [by split|]. destruct neg; [by apply wrap_fits|by split].
Qed.

Fixpoint join (l : list string) : string :=
  match l with
  | [] => EmptyString
  | [s] => s
  | s :: l => (s +:+ "," +:+ join l)%string
  end.

Definition row_values (r : PolicyRequest) (d : PolicyDecision) : list Z :=
  [rq_imsi r; rq_imei r; rq_plmn r; rq_tac r; rq_rat_type r; rq_dnn_id r; rq_requested_5qi r;
   rq_flags r; rq_local_minute r; rq_bytes_used_period r;
   d_verdict d; d_reason d; d_qos_5qi d; d_arp d; d_ambr_ul_kbps d; d_ambr_dl_kbps d;
   d_rating_group d; d_quota_bytes d; d_quota_validity_s d; d_rule_id d; d_flags d; d_redirect_id d].

(** [snprintf] into 512 bytes keeps the first 511 characters. *)
Definition golden_row (r : PolicyRequest) (d : PolicyDecision) : string :=
  str_take 511 (join (map to_string (row_values r d))).

(** ** The loader *)

Record GoldenCase := mkCase { gc_request : PolicyRequest; gc_expected : PolicyDecision; gc_line : Z }.
Record GoldenLoadResult := mkGolden { gl_cases : list GoldenCase; gl_error : string }.
Definition golden_ok (g : GoldenLoadResult) : bool :=
  match gl_error g with EmptyString => true | _ => false end.

Definition golden_case (f : list string) (line_no : Z) : GoldenCase :=
  let g i := to_u64 (nth i f EmptyString) in
  mkCase
    (mkRequest kMagicVersion 0 (g 0%nat) (g 1%nat) 0 (g 9%nat) (u32 (g 2%nat)) (u16 (g 3%nat))
       (u8 (g 4%nat)) (u8 (g 5%nat)) (u8 (g 6%nat)) (u8 (g 7%nat)) (u16 (g 8%nat)) 0 0 0)
    (mkDecision kMagicVersion 0 0 (g 17%nat) (u32 (g 14%nat)) (u32 (g 15%nat)) (u32 (g 16%nat))
       (u32 (g 18%nat)) (u32 (g 19%nat)) 0 (u8 (g 10%nat)) (u8 (g 11%nat)) (u8 (g 12%nat))
       (u8 (g 13%nat)) (u8 (g 20%nat)) (u8 (g 21%nat)) 0 0)
    line_no.

Definition is_cr_blank (c : ascii) : bool := Ascii.eqb c "013" || Ascii.eqb c " ".
Definition is_comment (line : string) : bool :=
  match line with EmptyString => true | String c _ => Ascii.eqb c "#" end.

Definition header_error (path line : string) : string :=
  (path +:+ ":1: header does not match the current golden format." +:+ endl +:+ "  expected: " +:+
   kHeader +:+ endl +:+ "  found:    " +:+ line +:+ endl +:+
   "Regenerate with: policy-gen-golden --out " +:+ path)%string.

Fixpoint load_golden_lines (path : string) (lines : list string) (line_no : Z) (header_checked : bool)
    (cases : list GoldenCase) : GoldenLoadResult :=
  match lines with
  | [] =>
      mkGolden cases (match cases with [] => (path +:+ ": no cases")%string | _ => EmptyString end)
  | raw :: lines =>
      let line_no := line_no + 1 in
      let line := drop_while_end is_cr_blank raw in
      if is_comment line then load_golden_lines path lines line_no header_checked cases
      else if negb header_checked then
        if String.eqb line kHeader then load_golden_lines path lines line_no true cases
        else mkGolden cases (header_error path line)
      else
        let f := split_fields kFieldCount line in
        if (length f =? kFieldCount)%nat then
          load_golden_lines path lines line_no header_checked (cases ++ [golden_case f line_no])
        else
          mkGolden cases (path +:+ ":" +:+ to_string line_no +:+ ": expected " +:+
            to_string (Z.of_nat kFieldCount) +:+ " fields, found " +:+
            to_string (Z.of_nat (length f)))%string
  end.

(** [contents] holds the lines of the file, [None] when it cannot be opened. *)
Definition load_golden (path : string) (contents : option (list string)) : GoldenLoadResult :=
  match contents with
  | None => mkGolden [] ("cannot open golden file: " +:+ path)%string
  | Some lines => load_golden_lines path lines 0 false []
  end.

(** ** Comparison *)

Definition sep (os : string) : string := match os with EmptyString => "" | _ => ", " end%string.
Definition cmp (name : string) (expected actual : Z) (os : string) : string :=
  if expected =? actual then os
  else (os +:+ sep os +:+ name +:+ ": expected " +:+ to_string expected +:+ " got " +:+
        to_string actual)%string.

Definition diff_decisions (e a : PolicyDecision) : string :=
  let os := if d_verdict e =? d_verdict a then EmptyString
    else ("verdict: expected " +:+ verdict_name (d_verdict e) +:+ " got " +:+ verdict_name (d_verdict a))%string in
  let os := if d_reason e =? d_reason a then os
    else (os +:+ sep os +:+ "reason: expected " +:+ reason_name (d_reason e) +:+ " got " +:+
          reason_name (d_reason a))%string in
  let os := cmp "rule_id" (d_rule_id e) (d_rule_id a) os in
  let os := cmp "qos_5qi" (d_qos_5qi e) (d_qos_5qi a) os in
  let os := cmp "arp" (d_arp e) (d_arp a) os in
  let os := cmp "ambr_ul_kbps" (d_ambr_ul_kbps e) (d_ambr_ul_kbps a) os in
  let os := cmp "ambr_dl_kbps" (d_ambr_dl_kbps e) (d_ambr_dl_kbps a) os in
  let os := cmp "rating_group" (d_rating_group e) (d_rating_group a) os in
  let os := cmp "quota_bytes" (d_quota_bytes e) (d_quota_bytes a) os in
  let os := cmp "quota_validity_s" (d_quota_validity_s e) (d_quota_validity_s a) os in
  let os := cmp "flags" (d_flags e) (d_flags a) os in
  cmp "redirect_id" (d_redirect_id e) (d_redirect_id a) os.

(** ** Reading back one row *)

(** What the corpus keeps of a request and of a decision. *)
Definition pinned_request (r : PolicyRequest) : PolicyRequest :=
  mkRequest kMagicVersion 0 (rq_imsi r) (rq_imei r) 0 (rq_bytes_used_period r) (rq_plmn r) (rq_tac r)
    (rq_rat_type r) (rq_dnn_id r) (rq_requested_5qi r) (rq_flags r) (rq_local_minute r) 0 0 0.
Definition pinned_decision (d : PolicyDecision) : PolicyDecision :=
  mkDecision kMagicVersion 0 0 (d_quota_bytes d) (d_ambr_ul_kbps d) (d_ambr_dl_kbps d)
    (d_rating_group d) (d_quota_validity_s d) (d_rule_id d) 0 (d_verdict d) (d_reason d)
    (d_qos_5qi d) (d_arp d) (d_flags d) (d_redirect_id d) 0 0.

Fixpoint all_chars (p : ascii -> bool) (s : string) : bool :=
  match s with EmptyString => true | String c s => p c && all_chars p s end.

Lemma all_chars_app p s t : all_chars p (s +:+ t)%string = all_chars p s && all_chars p t.
Proof.
  induction s as [|c s IH]; [done|]. rewrite app_cons. simpl. by rewrite IH, andb_assoc.
Qed.
Lemma all_chars_impl (p q : ascii -> bool) s : (forall c, p c = true -> q c = true) ->
  all_chars p s = true -> all_chars q s = true.
Proof.
  intros H. induction s as [|c s IH]; simpl; [done|]. intros [Hc Hs]%andb_true_iff.
  by rewrite (H c Hc), IH.
Qed.
Lemma digits_all_chars s : all_digits s = all_chars is_digit s.
Proof. induction s as [|c s IH]; simpl; [done|]. by rewrite IH. Qed.

Lemma drop_while_end_id p s : all_chars (fun c => negb (p c)) s = true -> drop_while_end p s = s.
Proof.
  induction s as [|c s IH]; simpl; [done|]. intros [Hc Hs]%andb_true_iff. rewrite IH by done.
  destruct s; [|done]. by destruct (p c).
Qed.
Lemma split_none c s : all_chars (fun d => negb (Ascii.eqb d c)) s = true -> split_at_char c s = None.
Proof.
  induction s as [|d s IH]; simpl; [done|]. intros [Hd Hs]%andb_true_iff.
  destruct (Ascii.eqb d c); [done|]. by rewrite IH.
Qed.
Lemma split_first c s t : all_chars (fun d => negb (Ascii.eqb d c)) s = true ->
  split_at_char c (s +:+ String c t)%string = Some (s, t).
Proof.
  induction s as [|d s IH]; intros H.
  { change (EmptyString +:+ String c t)%string with (String c t). simpl. by rewrite Ascii.eqb_refl. }
  simpl in H. apply andb_true_iff in H as [Hd Hs]. rewrite app_cons. simpl.
  destruct (Ascii.eqb d c); [done|]. by rewrite IH.
Qed.

Lemma join_cons s s' l : join (s :: s' :: l) = (s +:+ String "," (join (s' :: l)))%string.
Proof. done. Qed.

Definition no_comma (s : string) : Prop := all_chars (fun d => negb (Ascii.eqb d ",")) s = true.

Lemma digits_no_comma s : all_digits s = true -> no_comma s.
Proof.
  rewrite digits_all_chars. apply all_chars_impl. intros c Hc.
  rewrite (digit_not c ","); [done|done|]. vm_compute. by left.
Qed.

Lemma split_join_any l n : Forall no_comma l -> l <> [] -> length l = n -> split_fields n (join l) = l.
Proof.
  intros F. revert n. induction F as [|s l Hs F IH]; [done|]. intros n _ <-. cbn [length split_fields].
  destruct l as [|s' l].
  - cbn [join]. by rewrite split_none.
  - rewrite join_cons, split_first by done. f_equal. by apply IH.
Qed.

Lemma split_join l n : Forall (fun s => all_digits s = true) l -> l <> [] -> length l = n ->
  split_fields n (join l) = l.
Proof. intros F. apply split_join_any. eapply Forall_impl; [exact F|]. apply digits_no_comma. Qed.

Lemma to_u64_to_string v : fits 64 v -> to_u64 (to_string v) = v.
Proof.
  intros [H0 H1]. destruct (to_string_first v H0) as (c & s & E & Hc & Hs & _).
  destruct (to_string_value v H0) as [Hd Hv]. unfold to_u64.
  assert (c_str (to_string v) = to_string v) as ->.
  { clear E. revert Hd. generalize (to_string v). clear. induction s as [|c s IH]; simpl; [done|].
    intros [Hc Hs]%andb_true_iff. rewrite (digit_not c "000"); [by rewrite IH|done|vm_compute; by left]. }
  unfold strtoull10. rewrite E, digit_not_space, digit_no_sign by done.
  rewrite <- E, <- (str_app_nil_r (to_string v)), scan_digits_app by done. rewrite Hv.
  destruct (Z.leb_spec (2 ^ 64) v); [lia|done].
Qed.

Definition row_chars (c : ascii) : bool := is_digit c || Ascii.eqb c ",".

Lemma join_spec l : Forall (fun s => all_digits s = true /\ (String.length s <= 20)%nat) l ->
  all_chars row_chars (join l) = true /\ (String.length (join l) <= 21 * length l)%nat.
Proof.
  assert (forall s, all_digits s = true -> all_chars row_chars s = true) as K.
  { intros s. rewrite digits_all_chars. apply all_chars_impl. intros c Hc. unfold row_chars. by rewrite Hc. }
  induction 1 as [|s l [Hd Hl] F IH]; [done|]. destruct l as [|s' l].
  - cbn [join length]. split; [by apply K|lia].
  - rewrite join_cons, all_chars_app, str_app_length. destruct IH as [IH1 IH2].
    rewrite (K s Hd). cbn [all_chars String.length length] in *. rewrite IH1. split; [done|lia].
Qed.

Lemma str_take_id n s : (String.length s <= n)%nat -> str_take n s = s.
Proof.
  revert n. induction s as [|c s IH]; intros [|n]; simpl; try done; [lia|]. intros H.
  by rewrite IH by lia.
Qed.

Lemma to_string_bounded v : fits 64 v ->
  all_digits (to_string v) = true /\ (String.length (to_string v) <= 20)%nat.
Proof.
  intros [H0 H1]. split; [by apply to_string_value|]. rewrite to_string_length.
  apply dec_length_upper; [lia|]. eapply Z.lt_le_trans; [done|]. by vm_compute.
Qed.

(** The messages of a row, and how wide their fields are. *)
Definition row_ok (rd : PolicyRequest * PolicyDecision) : Prop := msg_ok rd.1 /\ msg_ok rd.2.

Lemma row_values_ok r d : row_ok (r, d) -> Forall (fits 64) (row_values r d).
Proof.
  intros [Hr Hd]. unfold msg_ok, fields_ok in *. simpl in Hr, Hd.
  unfold request_widths, request_fields in Hr. unfold decision_widths, decision_fields in Hd.
  repeat match goal with H : Forall2 _ (_ :: _) _ |- _ => apply Forall2_cons in H as [? H] end.
  unfold row_values.
  repeat (apply Forall_cons_2; [eapply fits_le; [|eassumption]; simpl; lia|]). apply Forall_nil_2.
Qed.

(** A row is written in full, is not taken for a comment or for blanks, and
    splits into the texts of its values. *)
Lemma golden_row_spec r d : row_ok (r, d) ->
  drop_while_end is_cr_blank (golden_row r d) = golden_row r d /\
  is_comment (golden_row r d) = false /\
  split_fields kFieldCount (golden_row r d) = map to_string (row_values r d).
Proof.
  intros H. pose proof (row_values_ok r d H) as F. unfold golden_row.
  assert (Forall (fun s => all_digits s = true /\ (String.length s <= 20)%nat) (map to_string (row_values r d))) as G.
  { apply Forall_map. eapply Forall_impl; [done|]. apply to_string_bounded. }
  destruct (join_spec _ G) as [J1 J2]. rewrite length_map in J2.
  change (length (row_values r d)) with 22%nat in J2. rewrite str_take_id by lia.
  assert (forall c, row_chars c = true -> is_cr_blank c = false) as Hc.
  { intros c. unfold row_chars, is_cr_blank. intros [Hd|Hc]%orb_true_iff.
    - by rewrite !(digit_not c) by (done || vm_compute; auto).
    - by apply Ascii.eqb_eq in Hc as ->. }
  split; [|split].
  - apply drop_while_end_id. eapply all_chars_impl; [|done]. intros c Hrc. simpl. by rewrite Hc.
  - destruct (to_string_first (rq_imsi r)) as (c & s & E & Hd & _).
    { unfold row_values in F. by apply Forall_cons in F as [[? _] _]. }
    unfold row_values. cbn [map]. rewrite join_cons, E, app_cons. cbn [is_comment].
    apply digit_not; [done|]. vm_compute. by left.
  - apply split_join; [|done|done]. eapply Forall_impl; [done|]. by intros s [].
Qed.

Lemma golden_case_row r d n : row_ok (r, d) ->
  golden_case (map to_string (row_values r d)) n = mkCase (pinned_request r) (pinned_decision d) n.
Proof.
  intros H. pose proof (row_values_ok r d H) as F. destruct H as [Hr Hd].
  unfold msg_ok, fields_ok in *. simpl in Hr, Hd.
  unfold request_widths, request_fields in Hr. unfold decision_widths, decision_fields in Hd.
  repeat match goal with H : Forall2 _ (_ :: _) _ |- _ => apply Forall2_cons in H as [? H] end.
  unfold row_values in F. repeat (apply Forall_cons in F as [? F]).
  unfold golden_case, row_values. cbn [map nth]. rewrite !to_u64_to_string by done.
  unfold pinned_request, pinned_decision. by rewrite !wrap_id by done.
Qed.

Lemma load_rows path l n cases : Forall row_ok l -> cases <> [] \/ l <> [] ->
  load_golden_lines path (map (fun rd => golden_row rd.1 rd.2) l) n true cases =
  mkGolden (cases ++ imap (fun i rd => mkCase (pinned_request rd.1) (pinned_decision rd.2) (n + 1 + Z.of_nat i)) l)
    EmptyString.
Proof.
  intros F. revert n cases. induction F as [|[r d] l Hrd F IH]; intros n cases Hne; cbn [map load_golden_lines].
  { simpl. rewrite app_nil_r. destruct Hne as [Hne|]; [|done]. by destruct cases. }
  destruct (golden_row_spec r d Hrd) as (E1 & E2 & E3). cbn [fst snd]. rewrite E1, E2, E3.
  cbn [negb]. rewrite length_map. change (length (row_values r d) =? kFieldCount)%nat with true. cbn iota.
  rewrite golden_case_row by done. rewrite IH by (left; by destruct cases).
  rewrite <- app_assoc. cbn [app imap]. f_equal. f_equal. f_equal; [f_equal; lia|].
  apply imap_ext. intros i x _. simpl. f_equal. lia.
Qed.

(** The corpus reads back: loading the header and the rows written for any
    non-empty list of well-formed messages succeeds and gives, with their line
    numbers, exactly the pinned fields of every request and decision. *)
Theorem golden_roundtrip path l : Forall row_ok l -> l <> [] ->
  load_golden path (Some (golden_header :: map (fun rd => golden_row rd.1 rd.2) l)) =
  mkGolden (imap (fun i rd => mkCase (pinned_request rd.1) (pinned_decision rd.2) (2 + Z.of_nat i)) l) EmptyString.
Proof.
  intros F Hne. unfold load_golden. cbn [load_golden_lines].
  change (drop_while_end is_cr_blank golden_header) with kHeader.
  change (is_comment kHeader) with false. cbn [negb]. rewrite String.eqb_refl.
  rewrite load_rows by auto. done.
Qed.

(** ** The comparison *)

Lemma cmp_empty name e a os : cmp name e a os = EmptyString <-> os = EmptyString /\ e = a.
Proof.
  unfold cmp. destruct (Z.eqb_spec e a) as [->|]; [tauto|]. split; [|by intros []].
  intros H. exfalso. apply (f_equal String.length) in H. rewrite !str_app_length in H. simpl in H. lia.
Qed.

(** The replay is silent exactly when nothing moved: [diff_decisions] returns
    the empty string if and only if the two decisions agree in every field the
    corpus pins. *)
Theorem diff_decisions_empty e a :
  diff_decisions e a = EmptyString <-> pinned_decision e = pinned_decision a.
Proof.
  unfold diff_decisions. rewrite !cmp_empty.
  assert (forall (b : bool) os t, (if b then os else (os +:+ sep os +:+ "reason: expected " +:+ t)%string) = EmptyString
    <-> os = EmptyString /\ b = true) as K.
  { intros [] os t; [tauto|]. split; [|by intros []]. intros H. exfalso.
    apply (f_equal String.length) in H. rewrite !str_app_length in H. simpl in H. lia. }
  rewrite K, Z.eqb_eq.
  assert (forall (b : bool) t, (if b then EmptyString else ("verdict: expected " +:+ t)%string) = EmptyString <-> b = true) as K2.
  { by intros [] t. }
  rewrite K2, Z.eqb_eq. unfold pinned_decision. clear K K2. split.
  - intros H. decompose [and] H. by f_equal.
  - intros E. inversion E. tauto.
Qed.

Definition sample_case : PolicyRequest * PolicyDecision :=
  (mkRequest kMagicVersion 7 262011234567890 1 99 0 26201 7 1 0 9 0 60 0 0 0,
   mkDecision kMagicVersion 7 99 5000 100 200 1 3600 20 3 0 0 9 8 0 0 0 0).

Lemma golden_roundtrip_witness :
  gl_cases (load_golden "golden.csv" (Some [golden_header; golden_row sample_case.1 sample_case.2])) =
    [mkCase (pinned_request sample_case.1) (pinned_decision sample_case.2) 2].
Proof.
  assert (Forall row_ok [sample_case]) as F by (repeat constructor; by vm_compute).
  pose proof (golden_roundtrip "golden.csv" [sample_case] F ltac:(done)) as H. cbn [map] in H. by rewrite H.
Defined.
