(* ===== verification/Roster.v ===== *)
(** * Roster: the synthetic subscriber file

    tools/gen_subscribers.cpp: the networks and weights, the draws of one subscriber
    and the line that is printed for it.  The bulk loader of the subscriber table
    accepts every line of a generated file, and no two of its lines share an IMSI. *)

From S2P Require Import Prelude Text Imsi Double DoubleBounds Random Yaml Probe Store Golden.
From Stdlib Require Import ZArith Lia Bool Ascii String.
From stdpp Require Import base list numbers strings gmap.
Local Open Scope Z_scope.
Local Open Scope random_scope.

(** Packed PLMN and weight. *)
Definition kHomeNetworks : list (Z * Z) := [(310260, 60); (310410, 20); (234015, 8); (262001, 6); (208001, 6)].
Definition kPlanWeights : list Z := [45; 20; 20; 12; 3].
Definition kPeriodEnd : Z := 1790380800.
Definition roster_header : string := "imsi,imei,plan,status,bytes_used,period_reset_ts,home_plmn,flags".

Definition make_luhn_imei (body14 : Z) : Z :=
  let sum := luhn_loop 20 body14 0 true in
  body14 * 10 + (10 - sum mod 10) mod 10.

Definition weight_total (weights : list Z) : Z := fold_left Z.add weights 0.

(** The walk over the weights: the index at which the running remainder turns
    negative, [d] when it never does. *)
Fixpoint weight_walk (weights : list Z) (i : nat) (r : Z) (d : nat) : nat :=
  match weights with
  | [] => d
  | w :: weights => let r := r - w in if r <? 0 then i else weight_walk weights (S i) r d
  end.

(** [%0Nllu] *)
Definition printf_0 (width : nat) (v : Z) : string :=
  format_digits (Nat.max width (dec_length (Z.to_nat (Z.log2 v)) v)) v EmptyString.

(** ** A subscriber *)

Definition mnc_digits (mnc : Z) : nat := if 100 <=? mnc then 3 else 2.
Definition msin_mod (mnc : Z) : Z := 10 ^ Z.of_nat (15 - 3 - mnc_digits mnc).
Definition make_imsi (mcc mnc msin : Z) : Z :=
  u64 ((mcc * 10 ^ Z.of_nat (mnc_digits mnc) + mnc) * msin_mod mnc + msin).

Definition status_text (su : double) : string :=
  if dltb su (dlit 977 (-3)) then "ACTIVE" else if dltb su (dlit 997 (-3)) then "SUSPENDED" else "BARRED".

Definition append_flag (name : string) (on : bool) (flags : string) : string :=
  if on then match flags with EmptyString => name | _ => (flags +:+ "|" +:+ name)%string end else flags.

Section Generate.
Context {S : Type} `{Rng S}.
(** The plan names of the compiled rules and the quota of each. *)
Variables (plans : list string) (quota : list Z).

Definition weighted_pick (weights : list Z) : G S nat :=
  draw r := uniform 0 (weight_total weights - 1) in ret (weight_walk weights 0 r (length weights - 1)%nat).

Definition pick_network : G S nat :=
  draw r := uniform 0 (weight_total (map snd kHomeNetworks) - 1) in ret (weight_walk (map snd kHomeNetworks) 0 r 0).

Definition draw_fraction : G S double :=
  draw u := roll in
  if dltb u (dlit 70 (-2)) then draw v := roll in ret (dmul v (dlit 5 (-1)))
  else if dltb u (dlit 90 (-2)) then draw v := roll in ret (dadd (dlit 5 (-1)) (dmul v (dlit 3 (-1))))
  else if dltb u (dlit 97 (-2)) then draw v := roll in ret (dadd (dlit 8 (-1)) (dmul v (dlit 2 (-1))))
  else draw v := roll in ret (dadd (dlit 10 (-1)) (dmul v (dlit 6 (-1)))).

Definition draw_used (q : Z) : G S Z :=
  if 0 <? q then draw fraction := draw_fraction in ret (u64 (dtrunc (dmul (double_of_Z q) fraction)))
  else draw u := roll in ret (u64 (dtrunc (dmul u (dlit 5 11)))).

Definition draw_flags : G S string :=
  draw u1 := roll in draw u2 := roll in draw u3 := roll in draw u4 := roll in
  ret (append_flag "test" (dltb u4 (dlit 1 (-2))) (append_flag "volte" (dltb u3 (dlit 60 (-2)))
        (append_flag "tethering" (dltb u2 (dlit 40 (-2))) (append_flag "roaming" (dltb u1 (dlit 85 (-2))) EmptyString)))).

(** One turn of the loop: the line and the next subscriber numbers. *)
Definition gen_row (next_msin : list Z) : G S (string * list Z) :=
  draw net := pick_network in
  let plmn := (nth net kHomeNetworks (0, 0)).1 in
  let mcc := plmn_mcc plmn in
  let mnc := plmn_mnc plmn in
  let msin := nth net next_msin 0 mod msin_mod mnc in
  let imsi := make_imsi mcc mnc msin in
  draw plan_id := weighted_pick kPlanWeights in
  let plan := nth (Nat.min plan_id (length plans - 1)) plans EmptyString in
  draw su := roll in
  draw used := draw_used (nth (Nat.min plan_id (length quota - 1)) quota 0) in
  draw serial := uniform 0 999999 in
  let imei := make_luhn_imei ((35000000 + Z.of_nat net * 111111) * 1000000 + serial) in
  draw flags := draw_flags in
  draw day := uniform 0 29 in
  let reset := kPeriodEnd - day * 86400 in
  ret (Golden.join [format_imsi imsi 15; printf_0 15 imei; plan; status_text su; to_string used; to_string reset;
             (to_string mcc +:+ String "-" (printf_0 (mnc_digits mnc) mnc))%string; flags],
       alter Z.succ net next_msin).

Fixpoint gen_rows (count : nat) (next_msin : list Z) : G S (list string) :=
  match count with
  | O => ret []
  | Datatypes.S count =>
      draw row := gen_row next_msin in
      draw rows := gen_rows count row.2 in
      ret (row.1 :: rows)
  end.

Definition gen_subscribers (count : nat) : G S (list string) :=
  draw rows := gen_rows count (replicate (length kHomeNetworks) 100000000) in ret (roster_header :: rows).
End Generate.

(** ** Luhn check digits *)

Lemma luhn_sum_bound f n dbl : 0 <= luhn_sum f n dbl <= 9 * Z.of_nat f.
Proof.
  revert n dbl. induction f as [|f IH]; intros n dbl; simpl; [lia|]. specialize (IH (n / 10) (negb dbl)).
  pose proof (luhn_weight_bound dbl (n mod 10) ltac:(pose proof (Z.mod_pos_bound n 10 ltac:(lia)); lia)). lia.
Qed.

Lemma luhn_sum_fuel f n dbl : 0 <= n < 10 ^ Z.of_nat f -> luhn_sum (S f) n dbl = luhn_sum f n dbl.
Proof.
  revert n dbl. induction f as [|f IH]; intros n dbl Hn.
  { simpl in Hn. replace n with 0 by lia. simpl. by destruct dbl. }
  change (luhn_sum (S (S f)) n dbl) with (luhn_weight dbl (n mod 10) + luhn_sum (S f) (n / 10) (negb dbl)).
  rewrite IH; [done|]. rewrite Nat2Z.inj_succ, Z.pow_succ_r in Hn by lia.
  split; [apply Z.div_pos; lia|apply Z.div_lt_upper_bound; lia].
Qed.

Lemma make_luhn_imei_valid body : 0 <= body < 10 ^ 14 ->
  imei_luhn_valid (make_luhn_imei body) = true /\ 0 <= make_luhn_imei body < 10 ^ 15.
Proof.
  intros Hb. unfold make_luhn_imei, imei_luhn_valid.
  rewrite (luhn_loop_sum 20 body 0 true) by (simpl; lia). rewrite Z.add_0_l.
  rewrite (luhn_sum_fuel 19) by (split; [lia|eapply Z.lt_le_trans; [apply Hb|by vm_compute]]).
  set (t := luhn_sum 19 body true). set (c := (10 - t mod 10) mod 10).
  assert (0 <= c < 10) as Hc by (apply Z.mod_pos_bound; lia).
  split; [|lia]. rewrite (luhn_loop_sum 20 _ 0 false) by (simpl; lia). rewrite Z.add_0_l.
  change (luhn_sum 20 (body * 10 + c) false) with ((body * 10 + c) mod 10 + luhn_sum 19 ((body * 10 + c) / 10) true).
  replace ((body * 10 + c) mod 10) with c by (rewrite Z.add_comm, Z.mod_add, Z.mod_small; lia).
  replace ((body * 10 + c) / 10) with body by (rewrite Z.add_comm, Z.div_add, (Z.div_small c); lia).
  fold t. apply Z.eqb_eq. unfold c.
  rewrite Zplus_mod_idemp_l. replace (10 - t mod 10 + t) with ((t - t mod 10) + 1 * 10) by lia.
  rewrite (Z.mod_add (t - t mod 10) 1 10), Zminus_mod_idemp_r, Z.sub_diag by lia. done.
Qed.

(** ** Lines and fields *)

Definition solid (s : string) : Prop := all_chars (fun c => negb (is_blank_cr c)) s = true.

Lemma digit_not_blank c : is_digit c = true -> negb (is_blank_cr c) = true.
Proof. by destruct c as [[] [] [] [] [] [] [] []]. Qed.

Lemma digits_solid s : all_digits s = true -> solid s.
Proof. rewrite digits_all_chars. apply all_chars_impl, digit_not_blank. Qed.

Lemma drop_while_solid p c s : p c = false -> drop_while p (String c s) = String c s.
Proof. intros Hc. simpl. by rewrite Hc. Qed.

Lemma trim_solid s : solid s -> trim s = s.
Proof.
  intros Hs. unfold trim. destruct s as [|c s]; [done|]. pose proof Hs as Hc. unfold solid in Hc. simpl in Hc.
  apply andb_prop in Hc as [Hc%negb_true_iff _]. rewrite drop_while_solid by done. by apply drop_while_end_id.
Qed.

Lemma drop_while_end_app p s t : drop_while_end p t = t -> t <> EmptyString -> drop_while_end p (s +:+ t)%string = (s +:+ t)%string.
Proof.
  intros Ht Hne. induction s as [|c s IH]; [exact Ht|]. rewrite app_cons. simpl. rewrite IH.
  destruct s as [|d s]; [|done]. change (EmptyString +:+ t)%string with t. by destruct t.
Qed.

Lemma join_snoc l s : l <> [] -> Golden.join (l ++ [s]) = (Golden.join l +:+ String "," s)%string.
Proof.
  induction l as [|x l IH]; [done|]. intros _. destruct l as [|y l]; [done|].
  change ((x :: y :: l) ++ [s]) with (x :: y :: (l ++ [s])). rewrite !join_cons.
  change (y :: l ++ [s]) with ((y :: l) ++ [s]). rewrite IH by done. by rewrite str_app_assoc, app_cons.
Qed.

(** A line that starts with a solid field and ends with one. *)
Lemma trim_join c f l s : is_blank_cr c = false -> solid s ->
  trim (Golden.join ((String c f :: l) ++ [s])) = Golden.join ((String c f :: l) ++ [s]) /\
  exists t, Golden.join ((String c f :: l) ++ [s]) = String c t.
Proof.
  intros Hc Hs. rewrite join_snoc by done. assert (exists t, Golden.join (String c f :: l) = String c t) as [t Et].
  { destruct l; [by eexists|]. rewrite join_cons, app_cons. by eexists. }
  rewrite Et, app_cons. split; [|by eexists]. unfold trim. rewrite drop_while_solid by done. rewrite <- app_cons.
  apply drop_while_end_app; [|done]. apply drop_while_end_id. simpl. by rewrite Hs.
Qed.

Lemma parse_u64_to_string v : fits 64 v -> parse_u64 (to_string v) = Some v.
Proof.
  intros Hv. destruct (to_string_value v ltac:(apply Hv)) as [Hd Hval]. unfold parse_u64.
  rewrite trim_solid by (by apply digits_solid). destruct (to_string_first v ltac:(apply Hv)) as (c & s & E & _). rewrite E, <- E.
  rewrite digits_loop_spec, Hd, Hval, wrap_id by (done || by apply fits_0). done.
Qed.

Lemma printf_0_format n v : (1 <= n)%nat -> 0 <= v < 10 ^ Z.of_nat n -> printf_0 n v = format_imsi v n.
Proof.
  intros Hn Hv. unfold printf_0, format_imsi. by rewrite Nat.max_l by (apply dec_length_upper; lia).
Qed.

(** What the flag names of a line may be, and what the loader makes of them. *)
Definition flag_texts : list string :=
  f1 ← [false; true]; f2 ← [false; true]; f3 ← [false; true]; f4 ← [false; true];
  mret (append_flag "test" f4 (append_flag "volte" f3 (append_flag "tethering" f2 (append_flag "roaming" f1 EmptyString)))).

Definition clean_text (s : string) : bool :=
  all_chars (fun c => negb (is_blank_cr c)) s && all_chars (fun d => negb (Ascii.eqb d ",")) s.

Lemma flag_texts_ok flags : flags ∈ flag_texts -> clean_text flags = true /\ 0 <= parse_sub_flags flags < 16.
Proof.
  intros Hf. assert (forallb (fun t => clean_text t && (0 <=? parse_sub_flags t) && (parse_sub_flags t <? 16)) flag_texts = true)
    as E by (by vm_compute). rewrite forallb_forall in E. apply list_elem_of_In in Hf. specialize (E _ Hf).
  apply andb_prop in E as [[E1 E2]%andb_prop E3]. split; [done|lia].
Qed.

(** A plan name that a CSV field can carry. *)
Definition clean_plan (name : string) : Prop := trim name = name /\ no_comma name.

Section Row.
Variables (plans : list string) (imsi imei used reset plmn : Z) (plan status plmn_text flags : string)
  (st : SubscriberStatus) (i : Z).
Hypothesis Himsi : 0 < imsi < 10 ^ 15.
Hypothesis Himei : 0 <= imei < 10 ^ 15.
Hypothesis Hplan : clean_plan plan /\ index_of plan plans = Some i.
Hypothesis Hstatus : clean_text status = true /\ parse_status status = Some st.
Hypothesis Hused : fits 64 used.
Hypothesis Hreset : fits 64 reset.
Hypothesis Hplmn : clean_text plmn_text = true /\ parse_plmn plmn_text = Some plmn.
Hypothesis Hflags : flags ∈ flag_texts.

Definition row_line : string :=
  Golden.join [format_imsi imsi 15; printf_0 15 imei; plan; status; to_string used; to_string reset; plmn_text; flags].

Lemma clean_text_spec s : clean_text s = true -> solid s /\ no_comma s.
Proof using. intros [H1 H2]%andb_prop. done. Qed.

Lemma format_digits_ok v : all_digits (format_imsi v 15) = true.
Proof using. unfold format_imsi. by rewrite format_digits_all. Qed.

Lemma row_split : trim row_line = row_line /\ is_content row_line = true /\ is_header row_line = false /\
  split_fields 8 row_line =
    [format_imsi imsi 15; printf_0 15 imei; plan; status; to_string used; to_string reset; plmn_text; flags].
Proof using All.
  pose proof (format_digits_ok imsi) as Hd. destruct (format_imsi imsi 15) as [|c f] eqn:Ef.
  { apply (f_equal String.length) in Ef. unfold format_imsi in Ef. rewrite format_digits_length in Ef. done. }
  assert (is_digit c = true) as Hc by (simpl in Hd; by apply andb_prop in Hd as [? _]).
  pose proof (proj1 (flag_texts_ok _ Hflags)) as Hcl. apply clean_text_spec in Hcl as [Hs Hn].
  destruct (trim_join c f [printf_0 15 imei; plan; status; to_string used; to_string reset; plmn_text] flags)
    as [Ht (t & Et)]; [by apply negb_true_iff, digit_not_blank|done|].
  unfold row_line. rewrite Ef. simpl app in Ht, Et. split; [done|].
  unfold is_content, is_header. rewrite Ht, Et. split; [by destruct c as [[] [] [] [] [] [] [] []]|].
  split; [by destruct c as [[] [] [] [] [] [] [] []]|]. rewrite <- Et.
  apply split_join_any; [|done|done]. repeat (apply Forall_cons_2; [|]); try apply Forall_nil_2.
  - by apply digits_no_comma.
  - rewrite printf_0_format by (simpl; lia). apply digits_no_comma, format_digits_ok.
  - apply Hplan.
  - by apply clean_text_spec, Hstatus.
  - apply digits_no_comma, to_string_value, Hused.
  - apply digits_no_comma, to_string_value, Hreset.
  - by apply clean_text_spec, Hplmn.
  - done.
Qed.

Lemma row_parses : parse_row plans (trim row_line) =
  inr (mkRecord imsi imei (u32 i) (status_code st) used reset plmn (parse_sub_flags flags)).
Proof using All.
  destruct row_split as (Et & _ & _ & Es). rewrite Et. unfold parse_row. rewrite Es. cbn [length nth].
  change ((8 <? 7)%nat) with false. change ((8 <=? 8)%nat) with true. cbn match.
  rewrite (trim_solid (format_imsi imsi 15)) by (apply digits_solid, format_digits_ok).
  rewrite printf_0_format by (simpl; lia). rewrite (trim_solid (format_imsi imei 15)) by (apply digits_solid, format_digits_ok).
  unfold parse_imsi, kImsiDigits. rewrite (parse_format_digits 15 imsi) by (simpl; lia).
  destruct imsi as [|p|p] eqn:Ei; [lia| |lia]. rewrite <- Ei.
  assert (parse_imei (format_imsi imei 15) = Some imei) as ->.
  { unfold parse_imei. destruct (format_imsi imei 15) eqn:E; [|rewrite <- E; apply (parse_format_digits 15); simpl; lia].
    apply (f_equal String.length) in E. unfold format_imsi in E. by rewrite format_digits_length in E. }
  destruct Hplan as [[-> _] ->]. destruct Hstatus as [_ ->]. rewrite !parse_u64_to_string by done.
  destruct Hplmn as [[Hs _]%clean_text_spec Hp]. by rewrite trim_solid, Hp.
Qed.
End Row.

(** ** Networks and subscriber numbers *)

Definition net_plmn (net : nat) : Z := (nth net kHomeNetworks (0, 0)).1.
Definition net_imsi (net : nat) (msin : Z) : Z := make_imsi (plmn_mcc (net_plmn net)) (plmn_mnc (net_plmn net)) msin.
Definition net_text (net : nat) : string :=
  let mnc := plmn_mnc (net_plmn net) in
  (to_string (plmn_mcc (net_plmn net)) +:+ String "-" (printf_0 (mnc_digits mnc) mnc))%string.

#[local] Ltac each_net net := destruct net as [|[|[|[|[|net]]]]]; [..|lia].

Lemma net_text_ok net : (net < 5)%nat -> clean_text (net_text net) = true /\ parse_plmn (net_text net) = Some (net_plmn net).
Proof. intros Hn. each_net net; split; by vm_compute. Qed.

Definition net_block (net : nat) : Z := nth net [310260000000000; 310410000000000; 234150000000000; 262010000000000; 208010000000000] 0.

Lemma net_imsi_value net m : (net < 5)%nat -> 0 <= m < 10 ^ 9 -> net_imsi net m = net_block net + m.
Proof.
  intros Hn Hm. unfold net_imsi, make_imsi.
  assert ((plmn_mcc (net_plmn net) * 10 ^ Z.of_nat (mnc_digits (plmn_mnc (net_plmn net))) + plmn_mnc (net_plmn net)) *
    msin_mod (plmn_mnc (net_plmn net)) = net_block net) as -> by (each_net net; by vm_compute).
  apply wrap_id. assert (0 <= net_block net < 2 ^ 63) by (each_net net; by vm_compute). split; [lia|].
  change (2 ^ 64) with (2 * 2 ^ 63). lia.
Qed.

Lemma msin_in_range net m : (net < 5)%nat -> 0 <= m < 10 ^ 9 -> m mod msin_mod (plmn_mnc (net_plmn net)) = m.
Proof.
  intros Hn Hm. apply Z.mod_small. assert (10 ^ 9 <= msin_mod (plmn_mnc (net_plmn net))) by (each_net net; by vm_compute). lia.
Qed.

Lemma net_imsi_range net m : (net < 5)%nat -> 0 <= m < 10 ^ 9 -> 0 < net_imsi net m < 10 ^ 15.
Proof.
  intros Hn Hm. rewrite net_imsi_value by done.
  assert (0 < net_block net /\ net_block net + 10 ^ 9 <= 10 ^ 15) by (each_net net; by vm_compute). lia.
Qed.

Lemma net_imsi_inj net net' m m' : (net < 5)%nat -> (net' < 5)%nat -> 0 <= m < 10 ^ 9 -> 0 <= m' < 10 ^ 9 ->
  net_imsi net m = net_imsi net' m' -> net = net' /\ m = m'.
Proof.
  intros Hn Hn' Hm Hm'. rewrite !net_imsi_value by done. intros E.
  each_net net; each_net net'; unfold net_block in E; cbn [nth] in E; lia.
Qed.

Lemma weight_walk_lt ws i r d n : (d < n)%nat -> (i + length ws <= n)%nat -> (weight_walk ws i r d < n)%nat.
Proof.
  revert i r. induction ws as [|w ws IH]; intros i r Hd Hl; simpl in *; [done|]. destruct (_ <? 0); [lia|]. apply IH; lia.
Qed.

Lemma status_text_ok su : clean_text (status_text su) = true /\ exists st, parse_status (status_text su) = Some st.
Proof. unfold status_text. repeat case_match; (split; [by vm_compute|eexists; by vm_compute]). Qed.

Lemma flags_in f1 f2 f3 f4 : append_flag "test" f4 (append_flag "volte" f3 (append_flag "tethering" f2
  (append_flag "roaming" f1 EmptyString))) ∈ flag_texts.
Proof. destruct f1, f2, f3, f4; apply list_elem_of_In; vm_compute; tauto. Qed.

(** ** The generated file loads *)

(** What the loader makes of a generated line. *)
Record generated (plans : list string) (rec : SubscriberRecord) : Prop := {
  ge_network : exists net msin, (net < 5)%nat /\ 10 ^ 8 <= msin < 10 ^ 9 /\ s_imsi rec = net_imsi net msin /\
    s_home_plmn rec = net_plmn net;
  ge_imei : imei_luhn_valid (s_imei rec) = true;
  ge_plan : exists name, plans !! Z.to_nat (s_plan_id rec) = Some name;
  ge_status : 0 <= s_status rec <= 2;
  ge_usage : 0 <= s_bytes_used_period rec <= 2 ^ 63;
  ge_reset : kPeriodEnd - 29 * 86400 <= s_period_reset_ts rec <= kPeriodEnd;
  ge_flags : 0 <= s_flags rec < 16 }.

Definition good_line (plans : list string) (line : string) (rec : SubscriberRecord) : Prop :=
  parse_row plans (trim line) = inr rec /\ is_content line = true /\ is_header line = false /\ generated plans rec /\
  trim line = line /\ hd EmptyString (split_fields 8 line) = format_imsi (s_imsi rec) 15.

Section Sound.
Context {S : Type} `{RngOk S}.
Variables (plans : list string) (quota : list Z).
Hypothesis Hplans : plans <> [] /\ Z.of_nat (length plans) <= 32 /\ Forall clean_plan plans.
Hypothesis Hquota : Forall (fun q => 0 <= q <= 2 ^ 62) quota.

Lemma pick_network_ok : always (S := S) pick_network (fun net => (net < 5)%nat).
Proof using All.
  eapply always_bind; [apply always_uniform; by vm_compute|]. intros r _. apply always_ret.
  apply weight_walk_lt; [lia|]. simpl. lia.
Qed.

Lemma draw_fraction_ok : always (S := S) draw_fraction (fun x => dwithin x 2 0).
Proof using All.
  assert (forall v k, dwithin v 1 0 -> dwithin_b k 1 0 60 = true -> dwithin (dmul v k) 1 0) as M.
  { intros v k Hv Hk. exact (dmul_within v k 1 0 1 0 Hv (dwithin_compute _ _ _ _ Hk) ltac:(lia) ltac:(lia) ltac:(lia) ltac:(lia)). }
  assert (forall a v k, dwithin v 1 0 -> dwithin_b k 1 0 60 = true -> dwithin_b a 1 0 60 = true ->
    dwithin (dadd a (dmul v k)) 2 0) as A.
  { intros a v k Hv Hk Ha. apply (dadd_within _ _ 1 1 0); [by apply (dwithin_compute _ _ _ 60)|by apply M|lia..]. }
  eapply always_bind; [apply always_roll|]. intros u _.
  repeat (apply always_if; intros _); (eapply always_bind; [apply always_roll|]; intros v Hv; apply always_ret).
  - apply (dwithin_weaken _ 1 0 2 0 0); [lia..|by vm_compute|]. by apply M.
  - by apply A.
  - by apply A.
  - by apply A.
Qed.

Lemma draw_used_ok q : 0 <= q <= 2 ^ 62 -> always (S := S) (draw_used q) (fun used => 0 <= used <= 2 ^ 63).
Proof using All.
  intros Hq. assert (forall n, 0 <= n <= 2 ^ 63 -> 0 <= u64 n <= 2 ^ 63) as W.
  { intros n Hn. rewrite wrap_id; [done|]. split; [lia|]. change (2 ^ 64) with (2 * 2 ^ 63). lia. }
  apply always_if; intros _.
  - eapply always_bind; [apply draw_fraction_ok|]. intros x Hx. apply always_ret, W.
    pose proof (dmul_within _ _ _ _ _ _ (double_of_Z_within q 62 Hq ltac:(lia)) Hx ltac:(lia) ltac:(lia) ltac:(lia) ltac:(lia)) as Hw.
    exact (dtrunc_within _ _ _ Hw ltac:(lia) ltac:(lia)).
  - eapply always_bind; [apply always_roll|]. intros u Hu. apply always_ret, W.
    assert (dwithin (dlit 5 11) 500000000000 0) as H5 by (by apply (dwithin_compute _ _ _ 60)).
    pose proof (dmul_within _ _ _ _ _ _ Hu H5 ltac:(lia) ltac:(lia) ltac:(lia) ltac:(lia)) as Hw.
    pose proof (dtrunc_within _ _ _ Hw ltac:(lia) ltac:(lia)). lia.
Qed.

Lemma draw_flags_ok : always (S := S) draw_flags (fun flags => flags ∈ flag_texts).
Proof using All.
  do 4 (eapply always_bind; [apply always_roll|]; intros ? _). apply always_ret, flags_in.
Qed.

Lemma nth_plan k : let plan := nth (Nat.min k (length plans - 1)) plans EmptyString in
  clean_plan plan /\ exists i, index_of plan plans = Some i.
Proof using All.
  destruct Hplans as (Hne & _ & Hc). assert (Nat.min k (length plans - 1) < length plans)%nat as Hlt by (destruct plans; [done|simpl; lia]).
  pose proof (nth_In plans EmptyString Hlt) as Hin. simpl. split.
  - rewrite list.Forall_forall in Hc. apply Hc. by apply list_elem_of_In.
  - apply index_of_elem. by apply list_elem_of_In.
Qed.

Lemma nth_quota k : 0 <= nth (Nat.min k (length quota - 1)) quota 0 <= 2 ^ 62.
Proof using All.
  destruct (nth_in_or_default (Nat.min k (length quota - 1)) quota 0) as [Hin| ->]; [|lia].
  rewrite list.Forall_forall in Hquota. apply Hquota. by apply list_elem_of_In.
Qed.

(** One line: it loads, and its subscriber number is the next of its network. *)
Lemma gen_row_ok ms : length ms = 5%nat -> Forall (fun m => 10 ^ 8 <= m < 10 ^ 9) ms ->
  always (S := S) (gen_row plans quota ms) (fun row => exists rec net m, good_line plans row.1 rec /\ (net < 5)%nat /\
    ms !! net = Some m /\ s_imsi rec = net_imsi net m /\ row.2 = alter Z.succ net ms).
Proof using All.
  intros Hl Hms. unfold gen_row. eapply always_bind; [apply pick_network_ok|]. intros net Hnet. simpl in Hnet. cbn zeta.
  fold (net_plmn net). destruct (lookup_lt_is_Some_2 ms net ltac:(lia)) as [m Em].
  assert (10 ^ 8 <= m < 10 ^ 9) as Hm by (rewrite Forall_lookup in Hms; by apply (Hms net)).
  rewrite (nth_lookup_Some _ _ _ _ Em), msin_in_range by (done || lia). fold (net_imsi net m).
  eapply (always_bind _ _ (fun _ => True)); [by intros s|]. intros k _.
  eapply always_bind; [apply always_roll|]. intros su _. eapply always_bind; [apply draw_used_ok, nth_quota|].
  intros used Hu. eapply always_bind; [by apply always_uniform|]. intros serial Hs. simpl in Hs.
  eapply always_bind; [apply draw_flags_ok|]. intros flags Hf. eapply always_bind; [by apply always_uniform|].
  intros day Hd. cbv beta in *. apply always_ret. cbn [fst snd].
  destruct (nth_plan k) as [Hcp [i Hi]]. destruct (status_text_ok su) as [Hst [st Est]].
  destruct (net_text_ok net Hnet) as [Htx Hpl]. destruct (flag_texts_ok _ Hf) as [_ Hfl].
  pose proof (net_imsi_range net m Hnet ltac:(lia)) as Hir. set (body := (35000000 + Z.of_nat net * 111111) * 1000000 + serial).
  destruct (make_luhn_imei_valid body ltac:(unfold body; lia)) as [Hv Hmr].
  assert (fits 64 used) as Fu by (split; [lia|]; change (2 ^ 64) with (2 * 2 ^ 63); lia).
  assert (fits 64 (kPeriodEnd - day * 86400)) as Fr by (unfold fits, kPeriodEnd; lia).
  pose proof (row_parses plans (net_imsi net m) (make_luhn_imei body) used _ (net_plmn net) _ _ (net_text net) flags st i
    Hir Hmr (conj Hcp Hi) (conj Hst Est) Fu Fr (conj Htx Hpl) Hf) as Hp.
  pose proof (row_split plans (net_imsi net m) (make_luhn_imei body) used _ (net_plmn net) _ _ (net_text net) flags st i
    Hir Hmr (conj Hcp Hi) (conj Hst Est) Fu Fr (conj Htx Hpl) Hf) as (Htr & Hc & Hh & Hsp).
  eexists _, net, m. split; [|split; [done|]; split; [done|]; split; [|done]].
  - split; [exact Hp|]. split; [exact Hc|]. split; [exact Hh|]. split; [|split; [exact Htr|exact (f_equal (hd EmptyString) Hsp)]].
    apply parse_row_record in Hp as [_ _ _ Hplan Hstat _ _]; [|apply Hplans].
    split; [|exact Hv|by eexists|exact Hstat|exact Hu|simpl; lia|exact Hfl].
    exists net, m. done.
  - done.
Qed.

(** Numbers left for [k] more subscribers of each network. *)
Definition room (k : nat) (ms : list Z) : Prop :=
  length ms = 5%nat /\ Forall (fun m => 10 ^ 8 <= m /\ m + Z.of_nat k <= 10 ^ 9) ms.

Definition fresh_from (ms : list Z) (rec : SubscriberRecord) : Prop :=
  exists net m0 m, (net < 5)%nat /\ ms !! net = Some m0 /\ m0 <= m < 10 ^ 9 /\ 0 <= m0 /\ s_imsi rec = net_imsi net m.

Lemma fresh_after ms net m0 rec : ms !! net = Some m0 -> (net < 5)%nat -> 0 <= m0 -> fresh_from (alter Z.succ net ms) rec ->
  fresh_from ms rec /\ (m0 < 10 ^ 9 -> s_imsi rec <> net_imsi net m0).
Proof using All.
  intros E Hn Hp (net' & m0' & m & Hn' & E' & Hm & Hp' & Ei). rewrite Ei. destruct (decide (net' = net)) as [->|Hne].
  - rewrite list_lookup_alter_eq, E in E'. injection E' as <-. split; [exists net, m0, m; split_and!; (done || lia)|].
    intros Hlt Eq. apply net_imsi_inj in Eq as [_ ?]; lia.
  - rewrite list_lookup_alter_ne in E' by done. split; [by exists net', m0', m|].
    intros Hlt Eq. apply net_imsi_inj in Eq as [? _]; (done || lia).
Qed.

Lemma gen_rows_ok k ms : room k ms -> always (S := S) (gen_rows plans quota k ms) (fun rows => length rows = k /\
  exists recs, Forall2 (good_line plans) rows recs /\ NoDup (s_imsi <$> recs) /\ Forall (fresh_from ms) recs).
Proof using All.
  revert ms. induction k as [|k IH]; intros ms [Hl Hms]; cbn [gen_rows].
  { apply always_ret. split; [done|]. exists []. split_and!; constructor. }
  eapply always_bind.
  { apply gen_row_ok; [done|]. eapply list.Forall_impl; [exact Hms|]. intros m Hm. simpl in Hm. lia. }
  intros [line ms'] (rec & net & m & Hline & Hn & Em & Hi & Ems). simpl in Ems. subst ms'.
  assert (10 ^ 8 <= m /\ m + Z.of_nat (Datatypes.S k) <= 10 ^ 9) as Hm by (rewrite Forall_lookup in Hms; exact (Hms _ _ Em)).
  eapply always_bind.
  { apply IH. cbn [snd]. split; [by rewrite length_alter|]. apply Forall_lookup_2. intros j x Hx. rewrite Forall_lookup in Hms.
    destruct (decide (j = net)) as [->|Hne].
    - simpl in Hx. rewrite list_lookup_alter_eq, Em in Hx. injection Hx as <-. lia.
    - simpl in Hx. rewrite list_lookup_alter_ne in Hx by done. specialize (Hms _ _ Hx). simpl in Hms. lia. }
  intros rows (Hrl & recs & HF & Hnd & Hfr). apply always_ret. cbn [fst snd] in *. split; [simpl; lia|]. exists (rec :: recs).
  split; [by constructor|]. rewrite list.Forall_forall in Hfr. split.
  - rewrite fmap_cons. constructor; [|done]. rewrite list_elem_of_fmap. intros (rec' & E & Hin).
    destruct (fresh_after ms net m rec' Em Hn ltac:(lia) (Hfr _ Hin)) as [_ Hne]. apply Hne; [lia|]. congruence.
  - constructor; [exists net, m, m; split_and!; (done || lia)|]. apply list.Forall_forall. intros rec' Hin.
    by apply (fresh_after ms net m rec' Em Hn ltac:(lia)), Hfr.
Qed.

(** The table after the rows of pairwise different IMSIs. *)
Definition add_record (m : gmap Z SubscriberRecord) (rec : SubscriberRecord) : gmap Z SubscriberRecord :=
  <[s_imsi rec := rec]> m.

Lemma good_lines_map rows recs m : Forall2 (good_line plans) rows recs ->
  foldl (row_map plans) m rows = foldl add_record m recs /\ List.filter (row_bad plans) rows = [] /\
  List.filter is_content rows = rows.
Proof using.
  intros F. revert m. induction F as [|line rec rows recs (Hp & Hc & _) F IH]; intros m; simpl; [done|].
  destruct (IH (add_record m rec)) as (E1 & E2 & E3). rewrite Hc, E2, E3. unfold row_bad. rewrite Hp.
  split; [|done]. rewrite <- E1. f_equal. unfold row_map. by rewrite Hp.
Qed.

Lemma foldl_add_lookup recs m k rec : NoDup (s_imsi <$> recs) -> (forall r, r ∈ recs -> m !! s_imsi r = None) ->
  foldl add_record m recs !! k = Some rec <-> (rec ∈ recs /\ s_imsi rec = k) \/ m !! k = Some rec.
Proof using.
  revert m. induction recs as [|r recs IH]; intros m Hnd Hm; simpl.
  { split; [by right|]. intros [[[]%not_elem_of_nil _]|]; done. }
  rewrite fmap_cons in Hnd. apply NoDup_cons in Hnd as [Hr Hnd]. rewrite IH; [|done|].
  - unfold add_record. destruct (decide (s_imsi r = k)) as [<-|Hne].
    + rewrite lookup_insert_eq, elem_of_cons, (Hm r) by (by constructor). split.
      * intros [[Hin E]|[= ->]]; [|by left; split; [left|]]. left. split; [by right|done].
      * intros [[[->|Hin] E]|]; [by right| |done]. left. done.
    + rewrite lookup_insert_ne, elem_of_cons by done. split.
      * intros [[Hin E]|E]; [left; split; [by right|done]|by right].
      * intros [[[->|Hin] E]|E]; [done|by left|by right].
  - intros r' Hr'. unfold add_record. rewrite lookup_insert_ne; [apply Hm; by constructor|].
    intros E. apply Hr. rewrite E. by apply list_elem_of_fmap_2.
Qed.

(** The data lines of a generated file. *)
Lemma roster_lines count seed : Z.of_nat count <= 9 * 10 ^ 8 ->
  exists rows recs, (gen_subscribers (S := S) plans quota count seed).1 = roster_header :: rows /\
    data_lines (roster_header :: rows) = rows /\ length rows = count /\ Forall2 (good_line plans) rows recs /\
    NoDup (s_imsi <$> recs) /\ List.filter (row_bad plans) rows = [].
Proof using All.
  intros Hc. assert (room count (replicate (length kHomeNetworks) 100000000)) as Hroom.
  { split; [done|]. apply Forall_replicate. lia. }
  pose proof (gen_rows_ok count _ Hroom seed) as Hrows. unfold gen_subscribers, bind.
  destruct (gen_rows plans quota count _ seed) as [rows s']. cbn [fst ret] in *.
  destruct Hrows as (Hlen & recs & HF & Hnd & _). destruct (good_lines_map rows recs ∅ HF) as (_ & Eb & Econ).
  exists rows, recs. split; [done|]. split; [|done].
  unfold data_lines. cbn [List.filter]. change (is_content roster_header) with true. cbn match. rewrite Econ.
  by change (is_header roster_header) with true.
Qed.

Lemma roster_loaded count seed n lf path : 0 <= n <= 2 ^ 50 -> finite_double lf -> Z.of_nat count <= 9 * 10 ^ 8 ->
  exists rows recs s0 st r, (gen_subscribers (S := S) plans quota count seed).1 = roster_header :: rows /\
    Forall2 (good_line plans) rows recs /\ new_store n lf = Some s0 /\
    load_csv s0 path (Some (roster_header :: rows)) plans = Some (st, r) /\
    ld_loaded r = Z.of_nat count /\ ld_skipped r = 0 /\ ld_errors r = [] /\
    length recs = count /\ NoDup (s_imsi <$> recs) /\ Forall (generated plans) recs /\
    forall imsi, exists o, Store.find st imsi = Some o /\ forall rec, o = Some rec <-> rec ∈ recs /\ s_imsi rec = imsi.
Proof using All.
  intros Hn Hlf Hc. destruct (roster_lines count seed Hc) as (rows & recs & Eg & Ed & Hlen & HF & Hnd & Eb).
  destruct (new_store_rep n lf Hn Hlf) as (s0 & E0 & R0). destruct (good_lines_map rows recs ∅ HF) as (Em & _).
  destruct (load_lines_spec path plans (roster_header :: rows) 0 s0 ∅ (mkLoad 0 0 []) R0) as (st & r & E & P);
    [rewrite map_size_empty; simpl; lia|done|]. rewrite Ed in P. destruct P as (R & Sk & T & _ & OK).
  rewrite Eb in Sk. simpl in Sk, T. exists rows, recs, s0, st, r. split; [done|]. split; [done|]. split; [done|]. split; [done|].
  split; [lia|]. split; [done|]. split; [by apply OK|]. split; [by apply Forall2_length in HF as <-|]. split; [done|].
  split.
  { eapply Forall2_Forall_r; [exact HF|]. apply list.Forall_forall. intros line _ rec (_ & _ & _ & Hg & _). done. }
  intros imsi. eexists. split; [by apply find_lookup|]. intros rec. rewrite Em, foldl_add_lookup by done.
  rewrite lookup_empty. split; [by intros [|]|by left].
Qed.

(** A generated roster loads without a complaint.  Whatever the generator draws,
    for up to 900 million subscribers: the loader of the subscriber table accepts every
    line under the rules the roster was made for, the table then holds exactly one
    record per line, no two with the same IMSI, and each is a subscriber of a home
    network with a valid IMEI, a defined plan, status and flags and a billing date in
    the month before the period end. *)
Theorem roster_loads count seed n lf path : 0 <= n <= 2 ^ 50 -> finite_double lf -> Z.of_nat count <= 9 * 10 ^ 8 ->
  exists recs s0 st r, new_store n lf = Some s0 /\
    load_csv s0 path (Some (gen_subscribers (S := S) plans quota count seed).1) plans = Some (st, r) /\
    ld_loaded r = Z.of_nat count /\ ld_skipped r = 0 /\ ld_errors r = [] /\
    length recs = count /\ NoDup (s_imsi <$> recs) /\ Forall (generated plans) recs /\
    forall imsi, exists o, Store.find st imsi = Some o /\ forall rec, o = Some rec <-> rec ∈ recs /\ s_imsi rec = imsi.
Proof using All.
  intros Hn Hlf Hc. destruct (roster_loaded count seed n lf path Hn Hlf Hc) as (rows & recs & s0 & st & r & -> & _ & Hload).
  by exists recs, s0, st, r.
Qed.
End Sound.

(** ** Samples *)

Definition sample_plans : list string := ["basic"; "gold"].

Lemma sample_plans_ok : sample_plans <> [] /\ Z.of_nat (length sample_plans) <= 32 /\ Forall clean_plan sample_plans.
Proof. split; [done|]. split; [done|]. by repeat constructor. Qed.

Lemma sample_quota_ok : Forall (fun q => 0 <= q <= 2 ^ 62) [20000000000; 0].
Proof. repeat constructor; lia. Qed.

Lemma roster_loads_witness : exists recs s0 st r, new_store 16 (dlit 5 (-1)) = Some s0 /\
  load_csv s0 "subs.csv" (Some (gen_subscribers (S := Z) sample_plans [20000000000; 0] 20 7).1) sample_plans = Some (st, r) /\
  ld_loaded r = 20 /\ length recs = 20%nat /\ Forall (generated sample_plans) recs.
Proof.
  destruct (roster_loads (S := Z) sample_plans [20000000000; 0] sample_plans_ok sample_quota_ok 20 7 16 (dlit 5 (-1)) "subs.csv")
    as (recs & s0 & st & r & E0 & E & Hl & _ & _ & Hn & _ & Hg & _).
  - lia.
  - exists (2 ^ 52), (-53). split; [apply dval_refl|lia].
  - lia.
  - exists recs, s0, st, r. split; [exact E0|]. split; [exact E|]. split; [exact Hl|]. split; [exact Hn|exact Hg].
Defined.

Example sample_row : nth 3 (gen_subscribers (S := Z) sample_plans [20000000000; 0] 3 7).1 EmptyString =
  "310410100000000,351111113517239,gold,ACTIVE,107609224152,1788048000,310-410,roaming|tethering"%string.
Proof. by vm_compute. Qed.
