(* ===== verification/Compiler.v ===== *)
(** * Compiler: from the YAML rules file to a rule set ([src/rules.cpp])

    The compiler class: its state (the rule set under construction, errors,
    warnings and name tables) threaded through a small state monad, one
    definition per member function.  [files] gives the lines of a file, or
    [None] when it cannot be opened; [now] is the wall clock in seconds.  A
    computation that returns [None] does not terminate. *)

From S2P Require Import Prelude Text Imsi Wire FlatSet Rules Sha256 Yaml.
From Stdlib Require Import ZArith Lia Bool Ascii String.
From stdpp Require Import base list numbers strings gmap.
Local Open Scope Z_scope.

Definition kMaxExpansionPerRule : Z := 64.

Definition to_upper (s : string) : string := string_map toupper s.

(** ** Name tables *)

Definition parse_verdict (s : string) : option Verdict :=
  let u := to_upper s in
  if String.eqb u "ALLOW" || String.eqb u "PERMIT" then Some kAllow
  else if String.eqb u "DENY" || String.eqb u "REJECT" || String.eqb u "BLOCK" then Some kDeny
  else if String.eqb u "REDIRECT" then Some kRedirect
  else None.

Definition parse_reason (s : string) : option Z :=
  let u := to_upper s in
  match list_find (fun i => u = reason_name (Z.of_nat i)) (seq 0 (Z.to_nat kReasonCount)) with
  | Some (_, i) => Some (Z.of_nat i)
  | None => None
  end.

Definition parse_rat (s : string) : option RatType :=
  let u := to_upper s in
  if String.eqb u "LTE" || String.eqb u "EUTRAN" || String.eqb u "4G" then Some kLte
  else if String.eqb u "NR" || String.eqb u "5G" || String.eqb u "NGRAN" then Some kNr
  else if String.eqb u "WLAN" || String.eqb u "WIFI" || String.eqb u "WI-FI" then Some kWlan
  else None.

Definition parse_decision_flag (s : string) : option Z :=
  let u := to_upper s in
  if String.eqb u "THROTTLED" then Some kFlagThrottled
  else if String.eqb u "ROAMING_RESTRICTED" then Some kFlagRoamingRestricted
  else if String.eqb u "TETHERING_BLOCKED" then Some kFlagTetheringBlocked
  else if String.eqb u "QUOTA_WARNING" then Some kFlagQuotaWarning
  else if String.eqb u "OFF_PEAK_BONUS" then Some kFlagOffPeakBonus
  else None.

Definition parse_inherit (s : string) : option Z :=
  let u := to_upper s in
  if String.eqb u "ALL" then Some kInheritAll
  else if String.eqb u "QOS" then Some kInheritQos
  else if String.eqb u "AMBR" then Some kInheritAmbr
  else if String.eqb u "QUOTA" then Some kInheritQuota
  else if String.eqb u "RATING_GROUP" then Some kInheritRatingGroup
  else None.

Definition is_standardized_5qi (q : Z) : bool :=
  bool_decide (q ∈ [1; 2; 3; 4; 5; 6; 7; 8; 9; 65; 66; 67; 69; 70; 71; 72; 73; 74; 75; 76; 79;
                    80; 82; 83; 84; 85; 86]).

(** ** Compiler state *)

Record RuleCompileError := mkError { e_message : string; e_line : Z }.

Record Compiler := mkCompiler {
  c_rs : RuleSet;
  c_errors : list RuleCompileError;
  c_warnings : list string;
  c_plan_ids : gmap string Z;
  c_redirect_ids : gmap string Z;
  c_seen_rule_ids : gset Z }.

Definition M (A : Type) : Type := Compiler -> option (A * Compiler).
Definition ret {A} (a : A) : M A := fun c => Some (a, c).
Definition bind {A B} (m : M A) (f : A -> M B) : M B := fun c =>
  match m c with Some (a, c') => f a c' | None => None end.

Declare Scope compiler_scope.
Delimit Scope compiler_scope with compiler.
Notation "'let*' x := m 'in' k" := (bind m (fun x => k))
  (at level 10, x pattern, k at level 200) : compiler_scope.
Notation "m ;; k" := (bind m (fun _ => k)) (at level 100, k at level 200, right associativity) : compiler_scope.
Local Open Scope compiler_scope.

Definition get_rs : M RuleSet := fun c => Some (c_rs c, c).
Definition set_rs (rs : RuleSet) : M unit := fun c =>
  Some (tt, mkCompiler rs (c_errors c) (c_warnings c) (c_plan_ids c) (c_redirect_ids c)
              (c_seen_rule_ids c)).
Definition get_plan_ids : M (gmap string Z) := fun c => Some (c_plan_ids c, c).
Definition set_plan_id (name : string) (id : Z) : M unit := fun c =>
  Some (tt, mkCompiler (c_rs c) (c_errors c) (c_warnings c) (<[name := id]> (c_plan_ids c))
              (c_redirect_ids c) (c_seen_rule_ids c)).
Definition get_redirect_ids : M (gmap string Z) := fun c => Some (c_redirect_ids c, c).
Definition set_redirect_id (name : string) (id : Z) : M unit := fun c =>
  Some (tt, mkCompiler (c_rs c) (c_errors c) (c_warnings c) (c_plan_ids c)
              (<[name := id]> (c_redirect_ids c)) (c_seen_rule_ids c)).
(** [seen_rule_ids_.insert(rid).second]. *)
Definition insert_rule_id (id : Z) : M bool := fun c =>
  Some (bool_decide (id ∉ c_seen_rule_ids c),
        mkCompiler (c_rs c) (c_errors c) (c_warnings c) (c_plan_ids c) (c_redirect_ids c)
          ({[id]} ∪ c_seen_rule_ids c)).

Definition err (msg : string) (line : Z) : M unit := fun c =>
  Some (tt, mkCompiler (c_rs c) (c_errors c ++ [mkError msg line]) (c_warnings c)
              (c_plan_ids c) (c_redirect_ids c) (c_seen_rule_ids c)).
Definition warn (msg : string) : M unit := fun c =>
  Some (tt, mkCompiler (c_rs c) (c_errors c) (c_warnings c ++ [msg])
              (c_plan_ids c) (c_redirect_ids c) (c_seen_rule_ids c)).

(** A loop over the elements of a container that runs to the end. *)
Fixpoint for_each {A} (l : list A) (body : A -> M unit) : M unit :=
  match l with
  | [] => ret tt
  | x :: l' => body x ;; for_each l' body
  end.
(** A loop whose body may return from the function: [false] stops it. *)
Fixpoint for_while {A} (l : list A) (body : A -> M bool) : M bool :=
  match l with
  | [] => ret true
  | x :: l' => let* go := body x in if go then for_while l' body else ret false
  end.

(** A block of a function that updates a variable of type [S] and may return
    false; [step_then] is the code that follows it. *)
Definition Step (S : Type) : Type := S -> M (bool * S).
Definition step_then {S} (s1 s2 : Step S) : Step S := fun a =>
  let* r := s1 a in if r.1 then s2 r.2 else ret r.
Definition step_ok {S} (a : S) : M (bool * S) := ret (true, a).
Definition step_fail {S} (msg : string) (line : Z) (a : S) : M (bool * S) :=
  err msg line ;; ret (false, a).
Fixpoint steps {S A} (l : list A) (body : A -> Step S) : Step S :=
  match l with
  | [] => step_ok
  | x :: l' => step_then (body x) (steps l' body)
  end.

(** ** Rule set updates *)

Definition set_dnn_names (l : list string) (rs : RuleSet) : RuleSet :=
  mkRuleSet (rs_version rs) (rs_rules rs) (rs_plans rs) (rs_plan_count rs) (rs_time_windows rs)
    (rs_time_window_count rs) (rs_usage_thresholds_permille rs) (rs_usage_threshold_count rs)
    (rs_roaming_partners rs) (rs_imei_blocklist rs) (rs_plan_names rs) l
    (rs_redirect_targets rs) (rs_default_action rs) (rs_source_path rs) (rs_source_sha256 rs)
    (rs_loaded_at_unix_ns rs).
Definition set_redirect_targets (l : list string) (rs : RuleSet) : RuleSet :=
  mkRuleSet (rs_version rs) (rs_rules rs) (rs_plans rs) (rs_plan_count rs) (rs_time_windows rs)
    (rs_time_window_count rs) (rs_usage_thresholds_permille rs) (rs_usage_threshold_count rs)
    (rs_roaming_partners rs) (rs_imei_blocklist rs) (rs_plan_names rs) (rs_dnn_names rs)
    l (rs_default_action rs) (rs_source_path rs) (rs_source_sha256 rs)
    (rs_loaded_at_unix_ns rs).
(** [plans[p.id] = p; plan_names.push_back(name); plan_count = plan_names.size()]. *)
Definition add_plan (name : string) (p : PlanConfig) (rs : RuleSet) : RuleSet :=
  mkRuleSet (rs_version rs) (rs_rules rs) (<[Z.to_nat (p_id p) := p]> (rs_plans rs))
    (u32 (Z.of_nat (length (rs_plan_names rs ++ [name])))) (rs_time_windows rs)
    (rs_time_window_count rs) (rs_usage_thresholds_permille rs) (rs_usage_threshold_count rs)
    (rs_roaming_partners rs) (rs_imei_blocklist rs) (rs_plan_names rs ++ [name]) (rs_dnn_names rs)
    (rs_redirect_targets rs) (rs_default_action rs) (rs_source_path rs) (rs_source_sha256 rs)
    (rs_loaded_at_unix_ns rs).
Definition set_partners (s : FlatSet64) (rs : RuleSet) : RuleSet :=
  mkRuleSet (rs_version rs) (rs_rules rs) (rs_plans rs) (rs_plan_count rs) (rs_time_windows rs)
    (rs_time_window_count rs) (rs_usage_thresholds_permille rs) (rs_usage_threshold_count rs)
    s (rs_imei_blocklist rs) (rs_plan_names rs) (rs_dnn_names rs)
    (rs_redirect_targets rs) (rs_default_action rs) (rs_source_path rs) (rs_source_sha256 rs)
    (rs_loaded_at_unix_ns rs).
Definition set_blocklist (s : FlatSet64) (rs : RuleSet) : RuleSet :=
  mkRuleSet (rs_version rs) (rs_rules rs) (rs_plans rs) (rs_plan_count rs) (rs_time_windows rs)
    (rs_time_window_count rs) (rs_usage_thresholds_permille rs) (rs_usage_threshold_count rs)
    (rs_roaming_partners rs) s (rs_plan_names rs) (rs_dnn_names rs)
    (rs_redirect_targets rs) (rs_default_action rs) (rs_source_path rs) (rs_source_sha256 rs)
    (rs_loaded_at_unix_ns rs).
Definition set_default_action (a : Action) (rs : RuleSet) : RuleSet :=
  mkRuleSet (rs_version rs) (rs_rules rs) (rs_plans rs) (rs_plan_count rs) (rs_time_windows rs)
    (rs_time_window_count rs) (rs_usage_thresholds_permille rs) (rs_usage_threshold_count rs)
    (rs_roaming_partners rs) (rs_imei_blocklist rs) (rs_plan_names rs) (rs_dnn_names rs)
    (rs_redirect_targets rs) a (rs_source_path rs) (rs_source_sha256 rs)
    (rs_loaded_at_unix_ns rs).
Definition set_rules (l : list CompiledRule) (rs : RuleSet) : RuleSet :=
  mkRuleSet (rs_version rs) l (rs_plans rs) (rs_plan_count rs) (rs_time_windows rs)
    (rs_time_window_count rs) (rs_usage_thresholds_permille rs) (rs_usage_threshold_count rs)
    (rs_roaming_partners rs) (rs_imei_blocklist rs) (rs_plan_names rs) (rs_dnn_names rs)
    (rs_redirect_targets rs) (rs_default_action rs) (rs_source_path rs) (rs_source_sha256 rs)
    (rs_loaded_at_unix_ns rs).
Definition add_threshold (permille : Z) (rs : RuleSet) : RuleSet :=
  mkRuleSet (rs_version rs) (rs_rules rs) (rs_plans rs) (rs_plan_count rs) (rs_time_windows rs)
    (rs_time_window_count rs)
    (<[Z.to_nat (rs_usage_threshold_count rs) := permille]> (rs_usage_thresholds_permille rs))
    (rs_usage_threshold_count rs + 1)
    (rs_roaming_partners rs) (rs_imei_blocklist rs) (rs_plan_names rs) (rs_dnn_names rs)
    (rs_redirect_targets rs) (rs_default_action rs) (rs_source_path rs) (rs_source_sha256 rs)
    (rs_loaded_at_unix_ns rs).
Definition add_window (w : TimeWindow) (rs : RuleSet) : RuleSet :=
  mkRuleSet (rs_version rs) (rs_rules rs) (rs_plans rs) (rs_plan_count rs)
    (<[Z.to_nat (rs_time_window_count rs) := w]> (rs_time_windows rs))
    (rs_time_window_count rs + 1) (rs_usage_thresholds_permille rs) (rs_usage_threshold_count rs)
    (rs_roaming_partners rs) (rs_imei_blocklist rs) (rs_plan_names rs) (rs_dnn_names rs)
    (rs_redirect_targets rs) (rs_default_action rs) (rs_source_path rs) (rs_source_sha256 rs)
    (rs_loaded_at_unix_ns rs).

Definition num (z : Z) : string := to_string z.

Definition default_deny_action : Action :=
  mkAction 0 0 0 0 0 (verdict_code kDeny) (reason_code kPolicyDefaultDeny) 0 0 0 0 0.

Definition check_unknown_keys (n : Node) (known : list string) : M unit :=
  if negb (is_map n) then ret tt
  else for_each (fields n) (fun '(k, v) =>
    if bool_decide (k ∈ known) then ret tt
    else warn ("unknown key '" +:+ k +:+ "' at line " +:+ num (node_line v) +:+ " (ignored)")%string).

(** The line of an optional node, 0 when it is absent. *)
Definition line_of (n : option Node) : Z := match n with Some n => node_line n | None => 0 end.

(** ** Helpers for optional fields *)

Section Fields.
Context (n : Node) (key : string).

(** [find], convert, or report [what] and fall back to the default. *)
Definition opt_field {A} (conv : Node -> option A) (what : string) (dflt : A) : M A :=
  match Yaml.find n key with
  | None => ret dflt
  | Some v =>
      match conv v with
      | Some u => ret u
      | None => err (key +:+ what)%string (node_line v) ;; ret dflt
      end
  end.

Definition in_range (lo hi : Z) (v : Node) : option Z :=
  match as_uint v with
  | Some u => if (u <? lo) || (hi <? u) then None else Some u
  | None => None
  end.

Definition req_5qi (dflt : Z) : M Z :=
  match Yaml.find n key with
  | None => ret dflt
  | Some v =>
      match in_range 1 255 v with
      | None => err (key +:+ " must be 1..255")%string (node_line v) ;; ret dflt
      | Some q =>
          (if negb (is_standardized_5qi q) && (q <? 128)
           then warn ("5QI " +:+ num q +:+ " is not a standardized value")%string else ret tt) ;;
          ret q
      end
  end.
Definition req_arp (dflt : Z) : M Z := opt_field (in_range 1 15) " must be 1..15" dflt.
Definition opt_kbps (dflt : Z) : M Z := opt_field as_kbps " must be a bit rate like 50Mbps" dflt.
Definition opt_bytes (dflt : Z) : M Z := opt_field as_bytes " must be a byte size like 20GB" dflt.
Definition opt_seconds (dflt : Z) : M Z := opt_field as_seconds " must be a duration like 30d" dflt.
Definition opt_uint (dflt : Z) : M Z := opt_field as_uint " must be a non-negative integer" dflt.
Definition opt_bool (dflt : bool) : M bool := opt_field as_bool " must be true or false" dflt.
End Fields.

(** ** Tables *)

Definition load_dnn (item : Node) : M bool :=
  if negb (is_scalar item) then err "DNN entries must be names" (node_line item) ;; ret true
  else
    let* rs := get_rs in
    if kMaxDnns <=? Z.of_nat (length (rs_dnn_names rs)) then
      err ("more than " +:+ num kMaxDnns +:+ " DNNs; the feature word has " +:+ num kMaxDnns +:+
           " DNN bits")%string (node_line item) ;; ret false
    else if bool_decide (scalar item ∈ rs_dnn_names rs) then
      err ("duplicate DNN '" +:+ scalar item +:+ "'")%string (node_line item) ;; ret true
    else set_rs (set_dnn_names (rs_dnn_names rs ++ [scalar item]) rs) ;; ret true.

Definition load_dnns (n : option Node) : M unit :=
  match n with
  | Some (kSeq _ its) => for_while its load_dnn ;; ret tt
  | _ => err "'dnns' must be a sequence of DNN/APN names" (line_of n)
  end.

Definition load_redirect (f : string * Node) : M bool :=
  let '(name, target) := f in
  let* rs := get_rs in
  if kMaxRedirects <=? Z.of_nat (length (rs_redirect_targets rs)) then
    err ("more than " +:+ num kMaxRedirects +:+ " redirect targets")%string (node_line target) ;;
    ret false
  else if negb (is_scalar target) then
    err "redirect target must be a string" (node_line target) ;; ret true
  else
    set_redirect_id name (u8 (Z.of_nat (length (rs_redirect_targets rs)))) ;;
    set_rs (set_redirect_targets (rs_redirect_targets rs ++ [scalar target]) rs) ;; ret true.

Definition load_redirects (n : option Node) : M unit :=
  match n with
  | None => ret tt
  | Some (kMap _ fs) =>
      let* rs := get_rs in
      set_rs (set_redirect_targets (rs_redirect_targets rs ++ [EmptyString]) rs) ;;
      for_while fs load_redirect ;; ret tt
  | Some n => err "'redirects' must be a mapping of name to target" (node_line n)
  end.

(** The fields of a plan, in the order the code reads them. *)
Definition read_plan (item : Node) (id : Z) : M PlanConfig :=
  let* q := req_5qi item "qos_5qi" 9 in
  let* a := req_arp item "arp" 8 in
  let* ul := opt_kbps item "ambr_ul" 0 in
  let* dl := opt_kbps item "ambr_dl" 0 in
  let* quota := opt_bytes item "quota" 0 in
  let* validity := opt_seconds item "quota_validity" 0 in
  let* rg := opt_uint item "rating_group" 0 in
  let* teth := opt_bool item "tethering" false in
  let* roam := opt_bool item "roaming" false in
  ret (mkPlan quota validity (u32 rg) ul dl id q a
         (set_if roam kPlanRoamingAllowed (set_if teth kPlanTetheringAllowed 0))).

Definition plan_keys : list string :=
  ["name"; "qos_5qi"; "arp"; "ambr_ul"; "ambr_dl"; "quota"; "quota_validity"; "rating_group";
   "tethering"; "roaming"]%string.

Definition load_plan (item : Node) : M bool :=
  if negb (is_map item) then err "each plan must be a mapping" (node_line item) ;; ret true
  else
    check_unknown_keys item plan_keys ;;
    match Yaml.find item "name" with
    | Some (kScalar nline (String _ _ as name)) =>
        let* rs := get_rs in
        if kMaxPlans <=? Z.of_nat (length (rs_plan_names rs)) then
          err ("more than " +:+ num kMaxPlans +:+ " plans; plan_mask is 32 bits")%string
            (node_line item) ;; ret false
        else
          let* ids := get_plan_ids in
          match ids !! name with
          | Some _ => err ("duplicate plan '" +:+ name +:+ "'")%string nline ;; ret true
          | None =>
              let id := u32 (Z.of_nat (length (rs_plan_names rs))) in
              let* p := read_plan item id in
              (if negb (p_quota_bytes p =? 0) && (p_quota_validity_s p =? 0)
               then warn ("plan '" +:+ name +:+
                 "' grants a quota with no validity time; grants will never expire")%string
               else ret tt) ;;
              set_plan_id name id ;;
              set_rs (add_plan name p rs) ;;
              ret true
          end
    | _ => err "plan is missing 'name'" (node_line item) ;; ret true
    end.

Definition load_plans (n : option Node) : M unit :=
  match n with
  | Some (kSeq _ ((_ :: _) as its)) => for_while its load_plan ;; ret tt
  | _ => err "'plans' must be a non-empty sequence" (line_of n)
  end.

(** [keys.push_back] over the items a conversion accepts. *)
Fixpoint collect_keys (its : list Node) (not_scalar invalid : string)
    (conv : string -> option Z) : M (list Z) :=
  match its with
  | [] => ret []
  | item :: its' =>
      let* k :=
        (if negb (is_scalar item) then err not_scalar (node_line item) ;; ret []
         else match conv (scalar item) with
              | None => err (invalid +:+ scalar item +:+ "'")%string (node_line item) ;; ret []
              | Some k => ret [k]
              end) in
      let* ks := collect_keys its' not_scalar invalid conv in
      ret (k ++ ks)
  end.

Definition rebuild_set (keys : list Z) : M FlatSet64 := fun c =>
  match rebuild keys with Some s => Some (s, c) | None => None end.

Definition load_roaming_partners (n : option Node) : M unit :=
  match n with
  | None => ret tt
  | Some (kSeq _ its) =>
      let* keys := collect_keys its "PLMN must be a scalar like 310-260" "invalid PLMN '" parse_plmn in
      let* s := rebuild_set keys in
      let* rs := get_rs in
      set_rs (set_partners s rs)
  | Some n => err "'roaming_partners' must be a sequence of PLMNs" (node_line n)
  end.

Definition nonzero_imei (s : string) : option Z :=
  match parse_imei s with Some 0 => None | r => r end.

(** The lines of a blocklist file: keys, and how many were malformed. *)
Fixpoint imei_lines (ls : list string) : list Z * Z :=
  match ls with
  | [] => ([], 0)
  | l :: ls' =>
      let '(keys, bad) := imei_lines ls' in
      let l := drop_while_end (fun c => Ascii.eqb c "013" || Ascii.eqb c " ") l in
      match l with
      | EmptyString => (keys, bad)
      | String c _ =>
          if Ascii.eqb c "#" then (keys, bad)
          else match nonzero_imei l with
               | None => (keys, bad + 1)
               | Some k => (k :: keys, bad)
               end
      end
  end.

Section Files.
Context (files : string -> option (list string)).

Definition load_imei_file (path : string) (line : Z) : M (list Z) :=
  match files path with
  | None => err ("cannot open IMEI blocklist file '" +:+ path +:+ "'")%string line ;; ret []
  | Some ls =>
      let '(keys, bad) := imei_lines ls in
      (if negb (bad =? 0)
       then warn (num bad +:+ " malformed line(s) in IMEI blocklist '" +:+ path +:+ "'")%string
       else ret tt) ;;
      ret keys
  end.

Definition load_imei_blocklist (n : option Node) : M unit :=
  let store keys :=
    let* s := rebuild_set keys in
    let* rs := get_rs in
    set_rs (set_blocklist s rs) in
  match n with
  | None => ret tt
  | Some (kScalar line path) => let* keys := load_imei_file path line in store keys
  | Some (kSeq _ its) =>
      let* keys := collect_keys its "IMEI must be a scalar" "invalid IMEI '" nonzero_imei in
      store keys
  | Some n => err "'imei_blocklist' must be a sequence or a file path" (node_line n)
  end.
End Files.

(** ** Conditions *)

(** A list of (mask, value) alternatives. *)
Abbreviation Matches := (list (Z * Z)).

Definition add_bit (b : Z) (want : bool) (ms : Matches) : Matches :=
  map (fun '(mask, value) =>
    (Z.lor mask (feat.bit b), if want then Z.lor value (feat.bit b) else value)) ms.

Definition cross (bits : list Z) (ms : Matches) : Matches :=
  flat_map (fun '(mask, value) =>
    map (fun b => (Z.lor mask (feat.bit b), Z.lor value (feat.bit b))) bits) ms.

Definition add_one_of (bits : list Z) (rid line : Z) : Step Matches := fun ms =>
  match bits with
  | [] => step_ok ms
  | _ =>
      if kMaxExpansionPerRule <? Z.of_nat (length ms * length bits) then
        step_fail ("rule " +:+ num rid +:+ " expands to more than " +:+ num kMaxExpansionPerRule +:+
                   " compiled rules; split it")%string line ms
      else step_ok (cross bits ms)
  end.

Definition add_none_of (bits : list Z) (ms : Matches) : Matches :=
  map (fun '(mask, value) => (fold_left (fun m b => Z.lor m (feat.bit b)) bits mask, value)) ms.

Definition as_list (n : Node) : list Node := match n with kSeq _ its => its | n => [n] end.

Definition kBoolConds : list (string * Z) :=
  [("roaming", feat.kRoaming); ("home_plmn", feat.kHomePlmn);
   ("roaming_partner", feat.kRoamingPartner); ("roaming_allowed", feat.kRoamingAllowed);
   ("imei_known", feat.kImeiKnown); ("imei_blocked", feat.kImeiBlocked);
   ("tethering_detected", feat.kTetheringDetected); ("tethering_allowed", feat.kTetheringAllowed);
   ("emergency", feat.kEmergency); ("quota_exhausted", feat.kQuotaExhausted);
   ("period_expired", feat.kPeriodExpired); ("requested_gbr", feat.kRequestedGbr)]%string.

Fixpoint lookup_cond {A} (key : string) (l : list (string * A)) : option A :=
  match l with
  | [] => None
  | (k, v) :: l' => if String.eqb key k then Some v else lookup_cond key l'
  end.

(** The bits of a list of names; the first name [conv] rejects is reported. *)
Fixpoint name_bits (vs : list Node) (conv : Node -> Z + string) : M (option (list Z)) :=
  match vs with
  | [] => ret (Some [])
  | v :: vs' =>
      match conv v with
      | inr msg => err msg (node_line v) ;; ret None
      | inl b =>
          let* r := name_bits vs' conv in
          ret (match r with Some bs => Some (b :: bs) | None => None end)
      end
  end.

Definition status_name_bit (v : Node) : Z + string :=
  if negb (is_scalar v) then inr "'status' must be a name"%string
  else
    let u := to_upper (scalar v) in
    if String.eqb u "ACTIVE" then inl feat.kStatusActive
    else if String.eqb u "SUSPENDED" then inl feat.kStatusSuspended
    else if String.eqb u "BARRED" then inl feat.kStatusBarred
    else if String.eqb u "UNKNOWN" then inl feat.kStatusUnknown
    else inr ("unknown status '" +:+ scalar v +:+ "'")%string.

Definition rat_name_bit (v : Node) : Z + string :=
  match (if is_scalar v then parse_rat (scalar v) else None) with
  | Some r => inl (feat.kRatBase + rat_code r)
  | None => inr ("unknown access type '" +:+ scalar v +:+ "'")%string
  end.

Definition dnn_name_bit (dnns : list string) (v : Node) : Z + string :=
  if negb (is_scalar v) then inr "'dnn' must be a name"%string
  else match index_of (scalar v) dnns with
       | Some i => inl (feat.kDnnBase + i)
       | None => inr ("unknown DNN '" +:+ scalar v +:+ "' (add it to the 'dnns' list)")%string
       end.

(** [None] is the error result -1. *)
Definition intern_usage_threshold (permille line : Z) : M (option Z) :=
  let* rs := get_rs in
  let used := take (Z.to_nat (rs_usage_threshold_count rs)) (rs_usage_thresholds_permille rs) in
  match list_find (fun t => t = permille) used with
  | Some (i, _) => ret (Some (feat.kUsageThresholdBase + Z.of_nat i))
  | None =>
      if kMaxUsageThresholds <=? rs_usage_threshold_count rs then
        err ("more than " +:+ num kMaxUsageThresholds +:+
             " distinct usage thresholds; the feature word has no room")%string line ;; ret None
      else
        set_rs (add_threshold permille rs) ;;
        ret (Some (feat.kUsageThresholdBase + rs_usage_threshold_count rs))
  end.

Definition intern_time_window (start end_ line : Z) : M (option Z) :=
  let* rs := get_rs in
  let used := take (Z.to_nat (rs_time_window_count rs)) (rs_time_windows rs) in
  match list_find (fun w => w_start_minute w = start /\ w_end_minute w = end_) used with
  | Some (i, _) => ret (Some (feat.kTimeWindowBase + Z.of_nat i))
  | None =>
      if kMaxTimeWindows <=? rs_time_window_count rs then
        err ("more than " +:+ num kMaxTimeWindows +:+ " distinct time windows")%string line ;;
        ret None
      else
        set_rs (add_window (mkWindow start end_) rs) ;;
        ret (Some (feat.kTimeWindowBase + rs_time_window_count rs))
  end.

(** One entry of the [when] mapping. *)
Definition compile_condition (rid : Z) (entry : string * Node) : Step Matches := fun ms =>
  let '(key, node) := entry in
  let one_of_or_none_of positive bits :=
    match bits with
    | None => ret (false, ms)
    | Some bits =>
        if (positive : bool) then add_one_of bits rid (node_line node) ms
        else step_ok (add_none_of bits ms)
    end in
  let with_bit want b :=
    match b with None => ret (false, ms) | Some b => step_ok (add_bit b want ms) end in
  match lookup_cond key kBoolConds with
  | Some b =>
      match as_bool node with
      | None => step_fail ("condition '" +:+ key +:+ "' must be true or false")%string
                  (node_line node) ms
      | Some want => step_ok (add_bit b want ms)
      end
  | None =>
      if String.eqb key "status" then
        let* bits := name_bits (as_list node) status_name_bit in one_of_or_none_of true bits
      else if String.eqb key "rat" || String.eqb key "not_rat" then
        let* bits := name_bits (as_list node) rat_name_bit in
        one_of_or_none_of (String.eqb key "rat") bits
      else if String.eqb key "dnn" || String.eqb key "not_dnn" then
        let* rs := get_rs in
        let* bits := name_bits (as_list node) (dnn_name_bit (rs_dnn_names rs)) in
        one_of_or_none_of (String.eqb key "dnn") bits
      else if String.eqb key "usage_above" || String.eqb key "usage_below" then
        match as_permille node with
        | None => step_fail ("'" +:+ key +:+ "' must be a percentage like 80%")%string
                    (node_line node) ms
        | Some pm =>
            let* b := intern_usage_threshold pm (node_line node) in
            with_bit (String.eqb key "usage_above") b
        end
      else if String.eqb key "time_between" || String.eqb key "not_time_between" then
        match Yaml.find node "start", Yaml.find node "end" with
        | Some s, Some e =>
            match as_time_of_day s, as_time_of_day e with
            | Some s, Some e =>
                let* b := intern_time_window s e (node_line node) in
                with_bit (String.eqb key "time_between") b
            | _, _ => step_fail "times must be HH:MM in 24-hour form" (node_line node) ms
            end
        | _, _ => step_fail ("'" +:+ key +:+ "' needs {start: HH:MM, end: HH:MM}")%string
                    (node_line node) ms
        end
      else step_fail ("unknown condition '" +:+ key +:+ "'")%string (node_line node) ms
  end.

Definition compile_when (when_ : Node) (rid : Z) : Step Matches := fun ms =>
  if negb (is_map when_) then step_fail "'when' must be a mapping" (node_line when_) ms
  else steps (fields when_) (compile_condition rid) ms.

(** ** Actions *)

Definition set_verdict (v : Z) (a : Action) : Action :=
  mkAction (a_quota_bytes a) (a_ambr_ul_kbps a) (a_ambr_dl_kbps a) (a_rating_group a)
    (a_quota_validity_s a) v (a_reason a) (a_qos_5qi a) (a_arp a) (a_set_flags a)
    (a_redirect_id a) (a_inherit_mask a).
Definition set_reason (v : Z) (a : Action) : Action :=
  mkAction (a_quota_bytes a) (a_ambr_ul_kbps a) (a_ambr_dl_kbps a) (a_rating_group a)
    (a_quota_validity_s a) (a_verdict a) v (a_qos_5qi a) (a_arp a) (a_set_flags a)
    (a_redirect_id a) (a_inherit_mask a).
Definition set_qos (q arp : Z) (a : Action) : Action :=
  mkAction (a_quota_bytes a) (a_ambr_ul_kbps a) (a_ambr_dl_kbps a) (a_rating_group a)
    (a_quota_validity_s a) (a_verdict a) (a_reason a) q arp (a_set_flags a)
    (a_redirect_id a) (a_inherit_mask a).
Definition set_ambr (ul dl : Z) (a : Action) : Action :=
  mkAction (a_quota_bytes a) ul dl (a_rating_group a)
    (a_quota_validity_s a) (a_verdict a) (a_reason a) (a_qos_5qi a) (a_arp a) (a_set_flags a)
    (a_redirect_id a) (a_inherit_mask a).
Definition set_quota (q validity : Z) (a : Action) : Action :=
  mkAction q (a_ambr_ul_kbps a) (a_ambr_dl_kbps a) (a_rating_group a)
    validity (a_verdict a) (a_reason a) (a_qos_5qi a) (a_arp a) (a_set_flags a)
    (a_redirect_id a) (a_inherit_mask a).
Definition set_rating_group (v : Z) (a : Action) : Action :=
  mkAction (a_quota_bytes a) (a_ambr_ul_kbps a) (a_ambr_dl_kbps a) v
    (a_quota_validity_s a) (a_verdict a) (a_reason a) (a_qos_5qi a) (a_arp a) (a_set_flags a)
    (a_redirect_id a) (a_inherit_mask a).
Definition set_redirect (v : Z) (a : Action) : Action :=
  mkAction (a_quota_bytes a) (a_ambr_ul_kbps a) (a_ambr_dl_kbps a) (a_rating_group a)
    (a_quota_validity_s a) (a_verdict a) (a_reason a) (a_qos_5qi a) (a_arp a) (a_set_flags a)
    v (a_inherit_mask a).
Definition set_flags (v : Z) (a : Action) : Action :=
  mkAction (a_quota_bytes a) (a_ambr_ul_kbps a) (a_ambr_dl_kbps a) (a_rating_group a)
    (a_quota_validity_s a) (a_verdict a) (a_reason a) (a_qos_5qi a) (a_arp a) v
    (a_redirect_id a) (a_inherit_mask a).
Definition set_inherit (v : Z) (a : Action) : Action :=
  mkAction (a_quota_bytes a) (a_ambr_ul_kbps a) (a_ambr_dl_kbps a) (a_rating_group a)
    (a_quota_validity_s a) (a_verdict a) (a_reason a) (a_qos_5qi a) (a_arp a) (a_set_flags a)
    (a_redirect_id a) v.
(** [a.inherit_mask & ~bit]. *)
Definition drop_inherit (bit : Z) (a : Action) : Action :=
  set_inherit (Z.ldiff (a_inherit_mask a) bit) a.

Section ParseAction.
Context (n : Node).

(** [if (const Node* v = n.find(key))]: skip when absent, and convert, report or
    update when present. *)
Definition field_step {A} (key : string) (conv : Node -> option A) (msg : Node -> string)
    (upd : A -> Action -> Action) : Step Action := fun a =>
  match Yaml.find n key with
  | None => step_ok a
  | Some v =>
      match conv v with
      | None => step_fail (msg v) (node_line v) a
      | Some x => step_ok (upd x a)
      end
  end.

Definition scalar_as {A} (conv : string -> option A) (v : Node) : option A :=
  if is_scalar v then conv (scalar v) else None.

Definition verdict_step : Step Action :=
  field_step "verdict" (scalar_as parse_verdict)
    (fun v => "unknown verdict '" +:+ scalar v +:+ "'")%string
    (fun v a => set_verdict (verdict_code v) a).

Definition reason_step : Step Action :=
  field_step "reason" (scalar_as parse_reason)
    (fun v => "unknown reason code '" +:+ scalar v +:+ "'")%string set_reason.

(** The loop over 'inherit' collects [mask] and stores it at the end. *)
Definition inherit_step : Step Action := fun a =>
  match Yaml.find n "inherit" with
  | None => step_ok a
  | Some inh =>
      let* r := steps (as_list inh) (fun v mask =>
        match scalar_as parse_inherit v with
        | None => step_fail ("unknown inherit field '" +:+ scalar v +:+ "'")%string (node_line v) mask
        | Some b => step_ok (Z.lor mask b)
        end) 0 in
      ret (r.1, if r.1 then set_inherit r.2 a else a)
  end.

Definition qos_step : Step Action := fun a =>
  match Yaml.find n "qos_5qi" with
  | None => step_ok a
  | Some q =>
      match in_range 1 255 q with
      | None => step_fail "qos_5qi must be 1..255" (node_line q) a
      | Some v =>
          (if negb (is_standardized_5qi v) && (v <? 128)
           then warn ("5QI " +:+ num v +:+ " is not a standardized value and is below the " +:+
                      "operator-specific range (128-254)")%string
           else ret tt) ;;
          step_ok (drop_inherit kInheritQos (set_qos v (a_arp a) a))
      end
  end.

Definition arp_step : Step Action :=
  field_step "arp" (in_range 1 15) (fun _ => "arp must be 1..15"%string)
    (fun v a => drop_inherit kInheritQos (set_qos (a_qos_5qi a) v a)).

Definition half_qos_step : Step Action := fun a =>
  let q := has n "qos_5qi" in
  let p := has n "arp" in
  if xorb q p && (q || p) then
    let a := if negb p then set_qos (a_qos_5qi a) 8 a else a in
    let a := if negb q then set_qos 9 (a_arp a) a else a in
    warn ("action at line " +:+ num (node_line n) +:+
          " sets only one of qos_5qi/arp; the other defaults rather than inheriting")%string ;;
    step_ok a
  else step_ok a.

Definition ambr_ul_step : Step Action :=
  field_step "ambr_ul" as_kbps (fun _ => "ambr_ul must be a bit rate like 10Mbps"%string)
    (fun v a => set_ambr v (a_ambr_dl_kbps a) a).
Definition ambr_dl_step : Step Action :=
  field_step "ambr_dl" as_kbps (fun _ => "ambr_dl must be a bit rate like 50Mbps"%string)
    (fun v a => set_ambr (a_ambr_ul_kbps a) v a).
(** [set_ul] and [set_dl] are set exactly when the fields are present. *)
Definition ambr_step : Step Action :=
  step_then (step_then ambr_ul_step ambr_dl_step) (fun a =>
    let set_ul := has n "ambr_ul" in
    let set_dl := has n "ambr_dl" in
    if set_ul || set_dl then
      if xorb set_ul set_dl then
        step_fail "an action must set both ambr_ul and ambr_dl, or neither" (node_line n) a
      else step_ok (drop_inherit kInheritAmbr a)
    else step_ok a).

Definition quota_step : Step Action :=
  field_step "quota" as_bytes (fun _ => "quota must be a byte size like 20GB"%string)
    (fun v a => drop_inherit kInheritQuota (set_quota v (a_quota_validity_s a) a)).
Definition validity_step : Step Action :=
  field_step "quota_validity" as_seconds (fun _ => "quota_validity must be a duration like 30d"%string)
    (fun v a => drop_inherit kInheritQuota (set_quota (a_quota_bytes a) v a)).
Definition rating_group_step : Step Action :=
  field_step "rating_group" (in_range 0 0xFFFFFFFF) (fun _ => "rating_group must be an integer"%string)
    (fun v a => drop_inherit kInheritRatingGroup (set_rating_group v a)).

Definition redirect_step : Step Action := fun a =>
  match Yaml.find n "redirect" with
  | None => step_ok a
  | Some q =>
      if negb (is_scalar q) then
        step_fail "redirect must name a target from 'redirects'" (node_line q) a
      else
        let* ids := get_redirect_ids in
        match ids !! scalar q with
        | None => step_fail ("unknown redirect target '" +:+ scalar q +:+ "'")%string (node_line q) a
        | Some id => step_ok (set_redirect id a)
        end
  end.

Definition redirect_check : Step Action := fun a =>
  if (a_verdict a =? verdict_code kRedirect) && (a_redirect_id a =? 0) then
    step_fail "a REDIRECT action must name a redirect target" (node_line n) a
  else step_ok a.

Definition flags_step : Step Action := fun a =>
  match Yaml.find n "flags" with
  | None => step_ok a
  | Some q =>
      steps (as_list q) (fun v a =>
        match scalar_as parse_decision_flag v with
        | None => step_fail ("unknown decision flag '" +:+ scalar v +:+ "'")%string (node_line v) a
        | Some f => step_ok (set_flags (Z.lor (a_set_flags a) f) a)
        end) a
  end.

Definition action_keys : list string :=
  ["verdict"; "reason"; "qos_5qi"; "arp"; "ambr_ul"; "ambr_dl"; "rating_group"; "quota";
   "quota_validity"; "redirect"; "flags"; "inherit"]%string.

(** The blocks of the function, in order. *)
Definition action_steps : list (Step Action) :=
  [verdict_step; reason_step; inherit_step; qos_step; arp_step; half_qos_step; ambr_step;
   quota_step; validity_step; rating_group_step; redirect_step; redirect_check; flags_step].

Definition parse_action : Step Action := fun a =>
  if negb (is_map n) then step_fail "'action' must be a mapping" (node_line n) a
  else
    check_unknown_keys n action_keys ;;
    steps action_steps (fun s => s) a.
End ParseAction.

(** ** Rules *)

Definition resolve_plan (item : Node) : M (option Z) :=
  if negb (is_scalar item) then err "plan reference must be a name" (node_line item) ;; ret None
  else
    let* ids := get_plan_ids in
    match ids !! scalar item with
    | None => err ("rule references unknown plan '" +:+ scalar item +:+ "'")%string (node_line item) ;;
              ret None
    | Some id => ret (Some (u32 (Z.shiftl 1 id)))
    end.

(** Every reference of the list is resolved, also after one that fails. *)
Fixpoint resolve_plans (its : list Node) (ok : bool) (out : Z) : M (bool * Z) :=
  match its with
  | [] => ret (ok, out)
  | item :: its' =>
      let* r := resolve_plan item in
      match r with
      | Some b => resolve_plans its' ok (Z.lor out b)
      | None => resolve_plans its' false out
      end
  end.

Definition resolve_plan_mask (n : Node) : Step Z := fun out =>
  match n with
  | kScalar _ _ => resolve_plans [n] true out
  | kSeq _ its => resolve_plans its true out
  | _ => step_fail "'plans' must be a name or a list of names" (node_line n) out
  end.

Definition rule_keys : list string := ["id"; "name"; "priority"; "plans"; "when"; "action"]%string.

Definition find_uint (item : Node) (key : string) : option Z :=
  match Yaml.find item key with Some v => as_uint v | None => None end.

Definition initial_action : Action :=
  mkAction 0 0 0 0 0 (verdict_code kAllow) (reason_code kOk) 0 0 0 0 kInheritAll.

(** Apply a step to an optional node. *)
Definition opt_step {S} (n : option Node) (f : Node -> Step S) : Step S := fun a =>
  match n with Some n => f n a | None => step_ok a end.

(** The end of the loop body: the compiled rules are appended. *)
Definition push_rules (item : Node) (rid prio plan_mask : Z) (matches : Matches) (action : Action)
  : M bool :=
  let* rs := get_rs in
  if kMaxRules <? Z.of_nat (length (rs_rules rs) + length matches) then
    err ("rule table exceeds " +:+ num kMaxRules +:+ " compiled rules")%string (node_line item) ;;
    ret false
  else
    set_rs (set_rules (rs_rules rs ++
      map (fun '(mask, value) => mkRule mask value plan_mask rid prio action) matches) rs) ;;
    ret true.

Definition load_rule (item : Node) : M bool :=
  if negb (is_map item) then err "each rule must be a mapping" (node_line item) ;; ret true
  else
    check_unknown_keys item rule_keys ;;
    match find_uint item "id" with
    | Some rid =>
        if (rid =? 0) || (0xFFFFFFFF <? rid) then
          err "rule needs a non-zero integer 'id' (0 is reserved for 'no rule fired')"
            (node_line item) ;; ret true
        else
          let* fresh := insert_rule_id rid in
          if negb fresh then
            err ("duplicate rule id " +:+ num rid)%string (node_line item) ;; ret true
          else
            match find_uint item "priority" with
            | Some prio =>
                if 0xFFFFFFFF <? prio then
                  err ("rule " +:+ num rid +:+ " needs an integer 'priority'")%string
                    (node_line item) ;; ret true
                else
                  let* p := opt_step (Yaml.find item "plans") resolve_plan_mask 0 in
                  if negb p.1 then ret true
                  else
                    let* w := opt_step (Yaml.find item "when") (fun n => compile_when n rid) [(0, 0)] in
                    if negb w.1 then ret true
                    else
                      match Yaml.find item "action" with
                      | None =>
                          err ("rule " +:+ num rid +:+ " has no 'action'")%string (node_line item) ;;
                          ret true
                      | Some act =>
                          let* a := parse_action act initial_action in
                          if negb a.1 then ret true
                          else push_rules item rid prio p.2 w.2 a.2
                      end
            | None =>
                err ("rule " +:+ num rid +:+ " needs an integer 'priority'")%string
                  (node_line item) ;; ret true
            end
    | None =>
        err "rule needs a non-zero integer 'id' (0 is reserved for 'no rule fired')"
          (node_line item) ;; ret true
    end.

Definition load_rules (n : option Node) : M unit :=
  match n with
  | Some (kSeq _ its) => for_while its load_rule ;; ret tt
  | _ => err "'rules' must be a sequence" (line_of n)
  end.

(** ** Ordering and the shadow lint *)

(** [std::stable_sort] by priority. *)
Fixpoint insert_rule (r : CompiledRule) (l : list CompiledRule) : list CompiledRule :=
  match l with
  | [] => [r]
  | x :: l' => if r_priority x <? r_priority r then x :: insert_rule r l' else r :: l
  end.
Definition stable_sort (l : list CompiledRule) : list CompiledRule := foldr insert_rule [] l.

(** Rule [a] matches whatever [b] matches. *)
Definition shadows (a b : CompiledRule) : bool :=
  negb (r_id a =? r_id b) &&
  (Z.land (r_match_mask b) (r_match_mask a) =? r_match_mask a) &&
  (Z.land (r_match_value b) (r_match_mask a) =? r_match_value a) &&
  negb (negb (r_plan_mask a =? 0) &&
        ((r_plan_mask b =? 0) || negb (Z.ldiff (r_plan_mask b) (r_plan_mask a) =? 0))).

Definition shadow_warning (a b : CompiledRule) : string :=
  ("rule " +:+ num (r_id b) +:+ " (priority " +:+ num (r_priority b) +:+
   ") can never fire: rule " +:+ num (r_id a) +:+ " (priority " +:+ num (r_priority a) +:+
   ") always matches first")%string.

(** The first earlier rule that shadows each rule; [before] holds the rules
    already visited, in order. *)
Fixpoint shadow_pairs (before rest : list CompiledRule) : list (CompiledRule * CompiledRule) :=
  match rest with
  | [] => []
  | b :: rest' =>
      match list_find (fun a => shadows a b = true) before with
      | Some (_, a) => (a, b) :: shadow_pairs (before ++ [b]) rest'
      | None => shadow_pairs (before ++ [b]) rest'
      end
  end.

Definition sort_and_check : M unit :=
  let* rs := get_rs in
  let rules := stable_sort (rs_rules rs) in
  set_rs (set_rules rules rs) ;;
  for_each (shadow_pairs [] rules) (fun '(a, b) => warn (shadow_warning a b)) ;;
  match rules with
  | [] => warn "rule set contains no rules; every request takes the default action"
  | _ => ret tt
  end.

(** ** The whole compilation *)

Record RuleCompileResult := mkCompileResult {
  cr_rule_set : option RuleSet; cr_errors : list RuleCompileError; cr_warnings : list string }.
Definition compile_ok (r : RuleCompileResult) : bool :=
  match cr_rule_set r, cr_errors r with Some _, [] => true | _, _ => false end.

Fixpoint summary_loop (es : list RuleCompileError) (first : bool) : string :=
  match es with
  | [] => EmptyString
  | e :: es' =>
      ((if first then "" else "; ") +:+
       (if (0 <? e_line e)%Z then "line " +:+ num (e_line e) +:+ ": " else "") +:+
       e_message e +:+ summary_loop es' false)%string
  end.
Definition error_summary (r : RuleCompileResult) : string := summary_loop (cr_errors r) true.

Definition root_keys : list string :=
  ["version"; "dnns"; "plans"; "redirects"; "roaming_partners"; "imei_blocklist";
   "default_action"; "rules"]%string.

Section Run.
Context (files : string -> option (list string)) (now : Z).

(** The members of [run] after the document has been parsed. *)
Definition compile_root (root : Node) : M unit :=
  check_unknown_keys root root_keys ;;
  load_dnns (Yaml.find root "dnns") ;;
  load_redirects (Yaml.find root "redirects") ;;
  load_plans (Yaml.find root "plans") ;;
  load_roaming_partners (Yaml.find root "roaming_partners") ;;
  load_imei_blocklist files (Yaml.find root "imei_blocklist") ;;
  match Yaml.find root "default_action" with
  | None => ret tt
  | Some d =>
      let* r := parse_action d default_deny_action in
      let* rs := get_rs in
      set_rs (set_default_action r.2 rs)
  end ;;
  load_rules (Yaml.find root "rules").

Definition initial_rule_set (text source_path : string) (version : Z) : RuleSet :=
  mkRuleSet version [] (replicate 32 default_plan) 0 (replicate 8 default_window) 0
    (replicate 8 0) 0 fs_empty fs_empty [] [] [] default_deny_action source_path
    (hash_hex text) (u64 (now * 1000000000)).

Definition initial_compiler (text source_path : string) (version : Z) : Compiler :=
  mkCompiler (initial_rule_set text source_path version) [] [] ∅ ∅ ∅.

Definition compile_rules (text source_path : string) (version : Z) : option RuleCompileResult :=
  match parse text with
  | None => None
  | Some parsed =>
      if negb (result_ok parsed) then
        Some (mkCompileResult None [mkError (error parsed) (error_line parsed)] [])
      else if negb (is_map (root parsed)) then
        Some (mkCompileResult None
          [mkError "rules file must be a mapping at the top level" (node_line (root parsed))] [])
      else
        match compile_root (root parsed) (initial_compiler text source_path version) with
        | None => None
        | Some (_, c) =>
            match c_errors c with
            | [] =>
                match sort_and_check c with
                | None => None
                | Some (_, c) =>
                    Some (mkCompileResult (Some (c_rs c)) (c_errors c) (c_warnings c))
                end
            | _ => Some (mkCompileResult None (c_errors c) (c_warnings c))
            end
        end
  end.
End Run.

(** [contents] is what the file holds, [None] when it cannot be opened. *)
Definition compile_rules_from_file (files : string -> option (list string)) (now : Z)
    (contents : option string) (path : string) (version : Z) : option RuleCompileResult :=
  match contents with
  | None => Some (mkCompileResult None [mkError ("cannot open rules file: " +:+ path)%string 0] [])
  | Some text => compile_rules files now text path version
  end.
