(* ===== verification/CompilerLogic.v ===== *)
(** * CompilerLogic: reasoning about the compiler's monad, and parsed actions

    A small weakest-precondition calculus for the state monad of Compiler.v (a
    computation that returns, with a postcondition on result and state), the steps
    that only report messages, and the invariant of the actions that
    [parse_action] builds. *)

From S2P Require Import Prelude Text Imsi Wire FlatSet Store Rules Sha256 Yaml Compiler.
From Stdlib Require Import ZArith Lia Bool Ascii String.
From stdpp Require Import base list numbers strings gmap.
Local Open Scope Z_scope.
Local Open Scope compiler_scope.

(** ** Weakest preconditions *)

(** [m] returns from [c], with a result and a state that satisfy [Q]. *)
Definition wp {A} (m : M A) (Q : A -> Compiler -> Prop) (c : Compiler) : Prop :=
  match m c with Some (a, c') => Q a c' | None => False end.

Lemma wp_bind {A B} (m : M A) (f : A -> M B) Q c :
  wp m (fun a c' => wp (f a) Q c') c -> wp (bind m f) Q c.
Proof. unfold wp, bind. by destruct (m c) as [[a c']|]. Qed.

Lemma wp_mono {A} (m : M A) (Q R : A -> Compiler -> Prop) c :
  wp m Q c -> (forall a c', Q a c' -> R a c') -> wp m R c.
Proof. unfold wp. destruct (m c) as [[a c']|]; auto. Qed.

Lemma wp_ret {A} (a : A) (Q : A -> Compiler -> Prop) c : Q a c -> wp (ret a) Q c.
Proof. done. Qed.

Lemma wp_elim {A} (m : M A) Q c a c' : wp m Q c -> m c = Some (a, c') -> Q a c'.
Proof. unfold wp. intros H E. by rewrite E in H. Qed.

(** A relation between states kept by every step of a loop. *)
Lemma wp_for_each {A} (R : Compiler -> Compiler -> Prop) (body : A -> M unit) l c :
  (forall c, R c c) -> (forall c1 c2 c3, R c1 c2 -> R c2 c3 -> R c1 c3) ->
  (forall x c, x ∈ l -> wp (body x) (fun _ c' => R c c') c) ->
  wp (for_each l body) (fun _ c' => R c c') c.
Proof.
  intros Hr Ht. revert c. induction l as [|x l IH]; intros c Hb; [by apply wp_ret|].
  apply wp_bind. eapply wp_mono; [apply Hb, list_elem_of_here|]. intros [] c1 H1. cbn beta.
  eapply wp_mono; [apply IH; intros; apply Hb; by right|]. intros [] c2 H2. by eapply Ht.
Qed.

Lemma wp_for_while {A} (I : Compiler -> Prop) (body : A -> M bool) l c :
  I c -> (forall x c, x ∈ l -> I c -> wp (body x) (fun _ c' => I c') c) ->
  wp (for_while l body) (fun _ c' => I c') c.
Proof.
  revert c. induction l as [|x l IH]; intros c Hc Hb; [by apply wp_ret|].
  apply wp_bind. eapply wp_mono; [apply Hb; [apply list_elem_of_here|done]|].
  intros [] c1 H1; [|by apply wp_ret]. apply IH; [done|]. intros y c2 Hy. apply Hb. by right.
Qed.

(** ** Steps that only report *)

(** Nothing changed but the messages, and no error was forgotten. *)
Record log_step (c c' : Compiler) : Prop := {
  log_rs : c_rs c' = c_rs c;
  log_plans : c_plan_ids c' = c_plan_ids c;
  log_redirects : c_redirect_ids c' = c_redirect_ids c;
  log_seen : c_seen_rule_ids c' = c_seen_rule_ids c;
  log_errors : c_errors c' = [] -> c_errors c = [] }.

Lemma log_refl c : log_step c c.
Proof. by split. Qed.
Lemma log_trans c1 c2 c3 : log_step c1 c2 -> log_step c2 c3 -> log_step c1 c3.
Proof. intros [] []. split; try congruence. auto. Qed.
#[export] Hint Resolve log_refl : policy.

Lemma wp_warn msg c : wp (warn msg) (fun _ c' => log_step c c' /\ c_errors c' = c_errors c) c.
Proof. unfold wp, warn. split; [by split|done]. Qed.

Lemma wp_err msg line c : wp (err msg line) (fun _ c' => log_step c c' /\ c_errors c' <> []) c.
Proof.
  unfold wp, err. split; [split; try done; simpl|simpl]; by destruct (c_errors c).
Qed.

(** The usual shape of an error branch: report, then return a value. *)
Lemma wp_err_ret {A} msg line (a : A) c :
  wp (err msg line ;; ret a) (fun x c' => x = a /\ log_step c c' /\ c_errors c' <> []) c.
Proof. apply wp_bind. eapply wp_mono; [apply wp_err|]. intros [] c' []. by apply wp_ret. Qed.

Lemma check_unknown_keys_log n known c :
  wp (check_unknown_keys n known) (fun _ c' => log_step c c') c.
Proof.
  unfold check_unknown_keys. destruct (negb (is_map n)); [apply wp_ret; auto with policy|].
  apply (wp_for_each log_step); [apply log_refl|apply log_trans|].
  intros [k v] c1 _. case_bool_decide; [apply wp_ret; auto with policy|].
  eapply wp_mono; [apply wp_warn|]. by intros [] c2 [].
Qed.

Lemma opt_field_log {A} n key (conv : Node -> option A) what (dflt : A) (ok : A -> Prop) c :
  ok dflt -> (forall v u, conv v = Some u -> ok u) ->
  wp (opt_field n key conv what dflt) (fun a c' => ok a /\ log_step c c') c.
Proof.
  intros Hd Hc. unfold opt_field. destruct (Yaml.find n key) as [v|]; [|apply wp_ret; auto with policy].
  destruct (conv v) as [u|] eqn:E; [apply wp_ret; eauto with policy|].
  eapply wp_mono; [apply wp_err_ret|]. intros a c' (-> & ? & _). done.
Qed.

Lemma in_range_spec lo hi v u : in_range lo hi v = Some u -> lo <= u <= hi.
Proof.
  unfold in_range. destruct (as_uint v) as [x|]; [|done].
  destruct (_ || _) eqn:E; [done|]. bool_to_prop. intros [= <-]. lia.
Qed.

Lemma req_5qi_log n key dflt c : fits 8 dflt ->
  wp (req_5qi n key dflt) (fun a c' => fits 8 a /\ log_step c c') c.
Proof.
  intros Hd. unfold req_5qi. destruct (Yaml.find n key) as [v|]; [|apply wp_ret; auto with policy].
  destruct (in_range 1 255 v) as [q|] eqn:E.
  - apply in_range_spec in E. apply wp_bind.
    assert (forall c', log_step c c' -> wp (ret q) (fun a c' => fits 8 a /\ log_step c c') c') as K
      by (intros c' Hc'; apply wp_ret; split; [unfold fits; lia|done]).
    destruct (_ && _); [|apply wp_ret, K; auto with policy].
    eapply wp_mono; [apply wp_warn|]. intros [] c' [? _]. by apply K.
  - eapply wp_mono; [apply wp_err_ret|]. intros a c' (-> & ? & _). done.
Qed.

(** ** Actions *)

(** What every action under construction satisfies; [targets] is the number of
    redirect targets (index 0 is reserved). *)
Record action_inv (targets : Z) (a : Action) : Prop := {
  ai_ok : action_ok a;
  ai_verdict : 0 <= a_verdict a <= 2;
  ai_reason : 0 <= a_reason a < kReasonCount;
  ai_arp : 0 <= a_arp a <= 15;
  ai_inherit : fits 4 (a_inherit_mask a);
  ai_redirect : a_redirect_id a = 0 \/ 0 < a_redirect_id a < targets }.

(** The redirect table of a compiler state. *)
Record redirects_ok (c : Compiler) : Prop := {
  rd_count : Z.of_nat (length (rs_redirect_targets (c_rs c))) <= kMaxRedirects;
  rd_ids : forall name id, c_redirect_ids c !! name = Some id ->
    1 <= id < Z.of_nat (length (rs_redirect_targets (c_rs c))) }.

Definition targets_of (c : Compiler) : Z := Z.of_nat (length (rs_redirect_targets (c_rs c))).

Lemma log_redirects_ok c c' : log_step c c' -> redirects_ok c -> redirects_ok c'.
Proof.
  intros L [H1 H2]. split; rewrite (log_rs _ _ L); [done|]. rewrite (log_redirects _ _ L). done.
Qed.
Lemma log_targets c c' : log_step c c' -> targets_of c' = targets_of c.
Proof. intros L. unfold targets_of. by rewrite (log_rs _ _ L). Qed.

(** A block of [parse_action]: it only reports, keeps the invariant, reports an
    error when it stops, and keeps [K] of the action when it goes on. *)
Definition action_step (K : Action -> Action -> Prop) (s : Step Action) : Prop :=
  forall c a, redirects_ok c -> action_inv (targets_of c) a ->
  wp (s a) (fun r c' => log_step c c' /\ action_inv (targets_of c) r.2 /\
    (r.1 = false -> c_errors c' <> []) /\ (r.1 = true -> K a r.2)) c.

Definition any_action (a b : Action) : Prop := True.

Lemma step_ok_action (K : Action -> Action -> Prop) c a b : action_inv (targets_of c) b -> K a b ->
  wp (step_ok b) (fun r c' => log_step c c' /\ action_inv (targets_of c) r.2 /\
    (r.1 = false -> c_errors c' <> []) /\ (r.1 = true -> K a r.2)) c.
Proof. intros. apply wp_ret. split; [apply log_refl|]. by split. Qed.

Lemma step_fail_action (K : Action -> Action -> Prop) msg line c a b : action_inv (targets_of c) b ->
  wp (step_fail msg line b) (fun r c' => log_step c c' /\ action_inv (targets_of c) r.2 /\
    (r.1 = false -> c_errors c' <> []) /\ (r.1 = true -> K a r.2)) c.
Proof.
  intros Hb. eapply wp_mono; [apply wp_err_ret|]. intros [] c' ([= -> ->] & ? & ?). done.
Qed.

Lemma field_step_action {A} n key (conv : Node -> option A) msg upd (K : Action -> Action -> Prop) :
  (forall a, K a a) ->
  (forall v x a t, conv v = Some x -> action_inv t a -> action_inv t (upd x a) /\ K a (upd x a)) ->
  action_step K (field_step n key conv msg upd).
Proof.
  intros Hr Hu c a Hc Ha. unfold field_step. destruct (Yaml.find n key) as [v|];
    [|by apply step_ok_action].
  destruct (conv v) as [x|] eqn:E; [|by apply step_fail_action].
  destruct (Hu v x a _ E Ha). by apply step_ok_action.
Qed.

Lemma step_then_action (K1 K2 K : Action -> Action -> Prop) s1 s2 :
  (forall a b c, K1 a b -> K2 b c -> K a c) ->
  action_step K1 s1 -> action_step K2 s2 -> action_step K (step_then s1 s2).
Proof.
  intros Ht H1 H2 c a Hc Ha. apply wp_bind. eapply wp_mono; [by apply H1|].
  intros [ok b] c1 (L1 & Hb & Hf & Hk). simpl in *. destruct ok; [|by apply wp_ret].
  rewrite <- (log_targets _ _ L1) in Hb.
  eapply wp_mono; [apply H2; [by eapply log_redirects_ok|done]|].
  intros [ok2 b2] c2 (L2 & Hb2 & Hf2 & Hk2). rewrite (log_targets _ _ L1) in Hb2.
  split; [by eapply log_trans|]. split; [done|]. split; [done|].
  intros E. eapply Ht; [by apply Hk|by apply Hk2].
Qed.

Lemma steps_action {A} K (l : list A) body : (forall a, K a a) ->
  (forall a b c, K a b -> K b c -> K a c) -> Forall (fun x => action_step K (body x)) l ->
  action_step K (steps l body).
Proof.
  intros Hr Ht. induction 1 as [|x l Hx _ IH]; [|by apply (step_then_action K K)].
  intros c a Hc Ha. by apply step_ok_action.
Qed.

Lemma action_step_weaken K K' s : (forall a b, K a b -> K' a b) ->
  action_step K s -> action_step K' s.
Proof.
  intros HK H c a Hc Ha. eapply wp_mono; [by apply H|]. intros r c' (? & ? & ? & ?). auto 6.
Qed.

(** Updates of one field keep the invariant when the new value is in range. *)
Ltac action_upd :=
  let H := fresh in let O := fresh in
  intros H; pose proof (ai_ok _ _ H) as O; destruct H, O;
  split; [split|..]; simpl in *; auto; try (unfold fits in *; lia).

Lemma drop_inherit_inv t b a : action_inv t a -> 0 <= b -> action_inv t (drop_inherit b a).
Proof.
  intros H Hb. assert (fits 4 (Z.ldiff (a_inherit_mask a) b)) as F.
  { pose proof (ai_inherit _ _ H) as F. apply fits_testbit in F as [F0 F1]; [|done].
    apply fits_testbit; [done|]. split; [apply Z.ldiff_nonneg; by left|].
    intros i Hi. by rewrite Z.ldiff_spec, F1. }
  pose proof (fits_le 8 4 _ ltac:(lia) F). revert H. unfold drop_inherit, set_inherit. action_upd.
Qed.

Lemma scalar_as_spec {A} (conv : string -> option A) v x : scalar_as conv v = Some x ->
  conv (scalar v) = Some x.
Proof. unfold scalar_as. by destruct (is_scalar v). Qed.

Lemma parse_reason_range s r : parse_reason s = Some r -> 0 <= r < kReasonCount.
Proof.
  unfold parse_reason. destruct (list_find _ _) as [[i x]|] eqn:E; [|done]. intros [= <-].
  apply list_find_Some in E as (E & _). apply lookup_seq in E as [-> E]. unfold kReasonCount in *. lia.
Qed.

Lemma verdict_step_ok n : action_step any_action (verdict_step n).
Proof.
  apply field_step_action; [done|]. intros v x a t E H. split; [|done]. revert H.
  assert (0 <= verdict_code x <= 2) by (destruct x; simpl; lia). unfold set_verdict. action_upd.
Qed.
Lemma reason_step_ok n : action_step any_action (reason_step n).
Proof.
  apply field_step_action; [done|]. intros v x a t E H. split; [|done]. revert H.
  apply scalar_as_spec, parse_reason_range in E. unfold kReasonCount in E.
  unfold set_reason. action_upd.
Qed.
Lemma arp_step_ok n : action_step any_action (arp_step n).
Proof.
  apply field_step_action; [done|]. intros v x a t E H. split; [|done].
  apply in_range_spec in E. apply drop_inherit_inv; [|done]. revert H. unfold set_qos. action_upd.
Qed.
Lemma ambr_ul_step_ok n : action_step any_action (ambr_ul_step n).
Proof.
  apply field_step_action; [done|]. intros v x a t E H. split; [|done].
  apply as_kbps_range in E. revert H. unfold set_ambr. action_upd.
Qed.
Lemma ambr_dl_step_ok n : action_step any_action (ambr_dl_step n).
Proof.
  apply field_step_action; [done|]. intros v x a t E H. split; [|done].
  apply as_kbps_range in E. revert H. unfold set_ambr. action_upd.
Qed.
Lemma quota_step_ok n : action_step any_action (quota_step n).
Proof.
  apply field_step_action; [done|]. intros v x a t E H. split; [|done].
  apply as_bytes_range in E. apply drop_inherit_inv; [|done]. revert H. unfold set_quota. action_upd.
Qed.
Lemma validity_step_ok n : action_step any_action (validity_step n).
Proof.
  apply field_step_action; [done|]. intros v x a t E H. split; [|done].
  apply as_seconds_range in E. apply drop_inherit_inv; [|done]. revert H. unfold set_quota. action_upd.
Qed.
Lemma rating_group_step_ok n : action_step any_action (rating_group_step n).
Proof.
  apply field_step_action; [done|]. intros v x a t E H. split; [|done].
  apply in_range_spec in E. apply drop_inherit_inv; [|done]. revert H.
  unfold set_rating_group. action_upd.
Qed.

Lemma qos_step_ok n : action_step any_action (qos_step n).
Proof.
  intros c a Hc Ha. unfold qos_step. destruct (Yaml.find n "qos_5qi") as [q|]; [|by apply step_ok_action].
  destruct (in_range 1 255 q) as [v|] eqn:E; [|by apply step_fail_action].
  apply in_range_spec in E. apply wp_bind.
  assert (action_inv (targets_of c) (drop_inherit kInheritQos (set_qos v (a_arp a) a))) as Hb.
  { apply drop_inherit_inv; [|done]. revert Ha. unfold set_qos. action_upd. }
  destruct (_ && _); [|apply wp_ret; by apply step_ok_action].
  eapply wp_mono; [apply wp_warn|]. intros [] c1 [L _].
  apply wp_ret. done.
Qed.

Lemma half_qos_step_ok n : action_step any_action (half_qos_step n).
Proof.
  intros c a Hc Ha. unfold half_qos_step. destruct (_ && _); [|by apply step_ok_action].
  apply wp_bind. eapply wp_mono; [apply wp_warn|]. intros [] c1 [L _]. apply wp_ret.
  split; [done|]. split; [|done]. simpl.
  destruct (has n "arp"), (has n "qos_5qi"); simpl; revert Ha; unfold set_qos; action_upd.
Qed.

Lemma ambr_step_ok n : action_step any_action (ambr_step n).
Proof.
  apply (step_then_action any_action any_action); [done| |].
  { apply (step_then_action any_action any_action); [done|apply ambr_ul_step_ok|apply ambr_dl_step_ok]. }
  intros c a Hc Ha. destruct (has n "ambr_ul"), (has n "ambr_dl"); simpl;
    [|by apply step_fail_action|by apply step_fail_action|by apply step_ok_action].
  apply step_ok_action; [|done]. by apply drop_inherit_inv.
Qed.

Lemma redirect_step_ok n : action_step any_action (redirect_step n).
Proof.
  intros c a Hc Ha. unfold redirect_step. destruct (Yaml.find n "redirect") as [q|]; [|by apply step_ok_action].
  destruct (negb _); [by apply step_fail_action|]. apply wp_bind. change (wp get_redirect_ids ?Q c) with (Q (c_redirect_ids c) c). cbn beta.
  destruct (c_redirect_ids c !! scalar q) as [id|] eqn:E; [|by apply step_fail_action].
  apply (rd_ids _ Hc) in E. pose proof (rd_count _ Hc). unfold kMaxRedirects in *.
  apply step_ok_action; [|done]. fold (targets_of c) in *. revert Ha. unfold set_redirect. action_upd.
Qed.

Lemma parse_inherit_fits s b : parse_inherit s = Some b -> fits 4 b.
Proof.
  unfold parse_inherit. intros H.
  repeat match type of H with (if ?b then _ else _) = _ =>
    destruct b; [injection H as <-; by vm_compute|] end. done.
Qed.

Lemma parse_decision_flag_fits s b : parse_decision_flag s = Some b -> fits 8 b.
Proof.
  unfold parse_decision_flag. intros H.
  repeat match type of H with (if ?b then _ else _) = _ =>
    destruct b; [injection H as <-; by vm_compute|] end. done.
Qed.

Lemma inherit_step_ok n : action_step any_action (inherit_step n).
Proof.
  intros c a Hc Ha. unfold inherit_step. destruct (Yaml.find n "inherit") as [inh|]; [|by apply step_ok_action].
  apply wp_bind.
  assert (forall l c mask, fits 4 mask -> wp (steps l (fun v mask =>
    match scalar_as parse_inherit v with
    | None => step_fail ("unknown inherit field '" +:+ scalar v +:+ "'")%string (node_line v) mask
    | Some b => step_ok (Z.lor mask b)
    end) mask) (fun r c' => fits 4 r.2 /\ log_step c c' /\ (r.1 = false -> c_errors c' <> [])) c) as L.
  { induction l as [|v l IH]; intros c1 mask Hm.
    { apply wp_ret. split; [done|]. split; [apply log_refl|done]. }
    apply wp_bind. destruct (scalar_as parse_inherit v) as [b|] eqn:E.
    - apply wp_ret. apply IH. apply fits_lor; [done|done|].
      by eapply parse_inherit_fits, scalar_as_spec.
    - eapply wp_mono; [apply wp_err_ret|]. intros r c2 (-> & ? & ?). apply wp_ret. done. }
  eapply wp_mono; [apply (L _ c 0); by apply fits_0|].
  intros [ok mask] c1 (Hm & Hlog & Hf). apply wp_ret. split; [done|]. split; [|done].
  simpl in *. destruct ok; [|done].
  pose proof (fits_le 8 4 _ ltac:(lia) Hm). revert Ha. unfold set_inherit. action_upd.
Qed.

(** Keeps the verdict and the redirect target. *)
Definition same_redirect (a b : Action) : Prop :=
  a_verdict b = a_verdict a /\ a_redirect_id b = a_redirect_id a.

Lemma flags_step_ok n : action_step same_redirect (flags_step n).
Proof.
  intros c a Hc Ha. unfold flags_step. destruct (Yaml.find n "flags") as [q|]; [|by apply step_ok_action].
  apply (steps_action same_redirect); [done|unfold same_redirect; intuition congruence| |done|done].
  apply Forall_forall. intros v _ c1 b Hc1 Hb.
  destruct (scalar_as parse_decision_flag v) as [f|] eqn:E; [|by apply step_fail_action].
  apply scalar_as_spec, parse_decision_flag_fits in E. apply step_ok_action; [|done].
  pose proof (fits_lor 8 _ _ ltac:(lia) (ao_flags _ (ai_ok _ _ Hb)) E).
  revert Hb. unfold set_flags. action_upd.
Qed.

(** A REDIRECT names a target. *)
Definition redirect_named (a : Action) : Prop :=
  a_verdict a = verdict_code kRedirect -> a_redirect_id a <> 0.

Lemma redirect_check_ok n : action_step (fun a b => b = a /\ redirect_named a) (redirect_check n).
Proof.
  intros c a Hc Ha. unfold redirect_check. destruct (_ && _) eqn:E.
  - by apply (step_fail_action (fun a b => b = a /\ redirect_named a)).
  - apply (step_ok_action (fun a b => b = a /\ redirect_named a)); [done|]. split; [done|].
    intros Hv Hr. by rewrite Hv, Hr in E.
Qed.

Lemma wp_steps_app {S A} (l1 l2 : list A) (body : A -> Step S) a Q c :
  wp (step_then (steps l1 body) (steps l2 body) a) Q c -> wp (steps (l1 ++ l2) body a) Q c.
Proof.
  revert a c. induction l1 as [|x l1 IH]; intros a c; [done|]. intros H.
  unfold step_then at 1, bind at 1 in H. cbn [steps] in H. unfold step_then at 1 in H.
  unfold wp, bind in *. cbn [steps app]. unfold step_then at 1, bind at 1.
  destruct (body x a c) as [[[ok b] c1]|]; [|done]. destruct ok; [|done]. apply IH. exact H.
Qed.

(** [parse_action] on a well-formed start: only messages change, the result is
    well-formed, a failure is reported, and a success names its redirect. *)
Lemma parse_action_ok n c a : redirects_ok c -> action_inv (targets_of c) a ->
  wp (parse_action n a) (fun r c' => log_step c c' /\ action_inv (targets_of c) r.2 /\
    (r.1 = false -> c_errors c' <> []) /\ (r.1 = true -> redirect_named r.2)) c.
Proof.
  intros Hc Ha. unfold parse_action. destruct (negb _).
  { by apply (step_fail_action (fun _ b => redirect_named b) _ _ c a a). }
  apply wp_bind. eapply wp_mono; [apply check_unknown_keys_log|]. intros [] c1 L1.
  apply (wp_steps_app [_; _; _; _; _; _; _; _; _; _; _] [_; _]). apply wp_bind.
  eapply wp_mono.
  { apply (steps_action any_action); [done|done| |by eapply log_redirects_ok|by rewrite (log_targets _ _ L1)].
    repeat constructor.
    - apply verdict_step_ok.
    - apply reason_step_ok.
    - apply inherit_step_ok.
    - apply qos_step_ok.
    - apply arp_step_ok.
    - apply half_qos_step_ok.
    - apply ambr_step_ok.
    - apply quota_step_ok.
    - apply validity_step_ok.
    - apply rating_group_step_ok.
    - apply redirect_step_ok. }
  intros [ok b] c2 (L2 & Hb & Hf & _). rewrite (log_targets _ _ L1) in Hb.
  pose proof (log_trans _ _ _ L1 L2) as L12. cbn [fst snd] in *.
  destruct ok; [|apply wp_ret; done]. cbn [steps].
  assert (action_step (fun a b => redirect_named b)
    (step_then (redirect_check n) (step_then (flags_step n) step_ok))) as Hlast.
  { apply (step_then_action (fun a b => b = a /\ redirect_named a) same_redirect);
      [unfold same_redirect, redirect_named; intros x y z [-> ?] [-> ->]; done
      |apply redirect_check_ok|].
    apply (step_then_action same_redirect same_redirect);
      [unfold same_redirect; intuition congruence|apply flags_step_ok|].
    intros c3 x Hc3 Hx. by apply step_ok_action. }
  eapply wp_mono; [apply Hlast; [by eapply log_redirects_ok|by rewrite (log_targets _ _ L12)]|].
  intros r c3 (L3 & Hr & Hf3 & Hk). rewrite (log_targets _ _ L12) in Hr.
  split; [by eapply log_trans|]. done.
Qed.
