(* ===== verification/Conditions.v ===== *)
(** * Conditions: the compiled form of a rule's [when] mapping is exact

    What an entry of a [when] mapping asks of the feature word ([cond_holds]), how
    the compiler's list of (mask, value) pairs represents a conjunction of entries
    ([exact]), the interning of usage thresholds and time windows, and the theorem
    that [compile_when] produces exactly the pairs that mean the mapping. *)

From S2P Require Import Prelude Text Imsi Wire FlatSet Store Rules Sha256 Yaml Compiler Engine CompilerLogic.
From Stdlib Require Import ZArith Lia Bool Ascii String.
From stdpp Require Import base list numbers strings gmap.
Local Open Scope Z_scope.
Local Open Scope compiler_scope.

(** ** Conditions *)

(** What an entry of a [when] mapping asks of the feature word. *)
Inductive cond := CBit (b : Z) (want : bool) | COneOf (bits : list Z) | CNoneOf (bits : list Z).

(** An empty list of alternatives asks nothing. *)
Definition cond_holds (f : Z) (cd : cond) : Prop :=
  match cd with
  | CBit b want => Z.testbit f b = want
  | COneOf bits => bits = [] \/ Exists (fun b => Z.testbit f b = true) bits
  | CNoneOf bits => Forall (fun b => Z.testbit f b = false) bits
  end.

Definition apply_cond (cd : cond) (ms : Matches) : Matches :=
  match cd with
  | CBit b want => add_bit b want ms
  | COneOf [] => ms
  | COneOf bits => cross bits ms
  | CNoneOf bits => add_none_of bits ms
  end.

Definition pos_bit (cd : cond) (b : Z) : Prop :=
  match cd with CBit b' true => b = b' | COneOf bits => b ∈ bits | _ => False end.
Definition neg_bit (cd : cond) (b : Z) : Prop :=
  match cd with CBit b' false => b = b' | CNoneOf bits => b ∈ bits | _ => False end.
(** No bit is both required and forbidden. *)
Definition consistent (conds : list cond) : Prop :=
  forall cd cd' b, cd ∈ conds -> cd' ∈ conds -> pos_bit cd b -> neg_bit cd' b -> False.
(** The bits are positions of the feature word below [56]. *)
Definition cond_bits_ok (cd : cond) : Prop :=
  match cd with CBit b _ => 0 <= b < 56 | COneOf bits | CNoneOf bits => Forall (fun b => 0 <= b < 56) bits end.

(** *** One alternative *)

Definition pair_ok (mv : Z * Z) : Prop :=
  fits 56 mv.1 /\ fits 56 mv.2 /\
  forall b, 0 <= b -> Z.testbit mv.2 b = true -> Z.testbit mv.1 b = true.

Definition pair_matches (f : Z) (mv : Z * Z) : Prop :=
  forall b, 0 <= b -> Z.testbit mv.1 b = true -> Z.testbit f b = Z.testbit mv.2 b.

Lemma pair_matches_land f mv : 0 <= f -> pair_ok mv ->
  Z.land f mv.1 = mv.2 <-> pair_matches f mv.
Proof.
  intros Hf ([? _] & [? _] & Hs). rewrite land_eq_iff by done. unfold pair_matches. tauto.
Qed.

Definition set_pos (b : Z) (mv : Z * Z) : Z * Z := (Z.lor mv.1 (feat.bit b), Z.lor mv.2 (feat.bit b)).
Definition set_neg (b : Z) (mv : Z * Z) : Z * Z := (Z.lor mv.1 (feat.bit b), mv.2).

Lemma testbit_lor_bit m b i : 0 <= b ->
  Z.testbit (Z.lor m (feat.bit b)) i = Z.testbit m i || (i =? b).
Proof. intros. unfold feat.bit. by rewrite Z.lor_spec, testbit_pow2. Qed.

Lemma set_pos_ok b mv : 0 <= b < 56 -> pair_ok mv -> pair_ok (set_pos b mv).
Proof.
  intros Hb (H1 & H2 & H3). split; [|split]; simpl.
  - apply fits_lor; [done|done|by apply fits_pow2].
  - apply fits_lor; [done|done|by apply fits_pow2].
  - intros i Hi. rewrite !testbit_lor_bit by lia. specialize (H3 i Hi).
    destruct (i =? b); rewrite ?orb_true_r, ?orb_false_r; auto.
Qed.

Lemma set_neg_ok b mv : 0 <= b < 56 -> pair_ok mv -> pair_ok (set_neg b mv).
Proof.
  intros Hb (H1 & H2 & H3). split; [|split]; simpl; [|done|].
  - apply fits_lor; [done|done|by apply fits_pow2].
  - intros i Hi E. rewrite testbit_lor_bit by lia. by rewrite H3.
Qed.

Lemma set_pos_matches f b mv : 0 <= b ->
  (Z.testbit mv.1 b = true -> Z.testbit mv.2 b = true) ->
  pair_matches f (set_pos b mv) <-> pair_matches f mv /\ Z.testbit f b = true.
Proof.
  intros Hb Hc. unfold pair_matches, set_pos. simpl. split.
  - intros H. split.
    + intros i Hi Hm. specialize (H i Hi). rewrite !testbit_lor_bit in H by lia.
      rewrite Hm in H. specialize (H eq_refl).
      destruct (Z.eqb_spec i b) as [E|]; [subst i; by rewrite H, (Hc Hm)|by rewrite H, orb_false_r].
    + specialize (H b Hb). rewrite !testbit_lor_bit, Z.eqb_refl, !orb_true_r in H by lia. auto.
  - intros [H Hf] i Hi. rewrite !testbit_lor_bit by lia.
    destruct (Z.eqb_spec i b) as [->|]; rewrite ?orb_true_r, ?orb_false_r; [done|by apply H].
Qed.

Lemma set_neg_matches f b mv : 0 <= b -> Z.testbit mv.2 b = false ->
  pair_matches f (set_neg b mv) <-> pair_matches f mv /\ Z.testbit f b = false.
Proof.
  intros Hb Hc. unfold pair_matches, set_neg. simpl. split.
  - intros H. split.
    + intros i Hi Hm. apply H; [done|]. rewrite testbit_lor_bit by lia. by rewrite Hm.
    + rewrite <- Hc. apply H; [done|]. by rewrite testbit_lor_bit, Z.eqb_refl, orb_true_r by lia.
  - intros [H Hf] i Hi. rewrite testbit_lor_bit by lia.
    destruct (Z.eqb_spec i b) as [->|]; [by rewrite Hf, Hc|rewrite orb_false_r; by apply H].
Qed.

(** *** A list of alternatives *)

(** The alternatives only test what the conditions mention. *)
Definition pair_inv (conds : list cond) (mv : Z * Z) : Prop :=
  pair_ok mv /\
  (forall b, 0 <= b -> Z.testbit mv.2 b = true -> Exists (fun cd => pos_bit cd b) conds) /\
  (forall b, 0 <= b -> Z.testbit mv.1 b = true -> Z.testbit mv.2 b = false ->
     Exists (fun cd => neg_bit cd b) conds).

Definition exact (conds : list cond) (ms : Matches) : Prop :=
  Forall (pair_inv conds) ms /\
  forall f, 0 <= f -> Exists (pair_matches f) ms <-> Forall (cond_holds f) conds.

Lemma exact_start : exact [] [(0, 0)].
Proof.
  split.
  - repeat constructor; simpl; try lia; intros b Hb; by rewrite Z.bits_0.
  - intros f Hf. split; [by constructor|]. intros _. constructor. intros b Hb. simpl. by rewrite Z.bits_0.
Qed.

Lemma pair_inv_pos conds cd b mv : 0 <= b < 56 -> pos_bit cd b -> pair_inv conds mv ->
  pair_inv (conds ++ [cd]) (set_pos b mv).
Proof.
  intros Hb Hp (H1 & H2 & H3). split; [by apply set_pos_ok|]. split; simpl.
  - intros i Hi. rewrite testbit_lor_bit by lia. rewrite Exists_app.
    destruct (Z.eqb_spec i b) as [->|]; [by right; constructor|rewrite orb_false_r].
    intros E. left. by apply H2.
  - intros i Hi. rewrite !testbit_lor_bit by lia. rewrite Exists_app.
    destruct (Z.eqb_spec i b) as [->|]; rewrite ?orb_true_r, ?orb_false_r; [done|].
    intros E1 E2. left. by apply H3.
Qed.

Lemma pair_inv_neg conds cd b mv : 0 <= b < 56 -> neg_bit cd b -> pair_inv (conds ++ [cd]) mv ->
  pair_inv (conds ++ [cd]) (set_neg b mv).
Proof.
  intros Hb Hp (H1 & H2 & H3). split; [by apply set_neg_ok|]. split; simpl; [done|].
  intros i Hi. rewrite testbit_lor_bit by lia.
  destruct (Z.eqb_spec i b) as [->|]; rewrite ?orb_true_r, ?orb_false_r; [|by apply H3].
  intros _ _. apply Exists_app. right. by constructor.
Qed.

Lemma pair_inv_mono conds cd mv : pair_inv conds mv -> pair_inv (conds ++ [cd]) mv.
Proof.
  intros (H1 & H2 & H3). split; [done|]. split; intros; rewrite Exists_app; left; auto.
Qed.

Lemma consistent_pos conds cd b mv : consistent (conds ++ [cd]) -> pos_bit cd b -> 0 <= b ->
  pair_inv conds mv -> Z.testbit mv.1 b = true -> Z.testbit mv.2 b = true.
Proof.
  intros Hc Hp Hb (_ & _ & H3) Hm. destruct (Z.testbit mv.2 b) eqn:E; [done|]. exfalso.
  specialize (H3 b Hb Hm E). apply Exists_exists in H3 as (cd' & Hin & Hn).
  apply (Hc cd cd' b); [|by apply elem_of_app; left|done|done]. apply elem_of_app; right. by constructor.
Qed.

Lemma consistent_neg conds cd b (mv : Z * Z) : consistent (conds ++ [cd]) -> neg_bit cd b -> 0 <= b ->
  (forall b, 0 <= b -> Z.testbit mv.2 b = true -> Exists (fun cd => pos_bit cd b) conds) ->
  Z.testbit mv.2 b = false.
Proof.
  intros Hc Hn Hb H2. destruct (Z.testbit mv.2 b) eqn:E; [|done]. exfalso.
  specialize (H2 b Hb E). apply Exists_exists in H2 as (cd' & Hin & Hp).
  apply (Hc cd' cd b); [by apply elem_of_app; left| |done|done]. apply elem_of_app; right. by constructor.
Qed.

Lemma add_bit_pos b ms : add_bit b true ms = map (set_pos b) ms.
Proof. unfold add_bit. apply map_ext. by intros []. Qed.
Lemma add_bit_neg b ms : add_bit b false ms = map (set_neg b) ms.
Proof. unfold add_bit. apply map_ext. by intros []. Qed.
Lemma cross_eq bits ms : cross bits ms = flat_map (fun mv => map (fun b => set_pos b mv) bits) ms.
Proof. unfold cross. apply flat_map_ext. by intros []. Qed.
Lemma add_none_of_eq bits ms : add_none_of bits ms = map (fun mv => fold_left (fun mv b => set_neg b mv) bits mv) ms.
Proof.
  unfold add_none_of. apply map_ext. intros [mask value]. revert mask.
  induction bits as [|b bits IH]; intros mask; [done|]. simpl. by rewrite IH.
Qed.

Lemma exists_map {A B} (g : A -> B) (P : B -> Prop) l : Exists P (map g l) <-> Exists (fun x => P (g x)) l.
Proof. induction l; simpl; rewrite ?Exists_nil, ?Exists_cons; [done|]. by rewrite IHl. Qed.

Lemma exists_conj {A} (P : A -> Prop) (Q : Prop) l : Exists (fun x => P x /\ Q) l <-> Exists P l /\ Q.
Proof.
  induction l as [|x l IH]; rewrite ?Exists_nil, ?Exists_cons; [tauto|]. rewrite IH. tauto.
Qed.

Lemma exists_iff {A} (P Q : A -> Prop) l : Forall (fun x => P x <-> Q x) l -> Exists P l <-> Exists Q l.
Proof. induction 1; rewrite ?Exists_nil, ?Exists_cons; [done|]. by rewrite H, IHForall. Qed.

(** Adding one condition keeps the alternatives exact. *)
Lemma exact_step conds cd ms (ms' : Matches) : exact conds ms ->
  Forall (pair_inv (conds ++ [cd])) ms' ->
  (forall f, Exists (pair_matches f) ms' <-> Exists (pair_matches f) ms /\ cond_holds f cd) ->
  exact (conds ++ [cd]) ms'.
Proof.
  intros [_ Hex] Hinv E. split; [done|]. intros f Hf.
  by rewrite E, Hex, Forall_app, Forall_singleton by done.
Qed.

(** A condition that changes every pair in place. *)
Lemma exact_map conds cd ms (g : Z * Z -> Z * Z) : exact conds ms ->
  (forall mv, pair_inv conds mv -> pair_inv (conds ++ [cd]) (g mv) /\
     forall f, pair_matches f (g mv) <-> pair_matches f mv /\ cond_holds f cd) ->
  exact (conds ++ [cd]) (map g ms).
Proof.
  intros He Hg. pose proof He as [Hinv _]. apply (exact_step conds cd ms); [done|..].
  - apply Forall_map. eapply Forall_impl; [done|]. intros mv Hmv. by apply Hg.
  - intros f. rewrite exists_map, <- exists_conj. apply exists_iff.
    eapply Forall_impl; [done|]. intros mv Hmv. by apply Hg.
Qed.

Lemma exact_one_of conds bits ms : consistent (conds ++ [COneOf bits]) ->
  Forall (fun b => 0 <= b < 56) bits -> bits <> [] ->
  exact conds ms -> exact (conds ++ [COneOf bits]) (cross bits ms).
Proof.
  intros Hc Hb Hne He. pose proof He as [Hinv _]. rewrite Forall_forall in Hb. rewrite Forall_forall in Hinv.
  assert (forall mv', mv' ∈ cross bits ms <-> exists mv b, mv ∈ ms /\ b ∈ bits /\ mv' = set_pos b mv) as In.
  { intros mv'. rewrite cross_eq, list_elem_of_In, in_flat_map. setoid_rewrite in_map_iff.
    setoid_rewrite <- list_elem_of_In. naive_solver. }
  assert (forall mv b f, mv ∈ ms -> b ∈ bits ->
    pair_matches f (set_pos b mv) <-> pair_matches f mv /\ Z.testbit f b = true) as Hm.
  { intros mv b f Hmv Hbin. apply set_pos_matches; [by apply Hb|].
    by apply (consistent_pos conds (COneOf bits)); [done|done|apply Hb|apply Hinv]. }
  apply (exact_step conds _ ms); [done|..].
  - apply Forall_forall. intros mv' (mv & b & Hmv & Hbin & ->)%In.
    apply pair_inv_pos; [by apply Hb|done|by apply Hinv].
  - intros f. rewrite Exists_exists. setoid_rewrite In. simpl. rewrite (Exists_exists _ ms). split.
    + intros (mv' & (mv & b & Hmv & Hbin & ->) & Hp). apply Hm in Hp as [? ?]; [|done..]. split; [eauto|]. right. apply Exists_exists. eauto.
    + intros [(mv & Hmv & Hp) [?|(b & Hbin & Hfb)%Exists_exists]]; [done|]. exists (set_pos b mv).
      split; [eauto 6|]. by apply Hm.
Qed.

(** Forbidding the bits [bs], some of those of the condition, in one pair. *)
Lemma none_of_pair conds bits bs (mv : Z * Z) : consistent (conds ++ [CNoneOf bits]) ->
  Forall (fun b => 0 <= b < 56 /\ b ∈ bits) bs -> pair_inv (conds ++ [CNoneOf bits]) mv ->
  (forall b, 0 <= b -> Z.testbit mv.2 b = true -> Exists (fun cd => pos_bit cd b) conds) ->
  let mv' := fold_left (fun mv b => set_neg b mv) bs mv in
  pair_inv (conds ++ [CNoneOf bits]) mv' /\
  forall f, pair_matches f mv' <-> pair_matches f mv /\ Forall (fun b => Z.testbit f b = false) bs.
Proof.
  intros Hc. revert mv. induction bs as [|b bs IH]; intros mv Hbs Hmv Hpos; simpl.
  { split; [done|]. intros f. split; [done|tauto]. }
  apply Forall_cons in Hbs as [[Hb1 Hb2] Hbs].
  destruct (IH (set_neg b mv) Hbs) as [I1 I2]; [by apply pair_inv_neg|done|].
  split; [done|]. intros f. rewrite I2, set_neg_matches, Forall_cons; [tauto|lia|].
  apply (consistent_neg conds (CNoneOf bits)); [done|done|lia|done].
Qed.

Lemma exact_apply conds cd ms : consistent (conds ++ [cd]) -> cond_bits_ok cd ->
  exact conds ms -> exact (conds ++ [cd]) (apply_cond cd ms).
Proof.
  intros Hc Hb He. destruct cd as [b [] | bits | bits]; cbn [apply_cond cond_bits_ok] in *.
  - rewrite add_bit_pos. apply exact_map; [done|]. intros mv Hmv. split; [by apply pair_inv_pos|].
    intros f. apply set_pos_matches; [lia|].
    by apply (consistent_pos conds (CBit b true)); [..|lia|].
  - rewrite add_bit_neg. apply exact_map; [done|]. intros mv Hmv. split.
    { apply pair_inv_neg; [done|done|]. by apply pair_inv_mono. }
    intros f. apply set_neg_matches; [lia|].
    apply (consistent_neg conds (CBit b false)); [done|done|lia|apply Hmv].
  - destruct bits as [|b0 bits]; [|by apply exact_one_of]. rewrite <- (map_id ms).
    apply exact_map; [done|]. intros mv Hmv. split; [by apply pair_inv_mono|]. simpl. tauto.
  - rewrite add_none_of_eq. apply exact_map; [done|]. intros mv Hmv.
    apply none_of_pair; [done| |by apply pair_inv_mono|apply Hmv].
    rewrite Forall_forall in *. auto.
Qed.

(** *** The condition an entry stands for, in a rule set *)

Definition used_thresholds (rs : RuleSet) : list Z :=
  take (Z.to_nat (rs_usage_threshold_count rs)) (rs_usage_thresholds_permille rs).
Definition used_windows (rs : RuleSet) : list TimeWindow :=
  take (Z.to_nat (rs_time_window_count rs)) (rs_time_windows rs).

Definition bits_of (conv : Node -> Z + string) (vs : list Node) : option (list Z) :=
  mapM (fun v => match conv v with inl b => Some b | inr _ => None end) vs.

Definition threshold_bit (rs : RuleSet) (pm : Z) : option Z :=
  match list_find (fun t => t = pm) (used_thresholds rs) with
  | Some (i, _) => Some (feat.kUsageThresholdBase + Z.of_nat i)
  | None => None
  end.
Definition window_bit (rs : RuleSet) (s e : Z) : option Z :=
  match list_find (fun w => w_start_minute w = s /\ w_end_minute w = e) (used_windows rs) with
  | Some (i, _) => Some (feat.kTimeWindowBase + Z.of_nat i)
  | None => None
  end.

Definition cond_of (rs : RuleSet) (entry : string * Node) : option cond :=
  let '(key, node) := entry in
  match lookup_cond key kBoolConds with
  | Some b => want ← as_bool node; Some (CBit b want)
  | None =>
      if String.eqb key "status" then
        bits ← bits_of status_name_bit (as_list node); Some (COneOf bits)
      else if String.eqb key "rat" || String.eqb key "not_rat" then
        bits ← bits_of rat_name_bit (as_list node);
        Some (if String.eqb key "rat" then COneOf bits else CNoneOf bits)
      else if String.eqb key "dnn" || String.eqb key "not_dnn" then
        bits ← bits_of (dnn_name_bit (rs_dnn_names rs)) (as_list node);
        Some (if String.eqb key "dnn" then COneOf bits else CNoneOf bits)
      else if String.eqb key "usage_above" || String.eqb key "usage_below" then
        pm ← as_permille node;
        b ← threshold_bit rs pm;
        Some (CBit b (String.eqb key "usage_above"))
      else if String.eqb key "time_between" || String.eqb key "not_time_between" then
        s ← Yaml.find node "start" ≫= as_time_of_day;
        e ← Yaml.find node "end" ≫= as_time_of_day;
        b ← window_bit rs s e;
        Some (CBit b (String.eqb key "time_between"))
      else None
  end.

(** Interning only appends to the two tables. *)
Definition set_tables (tw : list TimeWindow) (wc : Z) (th : list Z) (tc : Z) (rs : RuleSet) : RuleSet :=
  mkRuleSet (rs_version rs) (rs_rules rs) (rs_plans rs) (rs_plan_count rs) tw wc th tc
    (rs_roaming_partners rs) (rs_imei_blocklist rs) (rs_plan_names rs) (rs_dnn_names rs)
    (rs_redirect_targets rs) (rs_default_action rs) (rs_source_path rs) (rs_source_sha256 rs)
    (rs_loaded_at_unix_ns rs).

Record tables_ok (rs : RuleSet) : Prop := {
  tb_thresholds : length (rs_usage_thresholds_permille rs) = 8%nat;
  tb_windows : length (rs_time_windows rs) = 8%nat;
  tb_threshold_count : 0 <= rs_usage_threshold_count rs <= kMaxUsageThresholds;
  tb_window_count : 0 <= rs_time_window_count rs <= kMaxTimeWindows;
  tb_threshold_fits : Forall (fits 32) (rs_usage_thresholds_permille rs);
  tb_window_range : Forall (fun w => 0 <= w_start_minute w < 1440 /\ 0 <= w_end_minute w < 1440)
    (rs_time_windows rs);
  tb_dnns : Z.of_nat (length (rs_dnn_names rs)) <= kMaxDnns }.

Record extends (rs rs' : RuleSet) : Prop := {
  ex_frame : exists tw wc th tc, rs' = set_tables tw wc th tc rs;
  ex_thresholds : used_thresholds rs `prefix_of` used_thresholds rs';
  ex_windows : used_windows rs `prefix_of` used_windows rs' }.

Lemma extends_refl rs : extends rs rs.
Proof. split; [|done|done]. destruct rs. by do 4 eexists. Qed.
Lemma extends_trans rs1 rs2 rs3 : extends rs1 rs2 -> extends rs2 rs3 -> extends rs1 rs3.
Proof.
  intros [(? & ? & ? & ? & ->) H1 H2] [(? & ? & ? & ? & ->) H3 H4].
  split; [by do 4 eexists|by etransitivity|by etransitivity].
Qed.

(** What [compile_when] may do to the state. *)
Record when_step (c c' : Compiler) : Prop := {
  ws_rs : extends (c_rs c) (c_rs c');
  ws_tables : tables_ok (c_rs c) -> tables_ok (c_rs c');
  ws_plans : c_plan_ids c' = c_plan_ids c;
  ws_redirects : c_redirect_ids c' = c_redirect_ids c;
  ws_errors : c_errors c' = [] -> c_errors c = [] }.

Lemma log_when c c' : log_step c c' -> when_step c c'.
Proof. intros [E ? ? ? ?]. split; try done; rewrite E; [apply extends_refl|done]. Qed.
Lemma when_refl c : when_step c c.
Proof. apply log_when, log_refl. Qed.
Lemma when_trans c1 c2 c3 : when_step c1 c2 -> when_step c2 c3 -> when_step c1 c3.
Proof. intros [] []. split; try congruence; auto. by eapply extends_trans. Qed.

Lemma list_find_prefix {A} (P : A -> Prop) `{!forall x, Decision (P x)} l l' r :
  l `prefix_of` l' -> list_find P l = Some r -> list_find P l' = Some r.
Proof.
  intros [k ->]. destruct r as [i x]. rewrite !list_find_Some. intros (Hl & Hp & Hb).
  split; [by apply lookup_app_l_Some|]. split; [done|]. intros j y Hj Hlt.
  apply (Hb j y); [|done]. pose proof (lookup_lt_Some _ _ _ Hl). by rewrite lookup_app_l in Hj by lia.
Qed.

Lemma cond_of_extends rs rs' entry cd : extends rs rs' -> cond_of rs entry = Some cd ->
  cond_of rs' entry = Some cd.
Proof.
  intros E. destruct entry as [key node]. unfold cond_of.
  assert (rs_dnn_names rs' = rs_dnn_names rs) as -> by (destruct (ex_frame _ _ E) as (? & ? & ? & ? & ->); done).
  assert (forall pm b, threshold_bit rs pm = Some b -> threshold_bit rs' pm = Some b) as Ht.
  { intros pm b. unfold threshold_bit.
    destruct (list_find _ (used_thresholds rs)) as [[i x]|] eqn:F; [|done].
    by rewrite (list_find_prefix _ _ _ _ (ex_thresholds _ _ E) F). }
  assert (forall s e b, window_bit rs s e = Some b -> window_bit rs' s e = Some b) as Hw.
  { intros s e b. unfold window_bit.
    destruct (list_find _ (used_windows rs)) as [[i x]|] eqn:F; [|done].
    by rewrite (list_find_prefix _ _ _ _ (ex_windows _ _ E) F). }
  destruct (lookup_cond key kBoolConds); [done|].
  repeat (match goal with |- (if ?b then _ else _) = _ -> _ => destruct b end; try done).
  - destruct (as_permille node) as [pm|]; [|done]. simpl.
    destruct (threshold_bit rs pm) as [b|] eqn:F; [|done]. by rewrite (Ht _ _ F).
  - destruct (Yaml.find node "start" ≫= as_time_of_day) as [s|]; [|done]. simpl.
    destruct (Yaml.find node "end" ≫= as_time_of_day) as [e|]; [|done]. simpl.
    destruct (window_bit rs s e) as [b|] eqn:F; [|done]. by rewrite (Hw _ _ _ F).
Qed.

(** *** Interning *)

Lemma take_insert_end {A} (l : list A) n x : (n < length l)%nat ->
  take (S n) (<[n := x]> l) = take n l ++ [x].
Proof.
  intros H. rewrite (take_S_r _ n x) by (by apply list_lookup_insert_eq).
  by rewrite take_insert_ge by lia.
Qed.

Lemma list_find_app_r {A} (P : A -> Prop) `{!forall x, Decision (P x)} l x :
  list_find P l = None -> P x -> list_find P (l ++ [x]) = Some (length l, x).
Proof.
  rewrite list_find_None. intros Hn Hp. apply list_find_Some. split; [by rewrite lookup_app_r, Nat.sub_diag by lia|].
  split; [done|]. intros j y Hj Hlt. rewrite lookup_app_l in Hj by lia.
  rewrite Forall_forall in Hn. apply Hn. by eapply list_elem_of_lookup_2.
Qed.

Lemma intern_usage_threshold_ok pm line c : tables_ok (c_rs c) -> fits 32 pm ->
  wp (intern_usage_threshold pm line) (fun r c' => when_step c c' /\
    match r with
    | Some b => threshold_bit (c_rs c') pm = Some b /\ 48 <= b < 56
    | None => c_errors c' <> []
    end) c.
Proof.
  intros T Hpm. unfold intern_usage_threshold. apply wp_bind.
  change (wp get_rs ?Q c) with (Q (c_rs c) c). cbn beta. fold (used_thresholds (c_rs c)).
  destruct (tb_threshold_count _ T) as [Hc0 Hc1]. pose proof (tb_thresholds _ T) as Hlen.
  destruct (list_find _ (used_thresholds (c_rs c))) as [[i x]|] eqn:F.
  { apply wp_ret. split; [apply when_refl|]. unfold threshold_bit. rewrite F. split; [done|].
    apply list_find_Some in F as (F & _). apply lookup_lt_Some in F.
    unfold used_thresholds in F. rewrite length_take in F. unfold feat.kUsageThresholdBase. lia. }
  unfold kMaxUsageThresholds in *. destruct (Z.leb_spec 8 (rs_usage_threshold_count (c_rs c))).
  { eapply wp_mono; [apply wp_err_ret|]. intros r c' (-> & L & He). split; [by apply log_when|done]. }
  apply wp_bind. change (wp (set_rs ?rs) ?Q c) with (Q tt (mkCompiler rs (c_errors c) (c_warnings c)
    (c_plan_ids c) (c_redirect_ids c) (c_seen_rule_ids c))). cbn beta. apply wp_ret.
  set (n := rs_usage_threshold_count (c_rs c)) in *.
  assert (used_thresholds (add_threshold pm (c_rs c)) = used_thresholds (c_rs c) ++ [pm]) as U.
  { unfold used_thresholds, add_threshold. simpl. fold n.
    replace (Z.to_nat (n + 1)) with (S (Z.to_nat n)) by lia. apply take_insert_end. lia. }
  split.
  - split; cbn [c_rs c_plan_ids c_redirect_ids c_errors]; try done.
    + split; [by do 4 eexists|rewrite U; by eexists|done].
    + intros _. destruct T. split; simpl; try done; fold n; [by rewrite length_insert|unfold kMaxUsageThresholds, kMaxTimeWindows; lia|].
      by apply Forall_insert.
  - cbn [c_rs]. unfold threshold_bit. rewrite U, (list_find_app_r _ _ _ F eq_refl).
    unfold used_thresholds. rewrite length_take. fold n. unfold feat.kUsageThresholdBase.
    split; [f_equal; lia|lia].
Qed.

Lemma intern_time_window_ok s e line c : tables_ok (c_rs c) -> 0 <= s < 1440 -> 0 <= e < 1440 ->
  wp (intern_time_window s e line) (fun r c' => when_step c c' /\
    match r with
    | Some b => window_bit (c_rs c') s e = Some b /\ 40 <= b < 48
    | None => c_errors c' <> []
    end) c.
Proof.
  intros T Hs He. unfold intern_time_window. apply wp_bind.
  change (wp get_rs ?Q c) with (Q (c_rs c) c). cbn beta. fold (used_windows (c_rs c)).
  destruct (tb_window_count _ T) as [Hc0 Hc1]. pose proof (tb_windows _ T) as Hlen.
  destruct (list_find _ (used_windows (c_rs c))) as [[i x]|] eqn:F.
  { apply wp_ret. split; [apply when_refl|]. unfold window_bit. rewrite F. split; [done|].
    apply list_find_Some in F as (F & _). apply lookup_lt_Some in F.
    unfold used_windows in F. rewrite length_take in F. unfold feat.kTimeWindowBase. lia. }
  unfold kMaxTimeWindows in *. destruct (Z.leb_spec 8 (rs_time_window_count (c_rs c))).
  { eapply wp_mono; [apply wp_err_ret|]. intros r c' (-> & L & Hne). split; [by apply log_when|done]. }
  apply wp_bind. change (wp (set_rs ?rs) ?Q c) with (Q tt (mkCompiler rs (c_errors c) (c_warnings c)
    (c_plan_ids c) (c_redirect_ids c) (c_seen_rule_ids c))). cbn beta. apply wp_ret.
  set (n := rs_time_window_count (c_rs c)) in *.
  assert (used_windows (add_window (mkWindow s e) (c_rs c)) = used_windows (c_rs c) ++ [mkWindow s e]) as U.
  { unfold used_windows, add_window. simpl. fold n.
    replace (Z.to_nat (n + 1)) with (S (Z.to_nat n)) by lia. apply take_insert_end. lia. }
  split.
  - split; cbn [c_rs c_plan_ids c_redirect_ids c_errors]; try done.
    + split; [by do 4 eexists|done|rewrite U; by eexists].
    + intros _. destruct T. split; simpl; try done; fold n; [by rewrite length_insert|unfold kMaxUsageThresholds, kMaxTimeWindows; lia|].
      by apply Forall_insert.
  - cbn [c_rs]. unfold window_bit. rewrite U, (list_find_app_r _ _ _ F) by done.
    unfold used_windows. rewrite length_take. fold n. unfold feat.kTimeWindowBase.
    split; [f_equal; lia|lia].
Qed.

Lemma name_bits_ok vs conv c :
  wp (name_bits vs conv) (fun r c' => log_step c c' /\
    match r with Some bs => bits_of conv vs = Some bs | None => c_errors c' <> [] end) c.
Proof.
  revert c. induction vs as [|v vs IH]; intros c; cbn [name_bits].
  { apply wp_ret. split; [apply log_refl|done]. }
  destruct (conv v) as [b|msg] eqn:E.
  - apply wp_bind. eapply wp_mono; [apply IH|]. intros [bs|] c' [L H]; apply wp_ret; (split; [done|]); [|done].
    unfold bits_of in *. simpl. rewrite E. simpl. by rewrite H.
  - eapply wp_mono; [apply wp_err_ret|]. intros r c' (-> & L & He). done.
Qed.

Definition bit_range (b : Z) : Prop := 0 <= b < 56.

Lemma bits_of_range conv vs bs : (forall v b, conv v = inl b -> bit_range b) ->
  bits_of conv vs = Some bs -> Forall bit_range bs.
Proof.
  intros H. unfold bits_of. revert bs. induction vs as [|v vs IH]; intros bs; simpl.
  { intros [= <-]. constructor. }
  destruct (conv v) as [b|] eqn:E; [|done]. simpl.
  destruct (mapM _ vs) as [bs'|]; [|done]. simpl. intros [= <-]. constructor; [by eapply H|by apply IH].
Qed.

Lemma status_name_bit_range v b : status_name_bit v = inl b -> bit_range b.
Proof.
  unfold status_name_bit. intros H.
  repeat match type of H with (if ?b then _ else _) = _ => destruct b end;
    simplify_eq; by vm_compute.
Qed.
Lemma rat_name_bit_range v b : rat_name_bit v = inl b -> bit_range b.
Proof.
  unfold rat_name_bit. destruct (if is_scalar v then _ else _) as [r|]; [|done]. intros [= <-].
  destruct r; by vm_compute.
Qed.
Lemma dnn_name_bit_range dnns v b : Z.of_nat (length dnns) <= kMaxDnns ->
  dnn_name_bit dnns v = inl b -> bit_range b.
Proof.
  intros Hl. unfold dnn_name_bit. destruct (negb _); [done|].
  destruct (index_of (scalar v) dnns) as [i|] eqn:E; [|done]. intros [= <-].
  apply index_of_bound in E. unfold kMaxDnns, feat.kDnnBase, bit_range in *. lia.
Qed.

Lemma kBoolConds_range key b : lookup_cond key kBoolConds = Some b -> bit_range b.
Proof.
  unfold kBoolConds. intros H. cbn [lookup_cond] in H.
  repeat match type of H with (if ?b then _ else _) = _ =>
    destruct b; [injection H as <-; by vm_compute|] end. done.
Qed.

(** The postcondition of one entry. *)
Definition cond_post (c : Compiler) (entry : string * Node) (ms : Matches)
    (r : bool * Matches) (c' : Compiler) : Prop :=
  when_step c c' /\ (r.1 = false -> c_errors c' <> []) /\
  (r.1 = true -> exists cd, cond_of (c_rs c') entry = Some cd /\ cond_bits_ok cd /\
     r.2 = apply_cond cd ms).

Lemma cond_fail c c0 entry ms msg line : when_step c c0 ->
  wp (step_fail msg line ms) (cond_post c entry ms) c0.
Proof.
  intros W. eapply wp_mono; [apply wp_err_ret|]. intros r c' (-> & L & He).
  split; [eapply when_trans; [done|by apply log_when]|]. by split.
Qed.

(** The end of the branches that test a list of names. *)
Lemma cond_names c c' entry (positive : bool) bits rid line ms cd : when_step c c' ->
  Forall bit_range bits -> cd = (if positive then COneOf bits else CNoneOf bits) ->
  cond_of (c_rs c') entry = Some cd ->
  wp (if positive then add_one_of bits rid line ms else step_ok (add_none_of bits ms))
    (cond_post c entry ms) c'.
Proof.
  intros W Hb -> Hcd. destruct positive.
  - unfold add_one_of. destruct bits as [|b bits].
    { apply wp_ret. split; [done|]. split; [done|]. eauto. }
    destruct (_ <? _); [by apply cond_fail|]. apply wp_ret. split; [done|]. split; [done|]. eauto.
  - apply wp_ret. split; [done|]. split; [done|]. eauto.
Qed.

Lemma cond_ret_false c c' entry ms : when_step c c' -> c_errors c' <> [] ->
  wp (ret (false, ms)) (cond_post c entry ms) c'.
Proof. intros. apply wp_ret. by split. Qed.

Lemma compile_condition_ok rid entry ms c : tables_ok (c_rs c) ->
  wp (compile_condition rid entry ms) (cond_post c entry ms) c.
Proof.
  intros T. destruct entry as [key node]. unfold compile_condition.
  destruct (lookup_cond key kBoolConds) as [b|] eqn:Eb.
  { destruct (as_bool node) as [want|] eqn:Ew; [|apply cond_fail, when_refl].
    apply wp_ret. split; [apply when_refl|]. split; [done|]. intros _. exists (CBit b want).
    unfold cond_of. rewrite Eb, Ew. split; [done|]. split; [by eapply kBoolConds_range|done]. }
  destruct (String.eqb key "status") eqn:Es.
  { apply wp_bind. eapply wp_mono; [apply name_bits_ok|]. intros [bits|] c1 [L H]; [|apply cond_ret_false; [by apply log_when|done]].
    eapply (cond_names c c1 _ true); [by apply log_when|by eapply bits_of_range, H; apply status_name_bit_range|done|].
    unfold cond_of. by rewrite Eb, Es, H. }
  destruct (String.eqb key "rat" || String.eqb key "not_rat") eqn:Er.
  { apply wp_bind. eapply wp_mono; [apply name_bits_ok|]. intros [bits|] c1 [L H]; [|apply cond_ret_false; [by apply log_when|done]].
    eapply cond_names; [by apply log_when|by eapply bits_of_range, H; apply rat_name_bit_range|done|].
    unfold cond_of. by rewrite Eb, Es, Er, H. }
  destruct (String.eqb key "dnn" || String.eqb key "not_dnn") eqn:Ed.
  { apply wp_bind. change (wp get_rs ?Q c) with (Q (c_rs c) c). cbn beta.
    apply wp_bind. eapply wp_mono; [apply name_bits_ok|]. intros [bits|] c1 [L H]; [|apply cond_ret_false; [by apply log_when|done]].
    eapply cond_names; [by apply log_when| |done|].
    - eapply bits_of_range, H. intros v b. apply dnn_name_bit_range, T.
    - unfold cond_of. rewrite Eb, Es, Er, Ed. rewrite (log_rs _ _ L). by rewrite H. }
  destruct (String.eqb key "usage_above" || String.eqb key "usage_below") eqn:Eu.
  { destruct (as_permille node) as [pm|] eqn:Ep; [|apply cond_fail, when_refl].
    apply wp_bind. eapply wp_mono; [apply intern_usage_threshold_ok; [done|]|].
    { apply as_permille_range in Ep. unfold fits. lia. }
    intros [b|] c1 [W H]; [|by apply cond_ret_false]. destruct H as [Hb Hr].
    apply wp_ret. split; [done|]. split; [done|]. intros _. eexists (CBit b _).
    unfold cond_of. rewrite Eb, Es, Er, Ed, Eu, Ep. cbn [mbind option_bind]. rewrite Hb.
    split; [done|]. split; [simpl; lia|done]. }
  destruct (String.eqb key "time_between" || String.eqb key "not_time_between") eqn:Et;
    [|apply cond_fail, when_refl].
  destruct (Yaml.find node "start") as [sn|] eqn:E1; [|apply cond_fail, when_refl].
  destruct (Yaml.find node "end") as [en|] eqn:E2; [|apply cond_fail, when_refl].
  destruct (as_time_of_day sn) as [s|] eqn:Es'; [|apply cond_fail, when_refl].
  destruct (as_time_of_day en) as [e|] eqn:Ee'; [|apply cond_fail, when_refl].
  apply wp_bind. eapply wp_mono; [apply intern_time_window_ok; [done|by eapply as_time_of_day_range..]|].
  intros [b|] c1 [W H]; [|by apply cond_ret_false]. destruct H as [Hb Hr].
  apply wp_ret. split; [done|]. split; [done|]. intros _. eexists (CBit b _).
  unfold cond_of. rewrite Eb, Es, Er, Ed, Eu, Et, E1, E2. cbn [mbind option_bind].
  rewrite Es', Ee'. cbn [mbind option_bind]. rewrite Hb.
  split; [done|]. split; [simpl; lia|done].
Qed.

Lemma apply_cond_ok cd ms : cond_bits_ok cd -> Forall pair_ok ms -> Forall pair_ok (apply_cond cd ms).
Proof.
  intros Hb Hm. destruct cd as [b [] | bits | bits]; simpl in Hb.
  - simpl. rewrite add_bit_pos. apply Forall_map. eapply Forall_impl; [done|]. intros. by apply set_pos_ok.
  - simpl. rewrite add_bit_neg. apply Forall_map. eapply Forall_impl; [done|]. intros. by apply set_neg_ok.
  - destruct bits as [|b0 bits0]; [done|]. cbn [apply_cond]. rewrite cross_eq.
    rewrite Forall_forall in Hb. rewrite Forall_forall in Hm. apply Forall_forall. intros mv' Hin.
    apply list_elem_of_In, in_flat_map in Hin as (mv & Hmv & Hin).
    apply in_map_iff in Hin as (b & <- & Hbin). rewrite <- !list_elem_of_In in *.
    apply set_pos_ok; [by apply Hb|by apply Hm].
  - cbn [apply_cond]. rewrite add_none_of_eq. apply Forall_map. eapply Forall_impl; [done|].
    clear Hm. intros mv Hmv. revert mv Hmv. induction Hb as [|b bits Hb _ IH]; intros mv Hmv; [done|].
    simpl. apply IH. by apply set_neg_ok.
Qed.

(** The whole mapping: the entries stand for conditions, applied in order. *)
Lemma compile_entries_ok rid l ms c : tables_ok (c_rs c) ->
  wp (steps l (compile_condition rid) ms) (fun r c' => when_step c c' /\
    (r.1 = false -> c_errors c' <> []) /\
    (r.1 = true -> exists conds, mapM (cond_of (c_rs c')) l = Some conds /\
       Forall cond_bits_ok conds /\ r.2 = fold_left (fun ms cd => apply_cond cd ms) conds ms)) c.
Proof.
  revert ms c. induction l as [|entry l IH]; intros ms c T.
  { apply wp_ret. split; [apply when_refl|]. split; [done|]. intros _. by exists []. }
  apply wp_bind. eapply wp_mono; [by apply compile_condition_ok|].
  intros [ok ms1] c1 (W1 & Hf1 & Hk1). cbn [fst snd] in *.
  destruct ok; [|apply wp_ret; done]. destruct (Hk1 eq_refl) as (cd & Hcd & Hok & ->).
  eapply wp_mono; [apply IH; by apply (ws_tables _ _ W1)|].
  intros [ok2 ms2] c2 (W2 & Hf2 & Hk2). cbn [fst snd] in *.
  split; [by eapply when_trans|]. split; [done|]. intros ->.
  destruct (Hk2 eq_refl) as (conds & Hm & Hcs & ->). exists (cd :: conds). split.
  { simpl. rewrite (cond_of_extends _ _ _ _ (ws_rs _ _ W2) Hcd). simpl. by rewrite Hm. }
  split; [by constructor|done].
Qed.

Lemma exact_fold conds done_ ms : consistent (done_ ++ conds) -> Forall cond_bits_ok conds ->
  exact done_ ms -> exact (done_ ++ conds) (fold_left (fun ms cd => apply_cond cd ms) conds ms).
Proof.
  revert done_ ms. induction conds as [|cd conds IH]; intros done_ ms Hc Hb He; simpl.
  { by rewrite app_nil_r. }
  apply Forall_cons in Hb as [Hb Hbs].
  replace (done_ ++ cd :: conds) with ((done_ ++ [cd]) ++ conds) in * by (by rewrite <- app_assoc).
  apply IH; [done|done|]. apply exact_apply; [|done|done].
  intros x y b Hx Hy. apply Hc; apply elem_of_app; by left.
Qed.

Lemma fold_pair_ok conds ms : Forall cond_bits_ok conds -> Forall pair_ok ms ->
  Forall pair_ok (fold_left (fun ms cd => apply_cond cd ms) conds ms).
Proof.
  intros Hb. revert ms. induction Hb as [|cd conds H _ IH]; intros ms Hm; [done|].
  simpl. apply IH. by apply apply_cond_ok.
Qed.

(** C3: The compiled form of a rule's condition is exact.  When [compile_when]
    accepts a mapping whose entries do not require and forbid the same bit, a
    feature word satisfies one of the compiled (mask, value) pairs exactly when it
    satisfies every entry of the mapping: booleans, status, RAT and DNN lists and
    their negations, usage thresholds and time windows, with the threshold and
    window bits of the rule set being built. *)
Theorem compile_when_exact when_ rid c ms c' : tables_ok (c_rs c) ->
  compile_when when_ rid [(0, 0)] c = Some ((true, ms), c') ->
  exists conds, mapM (cond_of (c_rs c')) (fields when_) = Some conds /\
    (consistent conds -> forall f, 0 <= f ->
       (exists mask value, (mask, value) ∈ ms /\ Z.land f mask = value) <->
       Forall (cond_holds f) conds).
Proof.
  intros T E. unfold compile_when in E. destruct (negb (is_map when_)); [done|].
  pose proof (wp_elim _ _ _ _ _ (compile_entries_ok rid (fields when_) [(0, 0)] c T) E)
    as (_ & _ & H). destruct (H eq_refl) as (conds & Hm & Hb & Hms). simpl in Hms. subst ms.
  exists conds. split; [done|]. intros Hc f Hf.
  destruct (exact_fold conds [] [(0, 0)] Hc Hb exact_start) as [Hinv Hex].
  rewrite <- (Hex f Hf), Exists_exists. rewrite Forall_forall in Hinv. split.
  - intros (mask & value & Hin & Hl). exists (mask, value). split; [done|].
    apply pair_matches_land; [done|by apply Hinv|done].
  - intros ([mask value] & Hin & Hm'). exists mask, value. split; [done|].
    apply (pair_matches_land f (mask, value)); [done|by apply Hinv|done].
Qed.

(** ** A sample condition *)

Definition sample_when : Node :=
  kMap 1 [("rat", kSeq 2 [kScalar 2 "LTE"; kScalar 2 "NR"]);
          ("roaming", kScalar 3 "false"); ("usage_below", kScalar 4 "80%")]%string.
Definition sample_start : Compiler := initial_compiler 0 "" "rules.yaml" 1.

Lemma initial_tables_ok now text path version :
  tables_ok (c_rs (initial_compiler now text path version)).
Proof. split; simpl; try done; repeat constructor; by vm_compute. Qed.

Definition sample_conds : list cond :=
  [COneOf [feat.kRatBase; feat.kRatBase + 1]; CBit feat.kRoaming false; CBit feat.kUsageThresholdBase false].
Definition sample_compile_when : option ((bool * Matches) * Compiler) :=
  Eval vm_compute in compile_when sample_when 5 [(0, 0)] sample_start.

Lemma sample_conds_consistent : consistent sample_conds.
Proof.
  intros cd cd' b Hcd Hcd'. unfold sample_conds in *.
  repeat (apply elem_of_cons in Hcd as [->|Hcd]); [..|by apply elem_of_nil in Hcd];
  repeat (apply elem_of_cons in Hcd' as [->|Hcd']); try (by apply elem_of_nil in Hcd'); simpl; try done.
  all: intros H ->; apply list_elem_of_In in H; vm_compute in H; intuition discriminate.
Qed.

Lemma compile_when_exact_witness :
  match sample_compile_when with
  | Some ((true, ms), _) =>
      compile_when sample_when 5 [(0, 0)] sample_start = sample_compile_when /\
      forall f, 0 <= f -> (exists mask value, (mask, value) ∈ ms /\ Z.land f mask = value) <->
        Forall (cond_holds f) sample_conds
  | _ => False
  end.
Proof.
  assert (compile_when sample_when 5 [(0, 0)] sample_start = sample_compile_when) as E by (by vm_compute).
  destruct (compile_when_exact sample_when 5 sample_start _ _ (initial_tables_ok _ _ _ _) E)
    as (conds & Hm & H).
  assert (conds = sample_conds) as -> by (vm_compute in Hm; by injection Hm as <-).
  split; [exact E|exact (H sample_conds_consistent)].
Defined.
