(* ===== verification/CompilerSpec.v ===== *)
(** * CompilerSpec: what the rule compiler guarantees

    The invariant of the compiler state, kept by every loader of a section of the
    rule file; the order of the compiled rules and the shadow lint; and the
    theorems about [compile_rules]: it returns on every document, and what it
    accepts is a well-formed rule set for the decision engine. *)

From S2P Require Import Prelude Text Imsi Wire FlatSet Store Rules Sha256 Yaml Compiler Engine CompilerLogic Conditions.
From Stdlib Require Import ZArith Lia Bool Ascii String Sorted.
From stdpp Require Import base list numbers strings gmap.
Local Open Scope Z_scope.
Local Open Scope compiler_scope.

(** ** The invariant of the compiler state *)

Record rule_inv (targets : Z) (r : CompiledRule) : Prop := {
  ri_pair : pair_ok (r_match_mask r, r_match_value r);
  ri_plans : fits 32 (r_plan_mask r);
  ri_id : 1 <= r_id r < 2 ^ 32;
  ri_priority : fits 32 (r_priority r);
  ri_action : action_inv targets (r_action r);
  ri_redirect : redirect_named (r_action r) }.

Record compiler_inv (c : Compiler) : Prop := {
  ki_sets : exists P B, fs_holds (rs_roaming_partners (c_rs c)) P /\
    fs_holds (rs_imei_blocklist (c_rs c)) B;
  ki_version : fits 32 (rs_version (c_rs c));
  ki_tables : tables_ok (c_rs c);
  ki_redirects : redirects_ok c;
  ki_plans_len : length (rs_plans (c_rs c)) = 32%nat;
  ki_plans : Forall plan_ok (rs_plans (c_rs c));
  ki_plan_count : rs_plan_count (c_rs c) = Z.of_nat (length (rs_plan_names (c_rs c)));
  ki_plan_max : rs_plan_count (c_rs c) <= kMaxPlans;
  ki_plan_ids : forall name id, c_plan_ids c !! name = Some id -> 0 <= id < kMaxPlans;
  ki_rules : Forall (rule_inv (targets_of c)) (rs_rules (c_rs c));
  ki_default : action_inv (targets_of c) (rs_default_action (c_rs c));
  ki_default_redirect : c_errors c = [] -> redirect_named (rs_default_action (c_rs c)) }.

Lemma log_inv c c' : log_step c c' -> compiler_inv c -> compiler_inv c'.
Proof.
  intros L I. pose proof (log_redirects_ok _ _ L (ki_redirects _ I)) as R.
  pose proof (log_targets _ _ L) as Ht.
  destruct L as [E1 E2 E3 E4 E5], I. split; rewrite ?Ht, ?E1, ?E2; auto.
Qed.

Lemma when_inv c c' : when_step c c' -> compiler_inv c -> compiler_inv c'.
Proof.
  intros [E T E2 E3 E5] I. pose proof (T (ki_tables _ I)) as T'.
  destruct (ex_frame _ _ E) as (tw & wc & th & tc & F).
  assert (redirects_ok c') as R'.
  { destruct (ki_redirects _ I). split; rewrite ?F, ?E3; done. }
  assert (targets_of c' = targets_of c) as Ht by (unfold targets_of; by rewrite F).
  destruct I. split; auto; rewrite ?Ht, ?E2; auto; rewrite F; auto.
Qed.

Lemma action_inv_mono t t' a : t <= t' -> action_inv t a -> action_inv t' a.
Proof. intros Ht [? ? ? ? ? [?|?]]; split; auto; right; lia. Qed.
Lemma rule_inv_mono t t' r : t <= t' -> rule_inv t r -> rule_inv t' r.
Proof. intros Ht []; split; auto. by eapply action_inv_mono. Qed.

(** An error branch of a loop body. *)
Lemma inv_err_ret {A} msg line (a : A) c : compiler_inv c ->
  wp (err msg line ;; ret a) (fun _ c' => compiler_inv c') c.
Proof. intros I. eapply wp_mono; [apply wp_err_ret|]. intros x c' (_ & L & _). by eapply log_inv. Qed.
Lemma inv_err msg line c : compiler_inv c -> wp (err msg line) (fun _ c' => compiler_inv c') c.
Proof. intros I. eapply wp_mono; [apply wp_err|]. intros x c' (L & _). by eapply log_inv. Qed.

(** A loop, then the end of the function. *)
Lemma inv_loop {A} (body : A -> M bool) l c : compiler_inv c ->
  (forall x c, compiler_inv c -> wp (body x) (fun _ c' => compiler_inv c') c) ->
  wp (for_while l body ;; ret tt) (fun _ c' => compiler_inv c') c.
Proof.
  intros I Hb. apply wp_bind. eapply wp_mono; [apply (wp_for_while compiler_inv); auto|].
  intros b c' I'. by apply wp_ret.
Qed.

Ltac wp_get := change (wp get_rs ?Q ?c) with (Q (c_rs c) c); cbn beta.
Ltac wp_set := change (wp (set_rs ?rs) ?Q ?c) with (Q tt (mkCompiler rs (c_errors c) (c_warnings c)
    (c_plan_ids c) (c_redirect_ids c) (c_seen_rule_ids c))); cbn beta.

Lemma load_dnns_inv n t c : compiler_inv c -> targets_of c = t ->
  wp (load_dnns n) (fun _ c' => compiler_inv c' /\ targets_of c' = t) c.
Proof.
  intros I Ht. unfold load_dnns.
  assert (forall c c', compiler_inv c /\ targets_of c = t -> log_step c c' ->
    compiler_inv c' /\ targets_of c' = t) as K
    by (intros ? ? [? <-] ?; split; [by eapply log_inv|by apply log_targets]).
  assert (forall msg line, wp (err msg line) (fun _ c' => compiler_inv c' /\ targets_of c' = t) c) as Err.
  { intros. eapply wp_mono; [apply wp_err|]. intros x c' (L & _). by eapply K. }
  destruct n as [[| | |l its]|]; try apply Err.
  apply wp_bind. eapply wp_mono; [apply (wp_for_while (fun c => compiler_inv c /\ targets_of c = t)); [done|]|].
  2: { intros b c' [I' Ht']. by apply wp_ret. }
  clear Err c I Ht. intros item c _ HI. unfold load_dnn.
  assert (forall msg line (b : bool), wp (err msg line ;; ret b)
    (fun _ c' => compiler_inv c' /\ targets_of c' = t) c) as Err.
  { intros. eapply wp_mono; [apply wp_err_ret|]. intros x c' (_ & L & _). by eapply K. }
  destruct (negb _); [apply Err|]. apply wp_bind. wp_get.
  destruct (Z.leb_spec kMaxDnns (Z.of_nat (length (rs_dnn_names (c_rs c))))); [apply Err|].
  case_bool_decide; [apply Err|]. apply wp_bind. wp_set. apply wp_ret.
  destruct HI as [[? ? [] [] ? ? ? ? ? ? ? ?] Ht].
  split; [|done]. split; auto; split; simpl; auto. rewrite length_app. simpl. lia.
Qed.

(** A new redirect target at the end of the table. *)
Lemma add_target_inv c x ids : compiler_inv c -> targets_of c < kMaxRedirects ->
  (forall name id, ids !! name = Some id -> 1 <= id < targets_of c + 1) ->
  compiler_inv (mkCompiler (set_redirect_targets (rs_redirect_targets (c_rs c) ++ [x]) (c_rs c))
    (c_errors c) (c_warnings c) (c_plan_ids c) ids (c_seen_rule_ids c)).
Proof.
  intros I Hlt Hids. set (c' := mkCompiler _ _ _ _ _ _).
  assert (targets_of c' = targets_of c + 1) as Ht
    by (unfold targets_of; simpl; rewrite length_app; simpl; lia).
  assert (redirects_ok c') as R.
  { split; fold (targets_of c'); rewrite Ht; [lia|done]. }
  destruct I as [? ? [] _ ? ? ? ? ? Hr Hd ?]. split; auto; rewrite ?Ht; simpl; auto.
  - by split.
  - eapply Forall_impl; [done|]. intros r. apply rule_inv_mono. lia.
  - eapply action_inv_mono; [|done]. lia.
Qed.

Lemma load_redirects_inv n c : compiler_inv c -> targets_of c = 0 ->
  wp (load_redirects n) (fun _ c' => compiler_inv c') c.
Proof.
  intros I Ht0. unfold load_redirects. destruct n as [[| |l fs|]|];
    [by apply inv_err|by apply inv_err| |by apply inv_err|by apply wp_ret].
  apply wp_bind. wp_get. apply wp_bind. wp_set.
  apply wp_bind. eapply wp_mono; [apply (wp_for_while (fun c => compiler_inv c /\ 1 <= targets_of c))|].
  3: { intros b c' [I' _]. by apply wp_ret. }
  - split.
    + apply add_target_inv; [done|rewrite Ht0; done|]. intros name id E.
      apply (rd_ids _ (ki_redirects _ I)) in E. fold (targets_of c) in E. lia.
    + unfold targets_of. simpl. rewrite length_app. simpl. lia.
  - clear. intros [name target] c _ [I Ht]. unfold load_redirect. apply wp_bind. wp_get.
    fold (targets_of c).
    assert (forall msg line (b : bool), wp (err msg line ;; ret b)
      (fun _ c' => compiler_inv c' /\ 1 <= targets_of c') c) as Err.
    { intros. eapply wp_mono; [apply wp_err_ret|]. intros x c' (_ & L & _).
      split; [by eapply log_inv|by rewrite (log_targets _ _ L)]. }
    destruct (Z.leb_spec kMaxRedirects (targets_of c)); [apply Err|].
    destruct (negb _); [apply Err|].
    apply wp_bind. unfold wp at 1, set_redirect_id. apply wp_bind. wp_set. apply wp_ret.
    split; [|unfold targets_of; simpl; rewrite length_app; simpl; lia].
    apply (add_target_inv c); [done|done|]. intros nm id. cbn [c_redirect_ids]. rewrite lookup_insert. unfold kMaxRedirects in *.
    case_decide; [|intros E; apply (rd_ids _ (ki_redirects _ I)) in E; fold (targets_of c) in E; lia].
    intros [= <-]. rewrite wrap_id by (split; lia). lia.
Qed.

(** ** Plans and sets *)

Lemma read_plan_ok item id c :
  wp (read_plan item id) (fun p c' => plan_ok p /\ p_id p = id /\ log_step c c') c.
Proof.
  unfold read_plan.
  apply wp_bind. eapply wp_mono; [apply (req_5qi_log _ _ 9); by vm_compute|]. intros q c1 [Hq L1].
  apply wp_bind. eapply wp_mono.
  { apply (opt_field_log _ _ _ _ _ (fits 8)); [by vm_compute|].
    intros v u E. apply in_range_spec in E. unfold fits. lia. }
  intros a c2 [Ha L2].
  apply wp_bind. eapply wp_mono; [apply (opt_field_log _ _ _ _ _ (fits 32) _ (fits_0 32 ltac:(lia)) as_kbps_range)|].
  intros ul c3 [Hul L3].
  apply wp_bind. eapply wp_mono; [apply (opt_field_log _ _ _ _ _ (fits 32) _ (fits_0 32 ltac:(lia)) as_kbps_range)|].
  intros dl c4 [Hdl L4].
  apply wp_bind. eapply wp_mono; [apply (opt_field_log _ _ _ _ _ (fits 64) _ (fits_0 64 ltac:(lia)) as_bytes_range)|].
  intros quota c5 [Hquota L5].
  apply wp_bind. eapply wp_mono; [apply (opt_field_log _ _ _ _ _ (fits 32) _ (fits_0 32 ltac:(lia)) as_seconds_range)|].
  intros validity c6 [Hval L6].
  apply wp_bind. eapply wp_mono; [by apply (opt_field_log _ _ _ _ _ (fun _ => True))|].
  intros rg c7 [_ L7].
  apply wp_bind. eapply wp_mono; [by apply (opt_field_log _ _ _ _ _ (fun _ => True))|].
  intros teth c8 [_ L8].
  apply wp_bind. eapply wp_mono; [by apply (opt_field_log _ _ _ _ _ (fun _ => True))|].
  intros roam c9 [_ L9]. apply wp_ret. split; [|split; [done|]].
  - split; simpl; auto; [by apply wrap_fits|]. apply fits_set_if; [done| |by vm_compute].
    apply fits_set_if; [done|by apply fits_0|by vm_compute].
  - eauto 12 using log_trans.
Qed.

Lemma load_plan_inv item c : compiler_inv c -> wp (load_plan item) (fun _ c' => compiler_inv c') c.
Proof.
  intros I. unfold load_plan. destruct (negb _); [by apply inv_err_ret|].
  apply wp_bind. eapply wp_mono; [apply check_unknown_keys_log|]. intros [] c1 L1.
  apply (log_inv _ _ L1) in I. clear L1 c. rename c1 into c.
  destruct (Yaml.find item "name") as [[|nl [|ch nm]| |]|]; try by apply inv_err_ret.
  set (name := String ch nm). apply wp_bind. wp_get.
  destruct (Z.leb_spec kMaxPlans (Z.of_nat (length (rs_plan_names (c_rs c))))); [by apply inv_err_ret|].
  apply wp_bind. change (wp get_plan_ids ?Q c) with (Q (c_plan_ids c) c). cbn beta.
  destruct (c_plan_ids c !! name); [by apply inv_err_ret|].
  unfold kMaxPlans in *. remember (Z.of_nat (length (rs_plan_names (c_rs c)))) as n eqn:En0.
  assert (u32 n = n) as -> by (apply wrap_id; split; lia).
  apply wp_bind. eapply wp_mono; [apply read_plan_ok|]. intros p c1 (Hp & Hid & L1).
  pose proof (log_inv _ _ L1 I) as I1. rewrite <- (log_rs _ _ L1) in *.
  apply wp_bind. eapply wp_mono with (Q := fun _ c2 => log_step c1 c2).
  { destruct (_ && _); [|apply wp_ret, log_refl]. eapply wp_mono; [apply wp_warn|]. by intros [] c2 []. }
  intros [] c2 L2. pose proof (log_inv _ _ L2 I1) as I2. rewrite <- (log_rs _ _ L2) in *.
  apply wp_bind. unfold wp at 1, set_plan_id. apply wp_bind. wp_set. apply wp_ret.
  pose proof (ki_plan_count _ I2) as Hcnt.
  destruct I2 as [? ? [] [] ? ? ? ? Hids ? ? ?]. unfold targets_of in *.
  assert (u32 (Z.of_nat (length (rs_plan_names (c_rs c2) ++ [name]))) = n + 1) as En
    by (rewrite length_app, Nat2Z.inj_add, <- En0; apply wrap_id; split; simpl; lia).
  split; try done; cbn [c_rs c_plan_ids add_plan rs_plans rs_plan_count rs_plan_names].
  - by rewrite length_insert.
  - by apply Forall_insert.
  - rewrite En, length_app, Nat2Z.inj_add, <- En0. simpl. lia.
  - rewrite En. unfold kMaxPlans. lia.
  - intros nm' id. rewrite lookup_insert. case_decide; [|by apply Hids].
    intros [= <-]. unfold kMaxPlans. lia.
Qed.

Lemma load_plans_inv n c : compiler_inv c -> wp (load_plans n) (fun _ c' => compiler_inv c') c.
Proof.
  intros I. unfold load_plans. destruct n as [[| | |l [|x its]]|]; try by apply inv_err.
  apply inv_loop; [done|]. intros. by apply load_plan_inv.
Qed.

Lemma collect_keys_ok its m1 m2 conv c :
  wp (collect_keys its m1 m2 conv)
    (fun ks c' => (length ks <= length its)%nat /\ log_step c c') c.
Proof.
  revert c. induction its as [|item its IH]; intros c; cbn [collect_keys].
  { apply wp_ret. split; [done|apply log_refl]. }
  apply wp_bind. eapply wp_mono with (Q := fun k c1 => (length k <= 1)%nat /\ log_step c c1).
  { destruct (negb _); [eapply wp_mono; [apply wp_err_ret|]; intros k c1 (-> & L & _); split; [simpl; lia|done]|].
    destruct (conv (scalar item)); [apply wp_ret; split; [done|apply log_refl]|].
    eapply wp_mono; [apply wp_err_ret|]. intros k c1 (-> & L & _). split; [simpl; lia|done]. }
  intros k c1 [Hk L1]. apply wp_bind. eapply wp_mono; [apply IH|]. intros ks c2 [Hks L2].
  apply wp_ret. split; [rewrite length_app; simpl; lia|by eapply log_trans].
Qed.

Lemma rebuild_set_ok keys c : Z.of_nat (length keys) < 2 ^ 61 ->
  wp (rebuild_set keys) (fun s c' => (exists X, fs_holds s X) /\ c' = c) c.
Proof.
  intros H. destruct (rebuild_holds keys H) as (s & E & Hs & _).
  unfold wp, rebuild_set. rewrite E. eauto.
Qed.

Lemma set_sets_inv c P B (p b : FlatSet64) : compiler_inv c -> fs_holds p P -> fs_holds b B ->
  compiler_inv (mkCompiler (set_blocklist b (set_partners p (c_rs c))) (c_errors c) (c_warnings c)
    (c_plan_ids c) (c_redirect_ids c) (c_seen_rule_ids c)).
Proof.
  intros [? ? [] [] ? ? ? ? ? ? ? ?] HP HB. split; simpl; auto; [eauto|by split..].
Qed.

Lemma load_roaming_partners_inv n c : compiler_inv c ->
  (forall l its, n = Some (kSeq l its) -> Z.of_nat (length its) < 2 ^ 61) ->
  wp (load_roaming_partners n) (fun _ c' => compiler_inv c') c.
Proof.
  intros I Hn. unfold load_roaming_partners. destruct n as [[| | |l its]|];
    [by apply inv_err..| |by apply wp_ret].
  apply wp_bind. eapply wp_mono; [apply collect_keys_ok|]. intros ks c1 [Hk L1].
  apply wp_bind. eapply wp_mono; [apply rebuild_set_ok; specialize (Hn l its eq_refl); lia|].
  intros s c2 [[X HX] ->]. apply wp_bind. wp_get. wp_set.
  pose proof (log_inv _ _ L1 I) as I1. destruct (ki_sets _ I1) as (P & B & _ & HB).
  exact (set_sets_inv c1 X B s _ I1 HX HB).
Qed.

Lemma imei_lines_length ls : (length (imei_lines ls).1 <= length ls)%nat.
Proof.
  induction ls as [|l ls IH]; simpl; [done|]. destruct (imei_lines ls) as [keys bad]. simpl in *.
  repeat case_match; simpl in *; simplify_eq; simpl in *; lia.
Qed.

Lemma load_imei_blocklist_inv files n c : compiler_inv c ->
  (forall l its, n = Some (kSeq l its) -> Z.of_nat (length its) < 2 ^ 61) ->
  (forall path ls, files path = Some ls -> Z.of_nat (length ls) < 2 ^ 61) ->
  wp (load_imei_blocklist files n) (fun _ c' => compiler_inv c') c.
Proof.
  intros I Hn Hf. unfold load_imei_blocklist.
  assert (forall keys c1, compiler_inv c1 -> Z.of_nat (length keys) < 2 ^ 61 ->
    wp (let* s := rebuild_set keys in let* rs := get_rs in set_rs (set_blocklist s rs))
      (fun _ c' => compiler_inv c') c1) as Store.
  { intros keys c1 I1 Hk. apply wp_bind. eapply wp_mono; [by apply rebuild_set_ok|].
    intros s c2 [[X HX] ->]. apply wp_bind. wp_get. wp_set.
    destruct (ki_sets _ I1) as (P & B & HP & _). exact (set_sets_inv c1 P X _ s I1 HP HX). }
  destruct n as [[|line path| |l its]|]; [by apply inv_err| |by apply inv_err| |by apply wp_ret].
  - apply wp_bind. unfold load_imei_file. destruct (files path) as [ls|] eqn:E.
    + pose proof (imei_lines_length ls). specialize (Hf _ _ E).
      destruct (imei_lines ls) as [keys bad]. simpl in *. apply wp_bind.
      eapply wp_mono with (Q := fun _ c1 => log_step c c1).
      { destruct (negb _); [|apply wp_ret, log_refl]. eapply wp_mono; [apply wp_warn|]. by intros [] c1 []. }
      intros [] c1 L1. apply wp_ret. apply Store; [by eapply log_inv|lia].
    + eapply wp_mono; [apply wp_err_ret|]. intros ks c1 (-> & L1 & _).
      apply Store; [by eapply log_inv|simpl; lia].
  - apply wp_bind. eapply wp_mono; [apply collect_keys_ok|]. intros ks c1 [Hk L1].
    apply Store; [by eapply log_inv|]. specialize (Hn l its eq_refl). lia.
Qed.

(** ** Rules *)

Lemma resolve_plans_ok its ok out c : fits 32 out ->
  wp (resolve_plans its ok out) (fun r c' => fits 32 r.2 /\ log_step c c' /\
    (r.1 = false -> ok = true -> c_errors c' <> [])) c.
Proof.
  revert ok out c. induction its as [|item its IH]; intros ok out c Ho; cbn [resolve_plans].
  { apply wp_ret. split; [done|]. split; [apply log_refl|]. simpl. by intros ->. }
  apply wp_bind. eapply wp_mono with (Q := fun r c1 => log_step c c1 /\
    match r with Some b => fits 32 b | None => c_errors c1 <> [] end).
  { unfold resolve_plan. destruct (negb _);
      [eapply wp_mono; [apply wp_err_ret|]; by intros r c1 (-> & ? & ?)|].
    apply wp_bind. change (wp get_plan_ids ?Q c) with (Q (c_plan_ids c) c). cbn beta.
    destruct (c_plan_ids c !! scalar item).
    - apply wp_ret. split; [apply log_refl|by apply wrap_fits].
    - eapply wp_mono; [apply wp_err_ret|]; by intros r c1 (-> & ? & ?). }
  intros [b|] c1 [L1 H1].
  - eapply wp_mono; [apply IH; by apply fits_lor|]. intros r c2 (? & L2 & ?).
    split; [done|]. split; [by eapply log_trans|done].
  - eapply wp_mono; [by apply IH|]. intros r c2 (? & L2 & _).
    split; [done|]. split; [by eapply log_trans|]. intros _ _ E. by apply H1, (log_errors _ _ L2).
Qed.

Lemma resolve_plan_mask_ok n c :
  wp (resolve_plan_mask n 0) (fun r c' => fits 32 r.2 /\ log_step c c' /\
    (r.1 = false -> c_errors c' <> [])) c.
Proof.
  assert (fits 32 0) as F by (by apply fits_0).
  assert (forall its, wp (resolve_plans its true 0) (fun r c' => fits 32 r.2 /\ log_step c c' /\
    (r.1 = false -> c_errors c' <> [])) c) as K.
  { intros its. eapply wp_mono; [by apply resolve_plans_ok|]. intros r c' (? & ? & ?). auto. }
  destruct n; cbn [resolve_plan_mask]; try apply K;
    (eapply wp_mono; [apply wp_err_ret|]; by intros r c1 (-> & ? & ?)).
Qed.

Lemma compile_when_ok n rid c : tables_ok (c_rs c) ->
  wp (compile_when n rid [(0, 0)]) (fun r c' => when_step c c' /\
    (r.1 = false -> c_errors c' <> []) /\ (r.1 = true -> Forall pair_ok r.2)) c.
Proof.
  intros T. unfold compile_when. destruct (negb _).
  { eapply wp_mono; [apply wp_err_ret|]. intros r c' (-> & L & He). split; [by apply log_when|by split]. }
  eapply wp_mono; [by apply compile_entries_ok|]. intros r c' (W & Hf & Hk). split; [done|].
  split; [done|]. intros E. destruct (Hk E) as (conds & _ & Hb & ->).
  apply fold_pair_ok; [done|]. destruct exact_start as [H _].
  eapply Forall_impl; [done|]. by intros mv [].
Qed.

Lemma initial_action_inv t : action_inv t initial_action.
Proof. split; [split|..]; simpl; try (by vm_compute); [lia..|by left]. Qed.

Lemma push_rules_inv item rid prio pm ms a c : compiler_inv c -> 1 <= rid < 2 ^ 32 ->
  fits 32 prio -> fits 32 pm -> Forall pair_ok ms -> action_inv (targets_of c) a ->
  redirect_named a -> wp (push_rules item rid prio pm ms a) (fun _ c' => compiler_inv c') c.
Proof.
  intros I Hr Hp Hm Hms Ha Hn. unfold push_rules. apply wp_bind. wp_get.
  destruct (_ <? _); [by apply inv_err_ret|]. apply wp_bind. wp_set. apply wp_ret.
  destruct I as [? ? [] [] ? ? ? ? ? Hrules ? ?]. split; simpl; auto; [by split..|].
  apply Forall_app. split; [done|]. apply Forall_map. eapply Forall_impl; [done|].
  intros [mask value] Hpair. by split.
Qed.

(** An optional step of [load_rule]: on failure the loop goes on. *)
Lemma opt_step_ok {S} (n : option Node) (f : Node -> Step S) a (Q : bool * S -> Compiler -> Prop) c :
  Q (true, a) c -> (forall n, wp (f n a) Q c) -> wp (opt_step n f a) Q c.
Proof. intros H0 H1. destruct n; [apply H1|by apply wp_ret]. Qed.

Lemma load_rule_inv item c : compiler_inv c -> wp (load_rule item) (fun _ c' => compiler_inv c') c.
Proof.
  intros I. unfold load_rule. destruct (negb _); [by apply inv_err_ret|].
  apply wp_bind. eapply wp_mono; [apply check_unknown_keys_log|]. intros [] c1 L1.
  apply (log_inv _ _ L1) in I. clear L1 c. rename c1 into c.
  destruct (find_uint item "id") as [rid|] eqn:Eid; [|by apply inv_err_ret].
  destruct ((rid =? 0) || _) eqn:Er; [by apply inv_err_ret|]. bool_to_prop.
  assert (0 <= rid) as Hrid.
  { unfold find_uint in Eid. destruct (Yaml.find item "id"); [|done]. apply as_uint_range in Eid. lia. }
  apply wp_bind. unfold wp at 1, insert_rule_id. cbn beta.
  match goal with |- wp _ _ ?x => assert (compiler_inv x) as I1 by (destruct I as [? ? [] [] ? ? ? ? ? ? ? ?]; split; auto; by split) end.
  destruct (negb _); [by apply inv_err_ret|]. generalize dependent I1.
  match goal with |- compiler_inv ?x -> _ => generalize x end. clear c I. intros c I.
  destruct (find_uint item "priority") as [prio|] eqn:Eprio; [|by apply inv_err_ret].
  destruct (Z.ltb_spec 0xFFFFFFFF prio); [by apply inv_err_ret|].
  assert (0 <= prio) as Hprio.
  { unfold find_uint in Eprio. destruct (Yaml.find item "priority"); [|done]. apply as_uint_range in Eprio. lia. }
  apply wp_bind. eapply wp_mono.
  { apply (opt_step_ok _ _ _ (fun r c' => fits 32 r.2 /\ log_step c c' /\ (r.1 = false -> c_errors c' <> [])));
      [split; [by apply fits_0|split; [apply log_refl|done]]|]. intros. apply resolve_plan_mask_ok. }
  intros [ok pm] c1 (Hpm & L1 & _). cbn [fst snd] in *. pose proof (log_inv _ _ L1 I) as I1.
  destruct ok; cbn [negb]; [|by apply wp_ret].
  apply wp_bind. eapply wp_mono.
  { apply (opt_step_ok _ _ _ (fun r c' => when_step c1 c' /\ (r.1 = false -> c_errors c' <> []) /\
      (r.1 = true -> Forall pair_ok r.2))).
    - split; [apply when_refl|]. split; [done|]. intros _. destruct exact_start as [E _].
      eapply Forall_impl; [done|]. by intros mv [].
    - intros. apply compile_when_ok, (ki_tables _ I1). }
  intros [okw ms] c2 (W2 & _ & Hms). cbn [fst snd] in *. pose proof (when_inv _ _ W2 I1) as I2.
  destruct okw; cbn [negb]; [|by apply wp_ret].
  destruct (Yaml.find item "action") as [act|]; [|by apply inv_err_ret].
  apply wp_bind. eapply wp_mono.
  { apply parse_action_ok; [apply (ki_redirects _ I2)|apply initial_action_inv]. }
  intros [oka a] c3 (L3 & Ha & _ & Hn). cbn [fst snd] in *. pose proof (log_inv _ _ L3 I2) as I3.
  destruct oka; cbn [negb]; [|by apply wp_ret].
  apply push_rules_inv; auto; [lia|split; lia|]. by rewrite (log_targets _ _ L3).
Qed.

Lemma load_rules_inv n c : compiler_inv c -> wp (load_rules n) (fun _ c' => compiler_inv c') c.
Proof.
  intros I. unfold load_rules. destruct n as [[| | |l its]|]; try by apply inv_err.
  apply inv_loop; [done|]. intros. by apply load_rule_inv.
Qed.

Lemma default_action_inv d c : compiler_inv c ->
  wp (let* r := parse_action d default_deny_action in
      let* rs := get_rs in set_rs (set_default_action r.2 rs)) (fun _ c' => compiler_inv c') c.
Proof.
  intros I. apply wp_bind. eapply wp_mono.
  { apply parse_action_ok; [apply (ki_redirects _ I)|].
    split; [split|..]; simpl; try (by vm_compute); [lia..|by left]. }
  intros [ok a] c1 (L1 & Ha & Hf & Hn). cbn [fst snd] in *. apply wp_bind. wp_get. wp_set.
  pose proof (log_inv _ _ L1 I) as I1. rewrite <- (log_targets _ _ L1) in Ha.
  destruct I1 as [? ? [] [] ? ? ? ? ? ? _ _]. split; simpl; auto; [by split..|].
  intros E. apply Hn. destruct ok; [done|]. by apply Hf in E.
Qed.

(** A document whose lists fit in memory; [files] likewise. *)
Record small_doc (files : string -> option (list string)) (root : Node) : Prop := {
  sd_partners : forall l its, Yaml.find root "roaming_partners" = Some (kSeq l its) ->
    Z.of_nat (length its) < 2 ^ 61;
  sd_imeis : forall l its, Yaml.find root "imei_blocklist" = Some (kSeq l its) ->
    Z.of_nat (length its) < 2 ^ 61;
  sd_files : forall path ls, files path = Some ls -> Z.of_nat (length ls) < 2 ^ 61 }.

Lemma compile_root_inv files root c : small_doc files root -> compiler_inv c -> targets_of c = 0 ->
  wp (compile_root files root) (fun _ c' => compiler_inv c') c.
Proof.
  intros Hs I Ht. unfold compile_root.
  apply wp_bind. eapply wp_mono; [apply check_unknown_keys_log|]. intros [] c1 L1.
  apply (log_inv _ _ L1) in I. rewrite <- (log_targets _ _ L1) in Ht. clear L1 c.
  apply wp_bind. eapply wp_mono; [by apply load_dnns_inv|]. intros [] c2 [I2 Ht2].
  apply wp_bind. eapply wp_mono; [by apply load_redirects_inv|]. intros [] c3 I3. cbn beta in I3.
  apply wp_bind. eapply wp_mono; [by apply load_plans_inv|]. intros [] c4 I4. cbn beta in I4.
  apply wp_bind. eapply wp_mono; [apply load_roaming_partners_inv; [done|apply Hs]|].
  intros [] c5 I5. cbn beta in I5.
  apply wp_bind. eapply wp_mono; [apply load_imei_blocklist_inv; [done|apply Hs..]|].
  intros [] c6 I6. cbn beta in I6.
  apply wp_bind. eapply wp_mono with (Q := fun _ c' => compiler_inv c').
  { destruct (Yaml.find root "default_action"); [by apply default_action_inv|by apply wp_ret]. }
  intros [] c7 I7. cbn beta in I7. by apply load_rules_inv.
Qed.

Lemma initial_inv now text path version : fits 32 version ->
  compiler_inv (initial_compiler now text path version) /\
  targets_of (initial_compiler now text path version) = 0.
Proof.
  intros Hv. split; [|done].
  split; cbn [c_rs initial_compiler initial_rule_set rs_version rs_roaming_partners rs_imei_blocklist
    rs_plans rs_plan_count rs_plan_names rs_rules rs_default_action c_plan_ids]; auto.
  - exists ∅, ∅. split; apply fs_empty_holds.
  - split; simpl; try done; [repeat constructor; by vm_compute|].
    repeat constructor; by vm_compute.
  - split; [by vm_compute|]. intros name id. simpl. by rewrite lookup_empty.
  - repeat constructor; by vm_compute.
  - done.
  - intros name id. by rewrite lookup_empty.
  - split; [split|..]; simpl; try (by vm_compute); [lia..|by left].
  - done.
Qed.

(** ** Order and shadowing *)

Definition prio_le (a b : CompiledRule) : Prop := r_priority a <= r_priority b.

Lemma insert_rule_perm r l : insert_rule r l ≡ₚ r :: l.
Proof.
  induction l as [|x l IH]; simpl; [done|]. destruct (_ <? _); [|done].
  rewrite IH. by apply Permutation_swap.
Qed.

Lemma insert_rule_sorted r l : StronglySorted prio_le l -> StronglySorted prio_le (insert_rule r l).
Proof.
  induction 1 as [|x l Hs IH Hx]; simpl; [by repeat constructor|].
  destruct (Z.ltb_spec (r_priority x) (r_priority r)).
  - constructor; [done|]. rewrite insert_rule_perm. constructor; [unfold prio_le; lia|done].
  - constructor; [by constructor|]. constructor; [done|].
    eapply Forall_impl; [done|]. unfold prio_le. intros y Hy. lia.
Qed.

Lemma insert_rule_filter p r l : StronglySorted prio_le l ->
  List.filter (fun x => r_priority x =? p) (insert_rule r l) =
  List.filter (fun x => r_priority x =? p) (r :: l).
Proof.
  induction 1 as [|x l Hs IH Hx]; simpl; [done|].
  destruct (Z.ltb_spec (r_priority x) (r_priority r)); [|done]. simpl. rewrite IH. simpl.
  destruct (Z.eqb_spec (r_priority x) p), (Z.eqb_spec (r_priority r) p); try done; lia.
Qed.

Lemma stable_sort_sorted l : StronglySorted prio_le (stable_sort l).
Proof. induction l; simpl; [constructor|by apply insert_rule_sorted]. Qed.
Lemma stable_sort_perm l : stable_sort l ≡ₚ l.
Proof. induction l; simpl; [done|]. by rewrite insert_rule_perm, IHl. Qed.

(** The rules are ordered by priority and rules of equal priority keep the
    order of the file; no rule is lost or duplicated. *)
Theorem stable_sort_spec l :
  stable_sort l ≡ₚ l /\
  StronglySorted (fun a b => r_priority a <= r_priority b) (stable_sort l) /\
  forall p, List.filter (fun r => r_priority r =? p) (stable_sort l) =
            List.filter (fun r => r_priority r =? p) l.
Proof.
  split; [apply stable_sort_perm|]. split; [apply stable_sort_sorted|].
  intros p. induction l as [|r l IH]; [done|].
  change (stable_sort (r :: l)) with (insert_rule r (stable_sort l)).
  rewrite insert_rule_filter by apply stable_sort_sorted. cbn [List.filter]. by rewrite IH.
Qed.

Lemma shadows_matches a b f pb : shadows a b = true ->
  rule_matches f pb b = true -> rule_matches f pb a = true.
Proof.
  unfold shadows, rule_matches. intros H Hb. bool_to_prop.
  apply andb_true_iff. split.
  - apply Z.eqb_eq.
    match goal with H1 : Z.land (r_match_mask b) _ = _, H2 : Z.land (r_match_value b) _ = _,
                    H3 : Z.land f _ = _ |- _ =>
      rewrite <- H1 at 1; rewrite Z.land_assoc, H3; exact H2 end.
  - apply negb_true_iff. destruct (Z.eqb_spec (r_plan_mask a) 0); [done|]. simpl.
    destruct (Z.eqb_spec (r_plan_mask b) 0); [done|]. simpl in *.
    destruct (Z.eqb_spec (Z.ldiff (r_plan_mask b) (r_plan_mask a)) 0) as [E|]; [|done].
    destruct (Z.eqb_spec (Z.land (r_plan_mask b) pb) 0) as [|Hne]; [done|].
    apply Z.eqb_neq. intros E0. apply Hne. apply Z.bits_inj'. intros i Hi.
    rewrite Z.bits_0, Z.land_spec.
    apply (f_equal (fun z => Z.testbit z i)) in E, E0.
    rewrite Z.bits_0, Z.ldiff_spec in E. rewrite Z.bits_0, Z.land_spec in E0.
    destruct (Z.testbit (r_plan_mask b) i), (Z.testbit (r_plan_mask a) i), (Z.testbit pb i); done.
Qed.

Lemma shadow_pairs_spec before rest a b : (a, b) ∈ shadow_pairs before rest ->
  shadows a b = true /\ exists mid post, rest = mid ++ b :: post /\ a ∈ before ++ mid.
Proof.
  revert before. induction rest as [|x rest IH]; intros before; cbn [shadow_pairs].
  { intros H. by apply elem_of_nil in H. }
  assert ((a, b) ∈ shadow_pairs (before ++ [x]) rest ->
    shadows a b = true /\ exists mid post, x :: rest = mid ++ b :: post /\ a ∈ before ++ mid) as K.
  { intros H. apply IH in H as (Hs & mid & post & -> & Hin). split; [done|].
    exists (x :: mid), post. split; [done|]. by rewrite <- app_assoc in Hin. }
  destruct (list_find _ before) as [[i y]|] eqn:F; [|done].
  intros H. apply elem_of_cons in H as [[= -> ->]|H]; [|by apply K].
  apply list_find_Some in F as (Fl & Fs & _). split; [done|]. exists [], rest.
  split; [done|]. rewrite app_nil_r. by eapply list_elem_of_lookup_2.
Qed.

(** The shadow lint is sound for compiled rules: when it reports a pair, the
    second rule stands behind the first in the table and whatever it matches, the
    first matches too; so the scan never stops at it. *)
Theorem shadow_lint_sound rules a b f pb : (a, b) ∈ shadow_pairs [] rules ->
  (rule_matches f pb b = true -> rule_matches f pb a = true) /\
  exists pre mid post, rules = pre ++ a :: mid ++ b :: post.
Proof.
  intros H. apply shadow_pairs_spec in H as (Hs & mid & post & -> & Hin).
  split; [by apply shadows_matches|]. simpl in Hin.
  apply list_elem_of_split in Hin as (l1 & l2 & ->). exists l1, l2, post. by rewrite <- app_assoc.
Qed.

Lemma shadow_lint_sound_witness :
  let a := mkRule 1 1 0 1 10 zero_action in
  let b := mkRule 3 1 0 2 20 zero_action in
  (a, b) ∈ shadow_pairs [] [a; b] /\ (rule_matches 1 0 b = true -> rule_matches 1 0 a = true).
Proof.
  split; [by vm_compute; left|].
  apply (shadow_lint_sound [mkRule 1 1 0 1 10 zero_action; mkRule 3 1 0 2 20 zero_action]
    (mkRule 1 1 0 1 10 zero_action) (mkRule 3 1 0 2 20 zero_action) 1 0). by vm_compute; left.
Defined.

(** ** The whole compilation *)

Lemma sort_and_check_ok c : compiler_inv c ->
  wp sort_and_check (fun _ c' => compiler_inv c' /\ c_errors c' = c_errors c /\
    rs_rules (c_rs c') = stable_sort (rs_rules (c_rs c))) c.
Proof.
  intros I. unfold sort_and_check. apply wp_bind. wp_get. apply wp_bind. wp_set.
  set (rules := stable_sort (rs_rules (c_rs c))). set (c1 := mkCompiler _ _ _ _ _ _).
  assert (compiler_inv c1) as I1.
  { destruct I as [? ? [] [] ? ? ? ? ? ? ? ?]. split; simpl; auto; [by split..|].
    unfold targets_of in *. unfold rules. simpl. rewrite stable_sort_perm. done. }
  set (R := fun c c' : Compiler => log_step c c' /\ c_errors c' = c_errors c).
  assert (forall c, R c c) as Rr by (split; [apply log_refl|done]).
  assert (forall x y z, R x y -> R y z -> R x z) as Rt.
  { intros x y z [? ?] [? ?]. split; [by eapply log_trans|congruence]. }
  apply wp_bind. eapply wp_mono; [apply (wp_for_each R); [done|done|]|].
  { intros [a b] c2 _. apply wp_warn. }
  intros [] c2 H2. cbn beta in H2.
  assert (forall c', R c1 c' -> compiler_inv c' /\ c_errors c' = c_errors c /\
    rs_rules (c_rs c') = rules) as Fin.
  { intros c' [L E]. split; [by eapply log_inv|]. split; [done|]. by rewrite (log_rs _ _ L). }
  destruct rules eqn:Er; [|apply wp_ret; auto].
  eapply wp_mono; [apply wp_warn|]. intros [] c3 H3. apply Fin. by eapply Rt.
Qed.

(** What the compiler promises of a rule set it returns. *)
Record compiled_ok (rs : RuleSet) : Prop := {
  co_engine : exists partners blocked, rule_set_ok rs partners blocked;
  co_sorted : StronglySorted prio_le (rs_rules rs);
  co_rules : Forall (rule_inv (Z.of_nat (length (rs_redirect_targets rs)))) (rs_rules rs);
  co_default : redirect_named (rs_default_action rs);
  co_default_action : action_inv (Z.of_nat (length (rs_redirect_targets rs))) (rs_default_action rs);
  co_windows : Forall (fun w => 0 <= w_start_minute w < 1440 /\ 0 <= w_end_minute w < 1440)
    (rs_time_windows rs);
  co_plan_names : rs_plan_count rs = Z.of_nat (length (rs_plan_names rs));
  co_dnn_names : Z.of_nat (length (rs_dnn_names rs)) <= kMaxDnns }.

Lemma inv_rule_set_ok c : compiler_inv c -> exists P B, rule_set_ok (c_rs c) P B.
Proof.
  intros [(P & B & HP & HB) ? T ? Hl Hp Hc Hm _ Hr Hd _]. exists P, B.
  split; auto; try apply T.
  - eapply Forall_impl; [done|]. intros r [(H1 & H2 & _) ? [? ?] ? [] ?].
    split; [by eapply fits_le; [|done]; lia..|done|split; lia|done].
  - rewrite Hl. done.
  - rewrite Hc. lia.
  - apply Hd.
Qed.

(** Every section of the document is read: the compiler is total on documents
    whose lists fit in memory, and the state it ends in keeps the invariant. *)
Lemma compile_rules_cases files now text path version : fits 32 version ->
  (forall parsed, parse text = Some parsed -> small_doc files (root parsed)) ->
  exists r, compile_rules files now text path version = Some r /\
    ((cr_rule_set r = None /\ cr_errors r <> []) \/
     exists rs, cr_rule_set r = Some rs /\ cr_errors r = [] /\ compiled_ok rs).
Proof.
  intros Hv Hs. unfold compile_rules.
  destruct (parse_returns text) as (parsed & Hp & _). rewrite Hp.
  destruct (result_ok parsed); simpl; [|by eexists; split; [done|left]].
  destruct (is_map (root parsed)); simpl; [|by eexists; split; [done|left]].
  destruct (initial_inv now text path version Hv) as [I0 T0].
  pose proof (compile_root_inv files _ _ (Hs _ Hp) I0 T0) as W. unfold wp in W.
  destruct (compile_root _ _ _) as [[[] c]|]; [|done].
  destruct (c_errors c) eqn:Ee; [|by eexists; split; [done|left]].
  pose proof (sort_and_check_ok c W) as W2. unfold wp in W2.
  destruct (sort_and_check c) as [[[] c']|]; [|done]. destruct W2 as (I' & Ee' & Er).
  rewrite Ee in Ee'. eexists. split; [done|]. right. exists (c_rs c'). split; [done|].
  split; [done|]. split; [by apply inv_rule_set_ok|rewrite Er; apply stable_sort_sorted|..];
    destruct I'; auto; [by apply tb_window_range|by apply tb_dnns].
Qed.

(** C21: Compilation is total: on every document whose lists fit in memory
    [compile_rules] returns, and it hands out a rule set exactly when it reports no
    error, so a failed reload never replaces the active rule set by a partial one. *)
Theorem compile_rules_total files now text path version : fits 32 version ->
  (forall parsed, parse text = Some parsed -> small_doc files (root parsed)) ->
  exists r, compile_rules files now text path version = Some r /\
    (is_Some (cr_rule_set r) <-> cr_errors r = []).
Proof.
  intros Hv Hs. destruct (compile_rules_cases files now text path version Hv Hs)
    as (r & E & [[Hn He]|(rs & Hr & He & _)]); exists r; (split; [done|]).
  - rewrite Hn. split; [by intros []|done].
  - rewrite Hr. split; [done|]. by eexists.
Qed.

(** C20: What the compiler accepts is well formed: the rule set meets what the
    decision engine relies on (widths, table sizes, set invariants), its rules are
    in priority order with masks below the subscriber-independent bound, and a rule
    or default action with verdict REDIRECT names an existing redirect target. *)
Theorem compile_rules_wf files now text path version r rs : fits 32 version ->
  (forall parsed, parse text = Some parsed -> small_doc files (root parsed)) ->
  compile_rules files now text path version = Some r -> cr_rule_set r = Some rs ->
  compiled_ok rs.
Proof.
  intros Hv Hs E Hr. destruct (compile_rules_cases files now text path version Hv Hs)
    as (r' & E' & [[Hn _]|(rs' & Hr' & _ & Hok)]); naive_solver.
Qed.

(** The answer a well-formed rule set gives. *)
Record meaningful (rs : RuleSet) (d : PolicyDecision) : Prop := {
  mf_verdict : 0 <= d_verdict d <= 2;
  mf_reason : 0 <= d_reason d < kReasonCount;
  mf_rule : d_rule_id d = 0 \/ exists rule, rule ∈ rs_rules rs /\ d_rule_id d = r_id rule;
  mf_redirect : d_verdict d = verdict_code kRedirect ->
    0 < d_redirect_id d < Z.of_nat (length (rs_redirect_targets rs));
  mf_version : d_policy_version d = rs_version rs }.

Lemma compiled_decision t rs req rec : compiled_ok rs -> request_ok req ->
  (forall x, rec = Some x -> record_ok x) ->
  exists d, evaluate t rs req rec = Some d /\ meaningful rs d.
Proof.
  intros [(P & B & R) _ Hrules Hdef Hinv _ _ _] HQ HC.
  destruct (build_features_spec t _ P B req rec R HQ HC) as (f & Ef & _).
  unfold evaluate. rewrite Ef. eexists. split; [done|].
  pose proof (scan_spec f (plan_bit_for rec) (rs_rules rs)) as S.
  rewrite Forall_forall in Hrules.
  destruct (scan _ _ _) as [rule|];
    (split; cbn [d_verdict d_reason d_rule_id d_redirect_id d_policy_version decide_action]; [..|done]).
  1-4: destruct S as (pre & post & Erules & _ & _);
    assert (rule ∈ rs_rules rs) as Hin by (rewrite Erules; set_solver);
    destruct (Hrules _ Hin) as [_ _ _ _ [_ ? ? _ _ Hred] Hnamed]; try done.
  - by right; exists rule.
  - intros Hv'. apply Hnamed in Hv'. lia.
  - apply Hinv.
  - done.
  - by left.
  - destruct Hinv as [_ ? ? _ _ Hred]. intros Hv'. apply Hdef in Hv'. lia.
Qed.

(** C19: From rule file to answer: a decision taken with a rule set that the
    compiler accepted has a defined verdict and reason, names either no rule or a
    rule of the file, a REDIRECT points into the redirect table, and the
    decision carries the version of the rule set. *)
Theorem compiled_decision_meaningful files now text path version r rs t req rec :
  fits 32 version ->
  (forall parsed, parse text = Some parsed -> small_doc files (root parsed)) ->
  compile_rules files now text path version = Some r -> cr_rule_set r = Some rs ->
  request_ok req -> (forall x, rec = Some x -> record_ok x) ->
  exists d, evaluate t rs req rec = Some d /\ meaningful rs d.
Proof.
  intros Hv Hs E Hr HQ HC.
  destruct (compile_rules_cases files now text path version Hv Hs)
    as (r' & E' & [[Hn _]|(rs' & Hr' & _ & Hok)]); [naive_solver|].
  assert (rs' = rs) as -> by naive_solver. by apply compiled_decision.
Qed.

(** ** A sample document *)

Definition text_of (l : list string) : string :=
  fold_right (fun a b => a +:+ endl +:+ b)%string EmptyString l.
Definition no_files (path : string) : option (list string) := None.

(** Rule 1 denies LTE; rule 2 allows LTE and NR, so of its two expansions only
    the LTE one stands behind rule 1. *)
Definition sample_doc : string := text_of
  ["version: 1"; "dnns: [internet, ims]"; "plans:"; "  - name: gold"; "    qos_5qi: 8"; "    arp: 5";
   "    quota: 20GB"; "    quota_validity: 30d"; "    ambr_ul: 10Mbps"; "    ambr_dl: 50Mbps"; "rules:";
   "  - id: 1"; "    priority: 10"; "    when: {rat: LTE}";
   "    action: {verdict: DENY, reason: RAT_NOT_ALLOWED}";
   "  - id: 2"; "    priority: 20"; "    when:"; "      rat: [LTE, NR]";
   "    action: {verdict: ALLOW}"]%string.

Definition sample_result : RuleCompileResult :=
  Eval vm_compute in
    match compile_rules no_files 0 sample_doc "rules.yaml" 3 with
    | Some r => r | None => mkCompileResult None [] [] end.
Definition sample_compiled : RuleSet :=
  match cr_rule_set sample_result with Some rs => rs | None => empty_rule_set 0 end.

Lemma sample_small parsed : parse sample_doc = Some parsed -> small_doc no_files (root parsed).
Proof.
  intros E. assert (Some parsed = parse sample_doc) as H by done. vm_compute in H.
  injection H as ->. by split.
Qed.
Lemma sample_compiles : compile_rules no_files 0 sample_doc "rules.yaml" 3 = Some sample_result.
Proof. by vm_compute. Qed.

Lemma compile_rules_total_witness : exists r,
  compile_rules no_files 0 sample_doc "rules.yaml" 3 = Some r /\
  (is_Some (cr_rule_set r) <-> cr_errors r = []).
Proof.
  apply (compile_rules_total no_files 0 sample_doc "rules.yaml" 3 ltac:(by vm_compute) sample_small).
Defined.

Lemma compile_rules_wf_witness : cr_rule_set sample_result = Some sample_compiled /\
  compiled_ok sample_compiled.
Proof.
  split; [by vm_compute|].
  apply (compile_rules_wf no_files 0 sample_doc "rules.yaml" 3 sample_result sample_compiled
    ltac:(by vm_compute) sample_small sample_compiles). by vm_compute.
Defined.

Lemma compiled_decision_meaningful_witness : exists d,
  evaluate 0 sample_compiled sample_query (Some sample_record) = Some d /\ 0 <= d_verdict d <= 2.
Proof.
  destruct (compiled_decision_meaningful no_files 0 sample_doc "rules.yaml" 3 sample_result
    sample_compiled 0 sample_query (Some sample_record) ltac:(by vm_compute) sample_small
    sample_compiles ltac:(by vm_compute) sample_query_ok sample_known) as (d & E & [Hv _ _ _ _]).
  by exists d.
Defined.

(** ** Where the compiler and its description part *)

Definition nr_query : PolicyRequest :=
  mkRequest kMagicVersion 42 262011234567890 1 99 0 26201 7 (rat_code kNr) 0 9 0 60 0 0 0.

(** The shadow lint speaks of rules but compares expansions: it warns that
    rule 2 of the sample "can never fire", and rule 2 decides an NR request. *)
Theorem shadow_warning_false_positive :
  cr_warnings sample_result =
    ["rule 2 (priority 20) can never fire: rule 1 (priority 10) always matches first"]%string /\
  exists d, evaluate 0 sample_compiled nr_query (Some sample_record) = Some d /\ d_rule_id d = 2.
Proof. split; [by vm_compute|]. eexists. split; by vm_compute. Qed.

(** A rule that both requires and forbids a DNN, next to a plan whose rating
    group does not fit in 32 bits. *)
Definition conflicting_doc : string := text_of
  ["version: 1"; "dnns: [internet, ims]"; "plans:"; "  - name: gold"; "    rating_group: 4294967297";
   "    qos_5qi: 8"; "    arp: 5"; "    quota: 20GB"; "    quota_validity: 30d";
   "    ambr_ul: 10Mbps"; "    ambr_dl: 50Mbps"; "rules:"; "  - id: 7"; "    priority: 10";
   "    when: {dnn: internet, not_dnn: internet}"; "    action: {verdict: ALLOW}"]%string.

Definition conflicting_result : RuleCompileResult :=
  Eval vm_compute in
    match compile_rules no_files 0 conflicting_doc "rules.yaml" 1 with
    | Some r => r | None => mkCompileResult None [] [] end.
Definition conflicting_compiled : RuleSet :=
  match cr_rule_set conflicting_result with Some rs => rs | None => empty_rule_set 0 end.
Definition internet_query : PolicyRequest :=
  mkRequest kMagicVersion 42 262011234567890 1 99 0 26201 7 (rat_code kNr) 0 9 0 60 0 0 0.

(** A condition that contradicts itself is accepted without an error or a
    warning and compiles to its positive half: the rule fires for the DNN that
    [not_dnn] excludes. *)
Theorem conflicting_condition_drops_negation :
  compile_rules no_files 0 conflicting_doc "rules.yaml" 1 = Some conflicting_result /\
  cr_rule_set conflicting_result = Some conflicting_compiled /\
  cr_errors conflicting_result = [] /\ cr_warnings conflicting_result = [] /\
  rs_dnn_names conflicting_compiled = ["internet"; "ims"]%string /\
  exists d, evaluate 0 conflicting_compiled internet_query None = Some d /\ d_rule_id d = 7.
Proof. do 5 (split; [by vm_compute|]). eexists. split; by vm_compute. Qed.

(** The rating group of a plan is cut to 32 bits without a range check: the
    document's 4294967297 becomes 1 and nothing is reported. *)
Theorem plan_rating_group_truncated :
  compile_rules no_files 0 conflicting_doc "rules.yaml" 1 = Some conflicting_result /\
  cr_rule_set conflicting_result = Some conflicting_compiled /\
  cr_errors conflicting_result = [] /\ cr_warnings conflicting_result = [] /\
  p_rating_group <$> plan conflicting_compiled 0 = Some 1.
Proof. do 4 (split; [by vm_compute|]). by vm_compute. Qed.
