(* ===== verification/Provenance.v ===== *)
(** * Provenance: where a rule set comes from

    A frame argument over the compiler of src/rules.cpp: no member function touches
    the version, the path, the digest or the load time that [Compiler::run] stores
    first, so a compiled rule set identifies the text it was made from. *)

From S2P Require Import Prelude Text Imsi Wire FlatSet Rules Sha256 Yaml Compiler.
From Stdlib Require Import ZArith Lia Bool Ascii String.
From stdpp Require Import base list numbers strings gmap.
Local Open Scope Z_scope.
Local Open Scope compiler_scope.

Definition provenance (rs : RuleSet) : Z * string * string * Z :=
  (rs_version rs, rs_source_path rs, rs_source_sha256 rs, rs_loaded_at_unix_ns rs).

Section Frame.
Context (p : Z * string * string * Z).

(** If [m] returns, the provenance is still [p]. *)
Definition keeps {A} (m : M A) : Prop := forall c a c',
  provenance (c_rs c) = p -> m c = Some (a, c') -> provenance (c_rs c') = p.

Lemma keeps_ret {A} (a : A) : keeps (ret a).
Proof. intros c a' c' H [= _ <-]. done. Qed.
Lemma keeps_bind {A B} (m : M A) (f : A -> M B) : keeps m -> (forall a, keeps (f a)) -> keeps (bind m f).
Proof.
  intros Hm Hf c b c' H E. unfold bind in E. destruct (m c) as [[a c1]|] eqn:E1; [|done].
  eapply Hf; [|done]. by eapply Hm.
Qed.
Lemma keeps_get {B} (f : RuleSet -> M B) : (forall rs, provenance rs = p -> keeps (f rs)) -> keeps (bind get_rs f).
Proof. intros Hf c b c' H E. by eapply (Hf (c_rs c)). Qed.
Lemma keeps_set rs : provenance rs = p -> keeps (set_rs rs).
Proof. by intros H c [] c' _ [= <-]. Qed.
Lemma keeps_err msg line : keeps (err msg line).
Proof. by intros c [] c' H [= <-]. Qed.
Lemma keeps_warn msg : keeps (warn msg).
Proof. by intros c [] c' H [= <-]. Qed.
Lemma keeps_plan_ids : keeps get_plan_ids.
Proof. by intros c m c' H [= <- <-]. Qed.
Lemma keeps_redirect_ids : keeps get_redirect_ids.
Proof. by intros c m c' H [= <- <-]. Qed.
Lemma keeps_set_plan_id name id : keeps (set_plan_id name id).
Proof. by intros c [] c' H [= <-]. Qed.
Lemma keeps_set_redirect_id name id : keeps (set_redirect_id name id).
Proof. by intros c [] c' H [= <-]. Qed.
Lemma keeps_insert_rule_id id : keeps (insert_rule_id id).
Proof. by intros c b c' H [= _ <-]. Qed.
Lemma keeps_rebuild keys : keeps (rebuild_set keys).
Proof. intros c s c' H. unfold rebuild_set. destruct (rebuild keys); [|done]. by intros [= _ <-]. Qed.
Lemma keeps_for_each {A} (l : list A) body : (forall x, keeps (body x)) -> keeps (for_each l body).
Proof. intros Hb. induction l; simpl; [apply keeps_ret|]. by apply keeps_bind. Qed.
Lemma keeps_for_while {A} (l : list A) body : (forall x, keeps (body x)) -> keeps (for_while l body).
Proof.
  intros Hb. induction l; simpl; [apply keeps_ret|]. apply keeps_bind; [done|].
  intros []; [done|apply keeps_ret].
Qed.
Lemma keeps_step_ok {S} (a : S) : keeps (step_ok a).
Proof. apply keeps_ret. Qed.
Lemma keeps_step_fail {S} msg line (a : S) : keeps (step_fail msg line a).
Proof. apply keeps_bind; [apply keeps_err|]. intros. apply keeps_ret. Qed.
Lemma keeps_step_then {S} (s1 s2 : Step S) a :
  (forall a, keeps (s1 a)) -> (forall a, keeps (s2 a)) -> keeps (step_then s1 s2 a).
Proof. intros H1 H2. apply keeps_bind; [done|]. intros r. destruct r.1; [done|apply keeps_ret]. Qed.
Lemma keeps_steps {S A} (l : list A) (body : A -> Step S) a :
  (forall x a, x ∈ l -> keeps (body x a)) -> keeps (steps l body a).
Proof.
  revert a. induction l as [|x l IH]; intros a Hb; simpl; [apply keeps_step_ok|].
  apply keeps_step_then; intros; [apply Hb; left|]. apply IH. intros. apply Hb. by right.
Qed.

Create HintDb frame.
#[local] Hint Resolve keeps_ret keeps_set keeps_err keeps_warn keeps_plan_ids keeps_redirect_ids keeps_set_plan_id
  keeps_set_redirect_id keeps_insert_rule_id keeps_rebuild keeps_step_ok keeps_step_fail : frame.

(** Walk through a computation: binds, loops and case distinctions. *)
Ltac frame := repeat first
  [ progress intros
  | solve [auto with frame]
  | apply keeps_get
  | apply keeps_bind
  | apply keeps_for_each
  | apply keeps_for_while
  | apply keeps_steps
  | apply keeps_step_then
  | match goal with |- keeps (match ?x with _ => _ end) => destruct x end ].

Lemma check_unknown_keys_frame n known : keeps (check_unknown_keys n known).
Proof. unfold check_unknown_keys. frame. Qed.
Lemma opt_field_frame {A} n key (conv : Node -> option A) what dflt : keeps (opt_field n key conv what dflt).
Proof. unfold opt_field. frame. Qed.
Lemma req_5qi_frame n key dflt : keeps (req_5qi n key dflt).
Proof. unfold req_5qi. frame. Qed.
#[local] Hint Resolve check_unknown_keys_frame opt_field_frame req_5qi_frame : frame.

Lemma load_dnns_frame n : keeps (load_dnns n).
Proof. unfold load_dnns, load_dnn. frame. Qed.
Lemma load_redirects_frame n : keeps (load_redirects n).
Proof. unfold load_redirects, load_redirect. frame. Qed.
Lemma load_plans_frame n : keeps (load_plans n).
Proof. unfold load_plans, load_plan, read_plan, req_arp, opt_kbps, opt_bytes, opt_seconds, opt_uint, opt_bool. frame. Qed.

Lemma collect_keys_frame its a b conv : keeps (collect_keys its a b conv).
Proof. induction its; cbn [collect_keys]; frame. Qed.
#[local] Hint Resolve collect_keys_frame : frame.
Lemma load_roaming_partners_frame n : keeps (load_roaming_partners n).
Proof. unfold load_roaming_partners. frame. Qed.
Lemma load_imei_file_frame files path line : keeps (load_imei_file files path line).
Proof. unfold load_imei_file. frame. Qed.
#[local] Hint Resolve load_imei_file_frame : frame.
Lemma load_imei_blocklist_frame files n : keeps (load_imei_blocklist files n).
Proof. unfold load_imei_blocklist. frame. Qed.

Lemma name_bits_frame vs conv : keeps (name_bits vs conv).
Proof. induction vs; cbn [name_bits]; frame. Qed.
Lemma intern_usage_threshold_frame pm line : keeps (intern_usage_threshold pm line).
Proof. unfold intern_usage_threshold. frame. Qed.
Lemma intern_time_window_frame s e line : keeps (intern_time_window s e line).
Proof. unfold intern_time_window. frame. Qed.
#[local] Hint Resolve name_bits_frame intern_usage_threshold_frame intern_time_window_frame : frame.
Lemma compile_when_frame n rid ms : keeps (compile_when n rid ms).
Proof. unfold compile_when, compile_condition, add_one_of. frame. Qed.

Lemma parse_action_frame n a : keeps (parse_action n a).
Proof.
  unfold parse_action. destruct (negb (is_map n)); [auto with frame|]. apply keeps_bind; [auto with frame|].
  intros _. apply keeps_steps. intros s b Hs. unfold action_steps in Hs.
  repeat (apply elem_of_cons in Hs as [->|Hs]); [..|by apply elem_of_nil in Hs];
    unfold verdict_step, reason_step, inherit_step, qos_step, arp_step, half_qos_step, ambr_step, ambr_ul_step,
      ambr_dl_step, quota_step, validity_step, rating_group_step, redirect_step, redirect_check, flags_step, field_step;
    frame.
Qed.

Lemma resolve_plans_frame its ok out : keeps (resolve_plans its ok out).
Proof. revert ok out. induction its; intros; cbn [resolve_plans]; unfold resolve_plan; frame. Qed.
#[local] Hint Resolve compile_when_frame parse_action_frame resolve_plans_frame : frame.
Lemma load_rules_frame n : keeps (load_rules n).
Proof. unfold load_rules, load_rule, opt_step, resolve_plan_mask, push_rules. frame. Qed.

#[local] Hint Resolve load_dnns_frame load_redirects_frame load_plans_frame load_roaming_partners_frame
  load_imei_blocklist_frame load_rules_frame : frame.
Lemma compile_root_frame files root : keeps (compile_root files root).
Proof. unfold compile_root. frame. Qed.
Lemma sort_and_check_frame : keeps sort_and_check.
Proof. unfold sort_and_check. frame. Qed.
End Frame.

Lemma compile_rules_provenance files now text path version r rs :
  compile_rules files now text path version = Some r -> cr_rule_set r = Some rs ->
  provenance rs = (version, path, hash_hex text, u64 (now * 1000000000)).
Proof.
  unfold compile_rules. destruct (parse text) as [parsed|]; [|done].
  destruct (negb (result_ok parsed)); [by intros [= <-]|]. destruct (negb (is_map (root parsed))); [by intros [= <-]|].
  destruct (compile_root _ _ _) as [[[] c]|] eqn:E1; [|done].
  destruct (c_errors c); [|by intros [= <-]].
  destruct (sort_and_check c) as [[[] c']|] eqn:E2; [|done]. intros [= <-] [= <-].
  eapply sort_and_check_frame; [|exact E2]. eapply compile_root_frame; [|exact E1]. done.
Qed.
