(* ===== verification/HttpFront.v ===== *)
(** * HttpFront: the HTTP decision endpoint

    src/http_front.cpp: the query-string parser, the JSON rendering of a decision
    and the handling of one buffered request, from the bytes of a connection to
    the response that is queued.  Here a connection is its two buffers; HttpLoop.v
    has the sockets, the polling and the idle time-outs. *)

From S2P Require Import Prelude Text Imsi Wire Double FlatSet Store Rules Engine Yaml.
From Stdlib Require Import ZArith Lia Bool Ascii String.
From stdpp Require Import base list numbers strings gmap.
Local Open Scope Z_scope.

Definition kRequestBufferBytes : Z := 4096.
Definition kResponseBufferBytes : Z := 1024.
Definition kEndpoint : string := "/v1/decide".

Definition strlen (s : string) : Z := Z.of_nat (String.length s).

(** ** Query parameters *)

(** Up to twenty digits, accumulated modulo [2^64]. *)
Definition parse_u64_sv (s : string) : option Z :=
  match s with
  | EmptyString => None
  | _ => if 20 <? strlen s then None else digits_loop s 0
  end.

(** The pairs of a query in order; [n] bounds the number of separators. *)
Fixpoint params_loop (n : nat) (query : string) : list (string * string) :=
  let pair_of p := match p with
    | EmptyString => []
    | _ => match split_at_char "=" p with None => [(p, EmptyString)] | Some kv => [kv] end
    end in
  match n with
  | O => pair_of query
  | S n =>
      match split_at_char "&" query with
      | None => pair_of query
      | Some (p, rest) => pair_of p ++ params_loop n rest
      end
  end.
Definition for_each_param (query : string) : list (string * string) :=
  params_loop (String.length query) query.

(** The fields a parameter sets. *)
Definition set_imsi (v : Z) (r : PolicyRequest) : PolicyRequest :=
  mkRequest (rq_magic_version r) (rq_seq r) v (rq_imei r) (rq_client_ts_ns r) (rq_bytes_used_period r)
    (rq_plmn r) (rq_tac r) (rq_rat_type r) (rq_dnn_id r) (rq_requested_5qi r) (rq_flags r)
    (rq_local_minute r) (rq_req_ambr_ul_kbps r) (rq_req_ambr_dl_kbps r) (rq_reserved r).
Definition set_imei (v : Z) (r : PolicyRequest) : PolicyRequest :=
  mkRequest (rq_magic_version r) (rq_seq r) (rq_imsi r) v (rq_client_ts_ns r) (rq_bytes_used_period r)
    (rq_plmn r) (rq_tac r) (rq_rat_type r) (rq_dnn_id r) (rq_requested_5qi r) (rq_flags r)
    (rq_local_minute r) (rq_req_ambr_ul_kbps r) (rq_req_ambr_dl_kbps r) (rq_reserved r).
Definition set_plmn (v : Z) (r : PolicyRequest) : PolicyRequest :=
  mkRequest (rq_magic_version r) (rq_seq r) (rq_imsi r) (rq_imei r) (rq_client_ts_ns r) (rq_bytes_used_period r)
    v (rq_tac r) (rq_rat_type r) (rq_dnn_id r) (rq_requested_5qi r) (rq_flags r)
    (rq_local_minute r) (rq_req_ambr_ul_kbps r) (rq_req_ambr_dl_kbps r) (rq_reserved r).
Definition set_tac (v : Z) (r : PolicyRequest) : PolicyRequest :=
  mkRequest (rq_magic_version r) (rq_seq r) (rq_imsi r) (rq_imei r) (rq_client_ts_ns r) (rq_bytes_used_period r)
    (rq_plmn r) v (rq_rat_type r) (rq_dnn_id r) (rq_requested_5qi r) (rq_flags r)
    (rq_local_minute r) (rq_req_ambr_ul_kbps r) (rq_req_ambr_dl_kbps r) (rq_reserved r).
Definition set_rat (v : Z) (r : PolicyRequest) : PolicyRequest :=
  mkRequest (rq_magic_version r) (rq_seq r) (rq_imsi r) (rq_imei r) (rq_client_ts_ns r) (rq_bytes_used_period r)
    (rq_plmn r) (rq_tac r) v (rq_dnn_id r) (rq_requested_5qi r) (rq_flags r)
    (rq_local_minute r) (rq_req_ambr_ul_kbps r) (rq_req_ambr_dl_kbps r) (rq_reserved r).
Definition set_dnn (v : Z) (r : PolicyRequest) : PolicyRequest :=
  mkRequest (rq_magic_version r) (rq_seq r) (rq_imsi r) (rq_imei r) (rq_client_ts_ns r) (rq_bytes_used_period r)
    (rq_plmn r) (rq_tac r) (rq_rat_type r) v (rq_requested_5qi r) (rq_flags r)
    (rq_local_minute r) (rq_req_ambr_ul_kbps r) (rq_req_ambr_dl_kbps r) (rq_reserved r).
Definition set_5qi (v : Z) (r : PolicyRequest) : PolicyRequest :=
  mkRequest (rq_magic_version r) (rq_seq r) (rq_imsi r) (rq_imei r) (rq_client_ts_ns r) (rq_bytes_used_period r)
    (rq_plmn r) (rq_tac r) (rq_rat_type r) (rq_dnn_id r) v (rq_flags r)
    (rq_local_minute r) (rq_req_ambr_ul_kbps r) (rq_req_ambr_dl_kbps r) (rq_reserved r).
Definition set_minute (v : Z) (r : PolicyRequest) : PolicyRequest :=
  mkRequest (rq_magic_version r) (rq_seq r) (rq_imsi r) (rq_imei r) (rq_client_ts_ns r) (rq_bytes_used_period r)
    (rq_plmn r) (rq_tac r) (rq_rat_type r) (rq_dnn_id r) (rq_requested_5qi r) (rq_flags r)
    v (rq_req_ambr_ul_kbps r) (rq_req_ambr_dl_kbps r) (rq_reserved r).
Definition set_seq (v : Z) (r : PolicyRequest) : PolicyRequest :=
  mkRequest (rq_magic_version r) v (rq_imsi r) (rq_imei r) (rq_client_ts_ns r) (rq_bytes_used_period r)
    (rq_plmn r) (rq_tac r) (rq_rat_type r) (rq_dnn_id r) (rq_requested_5qi r) (rq_flags r)
    (rq_local_minute r) (rq_req_ambr_ul_kbps r) (rq_req_ambr_dl_kbps r) (rq_reserved r).
Definition set_usage_flags (v flags : Z) (r : PolicyRequest) : PolicyRequest :=
  mkRequest (rq_magic_version r) (rq_seq r) (rq_imsi r) (rq_imei r) (rq_client_ts_ns r) v
    (rq_plmn r) (rq_tac r) (rq_rat_type r) (rq_dnn_id r) (rq_requested_5qi r) flags
    (rq_local_minute r) (rq_req_ambr_ul_kbps r) (rq_req_ambr_dl_kbps r) (rq_reserved r).
Definition add_flag (flag : Z) (r : PolicyRequest) : PolicyRequest :=
  set_usage_flags (rq_bytes_used_period r) (Z.lor (rq_flags r) flag) r.

(** An unsigned parameter within bounds. *)
Definition bounded (lo hi : Z) (value : string) : option Z :=
  match parse_u64_sv value with
  | Some n => if (lo <=? n) && (n <=? hi) then Some n else None
  | None => None
  end.

Definition rat_value (value : string) : option Z :=
  if bool_decide (value ∈ ["LTE"; "lte"; "4G"]%string) then Some 0
  else if bool_decide (value ∈ ["NR"; "nr"; "5G"]%string) then Some 1
  else if bool_decide (value ∈ ["WLAN"; "wlan"; "wifi"]%string) then Some 2
  else bounded 0 2 value.

Definition dnn_value (rs : RuleSet) (value : string) : option Z :=
  match index_of value (rs_dnn_names rs) with
  | Some i => Some (u8 i)
  | None =>
      match parse_u64_sv value with
      | Some n => if n <? Z.of_nat (length (rs_dnn_names rs)) then Some (u8 n) else None
      | None => None
      end
  end.

Definition is_off (value : string) : bool := bool_decide (value ∈ ["0"; "false"]%string).

(** One parameter: the new request, or [None] when the key or its value is bad. *)
Definition param (rs : RuleSet) (key value : string) (r : PolicyRequest) : option PolicyRequest :=
  if String.eqb key "imsi"%string then
    imsi ← parse_imsi value; if imsi =? 0 then None else Some (set_imsi imsi r)
  else if String.eqb key "imei"%string then imei ← parse_imei value; Some (set_imei imei r)
  else if String.eqb key "plmn"%string then plmn ← parse_plmn value; Some (set_plmn plmn r)
  else if String.eqb key "dnn"%string then d ← dnn_value rs value; Some (set_dnn d r)
  else if String.eqb key "rat"%string then n ← rat_value value; Some (set_rat n r)
  else if String.eqb key "qos_5qi"%string then n ← bounded 1 255 value; Some (set_5qi n r)
  else if String.eqb key "tac"%string then n ← bounded 0 65535 value; Some (set_tac n r)
  else if String.eqb key "minute"%string then n ← bounded 0 1439 value; Some (set_minute n r)
  else if String.eqb key "usage"%string then
    n ← parse_u64_sv value; Some (set_usage_flags n (Z.lor (rq_flags r) kReqFlagUsageValid) r)
  else if String.eqb key "tethering"%string then
    Some (if is_off value then r else add_flag kReqFlagTetheringDetected r)
  else if String.eqb key "emergency"%string then
    Some (if is_off value then r else add_flag kReqFlagEmergency r)
  else if String.eqb key "seq"%string then
    Some (match parse_u64_sv value with Some n => set_seq (u32 n) r | None => r end)
  else None.

(** The loop over the parameters: the first bad key stops it. *)
Fixpoint parse_params (rs : RuleSet) (ps : list (string * string)) (r : PolicyRequest) (have_imsi : bool)
    : string + (PolicyRequest * bool) :=
  match ps with
  | [] => inr (r, have_imsi)
  | (key, value) :: ps =>
      match param rs key value r with
      | None => inl key
      | Some r => parse_params rs ps r (have_imsi || String.eqb key "imsi"%string)
      end
  end.

Definition empty_request : PolicyRequest :=
  mkRequest kMagicVersion 0 0 0 0 0 0 0 0 0 9 0 720 0 0 0.

Definition parse_decide_query (rs : RuleSet) (query : string) : string + PolicyRequest :=
  match parse_params rs (for_each_param query) empty_request false with
  | inl bad_key => inl ("invalid or unknown parameter '" +:+ bad_key +:+ "'")%string
  | inr (_, false) => inl "imsi is required"%string
  | inr (r, true) => inr r
  end.

(** ** JSON *)

Definition dq : string := String dquote EmptyString.
Definition key_num (name : string) (v : Z) : string := (dq +:+ name +:+ dq +:+ ":" +:+ to_string v)%string.
Definition key_str (name v : string) : string := (dq +:+ name +:+ dq +:+ ":" +:+ dq +:+ v +:+ dq)%string.

Definition json_text (d : PolicyDecision) : string :=
  ("{" +:+ key_str "verdict" (verdict_name (d_verdict d)) +:+ "," +:+
   key_str "reason" (reason_name (d_reason d)) +:+ "," +:+
   key_num "rule_id" (d_rule_id d) +:+ "," +:+ key_num "policy_version" (d_policy_version d) +:+ "," +:+
   key_num "qos_5qi" (d_qos_5qi d) +:+ "," +:+ key_num "arp" (d_arp d) +:+ "," +:+
   key_num "ambr_ul_kbps" (d_ambr_ul_kbps d) +:+ "," +:+ key_num "ambr_dl_kbps" (d_ambr_dl_kbps d) +:+ "," +:+
   key_num "rating_group" (d_rating_group d) +:+ "," +:+ key_num "quota_bytes" (d_quota_bytes d) +:+ "," +:+
   key_num "quota_validity_s" (d_quota_validity_s d) +:+ "," +:+ key_num "flags" (d_flags d) +:+ "," +:+
   key_num "redirect_id" (d_redirect_id d) +:+ "}" +:+ endl)%string.

(** The text written, empty when the buffer of [cap] bytes is too small. *)
Definition decision_to_json (d : PolicyDecision) (cap : Z) : string :=
  if cap <=? strlen (json_text d) then EmptyString else json_text d.

(** ** One request *)

Record Stats := mkStats { st_requests : Z; st_bad_requests : Z; st_not_found : Z }.
Record Connection := mkConn { c_in : string; c_out : string; close_after_write : bool }.

Definition crlf : string := String "013" (String newline EmptyString).
Definition error_body (msg : string) : string :=
  ("{" +:+ key_str "error" msg +:+ "}" +:+ endl)%string.

Definition count_bad (s : Stats) : Stats := mkStats (st_requests s) (st_bad_requests s + 1) (st_not_found s).
Definition count_request (s : Stats) : Stats := mkStats (st_requests s + 1) (st_bad_requests s) (st_not_found s).
Definition count_not_found (s : Stats) : Stats := mkStats (st_requests s) (st_bad_requests s) (st_not_found s + 1).

(** Status, reason phrase and body for a request line.  A body that
    [snprintf] would cut has its full length in [body_len]. *)
Definition answer (now : Z) (rs : option RuleSet) (store : SubscriberStore) (request_line : string) (s : Stats)
    : option (Z * string * string * Stats) :=
  let bad msg := Some (400, "Bad Request"%string, error_body msg, count_bad s) in
  match split_at_char " " request_line with
  | None => bad "malformed request line"%string
  | Some (method, rest) =>
      match split_at_char " " rest with
      | None => bad "malformed request line"%string
      | Some (target, _) =>
          let '(path, query) := match split_at_char "?" target with
                                | None => (target, EmptyString) | Some pq => pq end in
          if negb (String.eqb path kEndpoint) then
            Some (404, "Not Found"%string, error_body "no such endpoint", count_not_found s)
          else if negb (String.eqb method "GET"%string) then
            Some (405, "Method Not Allowed"%string, error_body "use GET", count_bad s)
          else
            match rs with
            | None => Some (503, "Service Unavailable"%string, error_body "no policy loaded", s)
            | Some rs =>
                match parse_decide_query rs query with
                | inl msg => bad (c_str msg)
                | inr req =>
                    rec ← Store.find store (rq_imsi req);
                    let req := if rq_plmn req =? 0
                      then set_plmn (match rec with Some rec => s_home_plmn rec | None => 0 end) req
                      else req in
                    d ← evaluate now rs req rec;
                    Some (200, "OK"%string, decision_to_json d kResponseBufferBytes, count_request s)
                end
            end
      end
  end.

Definition response_head (status : Z) (text : string) (body_len : Z) (keep_alive : bool) : string :=
  ("HTTP/1.1 " +:+ to_string status +:+ " " +:+ text +:+ crlf +:+
   "Content-Type: application/json" +:+ crlf +:+ "Content-Length: " +:+ to_string body_len +:+ crlf +:+
   "Connection: " +:+ (if keep_alive then "keep-alive" else "close") +:+ crlf +:+ crlf)%string.

Definition request_line (head : string) : string :=
  match String.index 0 crlf head with Some n => str_take n head | None => head end.

(** What a complete request in the input buffer does to the connection: the
    response is queued, or nothing when it does not fit, and the request's bytes
    are consumed. *)
Definition serve_request (now : Z) (rs : option RuleSet) (store : SubscriberStore) (head_end : nat)
    (c : Connection) (s : Stats) : option (Connection * Stats) :=
  let head := str_take head_end (c_in c) in
  '(status, text, body, s) ← answer now rs store (request_line head) s;
  let keep_alive := match String.index 0 "close"%string head with Some _ => false | None => true end in
  let h := response_head status text (strlen body) keep_alive in
  let out := if strlen h + strlen body <? kResponseBufferBytes then (h +:+ body)%string else EmptyString in
  Some (mkConn (str_drop (head_end + 4) (c_in c)) out (negb keep_alive), s).

Inductive Outcome := Wait | Close | Replied.

(** After the bytes of a read were appended to the input buffer. *)
Definition on_input (now : Z) (rs : option RuleSet) (store : SubscriberStore) (c : Connection) (s : Stats)
    : option (Outcome * Connection * Stats) :=
  match String.index 0 (crlf +:+ crlf)%string (c_in c) with
  | None => if kRequestBufferBytes <=? strlen (c_in c) then Some (Close, c, count_bad s) else Some (Wait, c, s)
  | Some head_end =>
      '(c, s) ← serve_request now rs store head_end c s; Some (Replied, c, s)
  end.

(** ** Accepted requests are well formed *)

(** What [parse_decide_query] promises of the request it builds. *)
Record query_ok (rs : RuleSet) (r : PolicyRequest) : Prop := {
  wq_msg : msg_ok r;
  wq_magic : rq_magic_version r = kMagicVersion;
  wq_rat : 0 <= rq_rat_type r < 3;
  wq_dnn : rq_dnn_id r = 0 \/ 0 <= rq_dnn_id r < Z.of_nat (length (rs_dnn_names rs));
  wq_5qi : 1 <= rq_requested_5qi r <= 255;
  wq_minute : 0 <= rq_local_minute r < 1440 }.

Lemma msg_ok_request r : msg_ok r <->
  fits 32 (rq_magic_version r) /\ fits 32 (rq_seq r) /\ fits 64 (rq_imsi r) /\ fits 64 (rq_imei r) /\
  fits 64 (rq_client_ts_ns r) /\ fits 64 (rq_bytes_used_period r) /\ fits 32 (rq_plmn r) /\
  fits 16 (rq_tac r) /\ fits 8 (rq_rat_type r) /\ fits 8 (rq_dnn_id r) /\ fits 8 (rq_requested_5qi r) /\
  fits 8 (rq_flags r) /\ fits 16 (rq_local_minute r) /\ fits 32 (rq_req_ambr_ul_kbps r) /\
  fits 32 (rq_req_ambr_dl_kbps r) /\ fits 32 (rq_reserved r).
Proof.
  unfold msg_ok, fields_ok. simpl. unfold request_widths, request_fields.
  rewrite !Forall2_cons, Forall2_nil. simpl. tauto.
Qed.

Lemma parse_u64_sv_fits s n : parse_u64_sv s = Some n -> fits 64 n.
Proof.
  unfold parse_u64_sv. destruct s; [done|]. case_match; [done|]. by apply digits_loop_fits.
Qed.
Lemma bounded_spec lo hi s n : bounded lo hi s = Some n -> lo <= n <= hi.
Proof. unfold bounded. repeat case_match; intros; simplify_eq. bool_to_prop. lia. Qed.
Lemma parse_digits_fits s k n : parse_digits s k = Some n -> fits 64 n.
Proof. unfold parse_digits. repeat case_match; try done. by apply digits_loop_fits. Qed.
Lemma rat_value_spec s n : rat_value s = Some n -> 0 <= n < 3.
Proof.
  unfold rat_value. repeat case_bool_decide; intros E; try (simplify_eq; lia).
  apply bounded_spec in E. lia.
Qed.
Lemma dnn_value_spec rs s n : Z.of_nat (length (rs_dnn_names rs)) <= 256 -> dnn_value rs s = Some n ->
  0 <= n < Z.of_nat (length (rs_dnn_names rs)).
Proof.
  intros Hl. unfold dnn_value. destruct (index_of s _) as [i|] eqn:E.
  - apply index_of_bound in E. intros [= <-]. rewrite wrap_id by (unfold fits; lia). done.
  - destruct (parse_u64_sv s) as [k|] eqn:P; [|done]. apply parse_u64_sv_fits in P as [? _].
    destruct (Z.ltb_spec k (Z.of_nat (length (rs_dnn_names rs)))); [|done]. intros [= <-].
    rewrite wrap_id by (unfold fits; lia). done.
Qed.

(** The request after a setter: the fields it keeps come from the context. *)
Ltac solve_query :=
  split; [split; cbn; [rewrite msg_ok_request; cbn;
    repeat match goal with |- _ /\ _ => split end; try assumption | try assumption ..]|].

Lemma param_ok rs key value r r' : Z.of_nat (length (rs_dnn_names rs)) <= 16 ->
  query_ok rs r -> param rs key value r = Some r' ->
  query_ok rs r' /\ (if String.eqb key "imsi" then rq_imsi r' <> 0 else rq_imsi r' = rq_imsi r).
Proof.
  intros Hl Q. pose proof Q as [Q1 Q2 Q3 Q4 Q5 Q6]. rewrite msg_ok_request in Q1.
  destruct Q1 as (? & ? & ? & ? & ? & ? & ? & ? & ? & ? & ? & ? & ? & ? & ? & ?).
  unfold param.
  destruct (String.eqb key "imsi").
  { destruct (parse_imsi value) as [n|] eqn:P; [|done]. apply parse_digits_fits in P. simpl.
    destruct (Z.eqb_spec n 0); [done|]. intros [= <-]. by solve_query. }
  repeat (match goal with |- context [if String.eqb key ?k then _ else _] => destruct (String.eqb key k) end);
    intros E; try done.
  - destruct (parse_imei value) as [n|] eqn:P; simplify_eq/=. assert (fits 64 n).
    { unfold parse_imei in P. destruct value; [by simplify_eq|by eapply parse_digits_fits]. }
    by solve_query.
  - destruct (parse_plmn value) as [n|] eqn:P; simplify_eq/=. apply parse_plmn_fits in P. by solve_query.
  - destruct (dnn_value rs value) as [n|] eqn:P; simplify_eq/=. apply dnn_value_spec in P; [|lia].
    assert (fits 8 n) by (unfold fits; lia). solve_query; [by right|done].
  - destruct (rat_value value) as [n|] eqn:P; simplify_eq/=. apply rat_value_spec in P.
    assert (fits 8 n) by (unfold fits; lia). by solve_query.
  - destruct (bounded 1 255 value) as [n|] eqn:P; simplify_eq/=. apply bounded_spec in P.
    assert (fits 8 n) by (unfold fits; lia). by solve_query.
  - destruct (bounded 0 65535 value) as [n|] eqn:P; simplify_eq/=. apply bounded_spec in P.
    assert (fits 16 n) by (unfold fits; lia). by solve_query.
  - destruct (bounded 0 1439 value) as [n|] eqn:P; simplify_eq/=. apply bounded_spec in P.
    assert (fits 16 n) by (unfold fits; lia). assert (0 <= n < 1440) by lia.
    by solve_query.
  - destruct (parse_u64_sv value) as [n|] eqn:P; simplify_eq/=. apply parse_u64_sv_fits in P.
    assert (fits 8 (Z.lor (rq_flags r) kReqFlagUsageValid)) by (by apply fits_lor). by solve_query.
  - assert (fits 8 (Z.lor (rq_flags r) kReqFlagTetheringDetected)) by (by apply fits_lor).
    destruct (is_off value); simplify_eq; [done|by solve_query].
  - assert (fits 8 (Z.lor (rq_flags r) kReqFlagEmergency)) by (by apply fits_lor).
    destruct (is_off value); simplify_eq; [done|by solve_query].
  - destruct (parse_u64_sv value) as [n|]; simplify_eq; [|done].
    assert (fits 32 (u32 n)) by (by apply wrap_fits). by solve_query.
Qed.

Lemma parse_params_ok rs ps r have r' have' : Z.of_nat (length (rs_dnn_names rs)) <= 16 ->
  query_ok rs r -> (have = true -> rq_imsi r <> 0) -> parse_params rs ps r have = inr (r', have') ->
  query_ok rs r' /\ (have' = true -> rq_imsi r' <> 0).
Proof.
  intros Hl. revert r have. induction ps as [|[key value] ps IH]; intros r have Q Hi; simpl; [by intros [= <- <-]|].
  destruct (param rs key value r) as [r1|] eqn:P; [|done].
  destruct (param_ok _ _ _ _ _ Hl Q P) as [Q1 Hk]. apply IH; [done|].
  destruct (String.eqb key "imsi"); [done|]. rewrite orb_false_r, Hk. done.
Qed.

Lemma empty_request_ok rs : query_ok rs empty_request.
Proof. split; [by repeat constructor|done|done|by left|done|done]. Qed.

Lemma parse_decide_query_ok rs query r : Z.of_nat (length (rs_dnn_names rs)) <= 16 ->
  parse_decide_query rs query = inr r -> query_ok rs r /\ rq_imsi r <> 0.
Proof.
  intros Hl. unfold parse_decide_query. destruct (parse_params _ _ _ _) as [|[r' []]] eqn:E; try done.
  intros [= <-]. apply parse_params_ok in E as [Q H]; [|done|apply empty_request_ok|done].
  split; [done|]. by apply H.
Qed.

(** A query that is accepted gives a well-formed request: every field fits its
    wire width, the IMSI is present and not zero, and access type, DNN, 5QI and
    minute of the day are in their documented ranges. *)
Theorem decide_query_wf rs query r : Z.of_nat (length (rs_dnn_names rs)) <= 16 ->
  parse_decide_query rs query = inr r -> query_ok rs r /\ rq_imsi r <> 0.
Proof. apply parse_decide_query_ok. Qed.

(** ** Responses fit *)

Lemma verdict_name_length v : (String.length (verdict_name v) <= 8)%nat.
Proof. unfold verdict_name. repeat case_match; simpl; lia. Qed.
Lemma reason_name_length r : (String.length (reason_name r) <= 25)%nat.
Proof. unfold reason_name. destruct (list_find _ _) as [[i []]|]; vm_compute; lia. Qed.
Lemma to_string_length_20 v : fits 64 v -> (String.length (to_string v) <= 20)%nat.
Proof.
  intros [H0 H1]. rewrite to_string_length. apply dec_length_upper; [lia|].
  eapply Z.lt_le_trans; [done|]. by vm_compute.
Qed.

Lemma json_length d : msg_ok d -> strlen (json_text d) <= 600.
Proof.
  intros Hd. unfold msg_ok, fields_ok in Hd. simpl in Hd. unfold decision_widths, decision_fields in Hd.
  repeat match goal with H : Forall2 _ (_ :: _) _ |- _ => apply Forall2_cons in H as [? H] end.
  assert (forall w v, (w <= 8)%nat -> fits (8 * Z.of_nat w) v -> (String.length (to_string v) <= 20)%nat) as K.
  { intros w v Hw Hv. apply to_string_length_20. eapply fits_le; [|done]. lia. }
  repeat match goal with H : fits _ _ |- _ => apply K in H; [|simpl; lia] end.
  pose proof (verdict_name_length (d_verdict d)). pose proof (reason_name_length (d_reason d)).
  unfold strlen, json_text, key_str, key_num, dq, endl. rewrite !str_app_length. cbn [String.length]. lia.
Qed.

Lemma head_length n ka : 0 <= n <= 600 -> strlen (response_head 200 "OK" n ka) <= 150.
Proof.
  intros Hn. assert (String.length (to_string n) <= 20)%nat by (apply to_string_length_20; unfold fits; lia).
  unfold strlen, response_head, crlf. rewrite !str_app_length. change (String.length (to_string 200)) with 3%nat.
  destruct ka; cbn [String.length]; lia.
Qed.

(** ** Every accepted query is answered *)

Definition decide_line (query : string) : string :=
  ("GET " +:+ kEndpoint +:+ "?" +:+ query +:+ " HTTP/1.1")%string.

(** The request that is evaluated: the PLMN defaults to the home network. *)
Definition effective_request (req : PolicyRequest) (rec : option SubscriberRecord) : PolicyRequest :=
  if rq_plmn req =? 0
  then set_plmn (match rec with Some rec => s_home_plmn rec | None => 0 end) req else req.

Lemma split_char_app c s t : split_at_char c s = None ->
  split_at_char c (s +:+ String c t)%string = Some (s, t).
Proof.
  induction s as [|d s IH]; intros H.
  { change (EmptyString +:+ String c t)%string with (String c t). simpl. by rewrite Ascii.eqb_refl. }
  rewrite app_cons. simpl in *. destruct (Ascii.eqb d c); [done|].
  destruct (split_at_char c s) as [[]|]; [done|]. by rewrite IH.
Qed.

Lemma split_none_app c s t : split_at_char c s = None -> split_at_char c t = None ->
  split_at_char c (s +:+ t)%string = None.
Proof.
  intros Hs Ht. induction s as [|d s IH]; [done|]. rewrite app_cons. simpl in *.
  destruct (Ascii.eqb d c); [done|]. destruct (split_at_char c s) as [[]|]; [done|]. by rewrite IH.
Qed.

Lemma effective_ok rs req rec : query_ok rs req -> request_ok (effective_request req rec).
Proof.
  intros [Q _ _ _ _ _]. rewrite msg_ok_request in Q. unfold effective_request. case_match; split; simpl; tauto.
Qed.

Lemma answer_decide now rs P B store m query req s : rule_set_ok rs P B ->
  Z.of_nat (length (rs_dnn_names rs)) <= 16 -> store_rep store m -> map_Forall (fun _ => record_ok) m ->
  split_at_char " " query = None -> parse_decide_query rs query = inr req ->
  exists d, let rec := m !! rq_imsi req in
    evaluate now rs (effective_request req rec) rec = Some d /\ msg_ok d /\
    answer now (Some rs) store (decide_line query) s =
      Some (200, "OK"%string, json_text d, count_request s).
Proof.
  intros R Hl HS HC Hsp E. pose proof (find_lookup store m (rq_imsi req) HS) as Ef.
  set (rec := m !! rq_imsi req) in *. destruct (parse_decide_query_ok rs query req Hl E) as [Q _].
  destruct (evaluate_fits now rs P B (effective_request req rec) rec R) as (d & Ed & Hd).
  { by eapply effective_ok. }
  { intros x Hx. by apply (HC (rq_imsi req)). }
  exists d. do 2 (split; [done|]). unfold answer, decide_line.
  change ("GET " +:+ kEndpoint +:+ "?" +:+ query +:+ " HTTP/1.1")%string
    with ("GET" +:+ String " " (kEndpoint +:+ String "?" query +:+ String " " "HTTP/1.1"))%string.
  rewrite (split_char_app " " "GET") by done.
  replace (kEndpoint +:+ String "?" query +:+ String " " "HTTP/1.1")%string
    with ((kEndpoint +:+ String "?" query) +:+ String " " "HTTP/1.1")%string by done.
  rewrite (split_char_app " " (kEndpoint +:+ String "?" query)).
  2: { apply split_none_app; [done|]. simpl. by rewrite Hsp. }
  rewrite (split_char_app "?" kEndpoint) by done.
  rewrite String.eqb_refl. simpl negb. cbn iota.
  rewrite E, Ef. cbn [mbind option_bind]. fold (effective_request req rec). rewrite Ed. cbn [mbind option_bind].
  unfold decision_to_json. destruct (Z.leb_spec kResponseBufferBytes (strlen (json_text d))) as [Hbig|_]; [|done].
  pose proof (json_length d Hd). unfold kResponseBufferBytes in Hbig. lia.
Qed.

Lemma serve_decision now rs P B store m query req head_end c s : rule_set_ok rs P B ->
  Z.of_nat (length (rs_dnn_names rs)) <= 16 -> store_rep store m -> map_Forall (fun _ => record_ok) m ->
  split_at_char " " query = None -> parse_decide_query rs query = inr req ->
  request_line (str_take head_end (c_in c)) = decide_line query ->
  exists d keep_alive, let rec := m !! rq_imsi req in
    evaluate now rs (effective_request req rec) rec = Some d /\ msg_ok d /\
    serve_request now (Some rs) store head_end c s =
      Some (mkConn (str_drop (head_end + 4) (c_in c))
        (response_head 200 "OK" (strlen (json_text d)) keep_alive +:+ json_text d)%string
        (negb keep_alive), count_request s).
Proof.
  intros R Hl HS HC Hsp E Hline.
  destruct (answer_decide now rs P B store m query req s R Hl HS HC Hsp E) as (d & Ed & Hd & Ea).
  exists d, (match String.index 0 "close"%string (str_take head_end (c_in c)) with Some _ => false | None => true end).
  split; [done|]. split; [done|]. unfold serve_request. rewrite Hline, Ea. cbn [mbind option_bind].
  pose proof (json_length d Hd). assert (0 <= strlen (json_text d)) by (unfold strlen; lia).
  pose proof (head_length (strlen (json_text d)) (match String.index 0 "close"%string (str_take head_end (c_in c)) with
    Some _ => false | None => true end) ltac:(lia)).
  destruct (Z.ltb_spec (strlen (response_head 200 "OK" (strlen (json_text d))
    (match String.index 0 "close"%string (str_take head_end (c_in c)) with Some _ => false | None => true end))
    + strlen (json_text d)) kResponseBufferBytes); [done|]. unfold kResponseBufferBytes in *. lia.
Qed.

(** Every accepted decision query is answered in full: whatever the rule set
    and the subscriber, the decision's JSON and the response head fit the response
    buffer, so the response that is queued is the head and the whole body, and the
    bytes of the request, and no others, leave the input buffer. *)
Theorem http_decision_answered now rs P B store m query req head_end c s : rule_set_ok rs P B ->
  Z.of_nat (length (rs_dnn_names rs)) <= 16 -> store_rep store m -> map_Forall (fun _ => record_ok) m ->
  split_at_char " " query = None -> parse_decide_query rs query = inr req ->
  request_line (str_take head_end (c_in c)) = decide_line query ->
  exists d keep_alive, let rec := m !! rq_imsi req in
    evaluate now rs (effective_request req rec) rec = Some d /\
    serve_request now (Some rs) store head_end c s =
      Some (mkConn (str_drop (head_end + 4) (c_in c))
        (response_head 200 "OK" (strlen (json_text d)) keep_alive +:+ json_text d)%string
        (negb keep_alive), count_request s).
Proof.
  intros R Hl HS HC Hsp E Hline. destruct (serve_decision now rs P B store m query req head_end c s R Hl HS HC Hsp E Hline) as (d & ka & Ed & _ & Es).
  by exists d, ka.
Qed.

(** The same from the input buffer, when the end of the head is in it. *)
Lemma served_input now rs P B store m query req head_end c s : rule_set_ok rs P B ->
  Z.of_nat (length (rs_dnn_names rs)) <= 16 -> store_rep store m -> map_Forall (fun _ => record_ok) m ->
  split_at_char " " query = None -> parse_decide_query rs query = inr req ->
  String.index 0 (crlf +:+ crlf)%string (c_in c) = Some head_end ->
  request_line (str_take head_end (c_in c)) = decide_line query ->
  exists d keep_alive, evaluate now rs (effective_request req (m !! rq_imsi req)) (m !! rq_imsi req) = Some d /\ msg_ok d /\
    on_input now (Some rs) store c s = Some (Replied, mkConn (str_drop (head_end + 4) (c_in c))
      (response_head 200 "OK" (strlen (json_text d)) keep_alive +:+ json_text d)%string (negb keep_alive), count_request s).
Proof.
  intros R Hl HS HC Hsp E Hi Hline. destruct (serve_decision now rs P B store m query req head_end c s R Hl HS HC Hsp E Hline) as (d & ka & Ed & Hd & Es).
  exists d, ka. split; [exact Ed|]. split; [exact Hd|]. unfold on_input. rewrite Hi, Es. done.
Qed.

(** ** Samples *)

Definition sample_query_text : string := "imsi=262011234567890&plmn=262-01&rat=NR&dnn=internet&minute=60".
Definition sample_http_request : PolicyRequest :=
  mkRequest kMagicVersion 0 262011234567890 0 0 0 262001 0 1 0 9 0 60 0 0 0.
Definition sample_input : string := (decide_line sample_query_text +:+ crlf +:+ crlf)%string.

Lemma decide_query_wf_witness :
  parse_decide_query sample_rule_set sample_query_text = inr sample_http_request /\
  query_ok sample_rule_set sample_http_request.
Proof.
  assert (parse_decide_query sample_rule_set sample_query_text = inr sample_http_request) as E by (by vm_compute).
  split; [exact E|]. apply (decide_query_wf sample_rule_set sample_query_text sample_http_request); [by vm_compute|exact E].
Defined.

Lemma http_decision_answered_witness : exists store d ka, new_store 4 (dlit 5 (-1)) = Some store /\
  serve_request 0 (Some sample_rule_set) store 86 (mkConn sample_input "" false) (mkStats 0 0 0) =
    Some (mkConn "" (response_head 200 "OK" (strlen (json_text d)) ka +:+ json_text d)%string (negb ka), mkStats 1 0 0).
Proof.
  destruct empty_table_rep as (store & Es & R).
  destruct (http_decision_answered 0 sample_rule_set _ _ store ∅ sample_query_text sample_http_request
    86 (mkConn sample_input "" false) (mkStats 0 0 0) sample_rule_set_ok) as (d & ka & _ & E);
    [by vm_compute|exact R|apply map_Forall_empty|by vm_compute|by vm_compute|by vm_compute|].
  exists store, d, ka. split; [exact Es|exact E].
Defined.

Fixpoint repeat_char (n : nat) (c : ascii) : string :=
  match n with O => EmptyString | S n => String c (repeat_char n c) end.

(** A query whose parameter name is long gets no response: the error body does
    not fit the response buffer, nothing is queued, and the connection, which is
    kept open, has lost the request. *)
Theorem long_parameter_unanswered : forall now rs store,
  on_input now (Some rs) store
    (mkConn (decide_line (repeat_char 900 "a") +:+ crlf +:+ crlf)%string "" false) (mkStats 0 0 0) =
  Some (Replied, mkConn "" "" false, mkStats 0 1 0).
Proof. intros. by vm_compute. Qed.

(** A usage of twenty digits wraps: 2^64 is taken as a reported usage of zero,
    which lifts an exhausted quota. *)
Theorem usage_parameter_wraps : forall rs,
  parse_decide_query rs "imsi=262011234567890&usage=18446744073709551616" =
  inr (mkRequest kMagicVersion 0 262011234567890 0 0 0 0 0 0 0 9 kReqFlagUsageValid 720 0 0 0).
Proof. intros. by vm_compute. Qed.
