(* ===== verification/Metrics.v ===== *)
(** * Metrics: per-worker counters and their aggregation

    include/policy/metrics.hpp and src/metrics.cpp: the counter block of a worker,
    [note], and the snapshot that sums the blocks.  Counters are 64-bit in the code
    and wrap; here they are the exact integers, which agree while they fit.  The
    field [rule_versions_seen], which nothing reads or writes, is left out. *)

From S2P Require Import Prelude Text Wire Double Hdr.
From Stdlib Require Import ZArith Lia Bool.
From stdpp Require Import base list numbers.
Local Open Scope Z_scope.

(** The scalar counters of a block. *)
Record Counters := mkCounters {
  requests : Z; replies_sent : Z; short_datagrams : Z; bad_magic : Z; unknown_subscriber : Z;
  send_failures : Z; send_wouldblock : Z; send_nobufs : Z; send_errors : Z; recv_errors : Z;
  batches : Z; batch_datagrams : Z; full_batches : Z; idle_spins : Z; blocking_waits : Z }.

Record WorkerMetrics := mkMetrics {
  w_counters : Counters; verdicts : list Z; reasons : list Z; w_service_ns : HdrHistogram }.

Definition zero_counters : Counters := mkCounters 0 0 0 0 0 0 0 0 0 0 0 0 0 0 0.

(** [service_ns{1, 10'000'000, 3}] is a member of both blocks. *)
Definition new_metrics : option WorkerMetrics :=
  h ← service_ns;
  Some (mkMetrics zero_counters (replicate 3 0) (replicate (Z.to_nat kReasonCount) 0) h).

(** [if (i < size) ++counts[i]] *)
Definition bump_at (l : list Z) (i : Z) : list Z :=
  if i <? Z.of_nat (length l) then alter (Z.add 1) (Z.to_nat i) l else l.

Definition note (d : PolicyDecision) (m : WorkerMetrics) : WorkerMetrics :=
  mkMetrics (w_counters m) (bump_at (verdicts m) (d_verdict d)) (bump_at (reasons m) (d_reason d))
    (w_service_ns m).

(** ** Aggregation *)

Definition add_counters (a b : Counters) : Counters :=
  mkCounters (requests a + requests b) (replies_sent a + replies_sent b)
    (short_datagrams a + short_datagrams b) (bad_magic a + bad_magic b)
    (unknown_subscriber a + unknown_subscriber b) (send_failures a + send_failures b)
    (send_wouldblock a + send_wouldblock b) (send_nobufs a + send_nobufs b)
    (send_errors a + send_errors b) (recv_errors a + recv_errors b) (batches a + batches b)
    (batch_datagrams a + batch_datagrams b) (full_batches a + full_batches b)
    (idle_spins a + idle_spins b) (blocking_waits a + blocking_waits b).

(** One round of the loop of [snapshot]. *)
Definition add_block (s w : WorkerMetrics) : WorkerMetrics :=
  mkMetrics (add_counters (w_counters s) (w_counters w)) (zip_with Z.add (verdicts s) (verdicts w))
    (zip_with Z.add (reasons s) (reasons w)) (add (w_service_ns s) (w_service_ns w)).2.

Definition snapshot (blocks : list WorkerMetrics) : option WorkerMetrics :=
  s ← new_metrics; Some (fold_left add_block blocks s).

Definition mean_batch (m : WorkerMetrics) : double :=
  let c := w_counters m in
  if batches c =? 0 then DFin 0 0 else ddiv (double_of_Z (batch_datagrams c)) (double_of_Z (batches c)).

(** ** The snapshot is the sum of the blocks *)

Definition counter_fields : list (Counters -> Z) :=
  [requests; replies_sent; short_datagrams; bad_magic; unknown_subscriber; send_failures; send_wouldblock;
   send_nobufs; send_errors; recv_errors; batches; batch_datagrams; full_batches; idle_spins; blocking_waits].

(** A block whose arrays have their size and whose histogram recorded [vs]. *)
Record block_records (h0 : HdrHistogram) (w : WorkerMetrics) (vs : list Z) : Prop := {
  br_verdicts : length (verdicts w) = 3%nat;
  br_reasons : length (reasons w) = Z.to_nat kReasonCount;
  br_hist : record_all vs h0 = Some (w_service_ns w) }.

(** What a block and a running snapshot have in common. *)
Record tallies (h0 : HdrHistogram) (u m : Z) (w : WorkerMetrics) (vs : list Z) : Prop := {
  t_verdicts : length (verdicts w) = 3%nat;
  t_reasons : length (reasons w) = Z.to_nat kReasonCount;
  t_ok : hdr_ok (w_service_ns w) u m;
  t_holds : holds (w_service_ns w) (clamp_values (highest_ h0) vs);
  t_length : length (counts_ (w_service_ns w)) = length (counts_ h0);
  t_highest : highest_ (w_service_ns w) = highest_ h0;
  t_negative : negative_count_ (w_service_ns w) = countb (fun v => v <? 0) vs;
  t_overflow : overflow_count_ (w_service_ns w) = countb (fun v => highest_ h0 <? v) vs }.

Section Snapshot.
Context (h0 : HdrHistogram) (u m : Z) (OK : hdr_ok h0 u m) (H0 : holds h0 []).
Context (N0 : negative_count_ h0 = 0) (V0 : overflow_count_ h0 = 0).

Lemma block_tallies w vs : block_records h0 w vs -> tallies h0 u m w vs.
Proof using OK H0 N0 V0.
  intros [Hv Hr Hh]. destruct (record_all_holds h0 u m [] vs OK H0) as (h & E & O & H & G & L & N & V).
  rewrite Hh in E. injection E as <-. split; try done; lia.
Qed.

Lemma add_block_tallies a b xs ys : tallies h0 u m a xs -> tallies h0 u m b ys ->
  tallies h0 u m (add_block a b) (xs ++ ys).
Proof using.
  intros [V1 R1 O1 H1 L1 G1 N1 F1] [V2 R2 O2 H2 L2 G2 N2 F2].
  destruct (add_holds _ _ u m _ _ O1 O2 H1 H2) as (h & E & O & H & N & V); [congruence..|].
  destruct (add_shape _ _ _ E) as [L G]. rewrite <- clamp_app in H.
  split; simpl; rewrite ?length_zip_with, ?E, ?countb_app; simpl; try done; try congruence; lia.
Qed.

Lemma fold_tallies blocks samples s xs : tallies h0 u m s xs -> Forall2 (block_records h0) blocks samples ->
  tallies h0 u m (fold_left add_block blocks s) (xs ++ concat samples).
Proof using OK H0 N0 V0.
  intros T F. revert s xs T. induction F as [|w vs blocks samples B _ IH]; intros s xs T; simpl.
  { by rewrite app_nil_r. }
  rewrite app_assoc. apply IH. apply add_block_tallies; [done|]. by apply block_tallies.
Qed.
End Snapshot.

Lemma fold_counter f blocks s : f ∈ counter_fields ->
  f (w_counters (fold_left add_block blocks s)) =
  f (w_counters s) + sumZ (map (fun w => f (w_counters w)) blocks).
Proof.
  intros Hf. revert s. induction blocks as [|w blocks IH]; intros s; simpl; [lia|].
  rewrite IH. change (w_counters (add_block s w)) with (add_counters (w_counters s) (w_counters w)).
  assert (f (add_counters (w_counters s) (w_counters w)) = f (w_counters s) + f (w_counters w)) as ->.
  { clear IH. unfold counter_fields in Hf. repeat (apply elem_of_cons in Hf as [->|Hf]; [done|]).
    by apply elem_of_nil in Hf. }
  lia.
Qed.

(** A tally array, [verdicts] or [reasons], of the running snapshot. *)
Lemma fold_array (g : WorkerMetrics -> list Z) n blocks s i :
  (forall a b, g (add_block a b) = zip_with Z.add (g a) (g b)) ->
  length (g s) = n -> Forall (fun w => length (g w) = n) blocks -> (i < n)%nat ->
  nth i (g (fold_left add_block blocks s)) 0 = nth i (g s) 0 + sumZ (map (fun w => nth i (g w) 0) blocks).
Proof.
  intros Hg Hs F Hi. revert s Hs. induction F as [|w blocks Hw _ IH]; intros s Hs; simpl; [lia|].
  rewrite IH by (rewrite Hg, length_zip_with; lia). rewrite Hg.
  assert (forall l l', length l = n -> length l' = n -> nth i (zip_with Z.add l l') 0 = nth i l 0 + nth i l' 0) as ->.
  { clear -Hi. revert i Hi. induction n as [|n IH]; intros i Hi [|x l] [|y l'] E E'; try done; try lia.
    destruct i as [|i]; simpl; [done|]. apply IH; simpl in *; lia. }
  all: lia.
Qed.

Lemma service_ns_holds : exists h0 u m, service_ns = Some h0 /\ hdr_ok h0 u m /\ holds h0 [] /\
  negative_count_ h0 = 0 /\ overflow_count_ h0 = 0.
Proof.
  destruct (new_histogram_holds 1 10000000 3) as (h0 & u & m & E & OK & H0 & _ & N & V & _); [lia..|].
  by exists h0, u, m.
Qed.

(** A service-time histogram that recorded [vs] can record one more value. *)
Lemma service_record h0 h vs v : service_ns = Some h0 -> record_all vs h0 = Some h ->
  exists h', record v h = Some h' /\ record_all (vs ++ [v]) h0 = Some h'.
Proof.
  intros E Hh. destruct service_ns_holds as (h0' & u & k & E' & OK & H0 & _).
  rewrite E in E'. injection E' as <-.
  destruct (record_all_holds h0 u k [] (vs ++ [v]) OK H0) as (h' & Er & _).
  exists h'. split; [|done]. by rewrite record_all_app, Hh in Er.
Qed.

(** The snapshot of the workers' blocks is their sum: each counter and each
    slot of the verdict and reason tallies is the sum of the workers', and the
    merged service-time histogram is the histogram of all the workers' samples. *)
Theorem snapshot_sums h0 blocks samples : service_ns = Some h0 ->
  Forall2 (block_records h0) blocks samples ->
  exists s h, snapshot blocks = Some s /\ record_all (concat samples) h0 = Some h /\
    Forall (fun f => f (w_counters s) = sumZ (map (fun w => f (w_counters w)) blocks)) counter_fields /\
    (forall i, (i < 3)%nat -> nth i (verdicts s) 0 = sumZ (map (fun w => nth i (verdicts w) 0) blocks)) /\
    (forall i, (i < 17)%nat -> nth i (reasons s) 0 = sumZ (map (fun w => nth i (reasons w) 0) blocks)) /\
    counts_ (w_service_ns s) = counts_ h /\ total_count_ (w_service_ns s) = total_count_ h /\
    hdr_min (w_service_ns s) = hdr_min h /\ hdr_max (w_service_ns s) = hdr_max h /\
    negative_count_ (w_service_ns s) = negative_count_ h /\ overflow_count_ (w_service_ns s) = overflow_count_ h.
Proof.
  intros E F. destruct service_ns_holds as (h0' & u & m & E' & OK & H0 & N0 & V0).
  rewrite E in E'. injection E' as <-. unfold snapshot, new_metrics. rewrite E. cbn [mbind option_bind].
  destruct (record_all_holds h0 u m [] (concat samples) OK H0) as (h & Er & O & H & G & L & N & V).
  set (s0 := mkMetrics _ _ _ h0). eexists _, h. split; [done|]. split; [done|].
  assert (tallies h0 u m (fold_left add_block blocks s0) (concat samples)) as [Tv Tr To Th Tl Tg Tn To'].
  { apply (fold_tallies h0 u m OK H0 N0 V0 blocks samples s0 []); [|done]. by split. }
  assert (Forall (fun w => length (verdicts w) = 3%nat /\ length (reasons w) = 17%nat) blocks) as FB.
  { clear -F. induction F as [|? ? ? ? []]; constructor; done. }
  assert (Forall (fun w => length (verdicts w) = 3%nat) blocks) as FV by (refine (Forall_impl _ _ FB); by intros ? []).
  assert (Forall (fun w => length (reasons w) = 17%nat) blocks) as FR by (refine (Forall_impl _ _ FB); by intros ? []).
  clear FB.
  split; [|split; [|split]].
  - apply list.Forall_forall. intros f Hf. rewrite (fold_counter f _ _ Hf).
    assert (f (w_counters s0) = 0) as ->; [|lia].
    unfold counter_fields in Hf. repeat (apply elem_of_cons in Hf as [->|Hf]; [done|]). by apply elem_of_nil in Hf.
  - intros i Hi. rewrite (fold_array verdicts 3) by done. do 3 (destruct i as [|i]; [done|]). lia.
  - intros i Hi. rewrite (fold_array reasons 17) by done. do 17 (destruct i as [|i]; [done|]). lia.
  - destruct (holds_same _ h u m _ To O Th H) as (-> & -> & -> & ->); [congruence|].
    repeat split; lia.
Qed.

Lemma snapshot_sums_witness : exists h0 h1 h2 s, service_ns = Some h0 /\
  record_all [700; 900] h0 = Some h1 /\ record_all [800] h0 = Some h2 /\
  snapshot [mkMetrics zero_counters [2; 0; 0] (replicate 17 0) h1;
            mkMetrics zero_counters [0; 1; 0] (replicate 17 0) h2] = Some s /\
  nth 0 (verdicts s) 0 = 2 /\ nth 1 (verdicts s) 0 = 1.
Proof.
  destruct service_ns_holds as (h0 & u & m & E & OK & H0 & _).
  destruct (record_all_holds h0 u m [] [700; 900] OK H0) as (h1 & E1 & _).
  destruct (record_all_holds h0 u m [] [800] OK H0) as (h2 & E2 & _).
  destruct (snapshot_sums h0 [mkMetrics zero_counters [2; 0; 0] (replicate 17 0) h1;
            mkMetrics zero_counters [0; 1; 0] (replicate 17 0) h2] [[700; 900]; [800]] E)
    as (s & h & Es & _ & _ & Hv & _).
  { repeat constructor; simpl; done. }
  exists h0, h1, h2, s. do 4 (split; [done|]). split; (rewrite Hv; [done|lia]).
Defined.
