(* ===== verification/HttpLoop.v ===== *)
(** * HttpLoop: the connections of an HTTP worker

    src/http_front.cpp, [worker_loop]: accepting, the turn of each connection
    (flush, read, serve, idle time-out), the swap-remove of closed connections and
    the aggregation of the workers' counters.  What the kernel reports in a round
    is its environment: readiness, the results of [send] and [recv], accepted
    descriptors and clock readings. *)

From S2P Require Import Prelude Text Imsi Wire Double FlatSet Store Rules Engine Hdr Metrics Yaml HttpFront.
From Stdlib Require Import ZArith Lia Bool Ascii String.
From stdpp Require Import base list numbers strings gmap.
Local Open Scope Z_scope.

Definition kMaxConnectionsPerWorker : nat := 4096.
Definition kIdleTimeoutMs : Z := 30000.

(** ** State *)

(** A connection: its buffers, how much of the response was sent, its activity. *)
Record Conn := mkConnection { cn_fd : Z; cn_buf : Connection; cn_sent : nat; cn_last_active : Z }.

(** The counters of a worker, those of requests apart. *)
Record FrontStats := mkFront {
  fs_accepted : Z; fs_stats : Stats; fs_closed : Z; fs_service : HdrHistogram }.

(** ** What the kernel reports *)

Inductive SendResult := Sent (n : nat) | SendAgain | SendFailed.
Inductive RecvResult := Received (bytes : string) | RecvAgain | RecvClosed.

(** One round of one connection: readiness, the flush of a pending response, the
    read, the immediate write, and the service time that was measured. *)
Record Turn := mkTurn {
  tn_error : bool; tn_out : bool; tn_in : bool;
  tn_flush : SendResult; tn_recv : RecvResult; tn_send : SendResult; tn_service : Z }.

(** The outcome: the connection unless it was closed, the counters, the bytes the
    kernel took in this turn and the response that was queued. *)
Record Result := mkResult { rs_conn : option Conn; rs_stats : FrontStats; rs_wire : string; rs_reply : string }.

(** ** The turn of a connection *)

Definition out_len (c : Conn) : nat := String.length (c_out (cn_buf c)).
Definition pending (c : Conn) : bool := (cn_sent c <? out_len c)%nat.
Definition idle_expired (now_ns : Z) (c : Conn) : bool :=
  kIdleTimeoutMs * 1000000 <? u64 (now_ns - cn_last_active c).

Definition keep (c : Conn) (s : FrontStats) : Result := mkResult (Some c) s EmptyString EmptyString.
Definition close_it (s : FrontStats) : Result := mkResult None s EmptyString EmptyString.
Definition if_idle (now_ns : Z) (c : Conn) (s : FrontStats) : Result :=
  if idle_expired now_ns c then close_it s else keep c s.

(** The bytes at [out + out_sent] that a [send] which returned [n] took. *)
Definition wire_bytes (n : nat) (c : Conn) : string := str_take n (str_drop (cn_sent c) (c_out (cn_buf c))).

(** After [n] bytes of the response went out. *)
Definition advance (n : nat) (active : Z) (c : Conn) : option Conn :=
  let b := cn_buf c in
  let sent := (cn_sent c + n)%nat in
  if (out_len c <=? sent)%nat then
    if close_after_write b then None
    else Some (mkConnection (cn_fd c) (mkConn (c_in b) EmptyString (close_after_write b)) 0 active)
  else Some (mkConnection (cn_fd c) b sent active).

Definition flush (now_ns : Z) (r : SendResult) (c : Conn) (s : FrontStats) : Result :=
  match r with
  | Sent n => mkResult (advance n now_ns c) s (wire_bytes n c) EmptyString
  | SendAgain => keep c s
  | SendFailed => close_it s
  end.

Definition with_stats (st : Stats) (s : FrontStats) : FrontStats :=
  mkFront (fs_accepted s) st (fs_closed s) (fs_service s).
Definition record_front (ns : Z) (s : FrontStats) : option FrontStats :=
  h ← record ns (fs_service s); Some (mkFront (fs_accepted s) (fs_stats s) (fs_closed s) h).

(** The write that follows a served request. *)
Definition write_now (r : SendResult) (c : Conn) (s : FrontStats) : Result :=
  let reply := c_out (cn_buf c) in
  if (0 <? out_len c)%nat then
    match r with
    | Sent n => mkResult (advance n (cn_last_active c) c) s (wire_bytes n c) reply
    | SendAgain => mkResult (Some c) s EmptyString reply
    | SendFailed => mkResult None s EmptyString reply
    end
  else mkResult (Some c) s EmptyString reply.

Section Step.
Context (now now_ns : Z) (rules : option RuleSet) (store : SubscriberStore).

(** [recv] into the free part of the input buffer, and the request if complete. *)
Definition read_and_serve (t : Turn) (bytes : string) (c : Conn) (s : FrontStats) : option Result :=
  let b := cn_buf c in
  let room := (Z.to_nat kRequestBufferBytes - String.length (c_in b))%nat in
  let b := mkConn (c_in b +:+ str_take room bytes)%string (c_out b) (close_after_write b) in
  '(oc, b, st) ← on_input now rules store b (fs_stats s);
  let s := with_stats st s in
  match oc with
  | Wait => Some (keep (mkConnection (cn_fd c) b (cn_sent c) now_ns) s)
  | Close => Some (close_it s)
  | Replied =>
      s ← record_front (tn_service t) s;
      Some (write_now (tn_send t) (mkConnection (cn_fd c) b 0 now_ns) s)
  end.

Definition conn_step (t : Turn) (c : Conn) (s : FrontStats) : option Result :=
  if tn_error t then Some (close_it s)
  else if pending c then
    if negb (tn_out t) then Some (if_idle now_ns c s) else Some (flush now_ns (tn_flush t) c s)
  else if negb (tn_in t) then Some (if_idle now_ns c s)
  else
    match tn_recv t with
    | RecvAgain => Some (keep c s)
    | RecvClosed => Some (close_it s)
    | Received bytes => read_and_serve t bytes c s
    end.
End Step.

(** ** The round of a worker *)

Definition count_accepted (s : FrontStats) : FrontStats :=
  mkFront (fs_accepted s + 1) (fs_stats s) (fs_closed s) (fs_service s).
Definition count_closed (s : FrontStats) : FrontStats :=
  mkFront (fs_accepted s) (fs_stats s) (fs_closed s + 1) (fs_service s).

Definition new_connection (fd clock : Z) : Conn :=
  mkConnection fd (mkConn EmptyString EmptyString false) 0 clock.

(** At most [n] connections are accepted, and none past the limit; the list holds
    what [accept] returns, with the clock read after each. *)
Fixpoint accept_loop (n : nat) (pend : list (Z * Z)) (conns : list Conn) (s : FrontStats)
    : list Conn * FrontStats :=
  match n, pend with
  | S n, (fd, clock) :: pend =>
      if (length conns <? kMaxConnectionsPerWorker)%nat
      then accept_loop n pend (conns ++ [new_connection fd clock]) (count_accepted s)
      else (conns, s)
  | _, _ => (conns, s)
  end.

(** [close_conn]: the last connection takes the slot of the closed one. *)
Definition swap_remove (i : nat) (conns : list Conn) : list Conn :=
  match last conns with
  | Some b => take (length conns - 1) (<[i := b]> conns)
  | None => conns
  end.

(** The loop over the connections, downwards from slot [i - 1].  [pfds] are the
    descriptors that were polled, slot by slot; the trace holds each step taken. *)
Fixpoint serve_conns (now now_ns : Z) (rules : option RuleSet) (store : SubscriberStore)
    (turns : Z -> Turn) (pfds : list Z) (i : nat) (conns : list Conn) (s : FrontStats)
    : option (list Conn * FrontStats * list (Z * Result)) :=
  match i with
  | O => Some (conns, s, [])
  | S i =>
      c ← conns !! i;
      match pfds !! i with
      | Some fd =>
          if fd =? cn_fd c then
            r ← conn_step now now_ns rules store (turns fd) c s;
            let '(conns, s) := match rs_conn r with
                               | Some c => (<[i := c]> conns, rs_stats r)
                               | None => (swap_remove i conns, count_closed (rs_stats r))
                               end in
            '(conns, s, trace) ← serve_conns now now_ns rules store turns pfds i conns s;
            Some (conns, s, (fd, r) :: trace)
          else serve_conns now now_ns rules store turns pfds i conns s
      | None => serve_conns now now_ns rules store turns pfds i conns s
      end
  end.

Record Round := mkRound {
  rd_poll_failed : bool; rd_listener_ready : bool; rd_accepted : list (Z * Z);
  rd_rules : option RuleSet; rd_store : SubscriberStore;
  rd_now : Z; rd_now_ns : Z; rd_turns : Z -> Turn }.

Definition worker_round (r : Round) (conns : list Conn) (s : FrontStats)
    : option (list Conn * FrontStats * list (Z * Result)) :=
  let pfds := map cn_fd conns in
  if rd_poll_failed r then Some (conns, s, [])
  else
    let '(conns, s) := if rd_listener_ready r then accept_loop 64 (rd_accepted r) conns s else (conns, s) in
    serve_conns (rd_now r) (rd_now_ns r) (rd_rules r) (rd_store r) (rd_turns r) pfds (length conns) conns s.

(** Stopping closes the connections that are left without counting them. *)
Definition add_front (a b : FrontStats) : FrontStats :=
  mkFront (fs_accepted a + fs_accepted b)
    (mkStats (st_requests (fs_stats a) + st_requests (fs_stats b))
       (st_bad_requests (fs_stats a) + st_bad_requests (fs_stats b))
       (st_not_found (fs_stats a) + st_not_found (fs_stats b)))
    (fs_closed a + fs_closed b) (add (fs_service a) (fs_service b)).2.

Definition new_front : option FrontStats :=
  h ← service_ns; Some (mkFront 0 (mkStats 0 0 0) 0 h).

Definition front_snapshot (workers : list FrontStats) : option FrontStats :=
  s ← new_front; Some (fold_left add_front workers s).

(** ** A turn is total *)

Definition rules_ok (rules : option RuleSet) : Prop :=
  forall rs, rules = Some rs -> Z.of_nat (length (rs_dnn_names rs)) <= 16 /\ exists P B, rule_set_ok rs P B.
Definition table_ok (store : SubscriberStore) : Prop :=
  exists subs, store_rep store subs /\ map_Forall (fun _ => record_ok) subs.
Definition front_ok (s : FrontStats) : Prop :=
  exists h0 vs, service_ns = Some h0 /\ record_all vs h0 = Some (fs_service s).

Lemma answer_total now rules store line s : rules_ok rules -> table_ok store ->
  exists status text body s', answer now rules store line s = Some (status, text, body, s').
Proof.
  intros HR (subs & HS & HC). unfold answer.
  destruct (split_at_char " " line) as [[method rest]|]; [|by repeat eexists].
  destruct (split_at_char " " rest) as [[target ?]|]; [|by repeat eexists].
  destruct (match split_at_char "?" target with None => _ | Some pq => pq end) as [path query].
  destruct (negb _); [by repeat eexists|]. destruct (negb _); [by repeat eexists|].
  destruct rules as [rs|]; [|by repeat eexists].
  destruct (HR rs eq_refl) as (Hl & P & B & HRs).
  destruct (parse_decide_query rs query) as [msg|req] eqn:E; [by repeat eexists|].
  destruct (parse_decide_query_ok rs query req Hl E) as [Q _].
  rewrite (find_lookup store subs (rq_imsi req) HS). cbn [mbind option_bind].
  fold (effective_request req (subs !! rq_imsi req)).
  destruct (evaluate_fits now rs P B (effective_request req (subs !! rq_imsi req)) (subs !! rq_imsi req) HRs)
    as (d & -> & _).
  { by eapply effective_ok. }
  { intros x Hx. by apply (HC (rq_imsi req)). }
  by repeat eexists.
Qed.

(** What a served request does to the buffers. *)
Lemma on_input_spec now rules store b s : rules_ok rules -> table_ok store ->
  exists oc b' s', on_input now rules store b s = Some (oc, b', s') /\
    match oc with
    | Wait => b' = b /\ strlen (c_in b) < kRequestBufferBytes
    | Close => b' = b
    | Replied => (String.length (c_in b') <= String.length (c_in b) - 4)%nat
    end.
Proof.
  intros HR HS. unfold on_input. destruct (String.index 0 (crlf +:+ crlf)%string (c_in b)) as [n|].
  2: { destruct (Z.leb_spec kRequestBufferBytes (strlen (c_in b))); by repeat eexists. }
  unfold serve_request.
  destruct (answer_total now rules store (request_line (str_take n (c_in b))) s HR HS) as (st & tx & bd & s' & ->).
  cbn [mbind option_bind]. eexists Replied, _, s'. split; [done|]. simpl. rewrite str_drop_length. lia.
Qed.

(** ** The response stream *)

(** A connection between turns: there is room to read, and the output buffer is
    empty or holds a response that is not fully sent. *)
Record conn_ok (c : Conn) : Prop := {
  ck_room : strlen (c_in (cn_buf c)) < kRequestBufferBytes;
  ck_out : pending c = true \/ c_out (cn_buf c) = EmptyString /\ cn_sent c = 0%nat }.

Lemma new_connection_ok fd clock : conn_ok (new_connection fd clock).
Proof. split; [done|by right]. Qed.

(** What is queued and not yet sent. *)
Definition unsent (c : Conn) : string := str_drop (cn_sent c) (c_out (cn_buf c)).

Lemma not_pending_unsent c : conn_ok c -> pending c = false -> unsent c = EmptyString.
Proof. intros [_ [H|[E _]]] Hp; [congruence|]. unfold unsent. rewrite E. by destruct (cn_sent c). Qed.

(** Sending [n] bytes moves them from the unsent part to the wire. *)
Lemma advance_spec n active c : strlen (c_in (cn_buf c)) < kRequestBufferBytes ->
  match advance n active c with
  | Some c' => conn_ok c' /\ (wire_bytes n c +:+ unsent c')%string = unsent c
  | None => wire_bytes n c = unsent c
  end.
Proof.
  intros Hr. unfold advance, wire_bytes, unsent, out_len.
  set (o := c_out (cn_buf c)). pose proof (str_take_drop n (str_drop (cn_sent c) o)) as T.
  rewrite str_drop_drop in T. destruct (Nat.leb_spec (String.length o) (cn_sent c + n)) as [Hle|Hgt].
  - rewrite (str_drop_all (cn_sent c + n)), str_app_nil_r in T by done.
    destruct (close_after_write (cn_buf c)); [done|]. split; [split; [done|by right]|].
    simpl. by rewrite str_app_nil_r.
  - split; [split; [done|]|done]. left. unfold pending, out_len. simpl. by apply Nat.ltb_lt.
Qed.

(** The bytes of a turn: what was sent and what is left are what was left before
    and the response of this turn; when the connection is closed, the rest is cut. *)
Definition stream_step (c : Conn) (r : Result) : Prop :=
  match rs_conn r with
  | Some c' => conn_ok c' /\ (rs_wire r +:+ unsent c')%string = (unsent c +:+ rs_reply r)%string
  | None => exists cut, (rs_wire r +:+ cut)%string = (unsent c +:+ rs_reply r)%string
  end.

Lemma stream_keep c s : conn_ok c -> stream_step c (keep c s).
Proof. intros OK. split; [done|]. simpl. by rewrite str_app_nil_r. Qed.
Lemma stream_close c s : stream_step c (close_it s).
Proof. exists (unsent c). simpl. by rewrite str_app_nil_r. Qed.
#[local] Hint Resolve stream_keep stream_close : core.

Lemma stream_idle now_ns c s : conn_ok c -> stream_step c (if_idle now_ns c s).
Proof. intros OK. unfold if_idle. case_match; auto. Qed.

Lemma stream_flush now_ns r c s : conn_ok c -> stream_step c (flush now_ns r c s).
Proof.
  intros OK. destruct r as [n| |]; simpl; auto. unfold stream_step. simpl. rewrite str_app_nil_r.
  pose proof (advance_spec n now_ns c (ck_room _ OK)) as A. destruct (advance n now_ns c); [done|].
  exists EmptyString. by rewrite str_app_nil_r.
Qed.

(** The write that follows a request, from a connection with nothing pending. *)
Lemma stream_write c c' r s : unsent c = EmptyString -> cn_sent c' = 0%nat ->
  strlen (c_in (cn_buf c')) < kRequestBufferBytes -> stream_step c (write_now r c' s).
Proof.
  intros Hu H0 Hr. unfold stream_step, write_now.
  assert (unsent c' = c_out (cn_buf c')) as E by (unfold unsent; by rewrite H0).
  assert (0 < out_len c' -> conn_ok c')%nat as K.
  { intros Hp. split; [done|]. left. unfold pending. rewrite H0. by apply Nat.ltb_lt. }
  destruct (Nat.ltb_spec 0 (out_len c')) as [Hp|Hp].
  - rewrite Hu. change (EmptyString +:+ c_out (cn_buf c'))%string with (c_out (cn_buf c')). rewrite <- E.
    destruct r as [n| |]; simpl.
    + pose proof (advance_spec n (cn_last_active c') c' Hr) as A. destruct (advance n _ c'); [done|].
      exists EmptyString. by rewrite str_app_nil_r.
    + split; [auto|done].
    + by exists (unsent c').
  - simpl. assert (c_out (cn_buf c') = EmptyString) as Eo by (apply str_length_0; unfold out_len in Hp; lia).
    split; [split; [done|by right]|]. by rewrite Hu, E, Eo.
Qed.

(** A turn always ends, leaves the stream consistent and only counts requests. *)
Lemma conn_step_spec now now_ns rules store t c s : rules_ok rules -> table_ok store -> conn_ok c -> front_ok s ->
  exists r, conn_step now now_ns rules store t c s = Some r /\ stream_step c r /\ front_ok (rs_stats r) /\
    fs_accepted (rs_stats r) = fs_accepted s /\ fs_closed (rs_stats r) = fs_closed s /\
    (forall c', rs_conn r = Some c' -> cn_fd c' = cn_fd c).
Proof.
  intros HR HS OK HF. unfold conn_step.
  assert (forall c' r, rs_conn (if_idle now_ns c s) = Some c' -> r = if_idle now_ns c s -> cn_fd c' = cn_fd c) as KI.
  { intros c' r Hc _. unfold if_idle in Hc. case_match; [done|]. by injection Hc as <-. }
  assert (rs_stats (if_idle now_ns c s) = s) as KS by (unfold if_idle; by case_match).
  destruct (tn_error t); [eexists; split_and!; done|].
  destruct (pending c) eqn:Ep.
  { destruct (negb (tn_out t)).
    - eexists. split; [done|]. rewrite KS. split_and!; [by apply stream_idle|done..|]. intros. by eapply KI.
    - eexists. split; [done|]. split; [by apply stream_flush|].
      destruct (tn_flush t) as [n| |]; simpl; split_and!; try done.
      + intros c'. unfold advance. repeat case_match; by intros [= <-].
      + by intros ? [= <-]. }
  destruct (negb (tn_in t)).
  { eexists. split; [done|]. rewrite KS. split_and!; [by apply stream_idle|done..|]. intros. by eapply KI. }
  destruct (tn_recv t) as [bytes| |].
  2: { eexists. split; [done|]. split_and!; try done; [by apply stream_keep|]. by intros ? [= <-]. }
  2: { eexists. split; [done|]. by split_and!. }
  unfold read_and_serve. set (b := mkConn _ _ _).
  assert (String.length (c_in b) <= Z.to_nat kRequestBufferBytes)%nat as Hb.
  { pose proof (ck_room _ OK). unfold strlen in *. simpl. rewrite str_app_length, str_take_length. lia. }
  destruct (on_input_spec now rules store b (fs_stats s) HR HS) as (oc & b' & st & -> & Hoc). cbn [mbind option_bind].
  assert (unsent c = EmptyString) as Hu by (by apply not_pending_unsent).
  destruct oc.
  - destruct Hoc as [-> Hlt]. eexists. split; [done|]. simpl. split_and!; try done; [|by intros ? [= <-]].
    split; simpl.
    + split; [done|]. right. destruct (ck_out _ OK) as [?|[? ?]]; [congruence|done].
    + rewrite str_app_nil_r. done.
  - eexists. split; [done|]. by split_and!.
  - destruct HF as (h0 & vs & E0 & Ev).
    destruct (service_record h0 _ vs (tn_service t) E0 Ev) as (h & Er & Ea).
    unfold record_front. simpl. rewrite Er. cbn [mbind option_bind]. eexists. split; [done|].
    split; [apply stream_write; [done|done|]|].
    { unfold strlen. simpl. change (Z.to_nat kRequestBufferBytes) with 4096%nat in Hb.
      unfold kRequestBufferBytes. lia. }
    assert (forall r c' s', rs_stats (write_now r c' s') = s') as ->.
    { intros r c' s'. unfold write_now. case_match; [|done]. by destruct r. }
    simpl. split; [by exists h0, (vs ++ [tn_service t])|]. split_and!; try done.
    intros c'. unfold write_now. case_match; [|by intros [= <-]].
    destruct (tn_send t); simpl; [|by intros [= <-]|done]. unfold advance. repeat case_match; by intros [= <-].
Qed.

(** The life of a connection: the turns it gets, with what is current at each. *)
Record Visit := mkVisit {
  vs_now : Z; vs_now_ns : Z; vs_rules : option RuleSet; vs_store : SubscriberStore; vs_turn : Turn }.
Definition visit_ok (v : Visit) : Prop := rules_ok (vs_rules v) /\ table_ok (vs_store v).

(** The connection at the end, the bytes the client was sent and the responses. *)
Fixpoint conn_life (vs : list Visit) (c : Conn) (s : FrontStats) : option (option Conn * string * string) :=
  match vs with
  | [] => Some (Some c, EmptyString, EmptyString)
  | v :: vs =>
      r ← conn_step (vs_now v) (vs_now_ns v) (vs_rules v) (vs_store v) (vs_turn v) c s;
      match rs_conn r with
      | None => Some (None, rs_wire r, rs_reply r)
      | Some c =>
          '(oc, wire, replies) ← conn_life vs c (rs_stats r);
          Some (oc, rs_wire r +:+ wire, rs_reply r +:+ replies)%string
      end
  end.

Lemma conn_life_stream vs c s : Forall visit_ok vs -> conn_ok c -> front_ok s ->
  exists oc wire replies, conn_life vs c s = Some (oc, wire, replies) /\
    match oc with
    | Some c' => conn_ok c' /\ (wire +:+ unsent c')%string = (unsent c +:+ replies)%string
    | None => exists cut, (wire +:+ cut)%string = (unsent c +:+ replies)%string
    end.
Proof.
  intros F. revert c s. induction F as [|v vs [HR HS] _ IH]; intros c s OK HF; simpl.
  { eexists _, _, _. split; [done|]. by rewrite str_app_nil_r. }
  destruct (conn_step_spec (vs_now v) (vs_now_ns v) _ _ (vs_turn v) c s HR HS OK HF)
    as (r & -> & Hs & HF' & _). cbn [mbind option_bind]. unfold stream_step in Hs.
  destruct (rs_conn r) as [c1|]; [|by eexists _, _, _]. destruct Hs as [OK1 E1].
  destruct (IH c1 (rs_stats r) OK1 HF') as (oc & wire & replies & -> & Hl). cbn [mbind option_bind].
  eexists _, _, _. split; [done|].
  assert (unsent c +:+ rs_reply r +:+ replies = rs_wire r +:+ unsent c1 +:+ replies)%string as ->
    by (by rewrite <- str_app_assoc, <- E1, str_app_assoc).
  destruct oc as [c'|].
  - destruct Hl as [OK' El]. split; [done|]. by rewrite str_app_assoc, El.
  - destruct Hl as [cut El]. exists cut. by rewrite str_app_assoc, El.
Qed.

(** C33: A client reads exactly its responses: whatever the kernel does with the
    writes (any split into partial sends, retries, time-outs), the bytes sent on a
    connection are a prefix of the responses queued on it, in order, with nothing
    lost, repeated or overwritten while it lives; what is missing is what is still
    pending, or what a close cut off.  Between turns there is always room to read. *)
Theorem http_stream_intact vs fd clock s : Forall visit_ok vs -> front_ok s ->
  exists oc wire replies, conn_life vs (new_connection fd clock) s = Some (oc, wire, replies) /\
    match oc with
    | Some c => strlen (c_in (cn_buf c)) < kRequestBufferBytes /\ (wire +:+ unsent c)%string = replies
    | None => exists cut, (wire +:+ cut)%string = replies
    end.
Proof.
  intros F HF. destruct (conn_life_stream vs (new_connection fd clock) s F) as (oc & wire & replies & E & H);
    [apply new_connection_ok|done|].
  exists oc, wire, replies. split; [done|]. destruct oc; [|done]. destruct H as [[] ?]. done.
Qed.

(** ** The round of a worker *)

Lemma swap_remove_spec l c rest : exists rest', swap_remove (length l) (l ++ c :: rest) = l ++ rest' /\ rest' ≡ₚ rest.
Proof.
  unfold swap_remove. destruct rest as [|b r0] using rev_ind; [|clear IHr0].
  - exists []. rewrite last_snoc, insert_app_r_alt, Nat.sub_diag, length_app by done. simpl.
    rewrite Nat.add_sub. split; [|done]. rewrite take_app_length' by done. by rewrite app_nil_r.
  - exists (b :: r0). rewrite app_comm_cons, app_assoc, last_snoc, <- app_assoc. simpl.
    rewrite insert_app_r_alt, Nat.sub_diag, length_app by done. simpl. split; [|by rewrite <- Permutation_cons_append].
    rewrite app_comm_cons, app_assoc. apply take_app_length'. rewrite !length_app. simpl. lia.
Qed.

Section Round.
Context (now now_ns : Z) (rules : option RuleSet) (store : SubscriberStore) (turns : Z -> Turn).
Context (HR : rules_ok rules) (HS : table_ok store).

(** A step of the trace is the turn of the connection in that slot. *)
Definition stepped (c : Conn) (fr : Z * Result) : Prop :=
  fr.1 = cn_fd c /\ exists s, conn_step now now_ns rules store (turns (cn_fd c)) c s = Some fr.2.

Definition survivors (trace : list (Z * Result)) : list Conn := omap (fun fr => rs_conn fr.2) trace.

Lemma serve_conns_spec olds i rest s : Forall conn_ok olds -> Forall conn_ok rest -> front_ok s ->
  (i <= length olds)%nat ->
  exists conns' s' trace,
    serve_conns now now_ns rules store turns (map cn_fd olds) i (take i olds ++ rest) s = Some (conns', s', trace) /\
    Forall2 stepped (rev (take i olds)) trace /\ conns' ≡ₚ survivors trace ++ rest /\
    Forall conn_ok conns' /\ front_ok s' /\ fs_accepted s' = fs_accepted s /\
    fs_closed s' + Z.of_nat (length conns') = fs_closed s + Z.of_nat (i + length rest).
Proof using HR HS.
  intros HO. revert rest s. induction i as [|i IH]; intros rest s Hrest HF Hi; simpl.
  { exists rest, s, []. split_and!; try done. }
  destruct (lookup_lt_is_Some_2 olds i) as [c Ec]; [lia|].
  pose proof (take_S_r olds i c Ec) as Et. rewrite Et, <- app_assoc. simpl.
  assert (length (take i olds) = i) as Li by (rewrite length_take; lia).
  rewrite lookup_app_r, Li, Nat.sub_diag by lia. cbn [mbind option_bind lookup list_lookup].
  change (map cn_fd olds !! i) with ((cn_fd <$> olds) !! i). rewrite list_lookup_fmap, Ec. cbn [fmap option_fmap option_map]. rewrite Z.eqb_refl.
  assert (conn_ok c) as OK by (exact (Forall_lookup_1 _ _ _ _ HO Ec)).
  destruct (conn_step_spec now now_ns rules store (turns (cn_fd c)) c s HR HS OK HF) as (r & Er & Hst & HF' & Ha & Hc & _).
  rewrite Er. cbn [mbind option_bind]. rewrite rev_unit. unfold stream_step in Hst.
  assert (stepped c (cn_fd c, r)) as Hstep by (split; [done|by exists s]).
  destruct (rs_conn r) as [c1|] eqn:Ec1.
  - assert (<[i:=c1]> (take i olds ++ c :: rest) = take i olds ++ c1 :: rest) as ->.
    { rewrite insert_app_r_alt, Li, Nat.sub_diag by lia. done. }
    destruct (IH (c1 :: rest) (rs_stats r)) as (conns' & s' & trace & -> & F2 & Pm & Fc & Hf & Ha' & Hc');
      [constructor; [apply Hst|done]|done|lia|].
    cbn [mbind option_bind]. eexists _, _, _. split; [done|]. split; [by constructor|].
    split; [unfold survivors; simpl; rewrite Ec1, Pm; unfold survivors; solve_Permutation|].
    simpl in *. split_and!; try done; try congruence. lia.
  - destruct (swap_remove_spec (take i olds) c rest) as (rest' & Es & Pr). rewrite Li in Es. rewrite Es.
    destruct (IH rest' (count_closed (rs_stats r))) as (conns' & s' & trace & -> & F2 & Pm & Fc & Hf & Ha' & Hc');
      [by rewrite Pr|done|lia|].
    cbn [mbind option_bind]. eexists _, _, _. split; [done|]. split; [by constructor|].
    split; [unfold survivors; simpl; rewrite Ec1, Pm, Pr; done|].
    simpl in *. split_and!; try done; try congruence. rewrite (Permutation_length Pr) in Hc'. lia.
Qed.

(** Slots beyond the polled ones hold connections accepted in this round. *)
Lemma serve_conns_new olds news s : Forall conn_ok olds ->
  serve_conns now now_ns rules store turns (map cn_fd olds) (length (olds ++ news)) (olds ++ news) s =
  serve_conns now now_ns rules store turns (map cn_fd olds) (length olds) (olds ++ news) s.
Proof using.
  intros HO. assert (forall k, (k <= length news)%nat ->
    serve_conns now now_ns rules store turns (map cn_fd olds) (length olds + k) (olds ++ news) s =
    serve_conns now now_ns rules store turns (map cn_fd olds) (length olds) (olds ++ news) s) as K.
  { induction k as [|k IH]; intros Hk; [by rewrite Nat.add_0_r|]. rewrite Nat.add_succ_r. simpl.
    destruct (lookup_lt_is_Some_2 (olds ++ news) (length olds + k)) as [c ->]; [rewrite length_app; lia|].
    cbn [mbind option_bind]. rewrite (lookup_ge_None_2 (map cn_fd olds)) by (rewrite length_map; lia).
    apply IH. lia. }
  rewrite length_app. by apply K.
Qed.
End Round.

Lemma accept_loop_spec n pend conns s : front_ok s ->
  exists news s', accept_loop n pend conns s = (conns ++ news, s') /\ Forall conn_ok news /\ front_ok s' /\
    map cn_fd news `prefix_of` map fst pend /\ (length news <= n)%nat /\
    ((length conns <= kMaxConnectionsPerWorker)%nat -> (length (conns ++ news) <= kMaxConnectionsPerWorker)%nat) /\
    fs_accepted s' = fs_accepted s + Z.of_nat (length news) /\ fs_closed s' = fs_closed s.
Proof.
  revert pend conns s. induction n as [|n IH]; intros pend conns s HF; simpl.
  { exists [], s. rewrite app_nil_r. split_and!; try done; [apply prefix_nil|simpl; lia]. }
  assert (forall s, front_ok s -> exists news s', (conns, s) = (conns ++ news, s') /\ Forall conn_ok news /\ front_ok s' /\
    map cn_fd news `prefix_of` map fst pend /\ (length news <= S n)%nat /\
    ((length conns <= kMaxConnectionsPerWorker)%nat -> (length (conns ++ news) <= kMaxConnectionsPerWorker)%nat) /\
    fs_accepted s' = fs_accepted s + Z.of_nat (length news) /\ fs_closed s' = fs_closed s) as K.
  { intros s0 H0. exists [], s0. rewrite app_nil_r. split_and!; try done; [apply prefix_nil|simpl; lia..]. }
  destruct pend as [|[fd clock] pend]; [by apply K|].
  destruct (Nat.ltb_spec (length conns) kMaxConnectionsPerWorker); [|by apply K].
  destruct (IH pend (conns ++ [new_connection fd clock]) (count_accepted s) HF)
    as (news & s' & -> & F & HF' & Pf & Ln & Mx & Ea & Ec). rewrite <- app_assoc in *.
  exists (new_connection fd clock :: news), s'. split_and!; try done.
  - constructor; [apply new_connection_ok|done].
  - simpl. by apply prefix_cons.
  - simpl. lia.
  - intros _. apply Mx. rewrite length_app. simpl. lia.
  - simpl in *. lia.
Qed.

Definition round_ok (r : Round) : Prop := rules_ok (rd_rules r) /\ table_ok (rd_store r).

(** A round serves every connection that was polled exactly once, with its own
    readiness, also when connections are closed on the way and the last one moves
    into their slot: the trace lists them from the last slot to the first, the
    connections that remain are the survivors and the newly accepted ones, the
    limit on connections holds, and accepted minus closed is the number alive. *)
Theorem round_serves_each_once r conns s : round_ok r -> rd_poll_failed r = false ->
  Forall conn_ok conns -> front_ok s -> (length conns <= kMaxConnectionsPerWorker)%nat ->
  exists conns' s' trace news, worker_round r conns s = Some (conns', s', trace) /\
    Forall2 (stepped (rd_now r) (rd_now_ns r) (rd_rules r) (rd_store r) (rd_turns r)) (rev conns) trace /\
    conns' ≡ₚ survivors trace ++ news /\ map cn_fd news `prefix_of` map fst (rd_accepted r) /\
    Forall conn_ok conns' /\ front_ok s' /\ (length conns' <= kMaxConnectionsPerWorker)%nat /\
    fs_accepted s' - fs_closed s' - Z.of_nat (length conns') = fs_accepted s - fs_closed s - Z.of_nat (length conns).
Proof.
  intros [HR HS] Hp HO HF HL. unfold worker_round. rewrite Hp.
  assert (exists news s1, (if rd_listener_ready r then accept_loop 64 (rd_accepted r) conns s else (conns, s)) =
    (conns ++ news, s1) /\ Forall conn_ok news /\ front_ok s1 /\ map cn_fd news `prefix_of` map fst (rd_accepted r) /\
    (length (conns ++ news) <= kMaxConnectionsPerWorker)%nat /\
    fs_accepted s1 = fs_accepted s + Z.of_nat (length news) /\ fs_closed s1 = fs_closed s)
    as (news & s1 & -> & Fn & HF1 & Pf & Mx & Ea & Ec).
  { destruct (rd_listener_ready r).
    - destruct (accept_loop_spec 64 (rd_accepted r) conns s HF) as (news & s' & E & ? & ? & ? & _ & ? & ? & ?).
      exists news, s'. split_and!; auto.
    - exists [], s. rewrite app_nil_r. split_and!; try done; [apply prefix_nil|simpl; lia]. }
  rewrite serve_conns_new by done.
  pose proof (serve_conns_spec (rd_now r) (rd_now_ns r) _ _ (rd_turns r) HR HS conns (length conns) news s1 HO Fn HF1)
    as H. rewrite firstn_all in H.
  destruct H as (conns' & s' & trace & -> & F2 & Pm & Fc & Hf & Ha & Hc); [done|]. exists conns', s', trace, news. split_and!; try done; [|lia].
  rewrite (Permutation_length Pm). pose proof (Forall2_length _ _ _ F2) as Lt. rewrite length_rev in Lt.
  assert (length (survivors trace) <= length trace)%nat.
  { clear. induction trace as [|x trace IH]; [done|]. unfold survivors in *. cbn. destruct (rs_conn x.2); cbn in *; lia. }
  rewrite length_app in *. lia.
Qed.

(** ** Samples *)

Lemma new_front_ok : exists s, new_front = Some s /\ front_ok s.
Proof.
  destruct service_ns_holds as (h0 & u & m & E & _). unfold new_front. rewrite E.
  eexists. split; [done|]. by exists h0, [].
Qed.

Lemma sample_rules_ok : rules_ok (Some sample_rule_set).
Proof. intros rs [= <-]. split; [by vm_compute|]. eexists _, _. apply sample_rule_set_ok. Qed.

Lemma empty_table_ok store : store_rep store ∅ -> table_ok store.
Proof. intros R. exists ∅. split; [done|apply map_Forall_empty]. Qed.

(** A request whose response leaves in two parts. *)
Definition sample_visits (store : SubscriberStore) : list Visit :=
  [mkVisit 0 10 (Some sample_rule_set) store
     (mkTurn false false true SendAgain (Received sample_input) (Sent 40) 700);
   mkVisit 0 20 (Some sample_rule_set) store
     (mkTurn false true false (Sent 1000) RecvAgain SendAgain 0)].

Lemma http_stream_intact_witness : exists store s oc wire replies,
  new_store 4 (dlit 5 (-1)) = Some store /\ new_front = Some s /\
  conn_life (sample_visits store) (new_connection 7 5) s = Some (oc, wire, replies) /\
  match oc with
  | Some c => strlen (c_in (cn_buf c)) < kRequestBufferBytes /\ (wire +:+ unsent c)%string = replies
  | None => exists cut, (wire +:+ cut)%string = replies
  end.
Proof.
  destruct empty_table_rep as (store & Es & R). destruct new_front_ok as (s & Ef & HF).
  destruct (http_stream_intact (sample_visits store) 7 5 s) as (oc & wire & replies & E & H).
  - apply Forall_cons; split; [|apply Forall_cons; split; [|constructor]];
      (split; [exact sample_rules_ok|exact (empty_table_ok store R)]).
  - exact HF.
  - exists store, s, oc, wire, replies. split; [exact Es|]. split; [exact Ef|]. split; [exact E|exact H].
Defined.

Lemma round_serves_each_once_witness : exists store s conns' s' trace,
  new_store 4 (dlit 5 (-1)) = Some store /\ new_front = Some s /\
  worker_round (mkRound false true [(9, 50)] (Some sample_rule_set) store 0 60
      (fun fd => mkTurn (fd =? 7) false (fd =? 8) SendAgain (Received sample_input) (Sent 1000) 300))
    [new_connection 7 1; new_connection 8 1] s = Some (conns', s', trace) /\
  map fst trace = [8; 7] /\ fs_accepted s' - fs_closed s' - Z.of_nat (length conns') = -2.
Proof.
  destruct empty_table_rep as (store & Es & R). destruct new_front_ok as (s & Ef & HF).
  destruct (round_serves_each_once (mkRound false true [(9, 50)] (Some sample_rule_set) store 0 60
      (fun fd => mkTurn (fd =? 7) false (fd =? 8) SendAgain (Received sample_input) (Sent 1000) 300))
    [new_connection 7 1; new_connection 8 1] s) as (conns' & s' & trace & news & E & F2 & _ & _ & _ & _ & _ & Ha).
  - split; [exact sample_rules_ok|exact (empty_table_ok store R)].
  - reflexivity.
  - exact (Forall_cons_2 _ _ _ (new_connection_ok 7 1) (Forall_cons_2 _ _ _ (new_connection_ok 8 1) (Forall_nil_2 _))).
  - exact HF.
  - vm_compute. lia.
  - exists store, s, conns', s', trace. split; [exact Es|]. split; [exact Ef|]. split; [exact E|]. split.
    + inversion F2 as [|c1 t1 l1 tr1 [H1 _] F2']; subst. inversion F2' as [|c2 t2 l2 tr2 [H2 _] F2'']; subst.
      inversion F2''; subst. simpl. by rewrite H1, H2.
    + rewrite Ha. unfold new_front in Ef. destruct service_ns; [|done]. injection Ef as <-. reflexivity.
Defined.

Definition one_request : string := ("GET /x HTTP/1.1" +:+ crlf +:+ crlf)%string.
Definition not_found_reply : string :=
  (response_head 404 "Not Found" (strlen (error_body "no such endpoint")) true +:+ error_body "no such endpoint")%string.

(** Two requests that arrive in one segment: the first is answered, the second stays
    in the buffer, complete but unserved, because serving is tied to readable input;
    with a client that waits for its answer the connection times out. *)
Lemma pipelined_request_stalls now rules store st :
  on_input now rules store (mkConn (one_request +:+ one_request)%string EmptyString false) st =
    Some (Replied, mkConn one_request not_found_reply false, count_not_found st) /\
  forall now_ns fd last s t, tn_in t = false ->
    exists r, conn_step now now_ns rules store t (mkConnection fd (mkConn one_request EmptyString false) 0 last) s =
      Some r /\ rs_reply r = EmptyString /\
      (kIdleTimeoutMs * 1000000 < u64 (now_ns - last) -> rs_conn r = None).
Proof.
  split; [by vm_compute|]. intros now_ns fd last s t Hin. unfold conn_step. rewrite Hin. simpl.
  destruct (tn_error t); [by eexists|]. eexists. split; [done|]. unfold if_idle, idle_expired. simpl.
  destruct (Z.ltb_spec (kIdleTimeoutMs * 1000000) (u64 (now_ns - last))); split; try done. lia.
Qed.
