(* ===== verification/Server.v ===== *)
(** * Server: the UDP worker loop

    src/server_udp.cpp, [worker_loop]: what a worker does with the outcome of one
    [recv_batch].  The socket, the cycle counter and the clocks are the environment:
    an [Event] is what they report in one turn of the loop.  Logging has no effect
    on the state and is left out, but for the rate limit that guards it. *)

From S2P Require Import Prelude Text Wire Double Probe Store Rules Engine Hdr Metrics.
From Stdlib Require Import ZArith Lia Bool.
From stdpp Require Import base list numbers gmap.
Local Open Scope Z_scope.

(** ** The environment of a turn *)

(** A received datagram, with the readings taken while it is served: the coarse
    clock, [cycles_now_ns] and the elapsed service time. *)
Record Datagram := mkDatagram { dg_bytes : list Z; dg_now : Z; dg_server_ts : Z; dg_service : Z }.

Inductive Errno := ENOBUFS | EAGAIN | EWOULDBLOCK | EOTHER.

(** The reply of [send_batch]: a negative number or the count the kernel took, the
    [errno] it left, and the clock read if some replies were dropped. *)
Record SendOutcome := mkSend { so_sent : Z; so_errno : Errno; so_now : Z }.

(** One turn of the loop.  The cycle counter is read once or twice when nothing was
    received, and once for a batch; the rule set is what the RCU read returned. *)
Inductive Event :=
  | RecvError
  | RecvNothing (cycles cycles_after_wait : Z)
  | RecvBatch (cycles : Z) (datagrams : list Datagram) (rules : option RuleSet)
      (store : SubscriberStore) (send : SendOutcome).

Record WorkerConfig := mkWorkerConfig { wc_little_endian : bool; wc_batch_size : Z; wc_busy_poll_cycles : Z }.

Record Worker := mkWorker { wk_metrics : WorkerMetrics; wk_idle_since : Z; wk_last_send_warn_ns : Z }.

(** ** Serving one datagram *)

(** [m.field += n], a field at a time: the other fields of the increment are zero. *)
Definition bump (d : Counters) (m : WorkerMetrics) : WorkerMetrics :=
  mkMetrics (add_counters (w_counters m) d) (verdicts m) (reasons m) (w_service_ns m).

Definition inc_requests : Counters := mkCounters 1 0 0 0 0 0 0 0 0 0 0 0 0 0 0.
Definition inc_short : Counters := mkCounters 0 0 1 0 0 0 0 0 0 0 0 0 0 0 0.
Definition inc_bad_magic : Counters := mkCounters 0 0 0 1 0 0 0 0 0 0 0 0 0 0 0.
Definition inc_unknown : Counters := mkCounters 0 0 0 0 1 0 0 0 0 0 0 0 0 0 0.
Definition inc_recv_errors : Counters := mkCounters 0 0 0 0 0 0 0 0 0 1 0 0 0 0 0.
Definition inc_idle : Counters := mkCounters 0 0 0 0 0 0 0 0 0 0 0 0 0 1 0.
Definition inc_waits : Counters := mkCounters 0 0 0 0 0 0 0 0 0 0 0 0 0 0 1.
Definition inc_batch (n : Z) (full : bool) : Counters :=
  mkCounters 0 0 0 0 0 0 0 0 0 0 1 n (if full then 1 else 0) 0 0.
Definition inc_sent (n : Z) : Counters := mkCounters 0 n 0 0 0 0 0 0 0 0 0 0 0 0 0.
Definition inc_dropped (n : Z) (e : Errno) : Counters :=
  match e with
  | ENOBUFS => mkCounters 0 0 0 0 0 n 0 n 0 0 0 0 0 0 0
  | EAGAIN | EWOULDBLOCK => mkCounters 0 0 0 0 0 n n 0 0 0 0 0 0 0 0
  | EOTHER => mkCounters 0 0 0 0 0 n 0 0 n 0 0 0 0 0 0
  end.

Definition set_server_ts (ts : Z) (d : PolicyDecision) : PolicyDecision :=
  mkDecision (d_magic_version d) (d_seq d) (d_client_ts_ns d) (d_quota_bytes d)
    (d_ambr_ul_kbps d) (d_ambr_dl_kbps d) (d_rating_group d) (d_quota_validity_s d)
    (d_rule_id d) (d_policy_version d) (d_verdict d) (d_reason d) (d_qos_5qi d)
    (d_arp d) (d_flags d) (d_redirect_id d) (d_reserved d) ts.

Definition record_service (ns : Z) (m : WorkerMetrics) : option WorkerMetrics :=
  h ← record ns (w_service_ns m); Some (mkMetrics (w_counters m) (verdicts m) (reasons m) h).

(** The local request, which the decoder overwrites: a datagram that gets this far
    has the size of a message. *)
Definition blank_request : PolicyRequest := mkRequest 0 0 0 0 0 0 0 0 0 0 0 0 0 0 0 0.

(** The decision for a datagram of the right size, and the counters it touches. *)
Definition decide_datagram (h : bool) (rs : RuleSet) (store : SubscriberStore) (dg : Datagram)
    (m : WorkerMetrics) : option (PolicyDecision * WorkerMetrics) :=
  match Wire.decode h (dg_bytes dg) blank_request with
  | (false, _) =>
      let req : PolicyRequest := mem_load h (dg_bytes dg) in
      Some (malformed_decision (rq_seq req) (rq_client_ts_ns req) (rs_version rs), bump inc_bad_magic m)
  | (true, req) =>
      rec ← Store.find store (rq_imsi req);
      let m := match rec with None => bump inc_unknown m | Some _ => m end in
      dec ← evaluate (dg_now dg) rs req rec;
      Some (dec, bump inc_requests m)
  end.

Definition serve_datagram (h : bool) (rs : RuleSet) (store : SubscriberStore) (dg : Datagram)
    (m : WorkerMetrics) : option (option (list Z) * WorkerMetrics) :=
  if negb (length (dg_bytes dg) =? kWireMsgSize)%nat then Some (None, bump inc_short m)
  else
    '(dec, m) ← decide_datagram h rs store dg m;
    let dec := set_server_ts (dg_server_ts dg) dec in
    m ← record_service (dg_service dg) m;
    Some (Some (Wire.encode h dec), note dec m).

(** The loop over the batch: the staged replies, each with the index of the datagram
    whose sender it goes to. *)
Fixpoint serve_batch (h : bool) (rs : RuleSet) (store : SubscriberStore) (i : nat) (dgs : list Datagram)
    (m : WorkerMetrics) : option (list (nat * list Z) * WorkerMetrics) :=
  match dgs with
  | [] => Some ([], m)
  | dg :: dgs =>
      '(reply, m) ← serve_datagram h rs store dg m;
      '(replies, m) ← serve_batch h rs store (S i) dgs m;
      Some (match reply with Some r => (i, r) :: replies | None => replies end, m)
  end.

(** ** Sending, and the turn of the loop *)

Definition account_send (out : Z) (o : SendOutcome) (last_warn : Z) (m : WorkerMetrics) : Z * WorkerMetrics :=
  let delivered := if so_sent o <? 0 then 0 else so_sent o in
  let m := bump (inc_sent delivered) m in
  if delivered <? out then
    (if 1000000000 <? u64 (so_now o - last_warn) then so_now o else last_warn,
     bump (inc_dropped (out - delivered) (so_errno o)) m)
  else (last_warn, m).

(** The replies given to [send_batch], and the worker after the turn. *)
Definition worker_step (cfg : WorkerConfig) (e : Event) (w : Worker) : option (list (nat * list Z) * Worker) :=
  let m := wk_metrics w in
  match e with
  | RecvError => Some ([], mkWorker (bump inc_recv_errors m) (wk_idle_since w) (wk_last_send_warn_ns w))
  | RecvNothing cycles after =>
      let m := bump inc_idle m in
      if (wc_busy_poll_cycles cfg =? 0) || (wc_busy_poll_cycles cfg <? u64 (cycles - wk_idle_since w))
      then Some ([], mkWorker (bump inc_waits m) after (wk_last_send_warn_ns w))
      else Some ([], mkWorker m (wk_idle_since w) (wk_last_send_warn_ns w))
  | RecvBatch cycles dgs rules store send =>
      let n := Z.of_nat (length dgs) in
      let m := bump (inc_batch n (n =? wc_batch_size cfg)) m in
      match rules with
      | None => Some ([], mkWorker m cycles (wk_last_send_warn_ns w))
      | Some rs =>
          '(replies, m) ← serve_batch (wc_little_endian cfg) rs store 0 dgs m;
          match replies with
          | [] => Some ([], mkWorker m cycles (wk_last_send_warn_ns w))
          | _ =>
              let '(last_warn, m) := account_send (Z.of_nat (length replies)) send (wk_last_send_warn_ns w) m in
              Some (replies, mkWorker m cycles last_warn)
          end
      end
  end.

Fixpoint worker_run (cfg : WorkerConfig) (es : list Event) (w : Worker)
    : option (list (list (nat * list Z)) * Worker) :=
  match es with
  | [] => Some ([], w)
  | e :: es =>
      '(out, w) ← worker_step cfg e w;
      '(outs, w) ← worker_run cfg es w;
      Some (out :: outs, w)
  end.

(** ** One datagram, one reply *)

Definition sized (dg : Datagram) : bool := (length (dg_bytes dg) =? kWireMsgSize)%nat.

Definition datagram_ok (dg : Datagram) : Prop :=
  Forall byte_ok (dg_bytes dg) /\ fits 64 (dg_server_ts dg).

(** What the table of subscribers stands for while the batch is served. *)
Definition store_ok (store : SubscriberStore) (subs : gmap Z SubscriberRecord) : Prop :=
  store_rep store subs /\ map_Forall (fun _ => record_ok) subs.

(** The decision a datagram of the right size calls for. *)
Definition answers (h : bool) (rs : RuleSet) (subs : gmap Z SubscriberRecord) (dg : Datagram)
    (d : PolicyDecision) : Prop :=
  match Wire.decode h (dg_bytes dg) blank_request with
  | (true, req) => exists d0, evaluate (dg_now dg) rs req (subs !! rq_imsi req) = Some d0 /\
      d = set_server_ts (dg_server_ts dg) d0
  | (false, _) => d = set_server_ts (dg_server_ts dg)
      (malformed_decision (rq_seq (mem_load h (dg_bytes dg))) (rq_client_ts_ns (mem_load h (dg_bytes dg)))
         (rs_version rs))
  end.

(** What serving a datagram may add to the counters. *)
Definition served (r s b u : Z) : Counters := mkCounters r 0 s b u 0 0 0 0 0 0 0 0 0 0.

Lemma add_served c r s b u r' s' b' u' :
  add_counters (add_counters c (served r s b u)) (served r' s' b' u') =
  add_counters c (served (r + r') (s + s') (b + b') (u + u')).
Proof. unfold add_counters, served; simpl. f_equal; lia. Qed.

Lemma set_server_ts_ok ts d : fits 64 ts -> msg_ok d -> msg_ok (set_server_ts ts d).
Proof.
  unfold msg_ok, fields_ok. simpl. unfold decision_widths, decision_fields. intros Ht H.
  repeat (apply Forall2_cons in H as [? H]). repeat (apply Forall2_cons; split); [done..|constructor].
Qed.

Lemma malformed_ok seq ts v : fits 32 seq -> fits 64 ts -> fits 32 v -> msg_ok (malformed_decision seq ts v).
Proof.
  intros. unfold msg_ok, fields_ok. simpl. unfold decision_widths, decision_fields. simpl.
  repeat (apply Forall2_cons; split); try done; by split.
Qed.

Lemma mem_load_ok h bs : Forall byte_ok bs -> length bs = kWireMsgSize -> msg_ok (mem_load h bs : PolicyRequest).
Proof.
  intros Hb Hl. unfold msg_ok, mem_load. rewrite msg_to_of by done. apply load_fields_ok; [done|].
  by rewrite msg_size.
Qed.

Lemma evaluate_magic now rs req rec d : evaluate now rs req rec = Some d -> d_magic_version d = kMagicVersion.
Proof. intros E. unfold evaluate in E. by apply bind_Some in E as (f & _ & [= <-]). Qed.

(** A block that recorded [vs] can record one more value. *)
Lemma record_service_records h0 m vs v : service_ns = Some h0 -> block_records h0 m vs ->
  exists m', record_service v m = Some m' /\ block_records h0 m' (vs ++ [v]) /\ w_counters m' = w_counters m.
Proof.
  intros E [Hv Hr Hh]. destruct (service_record h0 _ vs v E Hh) as (h & Er & Ea).
  unfold record_service. rewrite Er. eexists. split; [done|]. by split.
Qed.

Lemma note_records h0 m vs d : block_records h0 m vs -> block_records h0 (note d m) vs.
Proof.
  intros [Hv Hr Hh]. split; simpl; [..|done]; unfold bump_at; case_match; by rewrite ?length_alter.
Qed.

Lemma bump_records h0 m vs c : block_records h0 m vs -> block_records h0 (bump c m) vs.
Proof. by intros []. Qed.

Section Serve.
Context (h : bool) (rs : RuleSet) (P B : gset Z) (store : SubscriberStore) (subs : gmap Z SubscriberRecord).
Context (HR : rule_set_ok rs P B) (HS : store_ok store subs).

Lemma decide_datagram_spec dg m : datagram_ok dg -> length (dg_bytes dg) = kWireMsgSize ->
  exists d r b u, decide_datagram h rs store dg m = Some (d, bump (served r 0 b u) m) /\
    msg_ok d /\ d_magic_version d = kMagicVersion /\
    answers h rs subs dg (set_server_ts (dg_server_ts dg) d) /\ r + b = 1 /\ 0 <= b /\ 0 <= u <= r.
Proof using HR HS.
  intros [Hb Ht] Hl. pose proof (decode_msg_ok h (dg_bytes dg) blank_request Hb Hl) as Hq.
  unfold decide_datagram, answers. destruct (Wire.decode h (dg_bytes dg) blank_request) as [[|] req]; simpl in Hq.
  - destruct HS as [R C]. rewrite (find_lookup store subs (rq_imsi req) R). cbn [mbind option_bind].
    destruct (evaluate_fits (dg_now dg) rs P B req (subs !! rq_imsi req) HR) as (d & E & Hd).
    { by apply msg_ok_request_ok. }
    { intros x Hx. by apply (C (rq_imsi req)). }
    rewrite E. cbn [mbind option_bind].
    exists d, 1, 0, (match subs !! rq_imsi req with None => 1 | Some _ => 0 end).
    split; [|split_and!; [done|by eapply evaluate_magic|by exists d|done|done|by case_match..]].
    unfold bump, add_counters, inc_requests, inc_unknown, served. case_match; simpl; do 3 f_equal; f_equal; lia.
  - eexists _, 0, 1, 0. split; [reflexivity|].
    pose proof (mem_load_ok h (dg_bytes dg) Hb Hl) as Hm. apply msg_ok_request_ok in Hm as [].
    split_and!; [apply malformed_ok; [done..|apply HR]|done|done|lia..].
Qed.

(** Serving is total; a datagram of any other size is dropped and counted, any
    other gets the reply it calls for. *)
Lemma serve_datagram_spec h0 dg m vs : service_ns = Some h0 -> block_records h0 m vs -> datagram_ok dg ->
  exists reply m' r s b u, serve_datagram h rs store dg m = Some (reply, m') /\
    w_counters m' = add_counters (w_counters m) (served r s b u) /\
    0 <= b /\ 0 <= s /\ 0 <= u <= r /\ r + s + b = 1 /\
    block_records h0 m' (vs ++ if sized dg then [dg_service dg] else []) /\
    (if sized dg then r + b = 1 /\ exists d, reply = Some (Wire.encode h d) /\ msg_ok d /\
       d_magic_version d = kMagicVersion /\ answers h rs subs dg d
     else s = 1 /\ reply = None).
Proof using HR HS.
  intros E0 HB Hdg. unfold serve_datagram, sized. destruct (Nat.eqb_spec (length (dg_bytes dg)) kWireMsgSize) as [Hl|Hl].
  2: { eexists _, _, 0, 1, 0, 0. split; [reflexivity|]. split; [done|]. rewrite app_nil_r.
       split_and!; try lia; try done. by apply bump_records. }
  destruct (decide_datagram_spec dg m Hdg Hl) as (d & r & b & u & E & Hd & Hm & Ha & H1 & H2 & H3).
  rewrite E. cbn [negb mbind option_bind].
  destruct (record_service_records h0 (bump (served r 0 b u) m) vs (dg_service dg) E0) as (m' & -> & HB' & Ec).
  { by apply bump_records. }
  cbn [mbind option_bind]. eexists _, _, r, 0, b, u. split; [reflexivity|]. split; [simpl; by rewrite Ec|].
  split_and!; try lia; [by apply note_records|]. eexists. split; [done|].
  split; [apply set_server_ts_ok; [apply Hdg|done]|done].
Qed.

(** The indices, counted from [i], of the datagrams that get a reply. *)
Fixpoint sized_indices (i : nat) (dgs : list Datagram) : list nat :=
  match dgs with
  | [] => []
  | dg :: dgs => (if sized dg then [i] else []) ++ sized_indices (S i) dgs
  end.

Definition samples_of (dgs : list Datagram) : list Z := map dg_service (List.filter sized dgs).

(** The reply sent to the sender of datagram [j], of a batch counted from [i]. *)
Definition good_reply (i : nat) (dgs : list Datagram) (jr : nat * list Z) : Prop :=
  exists dg d, (i <= jr.1)%nat /\ dgs !! (jr.1 - i)%nat = Some dg /\ jr.2 = Wire.encode h d /\ msg_ok d /\
    d_magic_version d = kMagicVersion /\ answers h rs subs dg d.

Lemma good_reply_tail i dg dgs jr : good_reply (S i) dgs jr -> good_reply i (dg :: dgs) jr.
Proof using.
  intros (x & d & Hj & Hx & Hd). exists x, d. split; [lia|]. split; [|done].
  by replace (jr.1 - i)%nat with (S (jr.1 - S i)) by lia.
Qed.

Lemma serve_batch_spec h0 dgs i m vs : service_ns = Some h0 -> block_records h0 m vs -> Forall datagram_ok dgs ->
  exists replies m' r s b u, serve_batch h rs store i dgs m = Some (replies, m') /\
    w_counters m' = add_counters (w_counters m) (served r s b u) /\
    0 <= b /\ 0 <= s /\ 0 <= u <= r /\ r + s + b = Z.of_nat (length dgs) /\ r + b = Z.of_nat (length replies) /\
    block_records h0 m' (vs ++ samples_of dgs) /\
    replies.*1 = sized_indices i dgs /\ Forall (good_reply i dgs) replies.
Proof using HR HS.
  intros E0 HB F. revert i m vs HB. induction F as [|dg dgs Hdg _ IH]; intros i m vs HB.
  { exists [], m, 0, 0, 0, 0. split; [done|]. split.
    { destruct m as [[] ? ? ?]. unfold add_counters, served. simpl. f_equal; lia. }
    unfold samples_of. simpl. rewrite app_nil_r. split_and!; try lia; done. }
  destruct (serve_datagram_spec h0 dg m vs E0 HB Hdg)
    as (reply & m1 & r & s & b & u & E & Ec & H1 & H2 & H3 & H4 & HB1 & Hr).
  destruct (IH (S i) m1 _ HB1) as (replies & m2 & r' & s' & b' & u' & E' & Ec' & H1' & H2' & H3' & H4' & H5' & HB2 & Hi & Hg).
  simpl. rewrite E. cbn [mbind option_bind]. rewrite E'. cbn [mbind option_bind].
  eexists _, m2, (r + r'), (s + s'), (b + b'), (u + u'). split; [reflexivity|].
  split; [by rewrite Ec', Ec, add_served|]. rewrite <- app_assoc in HB2. unfold samples_of.
  assert (Forall (good_reply i (dg :: dgs)) replies) as Hg'
    by (eapply list.Forall_impl; [exact Hg|apply good_reply_tail]). cbn [List.filter].
  destruct (sized dg); [destruct Hr as [Hr (d & -> & Hd)]|destruct Hr as [Hr ->]]; simpl length;
    split_and!; try lia; try done.
  - rewrite fmap_cons, Hi. done.
  - constructor; [|done]. exists dg, d. split; [done|]. simpl. by rewrite Nat.sub_diag.
Qed.
End Serve.

(** ** The books of a worker *)

(** The environment keeps its side: bytes are bytes, the rule set is well formed,
    the table is one, and no more replies are sent than were staged. *)
Definition event_ok (e : Event) : Prop :=
  match e with
  | RecvBatch _ dgs rules store send =>
      Forall datagram_ok dgs /\ (forall rs, rules = Some rs -> exists P B, rule_set_ok rs P B) /\
      (exists subs, store_ok store subs) /\ so_sent send <= Z.of_nat (length (List.filter sized dgs))
  | _ => True
  end.

(** Datagrams of a batch that arrives before any rule set is loaded are dropped. *)
Definition unserved (e : Event) : Z :=
  match e with RecvBatch _ dgs None _ _ => Z.of_nat (length dgs) | _ => 0 end.
Definition is_batch (e : Event) : Z := match e with RecvBatch _ _ _ _ _ => 1 | _ => 0 end.
Definition event_samples (e : Event) : list Z :=
  match e with RecvBatch _ dgs (Some _) _ _ => samples_of dgs | _ => [] end.
Definition reply_count {A} (outs : list (list A)) : Z := sumZ (map (fun o => Z.of_nat (length o)) outs).

Record balance (c : Counters) (staged lost batched : Z) : Prop := {
  bl_staged : requests c + bad_magic c = staged;
  bl_sent : replies_sent c + send_failures c = staged;
  bl_failures : send_failures c = send_wouldblock c + send_nobufs c + send_errors c;
  bl_datagrams : requests c + bad_magic c + short_datagrams c + lost = batch_datagrams c;
  bl_batches : batches c = batched;
  bl_unknown : 0 <= unknown_subscriber c <= requests c;
  bl_nonneg : 0 <= bad_magic c /\ 0 <= short_datagrams c /\ 0 <= replies_sent c /\ 0 <= send_failures c;
  bl_waits : 0 <= blocking_waits c <= idle_spins c;
  bl_full : 0 <= full_batches c <= batches c }.

Lemma sized_indices_length i dgs : length (sized_indices i dgs) = length (List.filter sized dgs).
Proof.
  revert i. induction dgs as [|dg dgs IH]; intros i; simpl; [done|].
  rewrite length_app, IH. by destruct (sized dg).
Qed.

(** The part of the books that a send settles: [out] replies are staged and not yet
    accounted for. *)
Lemma account_send_balance out o lw m c a l n r s b u full : 0 < out -> so_sent o <= out ->
  balance c a l n -> r + b = out -> 0 <= b -> 0 <= s -> 0 <= u <= r ->
  w_counters m = add_counters (add_counters c (inc_batch (r + s + b) full)) (served r s b u) ->
  balance (w_counters (account_send out o lw m).2) (a + out) l (n + 1).
Proof.
  intros H1 H2 [B1 B2 B3 B4 B5 B6 B7 B8 B9] H3 H4 H5 H6 Ec. unfold account_send.
  set (delivered := if so_sent o <? 0 then 0 else so_sent o).
  assert (0 <= delivered <= out) as Hd by (unfold delivered; destruct (Z.ltb_spec (so_sent o) 0); lia).
  destruct (Z.ltb_spec delivered out); simpl; rewrite Ec; [destruct (so_errno o)|];
    destruct full; split; simpl; lia.
Qed.

(** Every turn ends, keeps the books balanced and records the service times. *)
Lemma worker_step_balance cfg h0 e w vs a l n : service_ns = Some h0 -> event_ok e ->
  block_records h0 (wk_metrics w) vs -> balance (w_counters (wk_metrics w)) a l n ->
  exists out w', worker_step cfg e w = Some (out, w') /\
    block_records h0 (wk_metrics w') (vs ++ event_samples e) /\
    balance (w_counters (wk_metrics w')) (a + Z.of_nat (length out)) (l + unserved e) (n + is_batch e).
Proof.
  intros E0 He HB HL. pose proof HL as [B1 B2 B3 B4 B5 B6 B7 B8 B9].
  destruct e as [|c1 c2|cy dgs rules store send]; simpl; rewrite ?app_nil_r.
  - eexists _, _. split; [reflexivity|]. split; [by apply bump_records|]. split; simpl; lia.
  - case_match; eexists _, _; (split; [reflexivity|]); (split; [by repeat apply bump_records|]); split; simpl; lia.
  - destruct He as (F & HR & [subs HS] & Hsent). set (full := Z.of_nat (length dgs) =? wc_batch_size cfg).
    destruct rules as [rs|]; rewrite ?app_nil_r.
    2: { eexists _, _. split; [reflexivity|]. split; [by apply bump_records|]. destruct full; split; simpl; lia. }
    destruct (HR rs eq_refl) as (P & B & HRs).
    destruct (serve_batch_spec (wc_little_endian cfg) rs P B store subs HRs HS h0 dgs 0
      (bump (inc_batch (Z.of_nat (length dgs)) full) (wk_metrics w)) vs E0)
      as (replies & m' & r & s & b & u & E & Ec & H1 & H2 & H3 & H4 & H5 & HB' & Hi & _);
      [by apply bump_records|done|].
    rewrite E. cbn [mbind option_bind]. rewrite <- H4 in Ec. destruct replies as [|rp replies'] eqn:Er.
    { eexists _, _. split; [reflexivity|]. split; [done|]. simpl. rewrite Ec. simpl in H5.
      destruct full; split; simpl; lia. }
    rewrite <- Er in *. assert (0 < Z.of_nat (length replies)) as Hp by (rewrite Er; simpl; lia).
    rewrite <- (sized_indices_length 0), <- Hi, length_fmap in Hsent.
    pose proof (account_send_balance (Z.of_nat (length replies)) send (wk_last_send_warn_ns w) m'
      _ a l n r s b u full Hp Hsent HL H5 H1 H2 H3 Ec) as HL'.
    assert (block_records h0 (account_send (Z.of_nat (length replies)) send (wk_last_send_warn_ns w) m').2
      (vs ++ samples_of dgs)) as HB2.
    { unfold account_send. case_match; simpl; by repeat apply bump_records. }
    destruct (account_send _ _ _ _) as [lw m2]. eexists _, _. split; [reflexivity|]. simpl in *.
    split; [done|]. by rewrite Z.add_0_r.
Qed.

Lemma worker_run_balance cfg h0 es w vs a l n : service_ns = Some h0 -> Forall event_ok es ->
  block_records h0 (wk_metrics w) vs -> balance (w_counters (wk_metrics w)) a l n ->
  exists outs w', worker_run cfg es w = Some (outs, w') /\
    block_records h0 (wk_metrics w') (vs ++ concat (map event_samples es)) /\
    balance (w_counters (wk_metrics w')) (a + reply_count outs) (l + sumZ (map unserved es))
      (n + sumZ (map is_batch es)).
Proof.
  intros E0 F. revert w vs a l n. induction F as [|e es He _ IH]; intros w vs a l n HB HL; simpl.
  { exists [], w. rewrite app_nil_r, !Z.add_0_r. done. }
  destruct (worker_step_balance cfg h0 e w vs a l n E0 He HB HL) as (out & w1 & -> & HB1 & HL1).
  cbn [mbind option_bind]. destruct (IH w1 _ _ _ _ HB1 HL1) as (outs & w2 & -> & HB2 & HL2).
  cbn [mbind option_bind]. exists (out :: outs), w2. split; [done|]. rewrite app_assoc. split; [done|].
  unfold reply_count in *. simpl. by rewrite !Z.add_assoc.
Qed.


Lemma account_send_sent out o lw m :
  replies_sent (w_counters (account_send out o lw m).2) = replies_sent (w_counters m) + Z.max 0 (so_sent o).
Proof.
  unfold account_send. destruct (Z.ltb_spec (so_sent o) 0); case_match; simpl; destruct (so_errno o); simpl; lia.
Qed.

(** A batch served under a rule set: the replies do not depend on what becomes of the
    send, and what the kernel took of them is what is added to [replies_sent]. *)
Lemma step_serves cfg cycles dgs rs P B store subs w h0 vs :
  service_ns = Some h0 -> block_records h0 (wk_metrics w) vs -> rule_set_ok rs P B -> store_ok store subs ->
  Forall datagram_ok dgs ->
  exists replies, replies.*1 = sized_indices 0 dgs /\ Forall (good_reply (wc_little_endian cfg) rs subs 0 dgs) replies /\
    forall send, exists w', worker_step cfg (RecvBatch cycles dgs (Some rs) store send) w = Some (replies, w') /\
      replies_sent (w_counters (wk_metrics w')) = replies_sent (w_counters (wk_metrics w)) +
        match replies with [] => 0 | _ => Z.max 0 (so_sent send) end.
Proof.
  intros E0 HB HR HS F. simpl. set (full := Z.of_nat (length dgs) =? wc_batch_size cfg).
  destruct (serve_batch_spec (wc_little_endian cfg) rs P B store subs HR HS h0 dgs 0
      (bump (inc_batch (Z.of_nat (length dgs)) full) (wk_metrics w)) vs E0)
      as (replies & m' & r & s & b & u & E & Ec & _ & _ & _ & _ & _ & _ & Hi & Hg);
      [by apply bump_records|done|].
  exists replies. split; [done|]. split; [done|]. intros send. rewrite E. cbn [mbind option_bind].
  assert (replies_sent (w_counters m') = replies_sent (w_counters (wk_metrics w))) as Es by (rewrite Ec; simpl; lia).
  destruct replies as [|rp replies]; [eexists; split; [done|]; simpl; lia|].
  pose proof (account_send_sent (Z.of_nat (length (rp :: replies))) send (wk_last_send_warn_ns w) m') as Ea.
  destruct (account_send _ _ _ _) as [lw m2]. eexists. split; [done|]. simpl in *. lia.
Qed.

(** C8: The replies of a batch: each datagram of 64 bytes gets one reply, addressed to
    its sender, and no other datagram gets any; a client of any byte order decodes it
    as the engine's decision on the request and on the sender's record in the table,
    or, for an unknown magic, as the malformed-request denial. *)
Theorem batch_replies cfg cycles dgs rs P B store subs send w h0 vs h' out :
  service_ns = Some h0 -> block_records h0 (wk_metrics w) vs -> rule_set_ok rs P B -> store_ok store subs ->
  Forall datagram_ok dgs ->
  exists replies w', worker_step cfg (RecvBatch cycles dgs (Some rs) store send) w = Some (replies, w') /\
    replies.*1 = sized_indices 0 dgs /\
    forall i bs, (i, bs) ∈ replies -> exists dg d, dgs !! i = Some dg /\ length bs = kWireMsgSize /\
      Wire.decode h' bs out = (true, d) /\ answers (wc_little_endian cfg) rs subs dg d.
Proof.
  intros E0 HB HR HS F.
  destruct (step_serves cfg cycles dgs rs P B store subs w h0 vs E0 HB HR HS F) as (replies & Hi & Hg & Hs).
  destruct (Hs send) as (w' & E & _). exists replies, w'. split; [done|]. split; [done|]. intros i bs Hin.
  rewrite list.Forall_forall in Hg. destruct (Hg _ Hin) as (dg & d & _ & Hdg & Hbs & Hd & Hm & Ha).
  simpl in Hdg, Hbs. rewrite Nat.sub_0_r in Hdg. exists dg, d. subst bs. split; [done|].
  split; [by apply encode_length|]. split; [|done]. rewrite Wire.decode_encode by done. simpl. by rewrite Hm.
Qed.

(** ** Samples *)

Definition sample_batch : list Datagram :=
  [mkDatagram (Wire.encode true sample_request) 0 1000 700; mkDatagram [1; 2; 3] 0 2000 0;
   mkDatagram (replicate 64 255) 0 3000 400].

Lemma sample_batch_ok : Forall datagram_ok sample_batch.
Proof.
  assert (forallb (fun dg => forallb (fun b => (0 <=? b) && (b <? 256)) (dg_bytes dg) &&
    (0 <=? dg_server_ts dg) && (dg_server_ts dg <? 2 ^ 64)) sample_batch = true) as E by (by vm_compute).
  apply list.Forall_forall. intros dg Hdg. rewrite forallb_forall in E. specialize (E dg). rewrite <- list_elem_of_In in E.
  specialize (E Hdg). apply andb_prop in E as [E E2]. apply andb_prop in E as [E E1]. split; [|split; lia].
  apply list.Forall_forall. intros b Hb. rewrite forallb_forall in E. specialize (E b). rewrite <- list_elem_of_In in E.
  specialize (E Hb). unfold byte_ok. lia.
Qed.

Lemma empty_table : exists store, new_store 4 (dlit 5 (-1)) = Some store /\ store_ok store ∅.
Proof.
  destruct empty_table_rep as (store & Es & R). exists store. split; [done|]. split; [done|apply map_Forall_empty].
Qed.

Definition sample_config : WorkerConfig := mkWorkerConfig true 32 0.


Lemma batch_replies_witness : exists store m0 replies w', new_store 4 (dlit 5 (-1)) = Some store /\
  new_metrics = Some m0 /\
  worker_step sample_config (RecvBatch 30 sample_batch (Some sample_rule_set) store (mkSend 2 EOTHER 0))
    (mkWorker m0 0 0) = Some (replies, w') /\ replies.*1 = [0; 2]%nat.
Proof.
  destruct empty_table as (store & Es & HS). destruct service_ns_holds as (h0 & u & m & E & _).
  assert (new_metrics = Some (mkMetrics zero_counters (replicate 3 0) (replicate (Z.to_nat kReasonCount) 0) h0))
    as Em by (unfold new_metrics; by rewrite E).
  destruct (batch_replies sample_config 30 sample_batch sample_rule_set (list_to_set [310410] ∖ {[0]})
    (list_to_set [350000000000001] ∖ {[0]}) store ∅ (mkSend 2 EOTHER 0)
    (mkWorker (mkMetrics zero_counters (replicate 3 0) (replicate (Z.to_nat kReasonCount) 0) h0) 0 0)
    h0 [] false (decision_of_fields []) E) as (replies & w' & Er & Hi & _).
  - by split.
  - exact sample_rule_set_ok.
  - exact HS.
  - exact sample_batch_ok.
  - exists store; eexists _, replies, w'. split; [exact Es|]. split; [exact Em|]. split; [exact Er|exact Hi].
Defined.

(** A big-endian host echoes the sequence number of a bad-magic datagram without
    undoing the byte order of the wire: a client that sent 7 reads 0x07000000. *)
Lemma bad_magic_echo_unswapped : forall rs store now ts ns m,
  let bytes := [0; 0; 0; 0; 7; 0; 0; 0] ++ replicate 56 0 in
  option_map (fun r => d_seq r.1) (decide_datagram true rs store (mkDatagram bytes now ts ns) m) = Some 7 /\
  option_map (fun r => d_seq r.1) (decide_datagram false rs store (mkDatagram bytes now ts ns) m) = Some 0x07000000.
Proof. intros. split; by vm_compute. Qed.
