(* ===== verification/IoUring.v ===== *)
(** * IoUring: the io_uring worker

    src/server_iouring.cpp: the pools of receive and send slots, arming, the
    completion loop and the counters of [worker_loop].  The kernel and liburing are
    the environment: [sq_room] says whether [io_uring_get_sqe] finds a free entry
    when so many are queued, and a round tells how many entries the kernel took, the
    result of the wait and the completions it delivered.  A send slot is memory that
    the kernel reads while the operation is in flight, so a submission holds only
    the index of its slot. *)

From S2P Require Import Prelude Text Wire Double Probe Store Rules Engine Hdr Metrics Server.
From Stdlib Require Import ZArith Lia Bool.
From stdpp Require Import base list numbers gmap.
Local Open Scope Z_scope.

Definition kOpRecv : Z := 0.
Definition kOpSend : Z := 1.
Definition make_user_data (op idx : Z) : Z := Z.lor (u64 (Z.shiftl op 32)) idx.
Definition user_data_op (ud : Z) : Z := Z.shiftr ud 32.
Definition user_data_idx (ud : Z) : Z := Z.land ud 0xFFFFFFFF.

(** The peer address and the buffer; the message header and the vector of the C
    struct only point at them. *)
Record IoSlot := mkSlot { sl_addr : Z; sl_buf : list Z }.
Definition init_slot : IoSlot := mkSlot 0 (replicate kWireMsgSize 0).

(** [ur_sq] are the entries queued for the kernel, [ur_flight] those it has taken
    and not completed, both by their user data; [ur_free] is [free_send] with the
    back of the vector first. *)
Record Uring := mkUring {
  ur_sq : list Z; ur_flight : list Z; ur_free : list Z;
  ur_recv : list IoSlot; ur_send : list IoSlot; ur_metrics : WorkerMetrics }.

(** [static_cast<unsigned>(next_pow2(batch * 4))] *)
Definition ring_entries (batch : Z) : option Z := n ← next_pow2 (u32 (batch * 4)); Some (u32 n).

(** A completion, with what the kernel left in the slot of a receive and the
    readings taken while it is served. *)
Inductive UErrno := UAgain | UIntr | UNoBufs | UOther.
Record Cqe := mkCqe {
  cq_data : Z; cq_res : UErrno + Z; cq_addr : Z; cq_buf : list Z; cq_now : Z; cq_server_ts : Z; cq_service : Z }.

(** [rd_hard]: the wait failed with something other than ETIME, EINTR or EAGAIN. *)
Record URound := mkURound {
  rd_taken : nat; rd_hard : bool; rd_rules : option RuleSet; rd_store : SubscriberStore; rd_cqes : list Cqe }.

(** What a round did with replies: queued into a slot, read from a slot by a send
    that succeeded, or by one that failed. *)
Record Outcome := mkOutcome {
  oc_queued : list (Z * list Z); oc_sent : list (Z * list Z); oc_failed : list (Z * list Z) }.
Definition no_outcome : Outcome := mkOutcome [] [] [].
Definition add_outcome (a b : Outcome) : Outcome :=
  mkOutcome (oc_queued a ++ oc_queued b) (oc_sent a ++ oc_sent b) (oc_failed a ++ oc_failed b).

Definition slot_msg (s : IoSlot) : Z * list Z := (sl_addr s, sl_buf s).

Definition inc_send_error (e : UErrno) : Counters :=
  match e with
  | UNoBufs => inc_dropped 1 ENOBUFS
  | UAgain => inc_dropped 1 EAGAIN
  | UIntr | UOther => inc_dropped 1 EOTHER
  end.

Section Worker.
Context (little_endian : bool) (batch : Z) (sq_room : nat -> bool).

Definition set_metrics (m : WorkerMetrics) (u : Uring) : Uring :=
  mkUring (ur_sq u) (ur_flight u) (ur_free u) (ur_recv u) (ur_send u) m.
Definition queue (ud : Z) (u : Uring) : option Uring :=
  if sq_room (length (ur_sq u))
  then Some (mkUring (ur_sq u ++ [ud]) (ur_flight u) (ur_free u) (ur_recv u) (ur_send u) (ur_metrics u))
  else None.

(** The result [false] of [arm_recv] only matters at start-up. *)
Definition arm_recv (i : Z) (u : Uring) : bool * Uring :=
  match queue (make_user_data kOpRecv i) u with Some u => (true, u) | None => (false, u) end.

Fixpoint arm_all (n : nat) (i : Z) (u : Uring) : Uring :=
  match n with
  | O => u
  | S n => let '(ok, u) := arm_recv i u in if ok then arm_all n (i + 1) u else u
  end.

Definition uring_start (m : WorkerMetrics) : Uring :=
  arm_all (Z.to_nat batch) 0
    (mkUring [] [] (seqZ 0 (2 * batch)) (replicate (Z.to_nat batch) init_slot)
       (replicate (Z.to_nat (2 * batch)) init_slot) m).

(** A completed send gives its slot back. *)
Definition complete_send (idx : Z) (res : UErrno + Z) (u : Uring) : option (Uring * Outcome) :=
  slot ← ur_send u !! Z.to_nat idx;
  let '(c, o) := match res with
    | inl e => (inc_send_error e, mkOutcome [] [] [slot_msg slot])
    | inr _ => (inc_sent 1, mkOutcome [] [slot_msg slot] [])
    end in
  Some (mkUring (ur_sq u) (ur_flight u) (idx :: ur_free u) (ur_recv u) (ur_send u) (bump c (ur_metrics u)), o).

(** The reply is written to the slot at the back of the free list, and the slot is
    taken when the submission queue has room. *)
Definition stage_reply (addr : Z) (reply : list Z) (u : Uring) : option (Uring * Outcome) :=
  let dropped u := Some (set_metrics (bump (inc_dropped 1 EWOULDBLOCK) (ur_metrics u)) u, no_outcome) in
  match ur_free u with
  | [] => dropped u
  | s :: free =>
      _ ← ur_send u !! Z.to_nat s;
      let u := mkUring (ur_sq u) (ur_flight u) (ur_free u) (ur_recv u)
                 (<[Z.to_nat s := mkSlot addr reply]> (ur_send u)) (ur_metrics u) in
      match queue (make_user_data kOpSend s) u with
      | Some u => Some (mkUring (ur_sq u) (ur_flight u) free (ur_recv u) (ur_send u) (ur_metrics u),
                        mkOutcome [(addr, reply)] [] [])
      | None => dropped u
      end
  end.

Definition datagram_of (slot : IoSlot) (c : Cqe) : Datagram :=
  mkDatagram (sl_buf slot) (cq_now c) (cq_server_ts c) (cq_service c).

(** A received datagram; the flag is whether it counts as processed. *)
Definition complete_recv (rules : option RuleSet) (store : SubscriberStore) (idx : Z) (c : Cqe) (u : Uring)
  : option (Uring * Outcome * bool) :=
  match cq_res c with
  | inl e =>
      let u := match e with UAgain | UIntr => u | _ => set_metrics (bump inc_recv_errors (ur_metrics u)) u end in
      Some ((arm_recv idx u).2, no_outcome, false)
  | inr n =>
      match (if n =? Z.of_nat kWireMsgSize then rules else None) with
      | None =>
          let u := if n =? Z.of_nat kWireMsgSize then u else set_metrics (bump inc_short (ur_metrics u)) u in
          Some ((arm_recv idx u).2, no_outcome, false)
      | Some rs =>
          slot ← ur_recv u !! Z.to_nat idx;
          '(dec, m) ← decide_datagram little_endian rs store (datagram_of slot c) (ur_metrics u);
          let dec := set_server_ts (cq_server_ts c) dec in
          '(u, o) ← stage_reply (sl_addr slot) (Wire.encode little_endian dec) (set_metrics m u);
          m ← record_service (cq_service c) (ur_metrics u);
          Some ((arm_recv idx (set_metrics (note dec m) u)).2, o, true)
      end
  end.

(** The kernel removes the operation and fills the slot of a receive; then the loop
    body runs. *)
Fixpoint take_op (ud : Z) (l : list Z) : option (list Z) :=
  match l with
  | [] => None
  | x :: l => if x =? ud then Some l else (fun l => x :: l) <$> take_op ud l
  end.
Definition kernel_completes (c : Cqe) (u : Uring) : option Uring :=
  flight ← take_op (cq_data c) (ur_flight u);
  let recv := if user_data_op (cq_data c) =? kOpSend then ur_recv u
              else <[Z.to_nat (user_data_idx (cq_data c)) := mkSlot (cq_addr c) (cq_buf c)]> (ur_recv u) in
  Some (mkUring (ur_sq u) flight (ur_free u) recv (ur_send u) (ur_metrics u)).

Definition process_cqe (rules : option RuleSet) (store : SubscriberStore) (c : Cqe) (u : Uring)
  : option (Uring * Outcome * bool) :=
  let idx := user_data_idx (cq_data c) in
  if user_data_op (cq_data c) =? kOpSend then
    '(u, o) ← complete_send idx (cq_res c) u; Some (u, o, false)
  else complete_recv rules store idx c u.

Fixpoint reap (rules : option RuleSet) (store : SubscriberStore) (cqes : list Cqe) (processed : Z) (u : Uring)
  : option (Uring * Outcome * Z) :=
  match cqes with
  | [] => Some (u, no_outcome, processed)
  | c :: cqes =>
      u ← kernel_completes c u;
      '(u, o, b) ← process_cqe rules store c u;
      '(u, o', processed) ← reap rules store cqes (if b : bool then processed + 1 else processed) u;
      Some (u, add_outcome o o', processed)
  end.

Definition submit (n : nat) (u : Uring) : Uring :=
  mkUring (drop n (ur_sq u)) (ur_flight u ++ take n (ur_sq u)) (ur_free u) (ur_recv u) (ur_send u) (ur_metrics u).

(** One turn of the loop. *)
Definition uring_round (r : URound) (u : Uring) : option (Uring * Outcome) :=
  let u := submit (rd_taken r) u in
  if rd_hard r then Some (u, no_outcome)
  else
    '(u, o, processed) ← reap (rd_rules r) (rd_store r) (rd_cqes r) 0 u;
    let c := if 0 <? processed then inc_batch processed (batch <=? processed) else add_counters inc_idle inc_waits in
    Some (set_metrics (bump c (ur_metrics u)) u, o).
End Worker.

(** ** User data *)

Lemma user_data_value op idx : op = kOpRecv \/ op = kOpSend -> fits 32 idx ->
  make_user_data op idx = op * 2 ^ 32 + idx.
Proof.
  intros Hop [H0 H1]. unfold make_user_data.
  assert (u64 (Z.shiftl op 32) = op * 2 ^ 32) as -> by (by destruct Hop as [->| ->]).
  rewrite <- (Z.add_lor_land (op * 2 ^ 32) idx).
  assert (Z.land (op * 2 ^ 32) idx = 0) as ->; [|lia].
  apply Z.bits_inj'. intros n Hn. rewrite Z.land_spec, Z.testbit_0_l, <- Z.shiftl_mul_pow2, Z.shiftl_spec by lia.
  destruct (Z.ltb_spec n 32); [by rewrite Z.testbit_neg_r by lia|].
  rewrite andb_comm. replace (Z.testbit idx n) with false; [done|]. symmetry.
  by apply (proj1 (fits_testbit 32 idx ltac:(lia)) ltac:(by split)).
Qed.
Lemma user_data_roundtrip op idx : op = kOpRecv \/ op = kOpSend -> fits 32 idx ->
  user_data_op (make_user_data op idx) = op /\ user_data_idx (make_user_data op idx) = idx.
Proof.
  intros Hop Hi. rewrite user_data_value by done. destruct Hi as [H0 H1]. unfold user_data_op, user_data_idx.
  rewrite Z.shiftr_div_pow2 by lia. change 0xFFFFFFFF with (Z.ones 32). rewrite Z.land_ones by lia.
  split; [rewrite Z.div_add_l, Z.div_small by lia; lia|].
  rewrite Z.add_comm, Z_mod_plus_full. apply Z.mod_small. lia.
Qed.

(** ** The pools *)

Lemma take_op_perm ud l l' : take_op ud l = Some l' -> l ≡ₚ ud :: l'.
Proof.
  revert l'. induction l as [|x l IH]; intros l'; simpl; [done|].
  destruct (Z.eqb_spec x ud) as [->|Hx]; [by intros [= ->]|].
  destruct (take_op ud l) as [l1|]; [|done]. intros [= <-]. rewrite (IH l1 eq_refl). apply Permutation_swap.
Qed.
Lemma take_op_elem ud l : ud ∈ l -> exists l', take_op ud l = Some l'.
Proof.
  induction l as [|x l IH]; [by intros ?%elem_of_nil|]. intros H. simpl.
  destruct (Z.eqb_spec x ud) as [->|Hx]; [by eexists|].
  apply elem_of_cons in H as [->|H]; [done|]. destruct (IH H) as [l' ->]. by eexists.
Qed.

Lemma seqZ_length n : 0 <= n -> length (seqZ 0 n) = Z.to_nat n.
Proof. intros. by rewrite length_seqZ. Qed.

(** The balance of the counters: replies owed and not yet accounted for. *)
Definition balance (m : WorkerMetrics) : Z :=
  let c := w_counters m in requests c + bad_magic c - replies_sent c - send_failures c.
Lemma balance_bump c m : balance (bump c m) = balance m + (requests c + bad_magic c - replies_sent c - send_failures c).
Proof. unfold balance. simpl. lia. Qed.

Definition slot_at (u : Uring) (j : Z) : Z * list Z := slot_msg (nth (Z.to_nat j) (ur_send u) init_slot).
(** The messages in the slots of [busy]. *)
Definition pend (busy : list Z) (u : Uring) : list (Z * list Z) := map (slot_at u) busy.

Section Invariant.
Context (little_endian : bool) (batch : Z) (sq_room : nat -> bool).
Context (Hbatch : 0 < batch <= 1024).
(** Documented of [io_uring_get_sqe]: it finds an entry while the queue is not full. *)
Context (Hroom : forall n, Z.of_nat n < 4 * batch -> sq_room n = true).

Definition recv_ops (l : list Z) : list Z := map (make_user_data kOpRecv) l.
Definition send_ops (l : list Z) : list Z := map (make_user_data kOpSend) l.

(** The operations in the hands of the kernel or on the way to it are receives on
    the slots [armed] and sends on the slots [busy]; every send slot is busy or free. *)
Record ring_at (armed busy : list Z) (u : Uring) : Prop := {
  ra_ops : ur_sq u ++ ur_flight u ≡ₚ recv_ops armed ++ send_ops busy;
  ra_pool : busy ++ ur_free u ≡ₚ seqZ 0 (2 * batch);
  ra_recv : length (ur_recv u) = Z.to_nat batch;
  ra_send : length (ur_send u) = Z.to_nat (2 * batch) }.

Lemma pool_range armed busy u j : ring_at armed busy u -> j ∈ busy ++ ur_free u -> 0 <= j < 2 * batch.
Proof. intros R Hj. rewrite (ra_pool _ _ _ R) in Hj. apply elem_of_seqZ in Hj. lia. Qed.
Lemma pool_nodup armed busy u : ring_at armed busy u -> NoDup (busy ++ ur_free u).
Proof. intros R. rewrite (ra_pool _ _ _ R). apply NoDup_seqZ. Qed.
Lemma pool_size armed busy u : ring_at armed busy u -> Z.of_nat (length busy) + Z.of_nat (length (ur_free u)) = 2 * batch.
Proof.
  intros R. pose proof (Permutation_length (ra_pool _ _ _ R)) as H. rewrite length_app, seqZ_length in H by lia. lia.
Qed.
Lemma sq_bound armed busy u : ring_at armed busy u ->
  (length (ur_sq u) <= length armed + length busy)%nat.
Proof.
  intros R. pose proof (Permutation_length (ra_ops _ _ _ R)) as H.
  unfold recv_ops, send_ops in H. rewrite !length_app, !length_map in H. lia.
Qed.

Lemma ring_at_metrics armed busy u m : ring_at armed busy u -> ring_at armed busy (set_metrics m u).
Proof. by intros []. Qed.

Lemma queue_room armed busy ud u : ring_at armed busy u -> Z.of_nat (length armed) + Z.of_nat (length busy) < 4 * batch ->
  queue sq_room ud u =
    Some (mkUring (ur_sq u ++ [ud]) (ur_flight u) (ur_free u) (ur_recv u) (ur_send u) (ur_metrics u)).
Proof. intros R Hn. unfold queue. rewrite Hroom; [done|]. pose proof (sq_bound _ _ _ R). lia. Qed.

(** Arming adds a receive. *)
Lemma arm_recv_at armed busy i u : ring_at armed busy u -> Z.of_nat (length armed) < batch ->
  exists u', arm_recv sq_room i u = (true, u') /\ ring_at (i :: armed) busy u' /\
    ur_send u' = ur_send u /\ ur_metrics u' = ur_metrics u /\ ur_free u' = ur_free u /\ ur_flight u' = ur_flight u.
Proof.
  intros R Hn. unfold arm_recv. pose proof (pool_size _ _ _ R).
  rewrite (queue_room armed busy) by (done || lia). eexists. split; [done|]. split; [|done].
  destruct R as [R1 R2 R3 R4]. split; simpl; try done.
  rewrite <- app_assoc. simpl. rewrite <- Permutation_middle, R1. done.
Qed.

Lemma batch_fits j : 0 <= j < 2 * batch -> fits 32 j.
Proof. intros. split; lia. Qed.

(** An operation in flight is a receive on an armed slot or a send on a busy one. *)
Lemma in_flight_cases armed busy u ud : ring_at armed busy u -> Forall (fun i => 0 <= i < batch) armed ->
  ud ∈ ur_flight u ->
  (exists i rest, armed ≡ₚ i :: rest /\ 0 <= i < batch /\ user_data_op ud = kOpRecv /\ user_data_idx ud = i /\
     ud = make_user_data kOpRecv i) \/
  (exists j rest, busy ≡ₚ j :: rest /\ 0 <= j < 2 * batch /\ user_data_op ud = kOpSend /\ user_data_idx ud = j /\
     ud = make_user_data kOpSend j).
Proof.
  intros R Ha Hud. assert (ud ∈ recv_ops armed ++ send_ops busy) as H
    by (rewrite <- (ra_ops _ _ _ R); set_solver).
  apply elem_of_app in H as [H|H]; [left|right]; apply list_elem_of_fmap in H as (i & -> & Hi).
  - rewrite list.Forall_forall in Ha. pose proof (Ha i Hi).
    destruct (user_data_roundtrip kOpRecv i ltac:(by left) ltac:(split; lia)) as [E1 E2].
    destruct (proj1 (elem_of_Permutation armed i) Hi) as [rest Hr]. by exists i, rest.
  - assert (0 <= i < 2 * batch) as Hr by (eapply pool_range; [done|set_solver]).
    destruct (user_data_roundtrip kOpSend i ltac:(by right) (batch_fits i Hr)) as [E1 E2].
    destruct (proj1 (elem_of_Permutation busy i) Hi) as [rest Hp]. by exists i, rest.
Qed.

(** What a step does to the replies and to the books; [h0] is the fresh histogram. *)
Context (h0 : HdrHistogram) (Hh0 : service_ns = Some h0).
Record moved (busy : list Z) (u : Uring) (busy' : list Z) (u' : Uring) (o : Outcome) : Prop := {
  mv_msgs : oc_queued o ++ pend busy u ≡ₚ oc_sent o ++ oc_failed o ++ pend busy' u';
  mv_books : balance (ur_metrics u') - balance (ur_metrics u) = Z.of_nat (length busy') - Z.of_nat (length busy);
  mv_records : (exists vs, block_records h0 (ur_metrics u) vs) -> exists vs, block_records h0 (ur_metrics u') vs }.

Lemma moved_refl busy u : moved busy u busy u no_outcome.
Proof. split; [done|lia|done]. Qed.
Lemma moved_trans b1 u1 b2 u2 b3 u3 o o' : moved b1 u1 b2 u2 o -> moved b2 u2 b3 u3 o' ->
  moved b1 u1 b3 u3 (add_outcome o o').
Proof.
  intros [M1 B1 R1] [M2 B2 R2]. split; [|lia|auto]. simpl. rewrite <- !app_assoc.
  rewrite (Permutation_app_swap_app (oc_queued o)), M1.
  rewrite (Permutation_app_swap_app (oc_queued o')), (Permutation_app_swap_app (oc_queued o')), M2.
  by rewrite (Permutation_app_swap_app (oc_failed o)).
Qed.

Lemma ring_at_perm armed busy armed' busy' u : armed ≡ₚ armed' -> busy ≡ₚ busy' -> ring_at armed busy u ->
  ring_at armed' busy' u.
Proof.
  intros Ha Hb [R1 R2 R3 R4]. split; [|by rewrite <- Hb|done..].
  unfold recv_ops, send_ops in *. by rewrite <- Ha, <- Hb.
Qed.
Lemma pend_perm busy busy' u : busy ≡ₚ busy' -> pend busy u ≡ₚ pend busy' u.
Proof. intros H. unfold pend. by rewrite H. Qed.

Lemma complete_recv_ops armed busy u ud flight rest i : ring_at armed busy u -> take_op ud (ur_flight u) = Some flight ->
  armed ≡ₚ i :: rest -> ud = make_user_data kOpRecv i -> ur_sq u ++ flight ≡ₚ recv_ops rest ++ send_ops busy.
Proof.
  intros R E Ha Hud. apply take_op_perm in E. pose proof (ra_ops _ _ _ R) as H. unfold recv_ops in H.
  rewrite E, Ha, <- Permutation_middle, Hud in H. simpl in H. by apply (Permutation_cons_inv H).
Qed.
Lemma complete_send_ops armed busy u ud flight rest j : ring_at armed busy u -> take_op ud (ur_flight u) = Some flight ->
  busy ≡ₚ j :: rest -> ud = make_user_data kOpSend j -> ur_sq u ++ flight ≡ₚ recv_ops armed ++ send_ops rest.
Proof.
  intros R E Hb Hud. apply take_op_perm in E. pose proof (ra_ops _ _ _ R) as H. unfold send_ops in H.
  rewrite E, Hb, <- Permutation_middle, Hud in H. simpl in H. rewrite <- Permutation_middle in H.
  by apply (Permutation_cons_inv H).
Qed.

(** A send completes: its slot is free again and its message is accounted for. *)
Lemma send_step armed busy u c j rest : ring_at armed busy u -> cq_data c ∈ ur_flight u ->
  busy ≡ₚ j :: rest -> 0 <= j < 2 * batch -> user_data_op (cq_data c) = kOpSend -> user_data_idx (cq_data c) = j ->
  cq_data c = make_user_data kOpSend j ->
  exists u1 u2 o, kernel_completes c u = Some u1 /\ complete_send j (cq_res c) u1 = Some (u2, o) /\
    ring_at armed rest u2 /\ moved busy u rest u2 o /\ oc_queued o = [] /\
    ur_flight u1 = ur_flight u2 /\ take_op (cq_data c) (ur_flight u) = Some (ur_flight u2).
Proof.
  intros R Hf Hb Hj Eo Ei Eud. destruct (take_op_elem _ _ Hf) as [flight Et].
  unfold kernel_completes. rewrite Et, Eo. simpl.
  pose proof (complete_send_ops armed busy u _ flight rest j R Et Hb Eud) as Hops.
  destruct R as [R1 R2 R3 R4]. unfold complete_send. simpl.
  destruct (lookup_lt_is_Some_2 (ur_send u) (Z.to_nat j) ltac:(lia)) as [slot Es].
  assert (slot_at u j = slot_msg slot) as Hs by (unfold slot_at; by rewrite (nth_lookup_Some _ _ _ _ Es)).
  assert (pend busy u ≡ₚ slot_msg slot :: pend rest u) as Hp by (rewrite (pend_perm _ _ u Hb); simpl; by rewrite Hs).
  assert (rest ++ j :: ur_free u ≡ₚ seqZ 0 (2 * batch)) as Hpool
    by (rewrite <- Permutation_middle, <- R2, Hb; done).
  assert (Z.of_nat (length rest) = Z.of_nat (length busy) - 1) as Hl
    by (rewrite (Permutation_length Hb); simpl; lia).
  destruct (cq_res c) as [e|n]; do 3 eexists; (split; [done|]); simpl; rewrite Es; (split; [done|]);
    (split; [by split|]); (split; [|done]);
    (split; simpl; [by rewrite Hp|rewrite balance_bump, Hl; try destruct e; simpl; lia|
       intros [vs Hvs]; exists vs; by apply bump_records]).
Qed.

(** A reply is staged: a free slot becomes busy, or the reply is counted as lost. *)
Lemma stage_step armed busy u addr reply : ring_at armed busy u -> Z.of_nat (length armed) < batch ->
  exists u' o busy', stage_reply sq_room addr reply u = Some (u', o) /\ ring_at armed busy' u' /\
    oc_sent o = [] /\ oc_failed o = [] /\ oc_queued o ++ pend busy u ≡ₚ pend busy' u' /\
    balance (ur_metrics u') + 1 - balance (ur_metrics u) = Z.of_nat (length busy') - Z.of_nat (length busy) /\
    oc_queued o = (match ur_free u with [] => [] | _ => [(addr, reply)] end) /\
    (forall vs, block_records h0 (ur_metrics u) vs -> block_records h0 (ur_metrics u') vs) /\
    ur_flight u' = ur_flight u.
Proof.
  intros R Ha. pose proof (pool_size _ _ _ R) as Hsz. pose proof (pool_nodup _ _ _ R) as Hnd.
  unfold stage_reply. destruct (ur_free u) as [|s free] eqn:Ef.
  { exists (set_metrics (bump (inc_dropped 1 EWOULDBLOCK) (ur_metrics u)) u), no_outcome, busy.
    split; [done|]. split; [by apply ring_at_metrics|]. do 3 (split; [done|]).
    split; [simpl; rewrite balance_bump; simpl; lia|]. split; [done|].
    split; [intros vs; apply bump_records|done]. }
  assert (0 <= s < 2 * batch) as Hs by (eapply pool_range; [done|rewrite Ef; set_solver]).
  destruct (lookup_lt_is_Some_2 (ur_send u) (Z.to_nat s)) as [old Es]; [rewrite (ra_send _ _ _ R); lia|].
  rewrite Es. simpl. destruct R as [R1 R2 R3 R4]. rewrite Ef in R2.
  set (u1 := mkUring (ur_sq u) (ur_flight u) (s :: free) (ur_recv u) _ (ur_metrics u)).
  assert (ring_at armed busy u1) as Ru1 by (split; simpl; rewrite ?length_insert; done).
  rewrite (queue_room armed busy _ u1 Ru1) by (simpl in Hsz; lia).
  eexists _, _, (s :: busy). split; [reflexivity|].
  assert (s ∉ busy) as Hsb by (apply NoDup_app in Hnd as (_ & H & _); set_solver).
  split.
  { split; simpl; rewrite ?length_insert; try done.
    - rewrite <- app_assoc. simpl. rewrite <- !Permutation_middle, R1. done.
    - by rewrite Permutation_middle. }
  do 2 (split; [done|]). split; [|split; [simpl; lia|done]].
  unfold pend, slot_at. simpl. rewrite (nth_lookup_Some _ _ _ (mkSlot addr reply)) by (apply list_lookup_insert_eq; lia).
  apply Permutation_skip. erewrite map_ext_in; [done|]. intros j Hj%list_elem_of_In. cbn beta. f_equal.
  assert (0 <= j < 2 * batch) by (eapply (pool_range armed busy u1); [done|set_solver]).
  rewrite !nth_lookup, list_lookup_insert_ne; [done|]. intros E. apply Hsb. by replace s with j by lia.
Qed.

(** ** One completion *)

Context (rules : option RuleSet) (store : SubscriberStore) (subs : gmap Z SubscriberRecord).
Context (Hrules : forall rs, rules = Some rs -> exists P B, rule_set_ok rs P B) (Hstore : store_ok store subs).

(** The kernel fills a whole slot with bytes. *)
Definition cqe_ok (c : Cqe) : Prop :=
  length (cq_buf c) = kWireMsgSize /\ Forall byte_ok (cq_buf c) /\ fits 64 (cq_server_ts c).

(** A queued reply goes to the sender of the datagram of [c] and carries the
    decision it calls for. *)
Definition reply_for (c : Cqe) (q : Z * list Z) : Prop :=
  exists rs d, rules = Some rs /\ cq_res c = inr (Z.of_nat kWireMsgSize) /\
    q = (cq_addr c, Wire.encode little_endian d) /\ msg_ok d /\ d_magic_version d = kMagicVersion /\
    answers little_endian rs subs (mkDatagram (cq_buf c) (cq_now c) (cq_server_ts c) (cq_service c)) d.

Lemma arm_rest armed busy u i rest : ring_at rest busy u -> Z.of_nat (length armed) = batch -> armed ≡ₚ i :: rest ->
  exists u', (arm_recv sq_room i u).2 = u' /\ ring_at armed busy u' /\ ur_send u' = ur_send u /\
    ur_metrics u' = ur_metrics u /\ ur_flight u' = ur_flight u.
Proof.
  intros R Hl Ha. apply Permutation_length in Ha as Hl'. simpl in Hl'.
  destruct (arm_recv_at rest busy i u R ltac:(lia)) as (u' & E & R' & ? & ? & _ & ?).
  exists u'. rewrite E. split; [done|]. split; [|done]. by eapply ring_at_perm; [|reflexivity|exact R'].
Qed.

Lemma pend_send busy u u' : ur_send u' = ur_send u -> pend busy u' = pend busy u.
Proof. intros E. unfold pend, slot_at. by rewrite E. Qed.

(** The state in which the completion of receive [i] is handled. *)
Record receiving (armed rest busy : list Z) (i : Z) (u u1 : Uring) (c : Cqe) : Prop := {
  rv_ring : ring_at rest busy u1;
  rv_armed : Z.of_nat (length armed) = batch /\ armed ≡ₚ i :: rest;
  rv_send : ur_send u1 = ur_send u;
  rv_metrics : ur_metrics u1 = ur_metrics u;
  rv_slot : ur_recv u1 !! Z.to_nat i = Some (mkSlot (cq_addr c) (cq_buf c)) }.

Lemma kernel_receives armed busy u c i rest : ring_at armed busy u -> Z.of_nat (length armed) = batch ->
  cq_data c ∈ ur_flight u -> armed ≡ₚ i :: rest -> 0 <= i < batch ->
  user_data_op (cq_data c) = kOpRecv -> user_data_idx (cq_data c) = i -> cq_data c = make_user_data kOpRecv i ->
  exists u1, kernel_completes c u = Some u1 /\ receiving armed rest busy i u u1 c /\
    take_op (cq_data c) (ur_flight u) = Some (ur_flight u1).
Proof.
  intros R Hl Hf Ha Hi Eo Ei Eud. destruct (take_op_elem _ _ Hf) as [flight Et].
  unfold kernel_completes. rewrite Et, Eo, Ei. simpl. eexists. split; [done|]. split; [|done].
  pose proof (complete_recv_ops armed busy u _ flight rest i R Et Ha Eud) as Hops.
  destruct R as [_ R2 R3 R4]. split; simpl; try done.
  - split; simpl; rewrite ?length_insert; done.
  - apply list_lookup_insert_eq. lia.
Qed.

(** The datagram is not answered: the slot is armed again. *)
Lemma recv_rearm armed rest busy i u u1 c k : receiving armed rest busy i u u1 c ->
  (forall vs, block_records h0 (ur_metrics u) vs -> block_records h0 k vs) -> balance k = balance (ur_metrics u) ->
  exists u2, (arm_recv sq_room i (set_metrics k u1)).2 = u2 /\ ring_at armed busy u2 /\
    moved busy u busy u2 no_outcome /\ ur_flight u2 = ur_flight u1.
Proof.
  intros [R1 [Hl Ha] Hs Hm _] Hk Hb.
  destruct (arm_rest armed busy (set_metrics k u1) i rest (ring_at_metrics _ _ _ _ R1) Hl Ha)
    as (u2 & E & R2 & Es & Em & Ef). exists u2. do 2 (split; [done|]). split; [|done]. simpl in *.
  split; simpl; [by rewrite (pend_send busy u u2) by congruence|rewrite Em, Hb; lia|].
  intros [vs' Hv]. exists vs'. rewrite Em. auto.
Qed.

(** The datagram is answered. *)
Lemma recv_serve armed rest busy i u u1 c rs P B : receiving armed rest busy i u u1 c -> rule_set_ok rs P B ->
  rules = Some rs -> cq_res c = inr (Z.of_nat kWireMsgSize) -> (exists vs, block_records h0 (ur_metrics u) vs) -> cqe_ok c ->
  exists u2 o busy', complete_recv little_endian sq_room rules store i c u1 = Some (u2, o, true) /\
    ring_at armed busy' u2 /\ moved busy u busy' u2 o /\ Forall (reply_for c) (oc_queued o) /\
    ur_flight u2 = ur_flight u1.
Proof.
  intros [R1 [Hl Ha] Hs Hm Hslot] HR Er Hres [vs Hvs] (Hlen & Hbytes & Hts). unfold complete_recv. rewrite Hres, Z.eqb_refl, Er, Hslot.
  cbn [mbind option_bind]. set (dg := datagram_of _ c).
  destruct (decide_datagram_spec little_endian rs P B store subs HR Hstore dg (ur_metrics u1))
    as (d & r & b & x & Ed & Hd & Hmg & Hans & Hrb & _); [by split|done|]. rewrite Ed. cbn [mbind option_bind].
  set (m := bump (served r 0 b x) (ur_metrics u1)). apply Permutation_length in Ha as Hl'. simpl in Hl'.
  destruct (stage_step rest busy (set_metrics m u1) (cq_addr c) (Wire.encode little_endian (set_server_ts (cq_server_ts c) d)))
    as (u2 & o & busy' & Est & R2 & Hsent & Hfail & Hmsg & Hbal & Hq & Hrec & Hfl); [by apply ring_at_metrics|lia|].
  simpl in Est |- *. rewrite Est. cbn [mbind option_bind].
  assert (block_records h0 (ur_metrics u2) vs) as Hv2 by (apply Hrec; simpl; unfold m; rewrite Hm; by apply bump_records).
  destruct (record_service_records h0 (ur_metrics u2) vs (cq_service c) Hh0 Hv2) as (m2 & E2 & Hv3 & Ec2).
  rewrite E2. cbn [mbind option_bind].
  destruct (arm_rest armed busy' (set_metrics (note (set_server_ts (cq_server_ts c) d) m2) u2) i rest)
    as (u3 & E3 & R3 & Es3 & Em3 & Ef3); [by apply ring_at_metrics|done|done|].
  exists u3, o, busy'. split; [by rewrite E3|]. split; [done|]. simpl in *.
  assert (balance (ur_metrics u3) = balance (ur_metrics u2)) as Hb3 by (rewrite Em3; unfold balance; simpl; by rewrite Ec2).
  split; [split|split; [|congruence]].
  - rewrite Hsent, Hfail. simpl. rewrite (pend_send busy' u2 u3) by done. rewrite <- Hmsg.
    by rewrite (pend_send busy u (set_metrics m u1)) by (simpl; congruence).
  - rewrite Hb3. simpl in Hbal. unfold m in Hbal. rewrite balance_bump, Hm in Hbal. simpl in Hbal. lia.
  - intros _. exists (vs ++ [cq_service c]). rewrite Em3. by apply note_records.
  - rewrite Hq. simpl. destruct (ur_free u1); constructor; [|done]. exists rs, (set_server_ts (cq_server_ts c) d).
    do 3 (split; [done|]). split; [by apply set_server_ts_ok|]. split; [done|exact Hans].
Qed.

Lemma recv_step armed rest busy i u u1 c : receiving armed rest busy i u u1 c ->
  (exists vs, block_records h0 (ur_metrics u) vs) -> cqe_ok c ->
  exists u2 o b busy', complete_recv little_endian sq_room rules store i c u1 = Some (u2, o, b) /\
    ring_at armed busy' u2 /\ moved busy u busy' u2 o /\ Forall (reply_for c) (oc_queued o) /\
    ur_flight u2 = ur_flight u1.
Proof.
  intros V Hvs Hc. pose proof (rv_metrics _ _ _ _ _ _ _ V) as Hm.
  assert (u1 = set_metrics (ur_metrics u1) u1) as Eu by (by destruct u1).
  destruct (cq_res c) as [e|n] eqn:Er; [|destruct (n =? Z.of_nat kWireMsgSize) eqn:En; [destruct rules as [rs|] eqn:Ers|]].
  2: { destruct (Hrules rs eq_refl) as (P & B & HR). apply Z.eqb_eq in En as ->. rewrite <- Ers.
       destruct (recv_serve armed rest busy i u u1 c rs P B V HR Ers Er Hvs Hc) as (u2 & o & busy' & ?).
       by exists u2, o, true, busy'. }
  all: unfold complete_recv; rewrite Er, ?En.
  - destruct (recv_rearm armed rest busy i u u1 c
      (match e with UAgain | UIntr => ur_metrics u1 | _ => bump inc_recv_errors (ur_metrics u1) end) V)
      as (u2 & E & R2 & M & Ef); [rewrite Hm; destruct e; auto using bump_records|
        rewrite Hm; destruct e; rewrite ?balance_bump; simpl; lia|].
    exists u2, no_outcome, false, busy. split; [|done]. rewrite <- E. by destruct e, u1.
  - destruct (recv_rearm armed rest busy i u u1 c (ur_metrics u1) V) as (u2 & E & R2 & M & Ef); [by rewrite Hm|by rewrite Hm|].
    exists u2, no_outcome, false, busy. split; [|done]. by rewrite <- E, <- Eu.
  - destruct (recv_rearm armed rest busy i u u1 c (bump inc_short (ur_metrics u1)) V) as (u2 & E & R2 & M & Ef);
      [rewrite Hm; intros; by apply bump_records|rewrite Hm, balance_bump; simpl; lia|].
    exists u2, no_outcome, false, busy. split; [|done]. by rewrite <- E.
Qed.

Lemma process_step busy u c : ring_at (seqZ 0 batch) busy u -> (exists vs, block_records h0 (ur_metrics u) vs) ->
  cqe_ok c -> cq_data c ∈ ur_flight u ->
  exists u1 u2 o b busy', kernel_completes c u = Some u1 /\
    process_cqe little_endian sq_room rules store c u1 = Some (u2, o, b) /\
    ring_at (seqZ 0 batch) busy' u2 /\ moved busy u busy' u2 o /\ Forall (reply_for c) (oc_queued o) /\
    take_op (cq_data c) (ur_flight u) = Some (ur_flight u2).
Proof.
  intros R Hvs Hc Hf. assert (Z.of_nat (length (seqZ 0 batch)) = batch) as Hl by (rewrite seqZ_length by lia; lia).
  assert (Forall (fun i => 0 <= i < batch) (seqZ 0 batch)) as Hall
    by (apply list.Forall_forall; intros i Hi%elem_of_seqZ; lia).
  unfold process_cqe. destruct (in_flight_cases _ _ _ _ R Hall Hf)
    as [(i & rest & Ha & Hi & Eo & Ei & Eud)|(j & rest & Hb & Hj & Eo & Ei & Eud)]; rewrite Eo, Ei.
  - destruct (kernel_receives _ busy u c i rest R Hl Hf Ha Hi Eo Ei Eud) as (u1 & E1 & V & Et).
    destruct (recv_step _ rest busy i u u1 c V Hvs Hc) as (u2 & o & b & busy' & E2 & R2 & M & G & Ef).
    exists u1, u2, o, b, busy'. rewrite Ef. done.
  - destruct (send_step _ busy u c j rest R Hf Hb Hj Eo Ei Eud) as (u1 & u2 & o & E1 & E2 & R2 & M & Eq & Ef & Et).
    exists u1, u2, o, false, rest. split; [done|]. split; [cbn; by rewrite E2|].
    do 2 (split; [done|]). split; [by rewrite Eq|done].
Qed.

(** ** A batch of completions *)

Lemma reap_step cqes busy u n : ring_at (seqZ 0 batch) busy u -> (exists vs, block_records h0 (ur_metrics u) vs) ->
  Forall cqe_ok cqes -> (exists rest, ur_flight u ≡ₚ map cq_data cqes ++ rest) ->
  exists u' o n' busy', reap little_endian sq_room rules store cqes n u = Some (u', o, n') /\
    ring_at (seqZ 0 batch) busy' u' /\ moved busy u busy' u' o /\
    Forall (fun q => exists c, c ∈ cqes /\ reply_for c q) (oc_queued o).
Proof.
  intros R Hvs Hok. revert busy u n R Hvs. induction Hok as [|c cqes Hc _ IH]; intros busy u n R Hvs [rest Hrest].
  { exists u, no_outcome, n, busy. split; [done|]. split; [done|]. split; [apply moved_refl|constructor]. }
  destruct (process_step busy u c R Hvs Hc) as (u1 & u2 & o & b & busy1 & E1 & E2 & R2 & M & G & Et).
  { rewrite Hrest. set_solver. }
  destruct (IH busy1 u2 (if b then n + 1 else n) R2 (mv_records _ _ _ _ _ M Hvs)) as (u' & o' & n' & busy' & E & R' & M' & G').
  { exists rest. apply take_op_perm in Et. rewrite Et in Hrest. simpl in Hrest. by apply (Permutation_cons_inv Hrest). }
  exists u', (add_outcome o o'), n', busy'. cbn [reap]. rewrite E1. cbn [mbind option_bind]. rewrite E2.
  cbn [mbind option_bind]. rewrite E. split; [done|]. split; [done|]. split; [by eapply moved_trans|].
  simpl. apply Forall_app. split; [|eapply list.Forall_impl; [exact G'|]; intros q (x & ? & ?); exists x; by split; [right|]].
  eapply list.Forall_impl; [exact G|]. intros q Hq. exists c. by split; [left|].
Qed.
End Invariant.

(** ** The worker *)

(** The environment of a round: well-formed rule set and table, whole buffers, and
    completions of operations in flight, each at most once. *)
Record round_ok (subs : gmap Z SubscriberRecord) (r : URound) (u : Uring) : Prop := {
  ro_rules : forall rs, rd_rules r = Some rs -> exists P B, rule_set_ok rs P B;
  ro_store : store_ok (rd_store r) subs;
  ro_cqes : Forall cqe_ok (rd_cqes r);
  ro_flight : exists rest, ur_flight (submit (rd_taken r) u) ≡ₚ map cq_data (rd_cqes r) ++ rest }.

Section Run.
Context (little_endian : bool) (batch : Z) (sq_room : nat -> bool).

(** States and outcomes reachable from start-up with a fresh block of counters. *)
Inductive uring_reach : Uring -> Outcome -> Prop :=
  | ur_init m : new_metrics = Some m -> uring_reach (uring_start batch sq_room m) no_outcome
  | ur_step u o subs r u' o' : uring_reach u o -> round_ok subs r u ->
      uring_round little_endian batch sq_room r u = Some (u', o') -> uring_reach u' (add_outcome o o').

(** The state of the ring and of its books after the replies [o]. *)
Record uring_ok (h0 : HdrHistogram) (busy : list Z) (u : Uring) (o : Outcome) : Prop := {
  uo_ring : ring_at batch (seqZ 0 batch) busy u;
  uo_msgs : oc_queued o ≡ₚ oc_sent o ++ oc_failed o ++ pend busy u;
  uo_books : balance (ur_metrics u) = Z.of_nat (length busy);
  uo_records : exists vs, block_records h0 (ur_metrics u) vs }.
End Run.

Lemma ring_entries_enough batch : 0 < batch <= 1024 -> exists entries, ring_entries batch = Some entries /\ 4 * batch <= entries.
Proof.
  intros Hb. unfold ring_entries, next_pow2. rewrite wrap_id by (split; lia).
  destruct (pow2_loop_spec 64 3 (batch * 4)) as (k & Hk & E & Hge & Hlt); [lia..|].
  change 8 with (2 ^ 3). rewrite E. simpl. exists (u32 (2 ^ k)). split; [done|].
  assert (k <= 12) as Hk12.
  { destruct Hlt as [->|Hlt]; [lia|]. apply Z.nlt_ge. intros Hc.
    assert (2 ^ 12 <= 2 ^ (k - 1)) by (apply Z.pow_le_mono_r; lia). lia. }
  assert (2 ^ k <= 2 ^ 12) by (apply Z.pow_le_mono_r; lia). rewrite wrap_id by (split; lia). lia.
Qed.

Section Sound.
Context (little_endian : bool) (batch : Z) (sq_room : nat -> bool).
Context (Hbatch : 0 < batch <= 1024).
Context (Hroom : forall n, Z.of_nat n < 4 * batch -> sq_room n = true).
Context (h0 : HdrHistogram) (Hh0 : service_ns = Some h0).

Lemma arm_all_at n i u : 0 <= i -> i + Z.of_nat n = batch -> ring_at batch (seqZ 0 i) [] u ->
  ring_at batch (seqZ 0 batch) [] (arm_all sq_room n i u) /\ ur_metrics (arm_all sq_room n i u) = ur_metrics u.
Proof.
  revert i u. induction n as [|n IH]; intros i u Hi Hn R; simpl; [by replace batch with i at 2 by lia|].
  destruct (arm_recv_at batch sq_room Hbatch Hroom (seqZ 0 i) [] i u R) as (u' & -> & R' & _ & Em & _).
  { rewrite seqZ_length by lia. lia. }
  destruct (IH (i + 1) u') as [R2 E2]; [lia|lia| |by rewrite E2].
  eapply ring_at_perm; [|reflexivity|exact R']. rewrite seqZ_app, Z.add_0_l by lia.
  replace (seqZ i 1) with [i] by (unfold seqZ; simpl; f_equal; lia). apply Permutation_cons_append.
Qed.

Lemma uring_start_ok m : new_metrics = Some m ->
  uring_ok batch h0 [] (uring_start batch sq_room m) no_outcome.
Proof.
  intros Em. unfold uring_start. set (u := mkUring _ _ _ _ _ _).
  destruct (arm_all_at (Z.to_nat batch) 0 u) as [R E]; [lia|lia| |].
  { split; simpl; [done|done|by rewrite length_replicate|by rewrite length_replicate]. }
  unfold new_metrics in Em. rewrite Hh0 in Em. simpl in Em. injection Em as Em.
  split; [done|done| |].
  - rewrite E. simpl. by rewrite <- Em.
  - exists []. rewrite E. simpl. rewrite <- Em. by split.
Qed.

Lemma submit_at armed busy n u : ring_at batch armed busy u -> ring_at batch armed busy (submit n u).
Proof.
  intros [R1 R2 R3 R4]. split; simpl; try done.
  rewrite (Permutation_app_comm (ur_flight u)), app_assoc, (Permutation_app_comm (drop n _)), take_drop. done.
Qed.

Lemma uring_round_ok subs busy u o r : uring_ok batch h0 busy u o -> round_ok subs r u ->
  exists u' o' busy', uring_round little_endian batch sq_room r u = Some (u', o') /\
    uring_ok batch h0 busy' u' (add_outcome o o') /\
    Forall (fun q => exists c, c ∈ rd_cqes r /\ reply_for little_endian (rd_rules r) subs c q) (oc_queued o').
Proof.
  intros [R M B V] [Hr Hs Hc Hf]. apply (submit_at _ _ (rd_taken r)) in R. unfold uring_round. destruct (rd_hard r).
  { eexists _, no_outcome, busy. split; [done|]. split; [|constructor]. split; simpl; rewrite ?app_nil_r; done. }
  destruct (reap_step little_endian batch sq_room Hbatch Hroom h0 Hh0 (rd_rules r) (rd_store r) subs Hr Hs (rd_cqes r)
    busy (submit (rd_taken r) u) 0 R V Hc Hf) as (u' & o' & n & busy' & E & R' & [M' B' V'] & G).
  rewrite E. cbn [mbind option_bind].
  set (c := if 0 <? n then inc_batch n (batch <=? n) else add_counters inc_idle inc_waits).
  eexists _, o', busy'. split; [done|]. split; [|done]. split.
  - by apply ring_at_metrics.
  - simpl. rewrite (Permutation_app_comm (oc_queued o)), M.
    change (pend busy u) with (pend busy (submit (rd_taken r) u)). rewrite <- !app_assoc.
    rewrite (Permutation_app_swap_app (oc_queued o')), (Permutation_app_swap_app (oc_queued o')), M'.
    by rewrite (Permutation_app_swap_app (oc_failed o)).
  - simpl. rewrite balance_bump. simpl in B'. assert (requests c + bad_magic c - replies_sent c - send_failures c = 0) as ->
      by (unfold c; by case_match). lia.
  - simpl. destruct (V' V) as [vs Hvs]. exists vs. by apply bump_records.
Qed.

Lemma uring_reach_ok u o : uring_reach little_endian batch sq_room u o -> exists busy, uring_ok batch h0 busy u o.
Proof.
  induction 1 as [m Em|u o subs r u' o' _ [busy IH] Hr E]; [exists []; by apply uring_start_ok|].
  destruct (uring_round_ok subs busy u o r IH Hr) as (u1 & o1 & busy1 & E1 & OK & _).
  rewrite E in E1. injection E1 as <- <-. by exists busy1.
Qed.
End Sound.


(** ** Samples *)

Definition sample_room (n : nat) : bool := (n <? 8)%nat.
Definition tiny_round : URound :=
  mkURound 1 false None (mkStore [] 0 0 (DFin 1 (-1)))
    [mkCqe (make_user_data kOpRecv 0) (inr 10) 7 (replicate kWireMsgSize 0) 0 0 0].

(** A short datagram is counted and its slot armed again. *)
Example short_rearmed m : exists u', uring_round true 1 sample_room tiny_round (uring_start 1 sample_room m) = Some (u', no_outcome) /\
  ur_sq u' = [make_user_data kOpRecv 0] /\ ur_flight u' = [] /\
  short_datagrams (w_counters (ur_metrics u')) = short_datagrams (w_counters m) + 1 + 0.
Proof. eexists. split; [reflexivity|]. done. Qed.

Lemma sample_metrics : exists m, new_metrics = Some m.
Proof. destruct service_ns_holds as (h0 & u & k & E & _). unfold new_metrics. rewrite E. by eexists. Qed.

