(* ===== verification/Net.v ===== *)
(** * Net: batched datagram I/O

    [BatchIo] of src/net.cpp: the receive and send slots, both builds of [recv_batch]
    (one [recvmmsg], or a loop of [recvfrom]) and of [send_batch] (a loop of
    [sendmmsg], or of [sendto]).  What the kernel answers is the script of a call: the
    datagrams it hands over, how many messages it takes, or an error.  Creating and
    binding sockets is not modelled. *)

From S2P Require Import Prelude Text Wire Double Probe Store Rules Engine Hdr Metrics Server.
From Stdlib Require Import ZArith Lia Bool.
From stdpp Require Import base list numbers gmap.
Local Open Scope Z_scope.

Definition kSlotSize : nat := kWireMsgSize.

Inductive NetErrno := NIntr | NAgain | NWouldBlock | NNoBufs | NOther.
#[export] Instance NetErrno_eq_dec : EqDecision NetErrno.
Proof. solve_decision. Defined.

(** A receive slot: the sender, the buffer and the length the kernel reported. *)
Record RecvSlot := mkRecvSlot { rv_addr : Z; rv_buf : list Z; rv_len : nat }.
Record BatchIo := mkBatchIo { bi_batch : nat; bi_recv : list RecvSlot; bi_send : list (Z * list Z) }.

Definition new_batch_io (batch : nat) : BatchIo :=
  let n := match batch with O => 1%nat | _ => batch end in
  mkBatchIo n (replicate n (mkRecvSlot 0 (replicate kSlotSize 0) 0)) (replicate n (0, replicate kSlotSize 0)).

Definition payload (i : nat) (io : BatchIo) : option (list Z) := rv_buf <$> bi_recv io !! i.
Definition payload_len (i : nat) (io : BatchIo) : option nat := rv_len <$> bi_recv io !! i.

(** ** Receiving *)

Definition Packet : Type := Z * list Z.

(** The kernel copies what fits of a datagram and reports how much it copied. *)
Definition deliver (d : Packet) (s : RecvSlot) : RecvSlot :=
  let bytes := take kSlotSize d.2 in
  mkRecvSlot d.1 (bytes ++ drop (length bytes) (rv_buf s)) (length bytes).

Fixpoint deliver_all (i : nat) (ds : list Packet) (slots : list RecvSlot) : list RecvSlot :=
  match ds with [] => slots | d :: ds => deliver_all (S i) ds (alter (deliver d) i slots) end.

Definition would_block (e : NetErrno) : bool :=
  match e with NIntr | NAgain | NWouldBlock => true | _ => false end.

(** With [recvmmsg]: an error, or at most a batch of datagrams. *)
Definition recv_batch_mmsg (res : NetErrno + list Packet) (io : BatchIo) : Z * BatchIo :=
  match res with
  | inl e => (if would_block e then 0 else -1, io)
  | inr ds => (Z.of_nat (length ds), mkBatchIo (bi_batch io) (deliver_all 0 ds (bi_recv io)) (bi_send io))
  end.

(** With [recvfrom]; at the end of the script nothing is ready. *)
Fixpoint recv_loop (room n : nat) (script : list (NetErrno + Packet)) (slots : list RecvSlot) : Z * list RecvSlot :=
  match room, script with
  | O, _ | _, [] => (Z.of_nat n, slots)
  | S room, inl e :: _ =>
      (if would_block e then Z.of_nat n else if (0 <? n)%nat then Z.of_nat n else -1, slots)
  | S room, inr d :: script => recv_loop room (S n) script (alter (deliver d) n slots)
  end.
Definition recv_batch_loop (script : list (NetErrno + Packet)) (io : BatchIo) : Z * BatchIo :=
  let '(n, slots) := recv_loop (bi_batch io) 0 script (bi_recv io) in
  (n, mkBatchIo (bi_batch io) slots (bi_send io)).

(** ** Sending *)

(** [None] when an index is out of range. *)
Definition stage_reply (out src : nat) (reply : list Z) (io : BatchIo) : option BatchIo :=
  slot ← bi_recv io !! src;
  _ ← bi_send io !! out;
  Some (mkBatchIo (bi_batch io) (bi_recv io) (<[out := (rv_addr slot, reply)]> (bi_send io))).

Definition transient (e : NetErrno) : bool := match e with NAgain | NWouldBlock | NNoBufs => true | _ => false end.

(** The result, the [errno] passed out ([None] stands for 0) and the messages the
    kernel took; [None] when the script ends first. *)
Fixpoint send_loop (script : list (NetErrno + nat)) (sent count : nat) (msgs : list (Z * list Z))
  : option (Z * option NetErrno * list (Z * list Z)) :=
  if (count <=? sent)%nat then Some (Z.of_nat sent, None, [])
  else
    match script with
    | [] => None
    | inl NIntr :: script => send_loop script sent count msgs
    | inl e :: _ =>
        Some (if transient e then Z.of_nat sent else if (0 <? sent)%nat then Z.of_nat sent else -1, Some e, [])
    | inr n :: script =>
        '(r, e, out) ← send_loop script (sent + n) count msgs;
        Some (r, e, take n (drop sent msgs) ++ out)
    end.
Definition send_batch (script : list (NetErrno + nat)) (count : nat) (io : BatchIo)
  : option (Z * option NetErrno * list (Z * list Z)) :=
  match count with O => Some (0, None, []) | _ => send_loop script 0 count (bi_send io) end.

(** [sendto] takes one message or fails. *)
Definition sendto_script (script : list (option NetErrno)) : list (NetErrno + nat) :=
  map (fun r => match r with Some e => inl e | None => inr 1%nat end) script.

(** [poll]'s timeout. *)
Definition wait_ms (timeout_us : Z) : Z := if timeout_us <=? 0 then 0 else (timeout_us + 999) / 1000.

(** ** What is received *)

Lemma deliver_all_length i ds slots : length (deliver_all i ds slots) = length slots.
Proof. revert i slots. induction ds as [|d ds IH]; intros i slots; simpl; [done|]. by rewrite IH, length_alter. Qed.

Lemma deliver_all_lookup i ds slots k : deliver_all i ds slots !! k =
  match ds !! (k - i)%nat with
  | Some d => if (i <=? k)%nat then deliver d <$> slots !! k else slots !! k
  | None => slots !! k
  end.
Proof.
  revert i slots. induction ds as [|d ds IH]; intros i slots; simpl; [done|]. rewrite IH.
  destruct (Nat.leb_spec i k) as [Hik|Hik].
  - destruct (decide (k = i)) as [->|Hne].
    + replace (S i <=? i)%nat with false by (symmetry; apply Nat.leb_gt; lia).
      rewrite Nat.sub_diag. replace (i - S i)%nat with 0%nat by lia. cbn [lookup list_lookup].
      destruct (ds !! 0%nat); by rewrite list_lookup_alter_eq.
    + replace (k - i)%nat with (S (k - S i)) by lia. cbn [lookup list_lookup]. rewrite list_lookup_alter_ne by lia.
      destruct (ds !! (k - S i)%nat); [|done]. replace (S i <=? k)%nat with true by (symmetry; apply Nat.leb_le; lia). by destruct (i <=? k)%nat.
  - replace (S i <=? k)%nat with false by (symmetry; apply Nat.leb_gt; lia).
    rewrite list_lookup_alter_ne by lia. replace (k - S i)%nat with 0%nat by lia. replace (k - i)%nat with 0%nat by lia.
    cbn [lookup list_lookup]. by destruct (ds !! 0%nat).
Qed.

(** The two builds of [recv_batch] read the same batch from the same arrivals. *)
Lemma recv_loop_delivers e ds room n slots : would_block e = true -> (length ds <= room)%nat ->
  recv_loop room n (map inr ds ++ [inl e]) slots = (Z.of_nat (n + length ds), deliver_all n ds slots).
Proof.
  intros He. revert room n slots. induction ds as [|d ds IH]; intros room n slots Hl; cbn [length] in *.
  { rewrite Nat.add_0_r. destruct room; [done|]. by destruct e. }
  destruct room as [|room]; [lia|]. cbn [map app recv_loop deliver_all]. rewrite IH by lia. f_equal. f_equal. lia.
Qed.

Lemma recv_builds_agree e ds io : would_block e = true -> (length ds <= bi_batch io)%nat ->
  recv_batch_loop (map inr ds ++ [inl e]) io = recv_batch_mmsg (inr ds) io.
Proof. intros He Hl. unfold recv_batch_loop. by rewrite recv_loop_delivers. Qed.

(** ** What is sent *)

(** The kernel takes at least one message and no more than it was given. *)
Fixpoint kernel_ok (script : list (NetErrno + nat)) (sent count : nat) : Prop :=
  match script with
  | [] => True
  | inl _ :: script => kernel_ok script sent count
  | inr n :: script => (sent < count -> 1 <= n <= count - sent)%nat /\ kernel_ok script (sent + n) count
  end.
(** Answers other than an interruption. *)
Definition conclusive (r : NetErrno + nat) : bool := match r with inl NIntr => false | _ => true end.

Definition send_result (k : nat) (e : option NetErrno) : Z :=
  match e with Some x => if transient x then Z.of_nat k else if (0 <? k)%nat then Z.of_nat k else -1 | None => Z.of_nat k end.

Lemma send_loop_spec script sent count msgs : kernel_ok script sent count -> (sent <= count)%nat ->
  (count - sent <= length (List.filter conclusive script))%nat ->
  exists k e, send_loop script sent count msgs = Some (send_result k e, e, take (k - sent) (drop sent msgs)) /\
    (sent <= k <= count)%nat /\ (e = None <-> k = count) /\ e <> Some NIntr.
Proof.
  revert sent. induction script as [|r script IH]; intros sent Hk Hs Hp; cbn [send_loop];
    (destruct (Nat.leb_spec count sent) as [Hc|Hc]; [exists sent, None; rewrite Nat.sub_diag; split; [done|]; split; [lia|]; split; [split; [lia|done]|done]|]).
  { simpl in Hp. lia. }
  destruct r as [e|n]; simpl in Hk.
  - destruct (decide (e = NIntr)) as [->|He].
    + by apply IH.
    + exists sent, (Some e). rewrite Nat.sub_diag. split; [by destruct e|]. split; [lia|]. split; [|congruence].
      split; [done|lia].
  - destruct Hk as [Hn Hk]. specialize (Hn Hc). simpl in Hp.
    destruct (IH (sent + n)%nat Hk) as (k & e & E & Hr & He & Hi); [lia|lia|]. exists k, e. rewrite E.
    cbn [mbind option_bind]. split; [|split; [lia|done]]. do 2 f_equal.
    rewrite <- drop_drop. replace (k - sent)%nat with (n + (k - (sent + n)))%nat by lia.
    by rewrite take_take_drop || rewrite <- take_take_drop.
Qed.

(** ** A turn of the UDP worker, from arrival to departure *)

(** The calls of [stage_reply] for the replies of a batch. *)
Fixpoint stage_all (out : nat) (replies : list (nat * list Z)) (io : BatchIo) : option BatchIo :=
  match replies with
  | [] => Some io
  | (src, reply) :: replies => io ← stage_reply out src reply io; stage_all (S out) replies io
  end.

Definition addressed (ds : list Packet) (jr : nat * list Z) : Z * list Z := ((nth jr.1 ds (0, [])).1, jr.2).

Lemma stage_all_spec ds io out replies : (forall i d, ds !! i = Some d -> rv_addr <$> bi_recv io !! i = Some d.1) ->
  Forall (fun jr => (jr.1 < length ds)%nat) replies -> (out + length replies <= length (bi_send io))%nat ->
  exists io', stage_all out replies io = Some io' /\
    bi_send io' = take out (bi_send io) ++ map (addressed ds) replies ++ drop (out + length replies) (bi_send io).
Proof.
  intros Hds Hr. revert out io Hds. induction Hr as [|[src reply] replies Hj _ IH]; intros out io Hds Hl; cbn [stage_all].
  { exists io. split; [done|]. simpl. by rewrite Nat.add_0_r, take_drop. }
  simpl in Hj, Hl. destruct (lookup_lt_is_Some_2 ds src Hj) as [d Hd]. pose proof (Hds src d Hd) as Ha.
  unfold stage_reply. destruct (bi_recv io !! src) as [slot|]; [|done]. injection Ha as Ha.
  destruct (lookup_lt_is_Some_2 (bi_send io) out ltac:(lia)) as [old Eo]. cbn [mbind option_bind]. rewrite Eo.
  cbn [mbind option_bind].
  edestruct (IH (S out)) as (io' & E & Es); [| |exists io'; split; [exact E|]]; simpl; [done|rewrite length_insert; lia|].
  rewrite Es. simpl. rewrite Ha. unfold addressed at 2. simpl. rewrite (nth_lookup_Some _ _ _ _ Hd).
  rewrite insert_take_drop by lia. rewrite take_app_ge by (rewrite length_take; lia).
  rewrite length_take, Nat.min_l by lia. replace (S out - out)%nat with 1%nat by lia. simpl. rewrite take_0, <- app_assoc. simpl.
  do 3 f_equal. rewrite drop_app_ge by (rewrite length_take; lia). rewrite length_take, Nat.min_l by lia.
  replace (S (out + length replies) - out)%nat with (S (length replies)) by lia. simpl. rewrite drop_drop. f_equal. lia.
Qed.

(** What the worker reads of the first [n] slots, with the clock readings of each
    datagram: the coarse clock, [cycles_now_ns] and the service time. *)
Definition datagram_at (clocks : nat -> Z * Z * Z) (i : nat) (bytes : list Z) : Datagram :=
  mkDatagram bytes (clocks i).1.1 (clocks i).1.2 (clocks i).2.
Definition received (n : nat) (clocks : nat -> Z * Z * Z) (io : BatchIo) : list Datagram :=
  imap (fun i s => datagram_at clocks i (take (rv_len s) (rv_buf s))) (take n (bi_recv io)).

(** What is left of an arrival in its slot. *)
Definition clipped (clocks : nat -> Z * Z * Z) (i : nat) (p : Packet) : Datagram :=
  datagram_at clocks i (take kSlotSize p.2).
Definition full_size (p : Packet) : bool := (kSlotSize <=? length p.2)%nat.

Lemma deliver_payload p s : take (rv_len (deliver p s)) (rv_buf (deliver p s)) = take kSlotSize p.2.
Proof. simpl. rewrite take_app_le by done. by apply take_ge. Qed.

Lemma received_arrivals ds clocks io : (length ds <= length (bi_recv io))%nat ->
  received (length ds) clocks (recv_batch_mmsg (inr ds) io).2 = imap (clipped clocks) ds.
Proof.
  intros Hl. apply list_eq. intros i. unfold received. rewrite !list_lookup_imap. cbn [recv_batch_mmsg snd bi_recv].
  destruct (decide (i < length ds)%nat) as [Hi|Hi].
  - rewrite lookup_take_lt by done. rewrite deliver_all_lookup, Nat.sub_0_r.
    destruct (lookup_lt_is_Some_2 ds i Hi) as [p ->]. destruct (lookup_lt_is_Some_2 (bi_recv io) i ltac:(lia)) as [s ->].
    change (0 <=? i)%nat with true. cbn [fmap option_fmap option_map]. by rewrite deliver_payload.
  - rewrite lookup_take_ge by lia. by rewrite (lookup_ge_None_2 ds) by lia.
Qed.

Lemma clipped_sized clocks i p : sized (clipped clocks i p) = full_size p.
Proof.
  unfold sized, full_size, clipped, kSlotSize. cbn [dg_bytes datagram_at]. rewrite length_take.
  destruct (Nat.leb_spec kWireMsgSize (length p.2)); [apply Nat.eqb_eq|apply Nat.eqb_neq]; lia.
Qed.

Lemma sized_arrivals (f : nat -> Packet -> Datagram) i ds : (forall j p, sized (f j p) = full_size p) ->
  Forall2 (fun j p => (i <= j)%nat /\ ds !! (j - i)%nat = Some p) (sized_indices i (imap f ds)) (List.filter full_size ds).
Proof.
  revert i f. induction ds as [|p ds IH]; intros i f Hf; simpl; [done|]. rewrite Hf.
  assert (Forall2 (fun j q => (i <= j)%nat /\ (p :: ds) !! (j - i)%nat = Some q)
    (sized_indices (S i) (imap (f ∘ S) ds)) (List.filter full_size ds)) as H.
  { eapply Forall2_impl; [apply IH; intros; apply Hf|]. intros j q [Hj Hq]. split; [lia|].
    by replace (j - i)%nat with (S (j - S i)) by lia. }
  destruct (full_size p); simpl; [|done]. constructor; [|done]. by rewrite Nat.sub_diag.
Qed.

Definition io_ok (io : BatchIo) : Prop := length (bi_recv io) = bi_batch io /\ length (bi_send io) = bi_batch io.

Lemma new_batch_io_ok batch : io_ok (new_batch_io batch) /\ (1 <= bi_batch (new_batch_io batch))%nat.
Proof. unfold io_ok, new_batch_io. simpl. rewrite !length_replicate. destruct batch; lia. Qed.

Lemma stage_all_ok out replies io io' : stage_all out replies io = Some io' -> io_ok io -> io_ok io'.
Proof.
  revert out io. induction replies as [|[src reply] replies IH]; intros out io; simpl; [by intros [= <-]|].
  unfold stage_reply. destruct (bi_recv io !! src); [|done]. destruct (bi_send io !! out); [|done]. simpl.
  intros E [H1 H2]. apply (IH _ _ E). split; simpl; by rewrite ?length_insert.
Qed.

(** The [errno] the worker accounts a short send to. *)
Definition worker_errno (e : option NetErrno) : Errno :=
  match e with Some NNoBufs => ENOBUFS | Some NAgain => EAGAIN | Some NWouldBlock => EWOULDBLOCK | _ => EOTHER end.

(** The datagram [out] that leaves for an arrival [p]: back to its sender, and a client
    of byte order [h'] decodes it as the decision the first 64 bytes call for. *)
Definition answered (h h' : bool) rs subs (ds : list Packet) (clocks : nat -> Z * Z * Z) (p out : Packet) : Prop :=
  out.1 = p.1 /\ exists i d, ds !! i = Some p /\ (forall x, Wire.decode h' out.2 x = (true, d)) /\
    answers h rs subs (clipped clocks i p) d.

Lemma replies_answer h h' rs subs ds clocks replies :
  replies.*1 = sized_indices 0 (imap (clipped clocks) ds) -> Forall (good_reply h rs subs 0 (imap (clipped clocks) ds)) replies ->
  Forall2 (answered h h' rs subs ds clocks) (List.filter full_size ds) (map (addressed ds) replies).
Proof.
  intros Hi Hg. revert Hg. pose proof (sized_arrivals (clipped clocks) 0 ds (clipped_sized clocks)) as H2. rewrite <- Hi in H2.
  apply Forall2_fmap_l in H2. clear Hi. induction H2 as [|[j bs] p replies ps [_ Hp] _ IH]; intros Hg; [constructor|].
  apply list.Forall_cons in Hg as [(dg & d & _ & Hdg & Hbs & Hd & Hm & Ha) Hg]. cbn [map]. constructor; [|by apply IH].
  simpl in *. rewrite Nat.sub_0_r in *. rewrite list_lookup_imap, Hp in Hdg. injection Hdg as <-. subst bs.
  split; [simpl; by rewrite (nth_lookup_Some _ _ _ _ Hp)|]. exists j, d. split; [done|]. split; [|done].
  intros x. simpl. rewrite Wire.decode_encode by done. simpl. by rewrite Hm.
Qed.

Lemma clipped_ok ds clocks : Forall (fun p : Packet => Forall byte_ok p.2) ds -> (forall i, fits 64 (clocks i).1.2) ->
  Forall datagram_ok (imap (clipped clocks) ds).
Proof.
  intros Hb Hc. apply Forall_lookup_2. intros i dg. rewrite list_lookup_imap. intros Hdg.
  destruct (ds !! i) as [p|] eqn:Ep; [|done]. injection Hdg as <-. rewrite Forall_lookup in Hb.
  split; [|apply Hc]. cbn [dg_bytes clipped datagram_at]. apply Forall_take. by apply (Hb i).
Qed.

Lemma recv_senders (ds : list Packet) io i (p : Packet) : (length ds <= length (bi_recv io))%nat -> ds !! i = Some p ->
  rv_addr <$> bi_recv (recv_batch_mmsg (inr ds) io).2 !! i = Some p.1.
Proof.
  intros Hl Hp. pose proof (lookup_lt_Some _ _ _ Hp). cbn [recv_batch_mmsg snd bi_recv].
  rewrite deliver_all_lookup, Nat.sub_0_r, Hp. by destruct (lookup_lt_is_Some_2 (bi_recv io) i ltac:(lia)) as [s ->].
Qed.

Lemma replies_in_range h rs subs ds clocks replies : Forall (good_reply h rs subs 0 (imap (clipped clocks) ds)) replies ->
  Forall (fun jr => (jr.1 < length ds)%nat) replies.
Proof.
  intros Hg. eapply list.Forall_impl; [exact Hg|]. intros jr (dg & d & _ & Hdg & _). rewrite Nat.sub_0_r in Hdg.
  apply lookup_lt_Some in Hdg. by rewrite length_imap in Hdg.
Qed.

Lemma send_batch_spec script count io : kernel_ok script 0 count -> (count <= length (List.filter conclusive script))%nat ->
  exists k e, send_batch script count io = Some (send_result k e, e, take k (bi_send io)) /\ (k <= count)%nat /\
    (e = None <-> k = count).
Proof.
  intros Hk Hp. destruct count as [|count]; [by exists 0%nat, None|].
  destruct (send_loop_spec script 0 (S count) (bi_send io) Hk) as (k & e & E & Hkc & He & _); [lia|lia|].
  exists k, e. rewrite Nat.sub_0_r in E. split; [exact E|]. split; [lia|done].
Qed.

Lemma send_result_max k e : Z.max 0 (send_result k e) = Z.of_nat k.
Proof. destruct e as [e|]; simpl; [|lia]. destruct (transient e); [lia|]. destruct (Nat.ltb_spec 0 k); lia. Qed.

(** C11: A turn of the UDP worker, from the datagrams the kernel delivers to those it
    takes back: it never gets stuck; exactly the arrivals of at least 64 bytes (a longer
    one is cut to its first 64) get a reply; the kernel is handed the replies in the
    order of the arrivals and those it takes are a prefix, each sent back to the sender
    of its request and decoded by a client as the decision the request calls for; their
    number is what the worker adds to [replies_sent], and an [errno] is passed out
    exactly when it is short. *)
Theorem udp_turn cfg cycles now ds clocks rs P B store subs script w h0 vs h' io :
  io_ok io -> (length ds <= bi_batch io)%nat ->
  Forall (fun p : Packet => Forall byte_ok p.2) ds -> (forall i, fits 64 (clocks i).1.2) ->
  service_ns = Some h0 -> block_records h0 (wk_metrics w) vs -> rule_set_ok rs P B -> store_ok store subs ->
  let count := length (List.filter full_size ds) in
  kernel_ok script 0 count -> (count <= length (List.filter conclusive script))%nat ->
  let io1 := (recv_batch_mmsg (inr ds) io).2 in
  exists replies io2 k e out w',
    stage_all 0 replies io1 = Some io2 /\ io_ok io2 /\
    send_batch script (length replies) io2 = Some (send_result k e, e, out) /\
    worker_step cfg (RecvBatch cycles (received (length ds) clocks io1) (Some rs) store
      (mkSend (send_result k e) (worker_errno e) now)) w = Some (replies, w') /\
    length replies = count /\ (k <= count)%nat /\ (e = None <-> k = count) /\
    replies_sent (w_counters (wk_metrics w')) = replies_sent (w_counters (wk_metrics w)) + Z.of_nat k /\
    Forall2 (answered (wc_little_endian cfg) h' rs subs ds clocks) (take k (List.filter full_size ds)) out.
Proof.
  intros [Hr Hs] Hl Hb Hc E0 HB HR HS count Hk Hp io1. rewrite <- Hr in Hl.
  assert (received (length ds) clocks io1 = imap (clipped clocks) ds) as -> by by apply received_arrivals.
  destruct (step_serves cfg cycles (imap (clipped clocks) ds) rs P B store subs w h0 vs E0 HB HR HS)
    as (replies & Hi & Hg & Hstep); [by apply clipped_ok|].
  pose proof (replies_answer _ h' _ _ _ _ _ Hi Hg) as HA. pose proof (Forall2_length _ _ _ HA) as Hn.
  rewrite length_map in Hn. fold count in Hn. pose proof (List.filter_length_le full_size ds) as Hle. fold count in Hle.
  destruct (stage_all_spec ds io1 0 replies) as (io2 & E2 & Es); [intros; by apply recv_senders|by eapply replies_in_range|simpl; lia|].
  destruct (send_batch_spec script count io2) as (k & e & E3 & Hkc & He); [done..|].
  destruct (Hstep (mkSend (send_result k e) (worker_errno e) now)) as (w' & E4 & Hsent).
  exists replies, io2, k, e, (take k (bi_send io2)), w'. rewrite <- Hn. split; [done|].
  split; [eapply stage_all_ok; [exact E2|split; simpl; by rewrite ?deliver_all_length]|]. split; [done|]. split; [done|]. split; [done|]. split; [lia|]. split; [done|]. split.
  - rewrite Hsent. f_equal. simpl. rewrite send_result_max. destruct replies; [simpl in Hn; lia|done].
  - rewrite Es. simpl. rewrite take_app_le by (rewrite length_map; lia). by apply Forall2_take.
Qed.

(** ** Samples *)

(** A request, a datagram that is too short, and one of 70 bytes. *)
Definition sample_arrivals : list Packet :=
  [(7, Wire.encode true sample_request); (8, [1; 2; 3]); (9, replicate 70 255)].
Definition sample_clocks (i : nat) : Z * Z * Z := (0, 1000, 700).

Lemma sample_arrivals_ok : Forall (fun p : Packet => Forall byte_ok p.2) sample_arrivals.
Proof.
  pose proof sample_batch_ok as H. unfold sample_batch in H. apply list.Forall_cons in H as [[H1 _] H].
  apply list.Forall_cons in H as [[H2 _] _]. constructor; [exact H1|]. constructor; [exact H2|].
  constructor; [|constructor]. apply Forall_replicate. by vm_compute.
Qed.

Lemma sample_clock_fits : fits 64 1000.
Proof. by vm_compute. Qed.

Lemma udp_turn_witness : exists store m0 replies io2 k e out w', new_store 4 (dlit 5 (-1)) = Some store /\
  new_metrics = Some m0 /\ let io1 := (recv_batch_mmsg (inr sample_arrivals) (new_batch_io 4)).2 in
  stage_all 0 replies io1 = Some io2 /\
  send_batch [inr 1%nat; inl NIntr; inl NNoBufs] 2 io2 = Some (send_result k e, e, out) /\
  worker_step sample_config (RecvBatch 30 (received 3 sample_clocks io1) (Some sample_rule_set) store
    (mkSend (send_result k e) (worker_errno e) 50)) (mkWorker m0 0 0) = Some (replies, w') /\ length replies = 2%nat.
Proof.
  destruct empty_table as (store & Es & HS). destruct service_ns_holds as (h0 & u & m & E & _).
  assert (new_metrics = Some (mkMetrics zero_counters (replicate 3 0) (replicate (Z.to_nat kReasonCount) 0) h0))
    as Em by (unfold new_metrics; by rewrite E).
  destruct (udp_turn sample_config 30 50 sample_arrivals sample_clocks sample_rule_set (list_to_set [310410] ∖ {[0]})
    (list_to_set [350000000000001] ∖ {[0]}) store ∅ [inr 1%nat; inl NIntr; inl NNoBufs]
    (mkWorker (mkMetrics zero_counters (replicate 3 0) (replicate (Z.to_nat kReasonCount) 0) h0) 0 0)
    h0 [] false (new_batch_io 4)) as (replies & io2 & k & e & out & w' & E2 & _ & E3 & E4 & Hn & _).
  - apply new_batch_io_ok.
  - simpl. lia.
  - exact sample_arrivals_ok.
  - intros i. exact sample_clock_fits.
  - exact E.
  - by split.
  - exact sample_rule_set_ok.
  - exact HS.
  - split; [intros _; change (1 <= 1 <= 2)%nat; lia|exact I].
  - change (2 <= 2)%nat. lia.
  - assert (length replies = 2%nat) as Hn2 by exact Hn. rewrite Hn2 in E3.
    exists store. eexists _, replies, io2, k, e, out, w'. split; [exact Es|]. split; [exact Em|].
    split; [exact E2|]. split; [exact E3|]. split; [exact E4|exact Hn2].
Defined.
