(* ===== verification/Config.v ===== *)
(** * Config: command-line options of policyd

    src/config.cpp with [parse_log_level] of src/logging.cpp: the options, their
    conversion to the widths of the configuration and the validation.  The number
    of hardware threads, the existing files and the compiled-in back ends are
    arguments; the usage and version texts are not modelled. *)

From S2P Require Import Prelude Text Double Yaml Golden.
From Stdlib Require Import ZArith Lia Bool Ascii String.
From stdpp Require Import base list numbers strings.
Local Open Scope Z_scope.

Inductive IngestBackend := kUdp | kIoUring.
Inductive LogLevel := kTrace | kDebug | kInfo | kWarn | kError | kOff.

#[export] Instance IngestBackend_eq_dec : EqDecision IngestBackend.
Proof. solve_decision. Defined.
#[export] Instance LogLevel_eq_dec : EqDecision LogLevel.
Proof. solve_decision. Defined.

Definition parse_ingest_backend (s : string) : option IngestBackend :=
  if bool_decide (s ∈ ["udp"; "socket"]%string) then Some kUdp
  else if bool_decide (s ∈ ["io_uring"; "iouring"; "uring"]%string) then Some kIoUring
  else None.
Definition ingest_backend_name (b : IngestBackend) : string :=
  match b with kIoUring => "io_uring" | kUdp => "udp" end.

Definition parse_log_level (s : string) : option LogLevel :=
  if String.eqb s "trace" then Some kTrace
  else if String.eqb s "debug" then Some kDebug
  else if String.eqb s "info" then Some kInfo
  else if bool_decide (s ∈ ["warn"; "warning"]%string) then Some kWarn
  else if String.eqb s "error" then Some kError
  else if bool_decide (s ∈ ["off"; "none"]%string) then Some kOff
  else None.

Record ServerConfig := mkConfig {
  bind_address : string;
  port : Z;
  worker_threads : Z;
  batch_size : Z;
  so_rcvbuf : Z;
  so_sndbuf : Z;
  backend : IngestBackend;
  http_port : Z;
  http_bind_address : string;
  busy_poll_us : Z;
  pin_workers : bool;
  first_core : Z;
  control_plane_core : Z;
  rules_path : string;
  subscribers_path : string;
  expected_subscribers : Z;
  admin_bind_address : string;
  admin_port : Z;
  reload_poll_ms : Z;
  watch_rules_file : bool;
  log_level : LogLevel;
  run_seconds : Z }.

#[export] Instance ServerConfig_eq_dec : EqDecision ServerConfig.
Proof. solve_decision. Defined.

Definition default_config : ServerConfig :=
  mkConfig "0.0.0.0" 9500 1 32 (Z.shiftl 4 20) (Z.shiftl 4 20) kUdp 0 "0.0.0.0" 50 true 0 (-1)
    "config/rules.yaml" "config/subscribers.csv" 0 "127.0.0.1" 9501 500 true kInfo 0.

(** [strtoull(s, &end, 10)] with what it leaves; [None] when it finds no digits. *)
Definition strtoull_end (s : string) : option (Z * string) :=
  let '(neg, s) := scan_sign (drop_while is_space s) in
  let '(v, n, rest) := scan_digits dec_digit 10 s 0 0 in
  if n =? 0 then None
  else Some (if 2 ^ 64 <=? v then 2 ^ 64 - 1 else if neg then u64 (- v) else v, rest).

Definition parse_u64_arg (s : string) : option Z :=
  match strtoull_end s with
  | Some (v, EmptyString) => Some v
  | _ => None
  end.

(** [static_cast<int>] of an unsigned number. *)
Definition to_int (n : Z) : Z := let v := u32 n in if v <? 2 ^ 31 then v else v - 2 ^ 32.

(** ** Assignments *)

Definition set_bind_address (v : string) (c : ServerConfig) : ServerConfig :=
  let '(mkConfig _ x1 x2 x3 x4 x5 x6 x7 x8 x9 x10 x11 x12 x13 x14 x15 x16 x17 x18 x19 x20 x21) := c in
  mkConfig v x1 x2 x3 x4 x5 x6 x7 x8 x9 x10 x11 x12 x13 x14 x15 x16 x17 x18 x19 x20 x21.
Definition set_port (v : Z) (c : ServerConfig) : ServerConfig :=
  let '(mkConfig x0 _ x2 x3 x4 x5 x6 x7 x8 x9 x10 x11 x12 x13 x14 x15 x16 x17 x18 x19 x20 x21) := c in
  mkConfig x0 v x2 x3 x4 x5 x6 x7 x8 x9 x10 x11 x12 x13 x14 x15 x16 x17 x18 x19 x20 x21.
Definition set_worker_threads (v : Z) (c : ServerConfig) : ServerConfig :=
  let '(mkConfig x0 x1 _ x3 x4 x5 x6 x7 x8 x9 x10 x11 x12 x13 x14 x15 x16 x17 x18 x19 x20 x21) := c in
  mkConfig x0 x1 v x3 x4 x5 x6 x7 x8 x9 x10 x11 x12 x13 x14 x15 x16 x17 x18 x19 x20 x21.
Definition set_batch_size (v : Z) (c : ServerConfig) : ServerConfig :=
  let '(mkConfig x0 x1 x2 _ x4 x5 x6 x7 x8 x9 x10 x11 x12 x13 x14 x15 x16 x17 x18 x19 x20 x21) := c in
  mkConfig x0 x1 x2 v x4 x5 x6 x7 x8 x9 x10 x11 x12 x13 x14 x15 x16 x17 x18 x19 x20 x21.
Definition set_so_rcvbuf (v : Z) (c : ServerConfig) : ServerConfig :=
  let '(mkConfig x0 x1 x2 x3 _ x5 x6 x7 x8 x9 x10 x11 x12 x13 x14 x15 x16 x17 x18 x19 x20 x21) := c in
  mkConfig x0 x1 x2 x3 v x5 x6 x7 x8 x9 x10 x11 x12 x13 x14 x15 x16 x17 x18 x19 x20 x21.
Definition set_so_sndbuf (v : Z) (c : ServerConfig) : ServerConfig :=
  let '(mkConfig x0 x1 x2 x3 x4 _ x6 x7 x8 x9 x10 x11 x12 x13 x14 x15 x16 x17 x18 x19 x20 x21) := c in
  mkConfig x0 x1 x2 x3 x4 v x6 x7 x8 x9 x10 x11 x12 x13 x14 x15 x16 x17 x18 x19 x20 x21.
Definition set_backend (v : IngestBackend) (c : ServerConfig) : ServerConfig :=
  let '(mkConfig x0 x1 x2 x3 x4 x5 _ x7 x8 x9 x10 x11 x12 x13 x14 x15 x16 x17 x18 x19 x20 x21) := c in
  mkConfig x0 x1 x2 x3 x4 x5 v x7 x8 x9 x10 x11 x12 x13 x14 x15 x16 x17 x18 x19 x20 x21.
Definition set_http_port (v : Z) (c : ServerConfig) : ServerConfig :=
  let '(mkConfig x0 x1 x2 x3 x4 x5 x6 _ x8 x9 x10 x11 x12 x13 x14 x15 x16 x17 x18 x19 x20 x21) := c in
  mkConfig x0 x1 x2 x3 x4 x5 x6 v x8 x9 x10 x11 x12 x13 x14 x15 x16 x17 x18 x19 x20 x21.
Definition set_http_bind_address (v : string) (c : ServerConfig) : ServerConfig :=
  let '(mkConfig x0 x1 x2 x3 x4 x5 x6 x7 _ x9 x10 x11 x12 x13 x14 x15 x16 x17 x18 x19 x20 x21) := c in
  mkConfig x0 x1 x2 x3 x4 x5 x6 x7 v x9 x10 x11 x12 x13 x14 x15 x16 x17 x18 x19 x20 x21.
Definition set_busy_poll_us (v : Z) (c : ServerConfig) : ServerConfig :=
  let '(mkConfig x0 x1 x2 x3 x4 x5 x6 x7 x8 _ x10 x11 x12 x13 x14 x15 x16 x17 x18 x19 x20 x21) := c in
  mkConfig x0 x1 x2 x3 x4 x5 x6 x7 x8 v x10 x11 x12 x13 x14 x15 x16 x17 x18 x19 x20 x21.
Definition set_pin_workers (v : bool) (c : ServerConfig) : ServerConfig :=
  let '(mkConfig x0 x1 x2 x3 x4 x5 x6 x7 x8 x9 _ x11 x12 x13 x14 x15 x16 x17 x18 x19 x20 x21) := c in
  mkConfig x0 x1 x2 x3 x4 x5 x6 x7 x8 x9 v x11 x12 x13 x14 x15 x16 x17 x18 x19 x20 x21.
Definition set_first_core (v : Z) (c : ServerConfig) : ServerConfig :=
  let '(mkConfig x0 x1 x2 x3 x4 x5 x6 x7 x8 x9 x10 _ x12 x13 x14 x15 x16 x17 x18 x19 x20 x21) := c in
  mkConfig x0 x1 x2 x3 x4 x5 x6 x7 x8 x9 x10 v x12 x13 x14 x15 x16 x17 x18 x19 x20 x21.
Definition set_control_plane_core (v : Z) (c : ServerConfig) : ServerConfig :=
  let '(mkConfig x0 x1 x2 x3 x4 x5 x6 x7 x8 x9 x10 x11 _ x13 x14 x15 x16 x17 x18 x19 x20 x21) := c in
  mkConfig x0 x1 x2 x3 x4 x5 x6 x7 x8 x9 x10 x11 v x13 x14 x15 x16 x17 x18 x19 x20 x21.
Definition set_rules_path (v : string) (c : ServerConfig) : ServerConfig :=
  let '(mkConfig x0 x1 x2 x3 x4 x5 x6 x7 x8 x9 x10 x11 x12 _ x14 x15 x16 x17 x18 x19 x20 x21) := c in
  mkConfig x0 x1 x2 x3 x4 x5 x6 x7 x8 x9 x10 x11 x12 v x14 x15 x16 x17 x18 x19 x20 x21.
Definition set_subscribers_path (v : string) (c : ServerConfig) : ServerConfig :=
  let '(mkConfig x0 x1 x2 x3 x4 x5 x6 x7 x8 x9 x10 x11 x12 x13 _ x15 x16 x17 x18 x19 x20 x21) := c in
  mkConfig x0 x1 x2 x3 x4 x5 x6 x7 x8 x9 x10 x11 x12 x13 v x15 x16 x17 x18 x19 x20 x21.
Definition set_expected_subscribers (v : Z) (c : ServerConfig) : ServerConfig :=
  let '(mkConfig x0 x1 x2 x3 x4 x5 x6 x7 x8 x9 x10 x11 x12 x13 x14 _ x16 x17 x18 x19 x20 x21) := c in
  mkConfig x0 x1 x2 x3 x4 x5 x6 x7 x8 x9 x10 x11 x12 x13 x14 v x16 x17 x18 x19 x20 x21.
Definition set_admin_bind_address (v : string) (c : ServerConfig) : ServerConfig :=
  let '(mkConfig x0 x1 x2 x3 x4 x5 x6 x7 x8 x9 x10 x11 x12 x13 x14 x15 _ x17 x18 x19 x20 x21) := c in
  mkConfig x0 x1 x2 x3 x4 x5 x6 x7 x8 x9 x10 x11 x12 x13 x14 x15 v x17 x18 x19 x20 x21.
Definition set_admin_port (v : Z) (c : ServerConfig) : ServerConfig :=
  let '(mkConfig x0 x1 x2 x3 x4 x5 x6 x7 x8 x9 x10 x11 x12 x13 x14 x15 x16 _ x18 x19 x20 x21) := c in
  mkConfig x0 x1 x2 x3 x4 x5 x6 x7 x8 x9 x10 x11 x12 x13 x14 x15 x16 v x18 x19 x20 x21.
Definition set_reload_poll_ms (v : Z) (c : ServerConfig) : ServerConfig :=
  let '(mkConfig x0 x1 x2 x3 x4 x5 x6 x7 x8 x9 x10 x11 x12 x13 x14 x15 x16 x17 _ x19 x20 x21) := c in
  mkConfig x0 x1 x2 x3 x4 x5 x6 x7 x8 x9 x10 x11 x12 x13 x14 x15 x16 x17 v x19 x20 x21.
Definition set_watch_rules_file (v : bool) (c : ServerConfig) : ServerConfig :=
  let '(mkConfig x0 x1 x2 x3 x4 x5 x6 x7 x8 x9 x10 x11 x12 x13 x14 x15 x16 x17 x18 _ x20 x21) := c in
  mkConfig x0 x1 x2 x3 x4 x5 x6 x7 x8 x9 x10 x11 x12 x13 x14 x15 x16 x17 x18 v x20 x21.
Definition set_log_level (v : LogLevel) (c : ServerConfig) : ServerConfig :=
  let '(mkConfig x0 x1 x2 x3 x4 x5 x6 x7 x8 x9 x10 x11 x12 x13 x14 x15 x16 x17 x18 x19 _ x21) := c in
  mkConfig x0 x1 x2 x3 x4 x5 x6 x7 x8 x9 x10 x11 x12 x13 x14 x15 x16 x17 x18 x19 v x21.
Definition set_run_seconds (v : Z) (c : ServerConfig) : ServerConfig :=
  let '(mkConfig x0 x1 x2 x3 x4 x5 x6 x7 x8 x9 x10 x11 x12 x13 x14 x15 x16 x17 x18 x19 x20 _) := c in
  mkConfig x0 x1 x2 x3 x4 x5 x6 x7 x8 x9 x10 x11 x12 x13 x14 x15 x16 x17 x18 x19 x20 v.

(** ** Options *)

(** What an option does: a text value, a number with its conversion, one of the
    two named values, a flag, or ending the program after a message. *)
Inductive Option_ :=
  | OText (set : string -> ServerConfig -> ServerConfig)
  | ONum (set : Z -> ServerConfig -> ServerConfig)
  | OBackend
  | OLevel
  | OFlag (set : ServerConfig -> ServerConfig)
  | OHelp.

Definition options : list (string * Option_) :=
  [("-h", OHelp); ("--help", OHelp); ("--version", OHelp);
   ("--bind", OText set_bind_address);
   ("--port", ONum (fun n => set_port (u16 n)));
   ("--workers", ONum (fun n => set_worker_threads (u32 n)));
   ("--batch", ONum (fun n => set_batch_size (u32 n)));
   ("--backend", OBackend);
   ("--busy-poll-us", ONum (fun n => set_busy_poll_us (u32 n)));
   ("--http-port", ONum (fun n => set_http_port (u16 n)));
   ("--http-bind", OText set_http_bind_address);
   ("--rcvbuf", ONum (fun n => set_so_rcvbuf (u32 n)));
   ("--sndbuf", ONum (fun n => set_so_sndbuf (u32 n)));
   ("--pin", OFlag (set_pin_workers true));
   ("--no-pin", OFlag (set_pin_workers false));
   ("--first-core", ONum (fun n => set_first_core (u32 n)));
   ("--control-core", ONum (fun n => set_control_plane_core (to_int n)));
   ("--rules", OText set_rules_path);
   ("--subscribers", OText set_subscribers_path);
   ("--expect-subscribers", ONum set_expected_subscribers);
   ("--admin-bind", OText set_admin_bind_address);
   ("--admin-port", ONum (fun n => set_admin_port (u16 n)));
   ("--no-watch", OFlag (set_watch_rules_file false));
   ("--reload-poll-ms", ONum (fun n => set_reload_poll_ms (u32 n)));
   ("--log-level", OLevel);
   ("--run-seconds", ONum (fun n => set_run_seconds (u32 n)))]%string.

Fixpoint find_option (a : string) (l : list (string * Option_)) : option Option_ :=
  match l with
  | [] => None
  | (name, o) :: l => if String.eqb a name then Some o else find_option a l
  end.

Record ConfigParseResult := mkParsed { cp_config : ServerConfig; cp_ok : bool; cp_help : bool; cp_error : string }.
Definition parsed_ok (c : ServerConfig) : ConfigParseResult := mkParsed c true false EmptyString.
Definition parsed_error (c : ServerConfig) (msg : string) : ConfigParseResult := mkParsed c false false msg.

Definition requires_value (a : string) : string := ("option " +:+ a +:+ " requires a value")%string.

(** The loop over the arguments after the program's name.  A number that is missing
    or malformed is stored as zero, which the error makes irrelevant. *)
Fixpoint parse_args (args : list string) (c : ServerConfig) : ConfigParseResult :=
  match args with
  | [] => parsed_ok c
  | a :: args =>
      match find_option a options with
      | None => parsed_error c ("unknown option '" +:+ a +:+ "' (try --help)")
      | Some OHelp => mkParsed c true true EmptyString
      | Some (OFlag set) => parse_args args (set c)
      | Some (OText set) =>
          match args with
          | [] => parsed_error c (requires_value a)
          | v :: args => parse_args args (set v c)
          end
      | Some (ONum set) =>
          match args with
          | [] => parsed_error (set 0 c) (requires_value a)
          | v :: args =>
              match parse_u64_arg v with
              | Some n => parse_args args (set n c)
              | None => parsed_error (set 0 c)
                          ("option " +:+ a +:+ " expects a number, got '" +:+ v +:+ "'")
              end
          end
      | Some OBackend =>
          match args with
          | [] => parsed_error c (requires_value a)
          | v :: args =>
              match parse_ingest_backend v with
              | Some b => parse_args args (set_backend b c)
              | None => parsed_error c ("unknown backend '" +:+ v +:+ "' (expected udp or io_uring)")
              end
          end
      | Some OLevel =>
          match args with
          | [] => parsed_error c (requires_value a)
          | v :: args =>
              match parse_log_level v with
              | Some l => parse_args args (set_log_level l c)
              | None => parsed_error c ("unknown log level '" +:+ v +:+ "'")
              end
          end
      end
  end%string.

Definition parse_server_args (args : list string) : ConfigParseResult := parse_args args default_config.

(** ** Validation *)

Section Validate.
Context (hardware_concurrency : Z) (file_exists : string -> bool) (have_io_uring : bool).

Definition hw : Z := Z.max 1 hardware_concurrency.

(** The empty string when the configuration is usable. *)
Definition validate_config (cfg : ServerConfig) : string :=
  if port cfg =? 0 then "--port must be non-zero"
  else if worker_threads cfg =? 0 then "--workers must be at least 1"
  else if pin_workers cfg && (hw <? u32 (first_core cfg + worker_threads cfg)) then
    "worker cores " +:+ to_string (first_core cfg) +:+ ".." +:+
    to_string (u32 (u32 (first_core cfg + worker_threads cfg) - 1)) +:+ " exceed the " +:+
    to_string hw +:+ " available hardware threads"
  else if (batch_size cfg =? 0) || (1024 <? batch_size cfg) then "--batch must be 1..1024"
  else if negb (file_exists (rules_path cfg)) then "rules file not found: " +:+ rules_path cfg
  else if negb (String.eqb (subscribers_path cfg) "") && negb (file_exists (subscribers_path cfg)) then
    "subscriber file not found: " +:+ subscribers_path cfg
  else if bool_decide (backend cfg = kIoUring) && negb have_io_uring then
    "this binary was built without the io_uring backend (needs Linux + liburing)"
  else "".
End Validate.

(** ** Every configuration can be given on the command line *)

Record config_ok (c : ServerConfig) : Prop := {
  cg_port : fits 16 (port c); cg_workers : fits 32 (worker_threads c); cg_batch : fits 32 (batch_size c);
  cg_rcvbuf : fits 32 (so_rcvbuf c); cg_sndbuf : fits 32 (so_sndbuf c); cg_http : fits 16 (http_port c);
  cg_poll : fits 32 (busy_poll_us c); cg_core : fits 32 (first_core c);
  cg_control : -1 <= control_plane_core c < 2 ^ 31; cg_expected : fits 64 (expected_subscribers c);
  cg_admin : fits 16 (admin_port c); cg_reload : fits 32 (reload_poll_ms c); cg_run : fits 32 (run_seconds c) }.

Definition log_level_name (l : LogLevel) : string :=
  match l with
  | kTrace => "trace" | kDebug => "debug" | kInfo => "info" | kWarn => "warn" | kError => "error" | kOff => "off"
  end.

(** A command line for a configuration. *)
Definition render (c : ServerConfig) : list string :=
  (if pin_workers c then "--pin" else "--no-pin") ::
  "--bind" :: bind_address c :: "--port" :: to_string (port c) ::
  "--workers" :: to_string (worker_threads c) :: "--batch" :: to_string (batch_size c) ::
  "--backend" :: ingest_backend_name (backend c) :: "--busy-poll-us" :: to_string (busy_poll_us c) ::
  "--http-port" :: to_string (http_port c) :: "--http-bind" :: http_bind_address c ::
  "--rcvbuf" :: to_string (so_rcvbuf c) :: "--sndbuf" :: to_string (so_sndbuf c) ::
  "--first-core" :: to_string (first_core c) :: "--rules" :: rules_path c ::
  "--subscribers" :: subscribers_path c :: "--expect-subscribers" :: to_string (expected_subscribers c) ::
  "--admin-bind" :: admin_bind_address c :: "--admin-port" :: to_string (admin_port c) ::
  "--reload-poll-ms" :: to_string (reload_poll_ms c) :: "--log-level" :: log_level_name (log_level c) ::
  "--run-seconds" :: to_string (run_seconds c) ::
  (if watch_rules_file c then [] else ["--no-watch"]) ++
  (if control_plane_core c <? 0 then [] else ["--control-core"; to_string (control_plane_core c)]).

Lemma parse_u64_arg_to_string v : fits 64 v -> parse_u64_arg (to_string v) = Some v.
Proof.
  intros [H0 H1]. destruct (to_string_first v H0) as (c & s & E & Hc & Hs & _).
  destruct (to_string_value v H0) as [Hd Hv]. unfold parse_u64_arg, strtoull_end.
  rewrite E, digit_not_space, digit_no_sign by done.
  rewrite <- E, <- (str_app_nil_r (to_string v)), scan_digits_app by done. rewrite Hv, E. simpl String.length.
  destruct (Z.eqb_spec (0 + Z.of_nat (S (String.length s))) 0); [lia|].
  destruct (Z.leb_spec (2 ^ 64) v); [lia|done].
Qed.

Lemma parse_num a set v args c : find_option a options = Some (ONum set) -> fits 64 v ->
  parse_args (a :: to_string v :: args) c = parse_args args (set v c).
Proof. intros E Hv. cbn [parse_args]. by rewrite E, parse_u64_arg_to_string. Qed.

Lemma parse_text a set v args c : find_option a options = Some (OText set) ->
  parse_args (a :: v :: args) c = parse_args args (set v c).
Proof. intros E. cbn [parse_args]. by rewrite E. Qed.

Lemma parse_flag a set args c : find_option a options = Some (OFlag set) ->
  parse_args (a :: args) c = parse_args args (set c).
Proof. intros E. cbn [parse_args]. by rewrite E. Qed.

Lemma parse_backend b args c :
  parse_args ("--backend"%string :: ingest_backend_name b :: args) c = parse_args args (set_backend b c).
Proof. by destruct b. Qed.

Lemma parse_level l args c :
  parse_args ("--log-level"%string :: log_level_name l :: args) c = parse_args args (set_log_level l c).
Proof. by destruct l. Qed.

(** One option of a rendered command line. *)
Ltac parse_option :=
  first [ rewrite parse_backend | rewrite parse_level
        | erewrite parse_num; [|reflexivity|eapply fits_le; [|eassumption]; lia]
        | erewrite parse_text; [|reflexivity] | erewrite parse_flag; [|reflexivity] ].

(** Options lose nothing: every configuration whose numbers fit their fields is
    what [parse_server_args] makes of its own command line. *)
Theorem config_roundtrip c : config_ok c -> parse_server_args (render c) = parsed_ok c.
Proof.
  intros [H1 H2 H3 H4 H5 H6 H7 H8 H9 H10 H11 H12 H13]. destruct c; simpl in *.
  unfold parse_server_args, render. cbn [bind_address port worker_threads batch_size so_rcvbuf so_sndbuf backend
    http_port http_bind_address busy_poll_us pin_workers first_core control_plane_core rules_path subscribers_path
    expected_subscribers admin_bind_address admin_port reload_poll_ms watch_rules_file log_level run_seconds].
  rewrite (parse_flag _ (set_pin_workers pin_workers0)) by (by destruct pin_workers0).
  do 19 parse_option.
  rewrite !wrap_id by done.
  assert (forall args c, parse_args ((if watch_rules_file0 then [] else ["--no-watch"%string]) ++ args) c =
    parse_args args (if watch_rules_file0 then c else set_watch_rules_file false c)) as ->
    by (intros args c; by destruct watch_rules_file0).
  destruct (Z.ltb_spec control_plane_core0 0).
  - replace control_plane_core0 with (-1) by lia. by destruct watch_rules_file0.
  - erewrite parse_num; [|reflexivity|unfold fits; lia]. unfold to_int. rewrite wrap_id by (unfold fits; lia).
    destruct (Z.ltb_spec control_plane_core0 (2 ^ 31)); [|lia]. by destruct watch_rules_file0.
Qed.

Lemma guard_empty (b : bool) (m r : string) : m <> EmptyString ->
  (if b then m else r) = EmptyString <-> b = false /\ r = EmptyString.
Proof. intros Hm. destruct b; [|tauto]. split; [done|]. by intros []. Qed.

(** A configuration is accepted exactly when it is usable: a port, at least one
    worker, pinned cores within the machine (in the 32-bit sum of the code), a batch
    of 1 to 1024, the files it names and a back end that was compiled in. *)
Theorem validate_config_exact hc exists_ uring cfg :
  validate_config hc exists_ uring cfg = EmptyString <->
  port cfg <> 0 /\ worker_threads cfg <> 0 /\
  (pin_workers cfg = true -> u32 (first_core cfg + worker_threads cfg) <= Z.max 1 hc) /\
  (batch_size cfg <> 0 /\ batch_size cfg <= 1024) /\ exists_ (rules_path cfg) = true /\
  (subscribers_path cfg <> EmptyString -> exists_ (subscribers_path cfg) = true) /\
  (backend cfg = kIoUring -> uring = true).
Proof.
  unfold validate_config, hw. rewrite !guard_empty by done.
  rewrite !Z.eqb_neq, orb_false_iff, Z.eqb_neq, Z.ltb_ge, negb_false_iff.
  assert (forall (b1 b2 : bool), b1 && b2 = false <-> (b1 = true -> b2 = false)) as K by (intros [] []; simpl; intuition done).
  rewrite !K, Z.ltb_ge, negb_true_iff, !negb_false_iff, bool_decide_eq_true, String.eqb_neq. tauto.
Qed.

(** ** What the conversions let through *)

(** A number too large for its field is cut to its low bits without a message, and
    the 32-bit sum of the core check wraps: worker 0 is sent to core 2^32 - 1. *)
Lemma options_truncate :
  cp_ok (parse_server_args ["--port"; "65537"; "--batch"; "4294967328"]) = true /\
  port (cp_config (parse_server_args ["--port"; "65537"; "--batch"; "4294967328"])) = 1 /\
  batch_size (cp_config (parse_server_args ["--port"; "65537"; "--batch"; "4294967328"])) = 32 /\
  validate_config 4 (fun _ => true) true
    (cp_config (parse_server_args ["--first-core"; "4294967295"; "--workers"; "2"])) = EmptyString.
Proof. by vm_compute. Qed.

Lemma config_roundtrip_witness : parse_server_args (render (set_control_plane_core 3 default_config)) =
  parsed_ok (set_control_plane_core 3 default_config).
Proof.
  apply (config_roundtrip (set_control_plane_core 3 default_config)).
  split; vm_compute; split; discriminate || reflexivity.
Defined.
