(* ===== verification/AdminHttp.v ===== *)
(** * AdminHttp: the admin server of the control plane

    include/policy/admin_http.hpp and src/admin_http.cpp: percent decoding, the
    parser of a request, the routing table and the response.  A connection is the
    list of chunks that [recv] delivers before it fails or times out; what is
    written to it is the result. *)

From S2P Require Import Prelude Text Double Yaml Golden HttpFront.
From Stdlib Require Import ZArith Lia Bool Ascii String.
From stdpp Require Import base list numbers strings gmap.
Local Open Scope Z_scope.

Definition kMaxHeaderBytes : Z := 64 * 1024.
Definition kMaxBodyBytes : Z := 8 * 1024 * 1024.

(** ** Requests and responses *)

Record HttpRequest := mkHttp {
  hr_method : string; hr_path : string; hr_query : gmap string string;
  hr_headers : gmap string string; hr_body : string }.
Record HttpResponse := mkResponse { hs_status : Z; hs_content_type : string; hs_body : string }.

Definition param (key : string) (r : HttpRequest) : option string := hr_query r !! key.
Definition text (b : string) : HttpResponse := mkResponse 200 "text/plain; charset=utf-8" b.
Definition json (b : string) : HttpResponse := mkResponse 200 "application/json" b.
Definition http_error (status : Z) (message : string) : HttpResponse :=
  mkResponse status "application/json" (error_body message).

Definition to_lower (s : string) : string := string_map tolower s.

Definition status_text (status : Z) : string :=
  if status =? 200 then "OK" else if status =? 202 then "Accepted" else if status =? 204 then "No Content"
  else if status =? 400 then "Bad Request" else if status =? 404 then "Not Found"
  else if status =? 405 then "Method Not Allowed" else if status =? 409 then "Conflict"
  else if status =? 413 then "Payload Too Large" else if status =? 422 then "Unprocessable Entity"
  else if status =? 500 then "Internal Server Error" else if status =? 503 then "Service Unavailable"
  else "Unknown".

(** ** Percent decoding *)

Fixpoint url_decode (s : string) : string :=
  match s with
  | EmptyString => EmptyString
  | String c rest =>
      if Ascii.eqb c "+" then String " " (url_decode rest)
      else if Ascii.eqb c "%" then
        match rest with
        | String a (String b rest') =>
            match hex_digit a, hex_digit b with
            | Some x, Some y => String (chr (x * 16 + y)) (url_decode rest')
            | _, _ => String c (url_decode rest)
            end
        | _ => String c (url_decode rest)
        end
      else String c (url_decode rest)
  end.

(** ** The request *)

Definition parse_query (q : string) : gmap string string :=
  fold_left (fun m '(k, v) => <[url_decode k := url_decode v]> m) (for_each_param q) ∅.

(** The header lines after the request line; [n] bounds their number. *)
Fixpoint header_lines (n : nat) (rest : string) : list string :=
  match n, rest with
  | S n, String _ _ =>
      match String.index 0 crlf rest with
      | Some k => str_take k rest :: header_lines n (str_drop (k + 2) rest)
      | None => [rest]
      end
  | _, _ => []
  end.

Definition parse_header (line : string) (m : gmap string string) : gmap string string :=
  match split_at_char ":" line with
  | Some (name, value) => <[to_lower name := drop_while is_blank value]> m
  | None => m
  end.

(** The request of a complete head; [None] for a malformed request line. *)
Definition parse_head (head : string) : option HttpRequest :=
  let '(line, rest) := match String.index 0 crlf head with
                       | Some k => (str_take k head, str_drop (k + 2) head)
                       | None => (head, EmptyString)
                       end in
  match split_at_char " " line with
  | None => None
  | Some (method, more) =>
      match split_at_char " " more with
      | None => None
      | Some (target, _) =>
          let '(target, query) := match split_at_char "?" target with
                                  | Some (t, q) => (t, parse_query q)
                                  | None => (target, ∅)
                                  end in
          Some (mkHttp method (url_decode target) query
            (fold_left (fun m l => parse_header l m) (header_lines (String.length rest) rest) ∅) EmptyString)
      end
  end.

Definition content_length (r : HttpRequest) : Z :=
  match hr_headers r !! "content-length"%string with Some v => to_u64 v | None => 0 end.

(** ** Routing *)

Section Routes.
Context {H : Type}.

(** [routes_] is a map; the prefix routes are tried in the order of registration. *)
Record Router := mkRouter { rt_routes : list (string * H); rt_prefix : list (string * H) }.

Definition route_key (method path : string) : string := (method +:+ " " +:+ path)%string.

(** Registering a route again replaces it. *)
Definition route (method path : string) (h : H) (r : Router) : Router :=
  mkRouter ((route_key method path, h) :: List.filter (fun kh => negb (String.eqb kh.1 (route_key method path))) (rt_routes r))
    (rt_prefix r).
Definition route_prefix (method prefix : string) (h : H) (r : Router) : Router :=
  mkRouter (rt_routes r) (rt_prefix r ++ [(route_key method prefix, h)]).

Fixpoint find_route (key : string) (l : list (string * H)) : option H :=
  match l with
  | [] => None
  | (k, h) :: l => if String.eqb k key then Some h else find_route key l
  end.

(** The longest prefix of [key], the first of its length. *)
Fixpoint best_prefix (key : string) (l : list (string * H)) (best : option H) (best_len : nat) : option H :=
  match l with
  | [] => best
  | (p, h) :: l =>
      if String.prefix p key && (best_len <? String.length p)%nat
      then best_prefix key l (Some h) (String.length p)
      else best_prefix key l best best_len
  end.

Definition is_suffix (k path : string) : bool :=
  (String.length path <? String.length k)%nat &&
  String.eqb (str_drop (String.length k - String.length path) k) path.

(** The handler to call, or the error to answer. *)
Definition dispatch (r : Router) (req : HttpRequest) : H + HttpResponse :=
  let key := route_key (hr_method req) (hr_path req) in
  match find_route key (rt_routes r) with
  | Some h => inl h
  | None =>
      match best_prefix key (rt_prefix r) None 0 with
      | Some h => inl h
      | None =>
          if existsb (fun kh => is_suffix kh.1 (hr_path req)) (rt_routes r)
          then inr (http_error 405 ("method not allowed for " +:+ hr_path req))
          else inr (http_error 404 ("no such endpoint: " +:+ hr_path req))
      end
  end.
End Routes.
Arguments Router : clear implicits.

(** ** A connection *)

Definition bad_request_reply : string :=
  let body := error_body "malformed or oversized request" in
  ("HTTP/1.1 400 Bad Request" +:+ crlf +:+ "Content-Length: " +:+ to_string (strlen body) +:+ crlf +:+
   "Connection: close" +:+ crlf +:+ crlf +:+ body)%string.
Definition bad_line_reply : string :=
  ("HTTP/1.1 400 Bad Request" +:+ crlf +:+ "Content-Length: 0" +:+ crlf +:+ "Connection: close" +:+ crlf +:+ crlf)%string.

Definition render_response (r : HttpResponse) : string :=
  ("HTTP/1.1 " +:+ to_string (hs_status r) +:+ " " +:+ status_text (hs_status r) +:+ crlf +:+
   "Content-Type: " +:+ hs_content_type r +:+ crlf +:+
   "Content-Length: " +:+ to_string (strlen (hs_body r)) +:+ crlf +:+
   "Cache-Control: no-store" +:+ crlf +:+ "Connection: close" +:+ crlf +:+ crlf +:+ hs_body r)%string.

(** Reading until the end of the headers: its place, the buffer and the chunks that
    are left; [None] when the head is too long or the client stops. *)
Fixpoint read_head (chunks : list string) (buf : string) : option (nat * string * list string) :=
  match String.index 0 (crlf +:+ crlf)%string buf with
  | Some n => Some (n, buf, chunks)
  | None =>
      if kMaxHeaderBytes <? strlen buf then None
      else match chunks with
           | [] => None
           | c :: chunks => read_head chunks (buf +:+ c)%string
           end
  end.

Fixpoint read_body (chunks : list string) (buf : string) (body_start : nat) (len : Z) : string :=
  if strlen buf - Z.of_nat body_start <? len then
    match chunks with
    | [] => buf
    | c :: chunks => read_body chunks (buf +:+ c)%string body_start len
    end
  else buf.

Definition with_body (r : HttpRequest) (b : string) : HttpRequest :=
  mkHttp (hr_method r) (hr_path r) (hr_query r) (hr_headers r) b.

(** What the connection comes to: a fixed reply, an error response, or a request
    to dispatch. *)
Inductive Parsed := PReply (out : string) | PError (r : HttpResponse) | PRequest (r : HttpRequest).

Definition read_request (chunks : list string) : Parsed :=
  match read_head chunks EmptyString with
  | None => PReply bad_request_reply
  | Some (header_end, buf, chunks) =>
      match parse_head (str_take header_end buf) with
      | None => PReply bad_line_reply
      | Some req =>
          let len := content_length req in
          if kMaxBodyBytes <? len then PError (http_error 413 "request body too large")
          else
            let body_start := (header_end + 4)%nat in
            let buf := read_body chunks buf body_start len in
            PRequest (with_body req (str_take (Z.to_nat len) (str_drop body_start buf)))
      end
  end.

(** [handle_connection] for handlers that act on a state. *)
Definition handle_connection {S} (router : Router (HttpRequest -> S -> option (HttpResponse * S)))
    (chunks : list string) (s : S) : option (string * S) :=
  match read_request chunks with
  | PReply out => Some (out, s)
  | PError r => Some (render_response r, s)
  | PRequest req =>
      match dispatch router req with
      | inl h => '(r, s) ← h req s; Some (render_response r, s)
      | inr r => Some (render_response r, s)
      end
  end.

(** ** Percent decoding inverts percent encoding *)

Definition hex_char (d : Z) : ascii := if d <? 10 then chr (48 + d) else chr (55 + d).
Definition unreserved (c : ascii) : bool :=
  is_digit c || ((65 <=? code c) && (code c <=? 90)) || ((97 <=? code c) && (code c <=? 122)) ||
  bool_decide (c ∈ ["-"; "_"; "."; "~"; "/"]%char).

(** The encoding a client uses: what is not unreserved becomes an escape. *)
Fixpoint url_encode (s : string) : string :=
  match s with
  | EmptyString => EmptyString
  | String c s =>
      if unreserved c then String c (url_encode s)
      else String "%" (String (hex_char (code c / 16)) (String (hex_char (code c mod 16)) (url_encode s)))
  end.

Lemma hex_char_digit d : 0 <= d < 16 -> hex_digit (hex_char d) = Some d.
Proof.
  intros Hd. assert (forall n, (n < 16)%nat -> hex_digit (hex_char (Z.of_nat n)) = Some (Z.of_nat n)) as K.
  { intros n Hn. do 16 (destruct n as [|n]; [by vm_compute|]). lia. }
  rewrite <- (Z2Nat.id d) by lia. apply K. lia.
Qed.

Lemma unreserved_plain c : unreserved c = true -> Ascii.eqb c "+" = false /\ Ascii.eqb c "%" = false.
Proof. by destruct c as [[] [] [] [] [] [] [] []]; vm_compute. Qed.

(** Percent decoding undoes percent encoding, for every text: names and values
    with reserved or binary characters reach the handlers unchanged. *)
Theorem url_roundtrip s : url_decode (url_encode s) = s.
Proof.
  induction s as [|c s IH]; [done|]. cbn [url_encode]. destruct (unreserved c) eqn:E.
  - apply unreserved_plain in E as [E1 E2]. cbn [url_decode]. by rewrite E1, E2, IH.
  - pose proof (code_bound c). cbn [url_decode]. change (Ascii.eqb "%" "+") with false.
    rewrite Ascii.eqb_refl, !hex_char_digit, IH; [|apply Z.mod_pos_bound; lia|].
    + rewrite Z.mul_comm, <- Z.div_mod by lia. by rewrite chr_code.
    + split; [apply Z.div_pos; lia|apply Z.div_lt_upper_bound; lia].
Qed.

(** ** Routing *)

Section RouteTheory.
Context {H : Type}.

Lemma find_route_spec key (l : list (string * H)) :
  match find_route key l with
  | Some h => (key, h) ∈ l
  | None => forall h, (key, h) ∉ l
  end.
Proof.
  induction l as [|[k h] l IH]; simpl; [intros h; apply not_elem_of_nil|].
  destruct (String.eqb_spec k key) as [->|Hne]; [left|].
  destruct (find_route key l); [by right|]. intros h' [[= -> ->]|Hin]%elem_of_cons; [done|]. by apply (IH h').
Qed.

(** A handler found is that of the longest prefix in the list, or the one that was
    the best before. *)
Lemma best_prefix_spec key (l : list (string * H)) best n :
  (best_prefix key l best n = best /\
     forall p h, (p, h) ∈ l -> String.prefix p key = true -> (String.length p <= n)%nat) \/
  exists p h, best_prefix key l best n = Some h /\ (p, h) ∈ l /\ String.prefix p key = true /\
    (n < String.length p)%nat /\
    forall q h', (q, h') ∈ l -> String.prefix q key = true -> (String.length q <= String.length p)%nat.
Proof.
  revert best n. induction l as [|[p h] l IH]; intros best n; simpl.
  { left. split; [done|]. intros p h Hin. by apply not_elem_of_nil in Hin. }
  destruct (String.prefix p key) eqn:Ep; simpl.
  2: { destruct (IH best n) as [[-> Hl]|(p' & h' & E & Hin & Hp & Hn & Hmax)]; [left|right].
       - split; [done|]. intros q h' [[= -> ->]|Hin]%elem_of_cons Hq; [congruence|by eapply Hl].
       - exists p', h'. split_and!; try done; [by right|]. intros q h2 [[= -> ->]|Hq]%elem_of_cons Hpq; [congruence|by eapply Hmax]. }
  destruct (Nat.ltb_spec n (String.length p)) as [Hlt|Hge].
  - right. destruct (IH (Some h) (String.length p)) as [[-> Hl]|(p' & h' & E & Hin & Hp & Hn & Hmax)].
    + exists p, h. split_and!; try done; [left|]. intros q h' [[= -> ->]|Hq]%elem_of_cons Hpq; [done|by eapply Hl].
    + exists p', h'. split_and!; try done; [by right|lia|].
      intros q h2 [[= -> ->]|Hq]%elem_of_cons Hpq; [lia|by eapply Hmax].
  - destruct (IH best n) as [[-> Hl]|(p' & h' & E & Hin & Hp & Hn & Hmax)]; [left|right].
    + split; [done|]. intros q h' [[= -> ->]|Hin]%elem_of_cons Hq; [done|by eapply Hl].
    + exists p', h'. split_and!; try done; [by right|]. intros q h2 [[= -> ->]|Hq]%elem_of_cons Hpq; [lia|by eapply Hmax].
Qed.

(** Routing is exact first, then longest prefix: the handler that is called is
    registered for the method and path of the request, or for the longest
    registered prefix of them when no exact route exists; an error is answered only
    when nothing is registered that matches. *)
Theorem dispatch_longest_match (r : Router H) req :
  let key := route_key (hr_method req) (hr_path req) in
  match dispatch r req with
  | inl h => (key, h) ∈ rt_routes r \/
      (forall h', (key, h') ∉ rt_routes r) /\
      exists p, (p, h) ∈ rt_prefix r /\ String.prefix p key = true /\
        forall q h', (q, h') ∈ rt_prefix r -> String.prefix q key = true -> (String.length q <= String.length p)%nat
  | inr resp => (forall h', (key, h') ∉ rt_routes r) /\
      (forall p h, (p, h) ∈ rt_prefix r -> String.prefix p key = true -> p = EmptyString) /\
      (hs_status resp = 404 \/ hs_status resp = 405)
  end.
Proof.
  intros key. unfold dispatch. fold key. pose proof (find_route_spec key (rt_routes r)) as Hf.
  destruct (find_route key (rt_routes r)) as [h|]; [by left|].
  destruct (best_prefix_spec key (rt_prefix r) None 0) as [[-> Hl]|(p & h & -> & Hin & Hp & _ & Hmax)].
  - cbv iota. destruct (existsb _ _); cbv iota; (split; [done|]; split; [|simpl; auto]); intros p h Hin Hp;
      apply str_length_0; specialize (Hl p h Hin Hp); lia.
  - right. split; [done|]. by exists p.
Qed.
End RouteTheory.

(** ** The chunks of a request *)

Lemma substring_length n m s : String.length (substring n m s) = Nat.min m (String.length s - n).
Proof.
  revert n m. induction s as [|c s IH]; intros n m; simpl.
  - destruct n, m; simpl; lia.
  - destruct n as [|n]; simpl; [destruct m as [|m]; simpl; [done|]; rewrite IH; lia|apply IH].
Qed.

Lemma substring_app_l n m s t : (n + m <= String.length s)%nat -> substring n m (s +:+ t)%string = substring n m s.
Proof.
  revert n m. induction s as [|c s IH]; intros n m Hl; simpl in Hl.
  - assert (n = 0)%nat as -> by lia. assert (m = 0)%nat as -> by lia. by destruct t.
  - rewrite app_cons. destruct n as [|n]; simpl; [destruct m as [|m]; simpl; [done|]|].
    + f_equal. apply IH. lia.
    + apply IH. lia.
Qed.

(** The first occurrence of a pattern lies inside the text. *)
Lemma index_inside pat s n : String.index 0 pat s = Some n -> pat <> EmptyString ->
  (n + String.length pat <= String.length s)%nat.
Proof.
  intros E Hp. apply index_correct1 in E. apply (f_equal String.length) in E. rewrite substring_length in E.
  assert (String.length pat <> 0%nat) by (intros H0; by apply str_length_0 in H0). lia.
Qed.

(** More text does not move the first occurrence, and a text without one ends
    before the occurrence is complete. *)
Lemma index_extend pat s t n : pat <> EmptyString -> String.index 0 pat (s +:+ t)%string = Some n ->
  match String.index 0 pat s with
  | Some m => m = n
  | None => (String.length s < n + String.length pat)%nat
  end.
Proof.
  intros Hp E. pose proof (index_correct1 _ _ _ _ E) as E1. pose proof (index_correct2 _ _ _ _ E) as E2.
  destruct (String.index 0 pat s) as [m|] eqn:Em.
  - pose proof (index_inside _ _ _ Em Hp) as Hm. pose proof (index_correct1 _ _ _ _ Em) as M1.
    pose proof (index_correct2 _ _ _ _ Em) as M2.
    destruct (Nat.lt_trichotomy m n) as [Hlt|[->|Hgt]]; [|done|].
    + exfalso. apply (E2 m); [lia|done|]. by rewrite substring_app_l.
    + exfalso. apply (M2 n); [lia|done|]. by rewrite substring_app_l in E1 by lia.
  - destruct (Nat.lt_ge_cases (String.length s) (n + String.length pat)) as [|Hge]; [done|]. exfalso.
    rewrite substring_app_l in E1 by lia. by apply (index_correct3 _ n _ _ Em Hp (Nat.le_0_l n)).
Qed.

Lemma str_take_app n s t : (n <= String.length s)%nat -> str_take n (s +:+ t)%string = str_take n s.
Proof.
  revert s. induction n as [|n IH]; intros [|c s] Hl; simpl in Hl; [done..|lia|]. rewrite app_cons. simpl.
  f_equal. apply IH. lia.
Qed.
Lemma str_drop_app n s t : (n <= String.length s)%nat -> str_drop n (s +:+ t)%string = (str_drop n s +:+ t)%string.
Proof.
  revert s. induction n as [|n IH]; intros [|c s] Hl; simpl in Hl; [done..|lia|]. rewrite app_cons. simpl.
  apply IH. lia.
Qed.

Definition concat_str (l : list string) : string := foldr (fun s t => (s +:+ t)%string) EmptyString l.

Lemma read_head_spec chunks buf n :
  String.index 0 (crlf +:+ crlf)%string (buf +:+ concat_str chunks)%string = Some n ->
  Z.of_nat (n + 4) <= kMaxHeaderBytes ->
  exists buf' chunks', read_head chunks buf = Some (n, buf', chunks') /\
    (buf' +:+ concat_str chunks')%string = (buf +:+ concat_str chunks)%string /\ (n + 4 <= String.length buf')%nat.
Proof.
  revert buf. induction chunks as [|c chunks IH]; intros buf E Hn;
    pose proof (index_extend (crlf +:+ crlf)%string buf _ n ltac:(done) E) as Hx; cbn [read_head];
    destruct (String.index 0 (crlf +:+ crlf)%string buf) as [m|] eqn:Em;
    try (subst m; eexists _, _; split; [done|]; split; [done|]; exact (index_inside _ _ _ Em ltac:(done))).
  - simpl in E. rewrite str_app_nil_r in E. congruence.
  - change (String.length (crlf +:+ crlf)%string) with 4%nat in Hx.
    destruct (Z.ltb_spec kMaxHeaderBytes (strlen buf)) as [Hbig|_]; [unfold strlen in Hbig; lia|].
    cbn [concat_str foldr] in *. fold (concat_str chunks) in *. rewrite <- str_app_assoc in *. by apply IH.
Qed.

Lemma read_body_spec chunks buf start len :
  len <= strlen (buf +:+ concat_str chunks)%string - Z.of_nat start ->
  exists rest, (read_body chunks buf start len +:+ rest)%string = (buf +:+ concat_str chunks)%string /\
    len <= strlen (read_body chunks buf start len) - Z.of_nat start /\
    (String.length buf <= String.length (read_body chunks buf start len))%nat.
Proof.
  revert buf. induction chunks as [|c chunks IH]; intros buf Hl; cbn [read_body];
    (destruct (Z.ltb_spec (strlen buf - Z.of_nat start) len);
     [|by eexists; split; [reflexivity|]; split; [lia|]]).
  - simpl in Hl. rewrite str_app_nil_r in Hl. lia.
  - cbn [concat_str foldr] in *. fold (concat_str chunks) in *. rewrite <- str_app_assoc in *.
    destruct (IH _ Hl) as (rest & E1 & E2 & E3). exists rest. split_and!; [done|done|].
    rewrite str_app_length in E3. lia.
Qed.

(** How the network splits a request does not matter: if the bytes that arrive
    hold a complete request within the limits, then for every way of cutting them
    into reads the parsed request and its body are the same. *)
Theorem read_request_chunking chunks n req : let total := concat_str chunks in
  String.index 0 (crlf +:+ crlf)%string total = Some n -> Z.of_nat (n + 4) <= kMaxHeaderBytes ->
  parse_head (str_take n total) = Some req -> 0 <= content_length req <= kMaxBodyBytes ->
  Z.of_nat (n + 4) + content_length req <= strlen total ->
  read_request chunks =
    PRequest (with_body req (str_take (Z.to_nat (content_length req)) (str_drop (n + 4) total))).
Proof.
  intros total E Hn Ep Hc Hl. unfold read_request.
  destruct (read_head_spec chunks EmptyString n E Hn) as (buf & rest & -> & Eb & Hb).
  change (EmptyString +:+ concat_str chunks)%string with total in Eb.
  assert (str_take n buf = str_take n total) as -> by (rewrite <- Eb; symmetry; apply str_take_app; lia).
  rewrite Ep. destruct (Z.ltb_spec kMaxBodyBytes (content_length req)); [lia|].
  destruct (read_body_spec rest buf (n + 4) (content_length req)) as (tail & E1 & E2 & E3); [rewrite Eb; lia|].
  do 2 f_equal. rewrite <- Eb, <- E1. rewrite str_drop_app by lia. symmetry. apply str_take_app.
  rewrite str_drop_length. unfold strlen in E2. lia.
Qed.

(** ** Samples *)

Definition sample_chunks : list string :=
  ["GET /rules?x=%41 HT"%string; ("TP/1.1" +:+ crlf +:+ "Content-Length: 2" +:+ crlf +:+ String "013" EmptyString)%string;
   (String newline EmptyString +:+ "ab")%string].
Definition sample_parsed : HttpRequest :=
  mkHttp "GET" "/rules" {[ "x"%string := "A"%string ]} {[ "content-length"%string := "2"%string ]} EmptyString.

Lemma read_request_chunking_witness : read_request sample_chunks = PRequest (with_body sample_parsed "ab").
Proof.
  assert (read_request sample_chunks = PRequest (with_body sample_parsed
    (str_take (Z.to_nat (content_length sample_parsed)) (str_drop (44 + 4) (concat_str sample_chunks))))) as E.
  { apply (read_request_chunking sample_chunks 44 sample_parsed); by vm_compute. }
  exact E.
Defined.

(** Error bodies are not escaped, and the end of any registered path counts as a
    path of its own: asking for [load] is answered "method not allowed", with the
    caller's quotation mark inside the JSON text. *)
Lemma error_body_unescaped :
  dispatch (route "POST" "/rules/reload" tt (mkRouter [] [])) (mkHttp "GET" "load" ∅ ∅ "") =
    inr (http_error 405 "method not allowed for load") /\
  hs_body (http_error 404 (String dquote EmptyString)) =
    ("{" +:+ dq +:+ "error" +:+ dq +:+ ":" +:+ dq +:+ dq +:+ dq +:+ "}" +:+ endl)%string.
Proof. by vm_compute. Qed.
