(* ===== verification/ControlPlane.v ===== *)
(** * ControlPlane: publishing and reloading the policy

    src/control_plane.cpp: construction and start-up, the reload with its plan-name
    check, the polling watcher of the rules file, and the interleaving of the
    watcher with editors of the file and with reloads asked for over HTTP.  The RCU
    domain appears as the snapshot readers get; Rcu.v has its slots and epochs.
    The file system and the clocks are what a [World] shows to one call. *)

From S2P Require Import Prelude Text Wire Double FlatSet Store Rules Engine Hdr Sha256 Yaml Compiler CompilerSpec Provenance Metrics Config.
From Stdlib Require Import ZArith Lia Bool Ascii String.
From stdpp Require Import base list numbers strings gmap.
Local Open Scope Z_scope.

Record ReloadStats := mkReload {
  rl_attempts : Z; rl_successes : Z; rl_failures : Z; rl_compile_us : Z; rl_grace_period_us : Z;
  rl_last_success_unix_s : Z; rl_current_version : Z; rl_last_error : string }.
Definition zero_reload_stats : ReloadStats := mkReload 0 0 0 0 0 0 0 EmptyString.

Record ControlPlane := mkPlane {
  cfg_ : ServerConfig;
  rules_ : option RuleSet;
  store_ : SubscriberStore;
  metrics_ : list WorkerMetrics;
  reload_stats_ : ReloadStats;
  next_version_ : Z;
  last_seen_mtime_ : Z;
  started_unix_s_ : Z;
  ingest_description_ : string }.

(** What one call sees: the text of the rules file ([None] when it cannot be
    opened), the other files by path, the two readings of the wall clock and the
    measured durations. *)
Record World := mkWorld {
  wd_rules : option string;
  wd_files : string -> option (list string);
  wd_compile_s : Z;
  wd_done_s : Z;
  wd_compile_us : Z;
  wd_grace_us : Z }.

Definition default_load_factor : double := dlit 5 (-1).

Definition new_control_plane (cfg : ServerConfig) (now : Z) : option ControlPlane :=
  store ← new_store (if negb (expected_subscribers cfg =? 0) then expected_subscribers cfg else 1024)
            default_load_factor;
  block ← new_metrics;
  Some (mkPlane cfg None store (replicate (Z.to_nat (worker_threads cfg)) block) zero_reload_stats 1 0 now
          EmptyString).

(** ** Field updates *)

Definition with_rules (rs : RuleSet) (p : ControlPlane) : ControlPlane :=
  mkPlane (cfg_ p) (Some rs) (store_ p) (metrics_ p) (reload_stats_ p) (next_version_ p) (last_seen_mtime_ p)
    (started_unix_s_ p) (ingest_description_ p).
Definition with_store (s : SubscriberStore) (p : ControlPlane) : ControlPlane :=
  mkPlane (cfg_ p) (rules_ p) s (metrics_ p) (reload_stats_ p) (next_version_ p) (last_seen_mtime_ p)
    (started_unix_s_ p) (ingest_description_ p).
Definition with_stats (r : ReloadStats) (p : ControlPlane) : ControlPlane :=
  mkPlane (cfg_ p) (rules_ p) (store_ p) (metrics_ p) r (next_version_ p) (last_seen_mtime_ p)
    (started_unix_s_ p) (ingest_description_ p).
Definition take_version (p : ControlPlane) : ControlPlane :=
  mkPlane (cfg_ p) (rules_ p) (store_ p) (metrics_ p) (reload_stats_ p) (u32 (next_version_ p + 1))
    (last_seen_mtime_ p) (started_unix_s_ p) (ingest_description_ p).
Definition with_mtime (m : Z) (p : ControlPlane) : ControlPlane :=
  mkPlane (cfg_ p) (rules_ p) (store_ p) (metrics_ p) (reload_stats_ p) (next_version_ p) m
    (started_unix_s_ p) (ingest_description_ p).
Definition set_ingest_description (d : string) (p : ControlPlane) : ControlPlane :=
  mkPlane (cfg_ p) (rules_ p) (store_ p) (metrics_ p) (reload_stats_ p) (next_version_ p) (last_seen_mtime_ p)
    (started_unix_s_ p) d.

Definition count_attempt (r : ReloadStats) : ReloadStats :=
  mkReload (u64 (rl_attempts r + 1)) (rl_successes r) (rl_failures r) (rl_compile_us r) (rl_grace_period_us r)
    (rl_last_success_unix_s r) (rl_current_version r) (rl_last_error r).
Definition count_failure (e : string) (r : ReloadStats) : ReloadStats :=
  mkReload (rl_attempts r) (rl_successes r) (u64 (rl_failures r + 1)) (rl_compile_us r) (rl_grace_period_us r)
    (rl_last_success_unix_s r) (rl_current_version r) e.
Definition count_success (w : World) (version : Z) (r : ReloadStats) : ReloadStats :=
  mkReload (rl_attempts r) (u64 (rl_successes r + 1)) (rl_failures r) (wd_compile_us w) (wd_grace_us w)
    (wd_done_s w) version EmptyString.

(** ** Reload *)

(** The first plan of [old] that is not at its place in [new]. *)
Fixpoint plan_mismatch (i : Z) (old new : list string) : option (string * Z) :=
  match old, new with
  | [], _ => None
  | o :: _, [] => Some (o, i)
  | o :: old, n :: new => if String.eqb n o then plan_mismatch (i + 1) old new else Some (o, i)
  end.
Definition mismatch_message (name : string) (slot : Z) : string :=
  ("plan '" +:+ name +:+ "' changed position or was removed (slot " +:+ to_string slot +:+
   "); subscriber records hold plan ids, so this needs a restart, not a reload")%string.

(** What the code does with a compiled result: an error to report, or a rule set to
    swap in. *)
Definition judge (live : option RuleSet) (r : RuleCompileResult) : string + RuleSet :=
  match cr_rule_set r with
  | Some rs =>
      if compile_ok r then
        match live with
        | None => inr rs
        | Some old =>
            match plan_mismatch 0 (rs_plan_names old) (rs_plan_names rs) with
            | Some (name, slot) => inl (mismatch_message name slot)
            | None => inr rs
            end
        end
      else inl (error_summary r)
  | None => inl (error_summary r)
  end.

(** [Some error] when the reload is refused. *)
Definition reload_rules (w : World) (p : ControlPlane) : option (option string * ControlPlane) :=
  let p := with_stats (count_attempt (reload_stats_ p)) p in
  let version := next_version_ p in
  let p := take_version p in
  r ← compile_rules_from_file (wd_files w) (wd_compile_s w) (wd_rules w) (rules_path (cfg_ p)) version;
  match judge (rules_ p) r with
  | inl e => Some (Some e, with_stats (count_failure e (reload_stats_ p)) p)
  | inr rs =>
      let p := with_rules rs p in
      Some (None, with_stats (count_success w (rs_version rs) (reload_stats_ p)) p)
  end.

(** ** Start-up *)

Definition init_stats (w : World) (version : Z) (r : ReloadStats) : ReloadStats :=
  mkReload 1 1 (rl_failures r) (wd_compile_us w) (rl_grace_period_us r) (wd_done_s w) version (rl_last_error r).

(** Up to the publication of the first policy. *)
Definition init_compile (w : World) (p : ControlPlane) : option (option string * ControlPlane) :=
  let version := next_version_ p in
  let p := take_version p in
  r ← compile_rules_from_file (wd_files w) (wd_compile_s w) (wd_rules w) (rules_path (cfg_ p)) version;
  match cr_rule_set r with
  | Some rs =>
      if compile_ok r
      then Some (None, with_stats (init_stats w (rs_version rs) (reload_stats_ p)) (with_rules rs p))
      else Some (Some ("cannot compile " +:+ rules_path (cfg_ p) +:+ ": " +:+ error_summary r)%string, p)
  | None => Some (Some ("cannot compile " +:+ rules_path (cfg_ p) +:+ ": " +:+ error_summary r)%string, p)
  end.

(** The subscriber file, read with the plan names of that policy. *)
Definition init_subscribers (w : World) (p : ControlPlane) : option (option string * ControlPlane) :=
  match subscribers_path (cfg_ p), rules_ p with
  | EmptyString, _ | _, None => Some (None, p)
  | path, Some rs =>
      '(store, res) ← load_csv (store_ p) path (wd_files w path) (rs_plan_names rs);
      Some (if load_ok res then None
            else Some ("subscriber file has " +:+ to_string (ld_skipped res) +:+ " bad row(s)")%string,
            with_store store p)
  end.

(** [mtime] is what [rules_file_mtime] returns after the compilation. *)
Definition initialize (w : World) (mtime : Z) (p : ControlPlane) : option (option string * ControlPlane) :=
  '(e, p) ← init_compile w p;
  match e with
  | Some e => Some (Some e, p)
  | None => init_subscribers w (with_mtime mtime p)
  end.

(** ** The watcher, the editors of the file and the administrator

    A reload reads the file once, under the reload mutex; the step stands at that
    moment.  Between its steps the watcher can be overtaken by edits and by reloads
    asked for over HTTP. *)

Inductive WatchPhase := WaIdle | WaReload (mtime : Z) | WaMark (mtime : Z).

(** [sy_mtime] is what [rules_file_mtime] returns, 0 when the file is absent;
    [sy_latest] is the latest modification time so far. *)
Record Sys := mkSys {
  sy_plane : ControlPlane; sy_text : option string; sy_mtime : Z; sy_latest : Z; sy_watch : WatchPhase }.

(** The clock readings and durations of one reload. *)
Record Times := mkTimes { tm_compile_s : Z; tm_done_s : Z; tm_compile_us : Z; tm_grace_us : Z }.

Inductive SysLabel :=
  | Edit (text : string) (mtime : Z)
  | Remove
  | Poll
  | WatchReload (t : Times)
  | Mark
  | AdminReload (t : Times).

Definition with_plane (p : ControlPlane) (wa : WatchPhase) (s : Sys) : Sys :=
  mkSys p (sy_text s) (sy_mtime s) (sy_latest s) wa.

Section System.
Context (files : string -> option (list string)).

Definition world_of (t : Times) (s : Sys) : World :=
  mkWorld (sy_text s) files (tm_compile_s t) (tm_done_s t) (tm_compile_us t) (tm_grace_us t).

(** One step; [None] when the label does not apply.  A later edit has a later
    modification time. *)
Definition sys_step (l : SysLabel) (s : Sys) : option Sys :=
  match l, sy_watch s with
  | Edit text m, wa =>
      if sy_latest s <? m then Some (mkSys (sy_plane s) (Some text) m m wa) else None
  | Remove, wa => Some (mkSys (sy_plane s) None 0 (sy_latest s) wa)
  | Poll, WaIdle =>
      let m := sy_mtime s in
      if (m =? 0) || (m =? last_seen_mtime_ (sy_plane s)) then Some s
      else Some (with_plane (sy_plane s) (WaReload m) s)
  | WatchReload t, WaReload m =>
      '(_, p) ← reload_rules (world_of t s) (sy_plane s); Some (with_plane p (WaMark m) s)
  | Mark, WaMark m => Some (with_plane (with_mtime m (sy_plane s)) WaIdle s)
  | AdminReload t, wa => '(_, p) ← reload_rules (world_of t s) (sy_plane s); Some (with_plane p wa s)
  | _, _ => None
  end.

Fixpoint sys_exec (ls : list SysLabel) (s : Sys) : option Sys :=
  match ls with [] => Some s | l :: ls => s ← sys_step l s; sys_exec ls s end.
End System.

(** ** What a reload does *)

(** The lists and files of a document fit in memory. *)
Definition doc_ok (files : string -> option (list string)) (text : option string) : Prop :=
  forall t parsed, text = Some t -> parse t = Some parsed -> small_doc files (root parsed).

Lemma plan_mismatch_none i old new : plan_mismatch i old new = None <-> old `prefix_of` new.
Proof.
  revert i new. induction old as [|o old IH]; intros i new; simpl.
  { split; [intros _; apply prefix_nil|done]. }
  destruct new as [|n new]; [split; [done|by intros ?%prefix_nil_not]|].
  destruct (String.eqb_spec n o) as [->|Hn].
  - rewrite IH. split; [by apply prefix_cons|by apply prefix_cons_inv_2].
  - split; [done|]. intros H%prefix_cons_inv_1. congruence.
Qed.

(** The compiler on what the file holds. *)
Lemma from_file_cases files now text path version : fits 32 version -> doc_ok files text ->
  exists r, compile_rules_from_file files now text path version = Some r /\
    ((cr_rule_set r = None /\ cr_errors r <> []) \/
     exists rs, cr_rule_set r = Some rs /\ cr_errors r = [] /\ compiled_ok rs /\ rs_version rs = version).
Proof.
  intros Hv Hd. destruct text as [t|]; simpl; [|by eexists; split; [done|left]].
  destruct (compile_rules_cases files now t path version Hv) as (r & E & C); [by intros; eapply Hd|].
  exists r. split; [done|]. destruct C as [?|(rs & Er & Ee & Hok)]; [by left|right].
  exists rs. do 3 (split; [done|]).
  pose proof (compile_rules_provenance _ _ _ _ _ _ _ E Er) as Hp. by injection Hp.
Qed.

Lemma from_file_sha files now text path version r rs :
  compile_rules_from_file files now (Some text) path version = Some r -> cr_rule_set r = Some rs ->
  rs_source_sha256 rs = hash_hex text.
Proof. intros E Er. pose proof (compile_rules_provenance _ _ _ _ _ _ _ E Er) as Hp. by injection Hp. Qed.

(** The plan ids in use keep their meaning. *)
Definition accepts (live : option RuleSet) (rs : RuleSet) : Prop :=
  forall old, live = Some old -> rs_plan_names old `prefix_of` rs_plan_names rs.

Lemma judge_accepts live r rs : cr_rule_set r = Some rs -> cr_errors r = [] -> accepts live rs ->
  judge live r = inr rs.
Proof.
  intros Er Ee Ha. unfold judge, compile_ok. rewrite Er, Ee. destruct live as [old|]; [|done].
  by rewrite (proj2 (plan_mismatch_none 0 _ _)) by (by apply Ha).
Qed.

Lemma judge_refuses live r rs : cr_rule_set r = Some rs -> cr_errors r = [] -> ~ accepts live rs ->
  exists name slot, judge live r = inl (mismatch_message name slot).
Proof.
  intros Er Ee Ha. unfold judge, compile_ok. rewrite Er, Ee. destruct live as [old|].
  - destruct (plan_mismatch _ _ _) as [[name slot]|] eqn:Em; [by exists name, slot|].
    destruct Ha. intros ? [= <-]. by eapply plan_mismatch_none.
  - destruct Ha. by intros ? [=].
Qed.

Lemma accepts_dec live rs : accepts live rs \/ ~ accepts live rs.
Proof.
  destruct live as [old|]; [|left; by intros ? [=]].
  destruct (decide (rs_plan_names old `prefix_of` rs_plan_names rs)) as [?|Hn]; [left; by intros ? [= <-]|].
  right. intros Ha. by apply Hn, Ha.
Qed.

(** Success publishes the compiled rule set under a fresh version and only if the
    plan ids in use keep their names; anything else leaves the live policy. *)
Definition reload_outcome (p : ControlPlane) (r : RuleCompileResult) (e : option string) (p' : ControlPlane) : Prop :=
  match e with
  | None => exists rs, cr_rule_set r = Some rs /\ compiled_ok rs /\ accepts (rules_ p) rs /\
      rs_version rs = next_version_ p /\ rules_ p' = Some rs /\
      rl_current_version (reload_stats_ p') = rs_version rs /\ rl_last_error (reload_stats_ p') = EmptyString /\
      rl_successes (reload_stats_ p') = u64 (rl_successes (reload_stats_ p) + 1) /\
      rl_failures (reload_stats_ p') = rl_failures (reload_stats_ p)
  | Some msg => rules_ p' = rules_ p /\ rl_last_error (reload_stats_ p') = msg /\
      rl_current_version (reload_stats_ p') = rl_current_version (reload_stats_ p) /\
      rl_successes (reload_stats_ p') = rl_successes (reload_stats_ p) /\
      rl_failures (reload_stats_ p') = u64 (rl_failures (reload_stats_ p) + 1) /\
      ((cr_rule_set r = None /\ msg = error_summary r) \/
       exists rs, cr_rule_set r = Some rs /\ ~ accepts (rules_ p) rs /\
         exists name slot, msg = mismatch_message name slot)
  end.

(** The parts of the plane no reload touches, and the two counters it always moves. *)
Record reload_frame (p p' : ControlPlane) : Prop := {
  rf_cfg : cfg_ p' = cfg_ p;
  rf_store : store_ p' = store_ p;
  rf_metrics : metrics_ p' = metrics_ p;
  rf_mtime : last_seen_mtime_ p' = last_seen_mtime_ p;
  rf_version : next_version_ p' = u32 (next_version_ p + 1);
  rf_attempts : rl_attempts (reload_stats_ p') = u64 (rl_attempts (reload_stats_ p) + 1) }.

Lemma reload_spec w p : fits 32 (next_version_ p) -> doc_ok (wd_files w) (wd_rules w) ->
  exists r e p', compile_rules_from_file (wd_files w) (wd_compile_s w) (wd_rules w) (rules_path (cfg_ p))
      (next_version_ p) = Some r /\
    reload_rules w p = Some (e, p') /\ reload_frame p p' /\ reload_outcome p r e p'.
Proof.
  intros Hv Hd. destruct (from_file_cases (wd_files w) (wd_compile_s w) (wd_rules w) (rules_path (cfg_ p)) _ Hv Hd)
    as (r & E & C). exists r. unfold reload_rules. cbn [next_version_ cfg_ with_stats take_version rules_]. rewrite E. simpl.
  destruct C as [[Er _]|(rs & Er & Ee & Hok & Ev)].
  { assert (judge (rules_ p) r = inl (error_summary r)) as -> by (unfold judge; by rewrite Er).
    do 2 eexists. do 2 (split; [done|]). split; [done|]. simpl. intuition. }
  destruct (accepts_dec (rules_ p) rs) as [Ha|Ha].
  - rewrite (judge_accepts _ _ _ Er Ee Ha). do 2 eexists. do 2 (split; [done|]). split; [done|].
    exists rs. by repeat (split; [done|]).
  - destruct (judge_refuses _ _ _ Er Ee Ha) as (name & slot & ->). do 2 eexists. do 2 (split; [done|]).
    split; [done|]. simpl. do 5 (split; [done|]). right. exists rs. eauto.
Qed.

(** C6: A reload is atomic.  Whatever the rules file holds, [reload_rules] returns;
    it either publishes exactly the rule set the compiler made of that text, under
    the version number drawn for it and with every existing plan at its old index,
    or it reports the error and leaves the live rule set, the version in use and the
    subscriber table as they were. *)
Theorem reload_atomic w p : fits 32 (next_version_ p) -> doc_ok (wd_files w) (wd_rules w) ->
  exists r e p', compile_rules_from_file (wd_files w) (wd_compile_s w) (wd_rules w) (rules_path (cfg_ p))
      (next_version_ p) = Some r /\
    reload_rules w p = Some (e, p') /\ reload_frame p p' /\ reload_outcome p r e p'.
Proof. apply reload_spec. Qed.

(** ** Any number of reloads *)

Definition is_reload (l : SysLabel) : bool :=
  match l with WatchReload _ | AdminReload _ => true | _ => false end.
Definition reloads (ls : list SysLabel) : Z := Z.of_nat (length (List.filter is_reload ls)).
Definition label_ok (files : string -> option (list string)) (l : SysLabel) : Prop :=
  match l with Edit text _ => doc_ok files (Some text) | _ => True end.

(** The live policy is well formed, its plans continue [names], and the books of
    the reloads balance. *)
Record live (names : list string) (v0 : Z) (p : ControlPlane) (rs : RuleSet) : Prop := {
  lv_rules : rules_ p = Some rs;
  lv_ok : compiled_ok rs;
  lv_names : names `prefix_of` rs_plan_names rs;
  lv_version : v0 <= rs_version rs < next_version_ p;
  lv_current : rl_current_version (reload_stats_ p) = rs_version rs;
  lv_books : rl_attempts (reload_stats_ p) = rl_successes (reload_stats_ p) + rl_failures (reload_stats_ p);
  lv_pos : 0 <= rl_successes (reload_stats_ p) /\ 0 <= rl_failures (reload_stats_ p);
  lv_attempts : rl_attempts (reload_stats_ p) < next_version_ p < 2 ^ 32 }.

Lemma live_mtime names v0 p rs m : live names v0 p rs -> live names v0 (with_mtime m p) rs.
Proof. intros []. by split. Qed.

Lemma compiled_version rs : compiled_ok rs -> 0 <= rs_version rs.
Proof. intros [(P & B & R) _ _ _ _ _ _ _]. apply (rso_version _ _ _ R). Qed.

Lemma reload_live names v0 w p rs e p' : live names v0 p rs -> next_version_ p + 1 < 2 ^ 32 ->
  doc_ok (wd_files w) (wd_rules w) -> reload_rules w p = Some (e, p') ->
  store_ p' = store_ p /\ next_version_ p' = next_version_ p + 1 /\ exists rs', live names v0 p' rs'.
Proof.
  intros [Hr Hok Hn Hv Hc Hb Hp Ha] Hn1 Hd E. pose proof (compiled_version rs Hok) as H0.
  destruct (reload_spec w p ltac:(split; lia) Hd) as (r & e1 & p1 & _ & E1 & F & O).
  rewrite E in E1. injection E1 as <- <-. destruct F as [_ Fs _ _ Fv Fa].
  rewrite wrap_id in Fv by (split; lia). rewrite wrap_id in Fa by (split; lia).
  split; [done|]. split; [done|]. destruct e as [msg|].
  - destruct O as (O1 & O2 & O3 & O4 & O5 & _). rewrite wrap_id in O5 by (split; lia).
    exists rs. split; rewrite ?Fv, ?Fa, ?O1, ?O3, ?O4, ?O5; try done; lia.
  - destruct O as (rs' & _ & Hok' & Hac & Ev & O1 & O2 & _ & O4 & O5). rewrite wrap_id in O4 by (split; lia).
    exists rs'. split; rewrite ?Fv, ?Fa, ?O1, ?O2, ?O4, ?O5; try done; try lia.
    etrans; [exact Hn|]. by apply Hac.
Qed.

Section History.
Context (files : string -> option (list string)) (names : list string) (v0 : Z).

(** What a step with [n] reloads keeps. *)
Record evolves (n : Z) (s s' : Sys) : Prop := {
  ev_doc : doc_ok files (sy_text s');
  ev_store : store_ (sy_plane s') = store_ (sy_plane s);
  ev_next : next_version_ (sy_plane s') = next_version_ (sy_plane s) + n;
  ev_live : exists rs, live names v0 (sy_plane s') rs }.

Lemma reload_evolves t wa s s' rs : doc_ok files (sy_text s) -> live names v0 (sy_plane s) rs ->
  next_version_ (sy_plane s) + 1 < 2 ^ 32 ->
  ('(_, p) ← reload_rules (world_of files t s) (sy_plane s); Some (with_plane p wa s)) = Some s' ->
  evolves 1 s s'.
Proof.
  intros Hd L Hv H. destruct (reload_rules _ _) as [[e p]|] eqn:E; [|done]. injection H as <-.
  destruct (reload_live names v0 (world_of files t s) _ rs e p L Hv Hd E) as (? & ? & ?). by split.
Qed.

Lemma sys_step_evolves l s s' rs : label_ok files l -> doc_ok files (sy_text s) -> live names v0 (sy_plane s) rs ->
  next_version_ (sy_plane s) + reloads [l] < 2 ^ 32 -> sys_step files l s = Some s' -> evolves (reloads [l]) s s'.
Proof.
  intros Hl Hd L Hv. change (reloads [l]) with (Z.of_nat (length (if is_reload l then [l] else []))) in *.
  destruct l as [text m| | |t| |t]; cbn [sys_step is_reload length] in *.
  - destruct (sy_latest s <? m); [|done]. intros [= <-]. split; simpl; eauto; lia.
  - intros [= <-]. split; simpl; eauto; [by intros ? ?|lia].
  - destruct (sy_watch s); [|done..].
    destruct (_ || _); intros [= <-]; (split; simpl; eauto; lia).
  - destruct (sy_watch s); [done| |done]. by eapply reload_evolves.
  - destruct (sy_watch s); [done..|]. intros [= <-]. split; simpl; eauto using live_mtime. lia.
  - by eapply reload_evolves.
Qed.

Lemma reloads_cons l ls : reloads (l :: ls) = reloads [l] + reloads ls.
Proof. unfold reloads. simpl. destruct (is_reload l); simpl; lia. Qed.
Lemma reloads_nonneg ls : 0 <= reloads ls.
Proof. unfold reloads. lia. Qed.

Lemma sys_exec_evolves ls s s' rs : Forall (label_ok files) ls -> doc_ok files (sy_text s) ->
  live names v0 (sy_plane s) rs -> next_version_ (sy_plane s) + reloads ls < 2 ^ 32 ->
  sys_exec files ls s = Some s' -> evolves (reloads ls) s s'.
Proof.
  revert s rs. induction ls as [|l ls IH]; intros s rs Hl Hd L Hv; cbn [sys_exec].
  { intros [= <-]. split; eauto. unfold reloads. simpl. lia. }
  rewrite reloads_cons in *. pose proof (reloads_nonneg ls). apply Forall_cons in Hl as [Hl Hls].
  destruct (sys_step files l s) as [s1|] eqn:E1; [|done]. intros E.
  destruct (sys_step_evolves l s s1 rs Hl Hd L ltac:(lia) E1) as [D1 S1 N1 [rs1 L1]].
  destruct (IH s1 rs1 Hls D1 L1 ltac:(lia) E) as [D2 S2 N2 L2].
  split; [done|congruence|lia|done].
Qed.
End History.

(** ** Start-up *)

(** The rows the table is loaded from; none without a subscriber file. *)
Definition subscriber_rows (cfg : ServerConfig) (files : string -> option (list string)) : list string :=
  match subscribers_path cfg with
  | EmptyString => []
  | path => match files path with Some lines => data_lines lines | None => [] end
  end.
Definition roster_ok (cfg : ServerConfig) (files : string -> option (list string)) (plans : list string) : Prop :=
  subscribers_path cfg = EmptyString \/
  exists lines, files (subscribers_path cfg) = Some lines /\ List.filter (row_bad plans) (data_lines lines) = [].

Definition config_sane (cfg : ServerConfig) : Prop := 0 <= expected_subscribers cfg <= 2 ^ 50.
Definition files_small (files : string -> option (list string)) : Prop :=
  forall path lines, files path = Some lines -> Z.of_nat (length lines) < 2 ^ 50.

Lemma new_control_plane_ok cfg now : config_sane cfg -> exists s b,
  new_control_plane cfg now = Some (mkPlane cfg None s (replicate (Z.to_nat (worker_threads cfg)) b)
    zero_reload_stats 1 0 now EmptyString) /\ store_rep s ∅ /\ new_metrics = Some b.
Proof.
  intros Hc. destruct (new_store_rep (if negb (expected_subscribers cfg =? 0) then expected_subscribers cfg else 1024)
    default_load_factor) as (s & E & R); [unfold config_sane in Hc; destruct (_ =? 0); simpl; lia| |].
  { exists (2 ^ 52), (-53). split; [apply dval_refl|lia]. }
  destruct service_ns_holds as (h0 & u & k & Eh & _).
  assert (exists b, new_metrics = Some b) as [b Eb] by (unfold new_metrics; rewrite Eh; by eexists).
  exists s, b. unfold new_control_plane. rewrite E, Eb. done.
Qed.

Lemma init_subscribers_spec w p rs : rules_ p = Some rs -> files_small (wd_files w) -> store_rep (store_ p) ∅ ->
  exists e s, init_subscribers w p = Some (e, with_store s p) /\
    (e = None <-> roster_ok (cfg_ p) (wd_files w) (rs_plan_names rs)) /\
    store_rep s (foldl (row_map (rs_plan_names rs)) ∅ (subscriber_rows (cfg_ p) (wd_files w))).
Proof.
  intros Hr Hf R. unfold init_subscribers, subscriber_rows, roster_ok.
  destruct (subscribers_path (cfg_ p)) as [|c t] eqn:Ep.
  { exists None, (store_ p). split; [by destruct p|]. split; [by split; [left|]|done]. }
  rewrite Hr. unfold load_csv. destruct (wd_files w (String c t)) as [lines|] eqn:El.
  - destruct (load_lines_spec (String c t) (rs_plan_names rs) lines 0 (store_ p) ∅ (mkLoad 0 0 []) R)
      as (s & r & E & R' & S & _ & _ & OK); [rewrite map_size_empty; specialize (Hf _ _ El); lia|done|].
    rewrite E. cbn [mbind option_bind]. exists (if load_ok r then None else
      Some ("subscriber file has " +:+ to_string (ld_skipped r) +:+ " bad row(s)")%string), s.
    split; [done|]. split; [|done]. simpl in S.
    assert (load_ok r = true <-> List.filter (row_bad (rs_plan_names rs)) (data_lines lines) = []) as H.
    { rewrite <- length_zero_iff_nil. unfold load_ok. destruct (ld_errors r); [|].
      - split; [|done]. intros _. enough (ld_skipped r = 0) by lia. by apply OK.
      - split; [done|]. intros Hz. destruct OK as [_ OK]; [done..|]. rewrite Hz in S. by specialize (OK S). }
    destruct (load_ok r) eqn:Elk.
    + split; [|done]. intros _. right. exists lines. split; [done|]. by apply H.
    + split; [done|]. intros [?|(l & [= <-] & Hl)]; [done|]. by apply H in Hl.
  - eexists _, (store_ p). split; [simpl; by destruct p|]. split; [|done].
    split; [done|]. by intros [?|(l & ? & _)].
Qed.

Lemma initialize_spec cfg now w m : config_sane cfg -> files_small (wd_files w) ->
  doc_ok (wd_files w) (wd_rules w) ->
  exists p0 r e p, new_control_plane cfg now = Some p0 /\ initialize w m p0 = Some (e, p) /\
    compile_rules_from_file (wd_files w) (wd_compile_s w) (wd_rules w) (rules_path cfg) 1 = Some r /\
    (e = None <-> exists rs, cr_rule_set r = Some rs /\ roster_ok cfg (wd_files w) (rs_plan_names rs)) /\
    (e = None -> exists rs, cr_rule_set r = Some rs /\ live (rs_plan_names rs) 1 p rs /\ next_version_ p = 2 /\
       last_seen_mtime_ p = m /\ rl_last_error (reload_stats_ p) = EmptyString /\ cfg_ p = cfg /\
       store_rep (store_ p) (foldl (row_map (rs_plan_names rs)) ∅ (subscriber_rows cfg (wd_files w)))).
Proof.
  intros Hc Hf Hd. destruct (new_control_plane_ok cfg now Hc) as (s & b & -> & R & _).
  set (p0 := mkPlane _ _ _ _ _ _ _ _ _). exists p0.
  destruct (from_file_cases (wd_files w) (wd_compile_s w) (wd_rules w) (rules_path cfg) 1 ltac:(by split) Hd)
    as (r & E & C). exists r. unfold initialize, init_compile. cbn [next_version_ cfg_ p0 take_version]. rewrite E.
  cbn [mbind option_bind]. unfold compile_ok. destruct C as [[Er _]|(rs & Er & Ee & Hok & Ev)]; rewrite Er.
  { do 2 eexists. do 3 (split; [done|]). split; [|done]. split; [done|]. by intros (? & ? & _). }
  rewrite Ee. cbn [mbind option_bind]. set (p1 := with_mtime m _).
  destruct (init_subscribers_spec w p1 rs eq_refl Hf R) as (e & s1 & -> & He & R1).
  do 2 eexists. do 3 (split; [done|]). split.
  { rewrite He. split; [by exists rs|]. intros (rs' & [= <-] & ?). done. }
  intros _. exists rs. split; [done|]. split; [|done].
  split; simpl; try done; rewrite ?Ev; vm_compute; intuition congruence.
Qed.

(** C34: Start-up is all or nothing.  [initialize] returns, and it succeeds exactly
    when the rules file compiles and the subscriber file, if one is configured,
    opens and has no bad row; then version 1 is live and the table answers exactly
    for the rows of the file. *)
Theorem startup_exact cfg now w m : config_sane cfg -> files_small (wd_files w) ->
  doc_ok (wd_files w) (wd_rules w) ->
  exists p0 r e p, new_control_plane cfg now = Some p0 /\ initialize w m p0 = Some (e, p) /\
    compile_rules_from_file (wd_files w) (wd_compile_s w) (wd_rules w) (rules_path cfg) 1 = Some r /\
    (e = None <-> exists rs, cr_rule_set r = Some rs /\ roster_ok cfg (wd_files w) (rs_plan_names rs)) /\
    (e = None -> exists rs, rules_ p = Some rs /\ cr_rule_set r = Some rs /\ rs_version rs = 1 /\
       forall imsi, Store.find (store_ p) imsi =
         Some (foldl (row_map (rs_plan_names rs)) ∅ (subscriber_rows cfg (wd_files w)) !! imsi)).
Proof.
  intros Hc Hf Hd. destruct (initialize_spec cfg now w m Hc Hf Hd) as (p0 & r & e & p & E0 & E & Er & He & Hn).
  exists p0, r, e, p. do 4 (split; [done|]). intros H.
  destruct (Hn H) as (rs & Ers & L & Hnext & _ & _ & _ & R).
  exists rs. pose proof (lv_version _ _ _ _ L). split; [apply L|]. split; [done|]. split; [lia|].
  intros imsi. by apply find_lookup.
Qed.

(** Every record of the table comes from a row. *)
Lemma rows_lookup plans rows m k rec : foldl (row_map plans) m rows !! k = Some rec ->
  m !! k = Some rec \/ exists row, row ∈ rows /\ parse_row plans (Store.trim row) = inr rec.
Proof.
  revert m. induction rows as [|row rows IH]; intros m; simpl; [intros H; by left|].
  intros [H|(r & Hr & Hp)]%IH; [|right; exists r; by split; [set_solver|]].
  unfold row_map in H. destruct (parse_row plans (Store.trim row)) as [e|rec'] eqn:E; [by left|].
  destruct (decide (s_imsi rec' = k)) as [<-|Hne].
  - rewrite lookup_insert_eq in H. injection H as <-. right. exists row. by split; [set_solver|].
  - rewrite lookup_insert_ne in H by done. by left.
Qed.

Lemma compiled_plan_names rs : compiled_ok rs -> Z.of_nat (length (rs_plan_names rs)) <= 32.
Proof.
  intros [(P & B & R) _ _ _ _ _ Hcount _]. pose proof (rso_plan_count _ _ _ R). unfold kMaxPlans in *. lia.
Qed.

Lemma rows_records plans rows k rec : Z.of_nat (length plans) <= 32 ->
  foldl (row_map plans) ∅ rows !! k = Some rec ->
  record_ok rec /\ exists row, row ∈ rows /\ row_record plans (Store.trim row) rec.
Proof.
  intros Hlen [?|(row & Hr & Hp)]%rows_lookup; [done|]. apply parse_row_record in Hp; [|done].
  split; [|by exists row]. destruct Hp as [_ _ Hp _ _ Hu _]. split; [split; lia|done].
Qed.


(** ** The watcher misses no edit *)

(** The last reload answered for [text]: its rule set is live, or the error on
    record says why not. *)
Inductive reflects (files : string -> option (list string)) (text : option string) (p : ControlPlane) : Prop :=
  | ref_live now v r rs : compile_rules_from_file files now text (rules_path (cfg_ p)) v = Some r ->
      cr_rule_set r = Some rs -> rules_ p = Some rs -> rl_last_error (reload_stats_ p) = EmptyString ->
      reflects files text p
  | ref_error now v r : compile_rules_from_file files now text (rules_path (cfg_ p)) v = Some r ->
      cr_rule_set r = None -> rl_last_error (reload_stats_ p) = error_summary r -> reflects files text p
  | ref_plans now v r rs name slot : compile_rules_from_file files now text (rules_path (cfg_ p)) v = Some r ->
      cr_rule_set r = Some rs -> ~ accepts (rules_ p) rs ->
      rl_last_error (reload_stats_ p) = mismatch_message name slot -> reflects files text p.

Section Watch.
Context (files : string -> option (list string)).

Lemma reload_reflects w p : fits 32 (next_version_ p) -> doc_ok (wd_files w) (wd_rules w) ->
  exists e p', reload_rules w p = Some (e, p') /\ reload_frame p p' /\ reflects (wd_files w) (wd_rules w) p'.
Proof.
  intros Hv Hd. destruct (reload_spec w p Hv Hd) as (r & e & p' & Er & E & F & O).
  exists e, p'. split; [done|]. split; [done|]. rewrite <- (rf_cfg _ _ F) in Er. destruct e as [msg|].
  - destruct O as (O1 & O2 & _ & _ & _ & [[On ->]|(rs & Ors & Ha & name & slot & ->)]).
    + by eapply ref_error.
    + rewrite <- O1 in Ha. by eapply ref_plans.
  - destruct O as (rs & Ors & _ & _ & _ & O1 & _ & O3 & _). by eapply ref_live.
Qed.

Lemma reflects_mtime text p m : reflects files text p -> reflects files text (with_mtime m p).
Proof. intros []; [by eapply ref_live|by eapply ref_error|by eapply ref_plans]. Qed.

(** The watermark is never ahead of what has been compiled. *)
Record watch_inv (s : Sys) : Prop := {
  wi_doc : doc_ok files (sy_text s);
  wi_version : fits 32 (next_version_ (sy_plane s));
  wi_latest : 0 <= sy_mtime s <= sy_latest s;
  wi_seen : last_seen_mtime_ (sy_plane s) <= sy_latest s;
  wi_sync : sy_mtime s <> 0 -> match sy_watch s with
    | WaIdle => last_seen_mtime_ (sy_plane s) = sy_mtime s -> reflects files (sy_text s) (sy_plane s)
    | WaReload m => True
    | WaMark m => m = sy_mtime s -> reflects files (sy_text s) (sy_plane s)
    end;
  wi_phase : match sy_watch s with WaIdle => True | WaReload m | WaMark m => 0 < m <= sy_latest s end }.

Lemma reload_watch t wa s : watch_inv s ->
  match wa with WaIdle => True | WaReload m | WaMark m => 0 < m <= sy_latest s end ->
  exists p e, reload_rules (world_of files t s) (sy_plane s) = Some (e, p) /\ watch_inv (with_plane p wa s) /\
    reflects files (sy_text s) p /\ last_seen_mtime_ p = last_seen_mtime_ (sy_plane s).
Proof.
  intros [Hd Hv Hm Hs _ _] Hph.
  destruct (reload_reflects (world_of files t s) (sy_plane s) Hv Hd) as (e & p & E & F & Rf).
  exists p, e. split; [done|]. destruct F as [_ _ _ Fm Fv _]. split; [|done].
  split; simpl; rewrite ?Fm, ?Fv; try done; [by apply wrap_fits|].
  by destruct wa.
Qed.

Lemma sys_step_watch l s s' : label_ok files l -> watch_inv s -> sys_step files l s = Some s' -> watch_inv s'.
Proof.
  intros Hl I. pose proof I as [Hd Hv Hm Hs Hy Hp]. destruct l as [text m| | |t| |t]; cbn [sys_step].
  - destruct (Z.ltb_spec (sy_latest s) m); [|done]. intros [= <-].
    split; simpl; try done; [lia|lia| |destruct (sy_watch s); lia].
    intros _. destruct (sy_watch s); [lia|done|lia].
  - intros [= <-]. split; simpl; try done. lia.
  - destruct (sy_watch s) eqn:Ew; [|done..]. destruct (_ || _) eqn:Eo; intros [= <-]; [done|].
    apply orb_false_iff in Eo as [?%Z.eqb_neq _]. by split; simpl; try done; lia.
  - destruct (sy_watch s) as [|m|m] eqn:Ew; [done| |done].
    destruct (reload_watch t (WaMark m) s I Hp) as (p & e & E & I' & _). rewrite E. by intros [= <-].
  - destruct (sy_watch s) as [|m|m] eqn:Ew; [done..|]. intros [= <-].
    split; simpl; try done; [lia|]. intros H E. apply reflects_mtime. by apply Hy.
  - destruct (reload_watch t (sy_watch s) s I Hp) as (p & e & E & I' & _). rewrite E. by intros [= <-].
Qed.

Lemma sys_exec_watch ls s s' : Forall (label_ok files) ls -> watch_inv s -> sys_exec files ls s = Some s' ->
  watch_inv s'.
Proof.
  revert s. induction ls as [|l ls IH]; intros s Hl I; cbn [sys_exec]; [by intros [= <-]|].
  apply Forall_cons in Hl as [Hl Hls]. destruct (sys_step files l s) as [s1|] eqn:E; [|done].
  apply IH; [done|]. by eapply sys_step_watch.
Qed.

Definition is_watch (l : SysLabel) : bool :=
  match l with Poll | WatchReload _ | Mark => true | _ => false end.

(** [s'] is reached from [s] by at most [n] steps of the watcher alone, and the file
    stays as it is. *)
Definition watches (n : nat) (s s' : Sys) : Prop := exists ls, (length ls <= n)%nat /\ Forall is_watch ls /\
  sys_exec files ls s = Some s' /\ sy_text s' = sy_text s /\ sy_mtime s' = sy_mtime s.

Lemma sys_exec_app ls ls' s : sys_exec files (ls ++ ls') s = s1 ← sys_exec files ls s; sys_exec files ls' s1.
Proof.
  revert s. induction ls as [|l ls IH]; intros s; simpl; [done|]. destruct (sys_step files l s); simpl; auto.
Qed.
Lemma watches_trans n k s s1 s' : watches n s s1 -> watches k s1 s' -> watches (n + k) s s'.
Proof.
  intros (ls & Hn & Hl & E & Et & Em) (ls' & Hk & Hl' & E' & Et' & Em'). exists (ls ++ ls').
  rewrite length_app, Forall_app, sys_exec_app, E. simpl. repeat split; try done; [lia|congruence..].
Qed.
Lemma watches_one l s s' : is_watch l -> sys_step files l s = Some s' -> sy_text s' = sy_text s ->
  sy_mtime s' = sy_mtime s -> watches 1 s s'.
Proof.
  intros Hl E Et Em. exists [l]. split; [done|]. split; [by constructor|]. split; [simpl; by rewrite E|done].
Qed.

(** A round that has read the modification time [m] ends. *)
Lemma reload_and_mark (t : Times) m s : watch_inv s -> sy_watch s = WaReload m -> exists s', watches 2 s s' /\
  sy_watch s' = WaIdle /\ last_seen_mtime_ (sy_plane s') = m /\ reflects files (sy_text s) (sy_plane s').
Proof.
  intros I Ew. pose proof (wi_phase s I) as Hp. rewrite Ew in Hp.
  destruct (reload_watch t (WaMark m) s I Hp) as (p & e & E & I' & Rf & _).
  exists (with_plane (with_mtime m p) WaIdle (with_plane p (WaMark m) s)).
  split; [|split; [done|split; [done|by apply reflects_mtime]]].
  apply (watches_trans 1 1 _ (with_plane p (WaMark m) s)); [|by apply (watches_one Mark)].
  apply (watches_one (WatchReload t)); try done. simpl. by rewrite Ew, E.
Qed.

(** An idle watcher with the file present. *)
Lemma idle_catches_up (t : Times) s : watch_inv s -> sy_watch s = WaIdle -> sy_mtime s <> 0 -> exists s', watches 3 s s' /\
  sy_watch s' = WaIdle /\ last_seen_mtime_ (sy_plane s') = sy_mtime s /\ reflects files (sy_text s) (sy_plane s').
Proof.
  intros I Ew Hm. destruct (Z.eq_dec (last_seen_mtime_ (sy_plane s)) (sy_mtime s)) as [Hs|Hs].
  { exists s. split; [by exists []; repeat split; simpl; try lia|]. do 2 (split; [done|]).
    pose proof (wi_sync s I Hm) as H. rewrite Ew in H. auto. }
  assert (sys_step files Poll s = Some (with_plane (sy_plane s) (WaReload (sy_mtime s)) s)) as E.
  { simpl. rewrite Ew. destruct (Z.eqb_spec (sy_mtime s) 0), (Z.eqb_spec (sy_mtime s) (last_seen_mtime_ (sy_plane s)));
      simpl; congruence. }
  pose proof (sys_step_watch Poll s _ Logic.I I E) as I1.
  destruct (reload_and_mark t (sy_mtime s) _ I1 eq_refl) as (s' & W & ?). exists s'. split; [|done].
  eapply (watches_trans 1 2); [|exact W]. by eapply (watches_one Poll).
Qed.

(** Whatever the watcher is doing, five of its steps bring it level. *)
Lemma watcher_catches_up (t : Times) s : watch_inv s -> sy_mtime s <> 0 -> exists s', watches 5 s s' /\
  sy_watch s' = WaIdle /\ last_seen_mtime_ (sy_plane s') = sy_mtime s /\ reflects files (sy_text s) (sy_plane s').
Proof.
  intros I Hm. assert (exists s1, watches 2 s s1 /\ sy_watch s1 = WaIdle) as (s1 & W1 & E1).
  { destruct (sy_watch s) as [|m|m] eqn:Ew.
    - exists s. split; [|done]. by exists []; repeat split; simpl; try lia.
    - destruct (reload_and_mark t m s I Ew) as (s1 & ? & ? & _). by exists s1.
    - exists (with_plane (with_mtime m (sy_plane s)) WaIdle s). split; [|done].
      destruct (watches_one Mark s (with_plane (with_mtime m (sy_plane s)) WaIdle s)) as (ls & ? & ?);
        [done|simpl; by rewrite Ew|done..|]. exists ls. split; [lia|done]. }
  pose proof W1 as (ls & _ & Hl & E & Et & Em).
  assert (watch_inv s1) as I1.
  { eapply sys_exec_watch; [|done|exact E]. eapply list.Forall_impl; [exact Hl|]. by intros []. }
  destruct (idle_catches_up t s1 I1 E1) as (s' & W' & H); [congruence|]. rewrite Et, Em in H.
  exists s'. split; [by eapply (watches_trans 2 3)|done].
Qed.
End Watch.

Lemma started_watch cfg now w m p0 p : config_sane cfg -> files_small (wd_files w) -> doc_ok (wd_files w) (wd_rules w) ->
  new_control_plane cfg now = Some p0 -> initialize w m p0 = Some (None, p) -> 0 < m ->
  watch_inv (wd_files w) (mkSys p (wd_rules w) m m WaIdle).
Proof.
  intros Hc Hf Hd E0 Ei Hm.
  destruct (initialize_spec cfg now w m Hc Hf Hd) as (p0' & r & e & p' & E0' & E' & Er & _ & Hn).
  rewrite E0 in E0'. injection E0' as <-. rewrite Ei in E'. injection E' as <- <-.
  destruct (Hn eq_refl) as (rs & Ers & L & Hnext & Hseen & He & Hcfg & _).
  split; simpl; try done; [rewrite Hnext; by split|lia..|].
  intros _ _. eapply ref_live; [rewrite Hcfg; exact Er|exact Ers|apply L|exact He].
Qed.


(** ** Samples *)

Definition sample_roster : list string := ["262011234567890,0,gold,ACTIVE,100,0,26201,roaming"]%string.
Definition sample_files (path : string) : option (list string) :=
  if String.eqb path "subs.csv" then Some sample_roster else None.
Definition sample_cfg : ServerConfig :=
  set_subscribers_path "subs.csv" (set_rules_path "rules.yaml" default_config).
Definition sample_world : World := mkWorld (Some sample_doc) sample_files 0 1 120 3.
(** The same policy without its rules. *)
Definition edited_doc : string := text_of
  ["version: 1"; "dnns: [internet, ims]"; "plans:"; "  - name: gold"; "    qos_5qi: 8"; "    arp: 5";
   "    quota: 20GB"; "    quota_validity: 30d"; "    ambr_ul: 10Mbps"; "    ambr_dl: 50Mbps"]%string.

Lemma sample_files_small : files_small sample_files.
Proof. intros path lines. unfold sample_files. case_match; [|done]. intros [= <-]. by vm_compute. Qed.
(** The document lists neither roaming partners nor blocked devices. *)
Definition no_lists (text : string) : bool :=
  match parse text with
  | Some parsed =>
      match Yaml.find (root parsed) "roaming_partners", Yaml.find (root parsed) "imei_blocklist" with
      | None, None => true
      | _, _ => false
      end
  | None => true
  end.
Lemma no_lists_doc files text : files_small files -> no_lists text = true -> doc_ok files (Some text).
Proof.
  unfold no_lists. intros Hf H t parsed [= <-] E. rewrite E in H.
  destruct (Yaml.find _ "roaming_partners") eqn:E1; [done|]. destruct (Yaml.find _ "imei_blocklist") eqn:E2; [done|].
  split; [by rewrite E1|by rewrite E2|]. intros path ls Hl. pose proof (Hf path ls Hl). lia.
Qed.
Lemma sample_world_ok : doc_ok (wd_files sample_world) (wd_rules sample_world).
Proof. apply no_lists_doc; [exact sample_files_small|by vm_compute]. Qed.
Lemma edited_doc_ok : doc_ok sample_files (Some edited_doc).
Proof. apply no_lists_doc; [exact sample_files_small|by vm_compute]. Qed.
Lemma sample_cfg_sane : config_sane sample_cfg.
Proof. by split. Qed.

(** A start that succeeds. *)
Lemma sample_start m : exists p0 p, new_control_plane sample_cfg 0 = Some p0 /\
  initialize sample_world m p0 = Some (None, p).
Proof.
  destruct (initialize_spec sample_cfg 0 sample_world m sample_cfg_sane sample_files_small sample_world_ok)
    as (p0 & r & e & p & E0 & E & Er & [_ He] & _). exists p0, p. split; [exact E0|].
  rewrite He in E; [exact E|]. vm_compute in Er. injection Er as <-. eexists. split; [done|].
  right. exists sample_roster. split; [done|]. by vm_compute.
Qed.

Definition bare_plane : ControlPlane :=
  mkPlane sample_cfg None (mkStore [] 0 0 default_load_factor) [] zero_reload_stats 1 0 0 EmptyString.

Lemma reload_atomic_witness : fits 32 (next_version_ bare_plane) /\
  exists r e p', reload_rules sample_world bare_plane = Some (e, p') /\ reload_outcome bare_plane r e p'.
Proof.
  split; [by split|].
  destruct (reload_atomic sample_world bare_plane) as (r & e & p' & _ & E & _ & O); [by split|exact sample_world_ok|].
  exists r, e, p'. exact (conj E O).
Defined.

Lemma startup_exact_witness : exists p0 e p, new_control_plane sample_cfg 0 = Some p0 /\
  initialize sample_world 7 p0 = Some (e, p).
Proof.
  destruct (startup_exact sample_cfg 0 sample_world 7 sample_cfg_sane sample_files_small sample_world_ok)
    as (p0 & r & e & p & E0 & E & _). exists p0, e, p. exact (conj E0 E).
Defined.



(** ** The modification time of the first load

    [initialize] reads the modification time after it has compiled the file.  When
    the file is replaced in between, the watermark is that of the new text: the
    watcher never looks at the file again, and the old text stays live. *)
Theorem startup_edit_unseen : exists p0 p, new_control_plane sample_cfg 0 = Some p0 /\
  initialize sample_world 8 p0 = Some (None, p) /\
  let s := mkSys p (Some edited_doc) 8 8 WaIdle in
  (forall n, sys_exec sample_files (repeat Poll n) s = Some s) /\ ~ reflects sample_files (Some edited_doc) p.
Proof.
  destruct (initialize_spec sample_cfg 0 sample_world 8 sample_cfg_sane sample_files_small sample_world_ok)
    as (p0 & r & e & p & E0 & E & Er & [_ He] & Hn).
  vm_compute in Er. assert (e = None) as ->.
  { apply He. injection Er as <-. eexists. split; [done|]. right. exists sample_roster. split; [done|]. by vm_compute. }
  exists p0, p. split; [exact E0|]. split; [exact E|]. destruct (Hn eq_refl) as (rs & Ers & L & _ & Hseen & Herr & Hcfg & _).
  split.
  { intros n. induction n as [|n IH]; [done|]. cbn [repeat sys_exec sys_step sy_watch sy_mtime sy_plane].
    rewrite Hseen. exact IH. }
  injection Er as <-. injection Ers as <-. set (sample_rules := mkRuleSet _ _ _ _ _ _ _ _ _ _ _ _ _ _ _ _ _) in L.
  pose proof (lv_rules _ _ _ _ L) as Hlive. intros [t v r rs Hc Hr Hl _|t v r Hc Hr He'|t v r rs name slot Hc Hr Ha He'].
  - assert (rs_source_sha256 rs = hash_hex edited_doc) as Hsha
      by exact (from_file_sha _ _ _ _ _ _ _ Hc Hr).
    assert (rs = sample_rules) as -> by congruence. vm_compute in Hsha. discriminate Hsha.
  - rewrite Herr in He'. rewrite Hcfg in Hc. vm_compute in Hc. injection Hc as <-. done.
  - rewrite Herr in He'. done.
Qed.
