(* ===== verification/AdminEndpoints.v ===== *)
(** * AdminEndpoints: the administrative HTTP interface

    src/control_plane.cpp: the JSON escaping, the handlers and the routes they are
    registered under.  The responses are rendered in full; a stream insertion of a
    double prints six significant digits as [%g] does.  The build strings and the
    facts about the machine are arguments. *)

From S2P Require Import Prelude Text Imsi Wire Double FlatSet Store Rules Engine Hdr Sha256 Yaml Golden Compiler CompilerSpec Metrics Config HttpFront AdminHttp ControlPlane.
From Stdlib Require Import ZArith Lia Bool Ascii String.
From stdpp Require Import base list numbers strings gmap.
Local Open Scope Z_scope.

(** ** Text of numbers *)

Fixpoint hex_text (n : nat) (v : Z) (acc : string) : string :=
  match n with
  | O => acc
  | S n => hex_text n (v / 16) (String (Sha256.hex_char (v mod 16)) acc)
  end.
(** [0x%016llx] *)
Definition hex64 (v : Z) : string := ("0x" +:+ hex_text 16 v EmptyString)%string.

Definition is_zero_char (c : ascii) : bool := Ascii.eqb c "0".
(** The decimal places of a number, without trailing zeros. *)
Definition places (n : nat) (v : Z) : string :=
  match drop_while_end is_zero_char (format_digits n v EmptyString) with
  | EmptyString => EmptyString
  | s => String "." s
  end.

(** The [k] with [10^k <= num/den < 10^(k+1)], from an estimate by the binary logarithms. *)
Definition floor_log10 (num den : Z) : Z :=
  let k := ((Z.log2 num - Z.log2 den) * 30103) / 100000 in
  let reaches k := den * 10 ^ Z.max k 0 <=? num * 10 ^ Z.max (- k) 0 in
  if reaches (k + 1) then k + 1 else if reaches k then k else k - 1.

(** [os << x] for a double. *)
Definition show_double (x : double) : string :=
  match x with
  | DNaN => "nan"
  | DInf neg => if neg then "-inf" else "inf"
  | DFin m e =>
      let num := dval_num m e in
      let den := dval_den e in
      if num =? 0 then "0"
      else
        let k := floor_log10 num den in
        let d := round_div_even (num * 10 ^ Z.max (5 - k) 0) (den * 10 ^ Z.max (k - 5) 0) in
        let '(d, k) := if d =? 10 ^ 6 then (10 ^ 5, k + 1) else (d, k) in
        ((if m <? 0 then "-" else EmptyString) +:+
         (if ((k <? -4) || (6 <=? k))%Z then
            to_string (d / 10 ^ 5) +:+ places 5 (d mod 10 ^ 5) +:+ "e" +:+ (if k <? 0 then "-" else "+") +:+
            (if Z.abs k <? 10 then "0" else EmptyString) +:+ to_string (Z.abs k)
          else to_string (d / 10 ^ (5 - k)) +:+ places (Z.to_nat (5 - k)) (d mod 10 ^ (5 - k))))
  end.

(** ** JSON text *)

Definition escape_char (c : ascii) : string :=
  if Ascii.eqb c dquote then String "\" dq
  else if Ascii.eqb c "\" then "\\"
  else if Ascii.eqb c newline then "\n"
  else if Ascii.eqb c "013" then "\r"
  else if Ascii.eqb c "009" then "\t"
  else if code c <? 32 then ("\u" +:+ hex_text 4 (code c) EmptyString)%string
  else String c EmptyString.
Fixpoint json_escape (s : string) : string :=
  match s with
  | EmptyString => EmptyString
  | String c s => (escape_char c +:+ json_escape s)%string
  end.

Definition jstr (s : string) : string := (dq +:+ s +:+ dq)%string.
Definition jmember (kv : string * string) : string := ("  " +:+ jstr kv.1 +:+ ": " +:+ kv.2)%string.
Fixpoint sep_by (sep : string) (l : list string) : string :=
  match l with
  | [] => EmptyString
  | [s] => s
  | s :: l => (s +:+ sep +:+ sep_by sep l)%string
  end.
(** An object with one member per line. *)
Definition jobject (ms : list (string * string)) : string :=
  ("{" +:+ endl +:+ sep_by ("," +:+ endl) (map jmember ms) +:+ endl +:+ "}" +:+ endl)%string.
(** An object on one line. *)
Definition jinline (ms : list (string * string)) : string :=
  ("{" +:+ sep_by ", " (map (fun kv => jstr kv.1 +:+ ": " +:+ kv.2) ms) +:+ "}")%string.
Definition jbool (b : bool) : string := if b then "true" else "false".

(** ** The handlers *)

(** What a handler sees of its surroundings. *)
Record BuildInfo := mkBuild {
  bi_version : string; bi_build_type : string; bi_compiler_id : string; bi_compiler_ver : string;
  bi_system_name : string; bi_system_proc : string }.
Record Moment := mkMoment { mo_world : World; mo_now : Z; mo_coarse : Z; mo_build : BuildInfo }.

Definition Handler : Type := HttpRequest -> ControlPlane -> option (HttpResponse * ControlPlane).
(** A [const] handler. *)
Definition reads (h : HttpRequest -> ControlPlane -> option HttpResponse) : Handler :=
  fun req p => r ← h req p; Some (r, p).

Definition handle_healthz (_ : HttpRequest) (p : ControlPlane) : option HttpResponse :=
  Some (match rules_ p with
        | None => http_error 503 "no policy loaded"
        | Some _ => text ("ok" +:+ endl)
        end)%string.

Definition metric (type name help value : string) : string :=
  ("# HELP " +:+ name +:+ " " +:+ help +:+ endl +:+ "# TYPE " +:+ name +:+ " " +:+ type +:+ endl +:+
   name +:+ " " +:+ value +:+ endl)%string.
Definition counter (name help : string) (v : Z) : string := metric "counter" name help (to_string v).
Definition gauge (name help value : string) : string := metric "gauge" name help value.
Definition labelled (name label key : string) (v : Z) : string :=
  (name +:+ "{" +:+ label +:+ "=" +:+ jstr key +:+ "} " +:+ to_string v +:+ endl)%string.

Definition quantiles : list double := [dlit 5 (-1); dlit 9 (-1); dlit 99 (-2); dlit 999 (-3); dlit 9999 (-4)].

Definition cat (l : list string) : string := fold_right (fun a b => a +:+ b)%string EmptyString l.

Definition handle_metrics (mo : Moment) (_ : HttpRequest) (p : ControlPlane) : option HttpResponse :=
  snap ← snapshot (metrics_ p);
  let c := w_counters snap in
  let h := w_service_ns snap in
  let st := stats (store_ p) in
  let rl := reload_stats_ p in
  Some (text (cat (
    [counter "policy_requests_total" "Requests decoded and evaluated." (requests c);
     counter "policy_replies_sent_total" "Decisions written to the socket." (replies_sent c);
     counter "policy_short_datagrams_total" "Datagrams of the wrong size, dropped without a reply." (short_datagrams c);
     counter "policy_bad_magic_total" "Correctly sized datagrams with an unknown magic/version." (bad_magic c);
     counter "policy_unknown_subscriber_total" "Requests whose IMSI is not provisioned." (unknown_subscriber c);
     counter "policy_send_failures_total" "Replies the kernel would not accept." (send_failures c);
     counter "policy_send_wouldblock_total" "Replies dropped because the socket send buffer was full."
       (send_wouldblock c);
     counter "policy_send_nobufs_total" "Replies dropped because the interface queue was full." (send_nobufs c);
     counter "policy_send_errors_total" "Replies dropped by a non-transient send error." (send_errors c);
     counter "policy_recv_errors_total" "Receive errors." (recv_errors c);
     counter "policy_batches_total" "Receive batches processed." (batches c);
     counter "policy_full_batches_total" "Batches that hit the batch cap (the loop is saturated)." (full_batches c);
     counter "policy_idle_spins_total" "Receive calls that found nothing." (idle_spins c);
     counter "policy_blocking_waits_total" "Times a worker parked after exhausting its poll budget."
       (blocking_waits c);
     gauge "policy_mean_batch_size" "Mean realized receive batch." (show_double (mean_batch snap));
     "# HELP policy_verdicts_total Decisions by verdict." +:+ endl +:+ "# TYPE policy_verdicts_total counter" +:+ endl]
    ++ imap (fun i name => labelled "policy_verdicts_total" "verdict" name (nth i (verdicts snap) 0))
         ["allow"; "deny"; "redirect"]
    ++ ["# HELP policy_reasons_total Decisions by reason code." +:+ endl +:+ "# TYPE policy_reasons_total counter" +:+ endl]
    ++ map (fun i => if (nth i (reasons snap) 0 =? 0)%Z then EmptyString
                     else labelled "policy_reasons_total" "reason" (reason_name (Z.of_nat i)) (nth i (reasons snap) 0))
         (seq 0 (Z.to_nat kReasonCount))
    ++ ["# HELP policy_service_time_ns Time from decode to encode, excluding syscalls." +:+ endl +:+
        "# TYPE policy_service_time_ns summary" +:+ endl]
    ++ map (fun q => labelled "policy_service_time_ns" "quantile" (show_double q)
                       (value_at_percentile (dmul q (double_of_Z 100)) h)) quantiles
    ++ ["policy_service_time_ns_sum " +:+
          to_string (u64 (dtrunc (dmul (mean h) (double_of_Z (total_count_ h))))) +:+ endl +:+
        "policy_service_time_ns_count " +:+ to_string (total_count_ h) +:+ endl;
        gauge "policy_rules_version" "Live policy version."
          (to_string (match rules_ p with Some rs => rs_version rs | None => 0 end));
        gauge "policy_rules_count" "Compiled rules in the live rule set."
          (to_string (match rules_ p with Some rs => Z.of_nat (length (rs_rules rs)) | None => 0 end));
        counter "policy_reloads_total" "Rule reload attempts that succeeded." (rl_successes rl);
        counter "policy_reload_failures_total" "Rule reload attempts that failed." (rl_failures rl);
        gauge "policy_reload_compile_us" "Duration of the last rule compile." (to_string (rl_compile_us rl));
        gauge "policy_reload_grace_us" "Duration of the last RCU grace period." (to_string (rl_grace_period_us rl));
        gauge "policy_subscribers" "Provisioned subscribers." (to_string (stat_size st));
        gauge "policy_subscriber_slots" "Slots in the subscriber table." (to_string (stat_capacity st));
        gauge "policy_subscriber_bytes" "Bytes resident in the subscriber table." (to_string (stat_memory_bytes st));
        gauge "policy_subscriber_mean_probe" "Mean probe length for a hit." (show_double (stat_mean_probe_length st));
        gauge "policy_uptime_seconds" "Seconds since start." (to_string (u64 (mo_now mo - started_unix_s_ p)))])))%string.

Example show_doubles : map show_double
    [dlit 9999 (-4); dlit 15 (-1); double_of_Z 1234567; double_of_Z 100000; dlit 999999999 (-3); dlit 123 (-7); DFin 0 0;
     ddiv (double_of_Z 1) (double_of_Z 3)] =
  ["0.9999"; "1.5"; "1.23457e+06"; "100000"; "1e+06"; "1.23e-05"; "0"; "0.333333"]%string.
Proof. by vm_compute. Qed.

Definition snum (n : Z) : string := to_string n.

Definition handle_stats (mo : Moment) (_ : HttpRequest) (p : ControlPlane) : option HttpResponse :=
  snap ← snapshot (metrics_ p);
  let b := mo_build mo in
  let c := w_counters snap in
  let h := w_service_ns snap in
  let st := stats (store_ p) in
  let rl := reload_stats_ p in
  let cfg := cfg_ p in
  Some (json (jobject
    [("version", jstr (bi_version b));
     ("build", jstr (bi_build_type b +:+ " " +:+ bi_compiler_id b +:+ " " +:+ bi_compiler_ver b));
     ("host", jstr (bi_system_name b +:+ "/" +:+ bi_system_proc b));
     ("uptime_s", snum (u64 (mo_now mo - started_unix_s_ p)));
     ("ingest", jstr (json_escape (ingest_description_ p)));
     ("workers", snum (worker_threads cfg)); ("batch_cap", snum (batch_size cfg)); ("pinned", jbool (pin_workers cfg));
     ("requests", snum (requests c)); ("replies_sent", snum (replies_sent c));
     ("unknown_subscriber", snum (unknown_subscriber c)); ("short_datagrams", snum (short_datagrams c));
     ("bad_magic", snum (bad_magic c)); ("send_failures", snum (send_failures c));
     ("send_wouldblock", snum (send_wouldblock c)); ("send_nobufs", snum (send_nobufs c));
     ("send_errors", snum (send_errors c)); ("mean_batch", show_double (mean_batch snap));
     ("service_ns", jinline
        [("p50", snum (value_at_percentile (double_of_Z 50) h)); ("p99", snum (value_at_percentile (double_of_Z 99) h));
         ("p99_9", snum (value_at_percentile (dlit 999 (-1)) h)); ("p99_99", snum (value_at_percentile (dlit 9999 (-2)) h));
         ("max", snum (hdr_max h)); ("count", snum (total_count_ h))]);
     ("verdicts", jinline
        [("allow", snum (nth 0 (verdicts snap) 0)); ("deny", snum (nth 1 (verdicts snap) 0));
         ("redirect", snum (nth 2 (verdicts snap) 0))]);
     ("reload", jinline
        [("attempts", snum (rl_attempts rl)); ("successes", snum (rl_successes rl)); ("failures", snum (rl_failures rl));
         ("compile_us", snum (rl_compile_us rl)); ("grace_us", snum (rl_grace_period_us rl));
         ("last_error", jstr (json_escape (rl_last_error rl)))]);
     ("policy_version", snum (match rules_ p with Some rs => rs_version rs | None => 0 end));
     ("rules", snum (match rules_ p with Some rs => Z.of_nat (length (rs_rules rs)) | None => 0 end));
     ("subscribers", jinline
        [("count", snum (stat_size st)); ("slots", snum (stat_capacity st)); ("bytes", snum (stat_memory_bytes st));
         ("load_factor", show_double (stat_load_factor st)); ("mean_probe", show_double (stat_mean_probe_length st));
         ("max_probe", snum (stat_max_probe_length st))])]))%string.

(** [plans[i]] with [plan_names[i]]; [None] past the end of the names. *)
Definition plan_json (rs : RuleSet) (i : nat) : option string :=
  name ← rs_plan_names rs !! i;
  let p := nth i (rs_plans rs) default_plan in
  Some (endl +:+ "    " +:+ jinline
    [("id", snum (Z.of_nat i)); ("name", jstr (json_escape name)); ("qos_5qi", snum (p_qos_5qi p));
     ("arp", snum (p_arp p)); ("ambr_ul_kbps", snum (p_ambr_ul_kbps p)); ("ambr_dl_kbps", snum (p_ambr_dl_kbps p));
     ("quota_bytes", snum (p_quota_bytes p)); ("quota_validity_s", snum (p_quota_validity_s p));
     ("rating_group", snum (p_rating_group p))])%string.
Definition rule_json (r : CompiledRule) : string :=
  (endl +:+ "    " +:+ jinline
    [("id", snum (r_id r)); ("priority", snum (r_priority r)); ("plan_mask", snum (r_plan_mask r));
     ("match_mask", jstr (hex64 (r_match_mask r))); ("match_value", jstr (hex64 (r_match_value r)));
     ("verdict", jstr (verdict_name (a_verdict (r_action r)))); ("reason", jstr (reason_name (a_reason (r_action r))))])%string.

Definition handle_rules (_ : HttpRequest) (p : ControlPlane) : option HttpResponse :=
  match rules_ p with
  | None => Some (http_error 503 "no policy loaded")
  | Some rs =>
      plans ← mapM (plan_json rs) (seq 0 (Z.to_nat (rs_plan_count rs)));
      Some (json ("{" +:+ endl +:+
        cat (map (fun kv => jmember kv +:+ "," +:+ endl)
          [("version", snum (rs_version rs)); ("source", jstr (json_escape (rs_source_path rs)));
           ("sha256", jstr (rs_source_sha256 rs)); ("compiled_rules", snum (Z.of_nat (length (rs_rules rs))));
           ("table_bytes", snum (rule_bytes rs)); ("roaming_partners", snum (fs_size (rs_roaming_partners rs)));
           ("imei_blocklist", snum (fs_size (rs_imei_blocklist rs)))]) +:+
        "  " +:+ jstr "plans" +:+ ": [" +:+ sep_by "," plans +:+
        endl +:+ "  ]," +:+ endl +:+ "  " +:+ jstr "dnns" +:+ ": [" +:+
        sep_by ", " (map (fun d => jstr (json_escape d)) (rs_dnn_names rs)) +:+ "]," +:+ endl +:+
        "  " +:+ jstr "rules" +:+ ": [" +:+ sep_by "," (map rule_json (rs_rules rs)) +:+
        endl +:+ "  ]" +:+ endl +:+ "}" +:+ endl))%string
  end.

Definition handle_reload (mo : Moment) : Handler := fun _ p =>
  '(e, p) ← reload_rules (mo_world mo) p;
  Some (match e with
        | Some e => http_error 422 (json_escape e)
        | None => let rl := reload_stats_ p in
            json (jinline [("version", snum (rl_current_version rl)); ("compile_us", snum (rl_compile_us rl));
              ("grace_us", snum (rl_grace_period_us rl))] +:+ endl)
        end, p)%string.

Definition kPrefix : string := "/subscriber/".
Definition kStatus (status : Z) : string :=
  if status =? 0 then "ACTIVE" else if status =? 1 then "SUSPENDED" else if status =? 2 then "BARRED" else "INVALID".

Definition subscriber_json (live : option RuleSet) (rec : SubscriberRecord) : string :=
  let plan_name := match live with
    | Some rs => match rs_plan_names rs !! Z.to_nat (s_plan_id rec) with Some n => c_str n | None => "?" end
    | None => "?"
    end in
  jobject
    [("imsi", jstr (format_imsi (s_imsi rec) kImsiDigits));
     ("imei", jstr (if s_imei rec =? 0 then EmptyString else format_imsi (s_imei rec) kImsiDigits));
     ("plan", jstr (json_escape plan_name)); ("plan_id", snum (s_plan_id rec)); ("status", jstr (kStatus (s_status rec)));
     ("bytes_used_period", snum (load_usage rec)); ("period_reset_ts", snum (s_period_reset_ts rec));
     ("home_plmn", jstr (format_plmn (s_home_plmn rec))); ("flags", snum (s_flags rec))].

Definition handle_subscriber (req : HttpRequest) (p : ControlPlane) : option HttpResponse :=
  if (String.length (hr_path req) <=? String.length kPrefix)%nat then Some (http_error 400 "missing IMSI")
  else
    let imsi_text := str_drop (String.length kPrefix) (hr_path req) in
    match parse_imsi imsi_text with
    | None | Some 0 => Some (http_error 400 ("invalid IMSI '" +:+ imsi_text +:+ "'"))%string
    | Some imsi =>
        rec ← Store.find (store_ p) imsi;
        Some (match rec with
              | None => http_error 404 "IMSI not provisioned"
              | Some rec => json (subscriber_json (rules_ p) rec)
              end)
    end.

Definition uint_param (req : HttpRequest) (name : string) (dflt : Z) : Z :=
  match AdminHttp.param name req with None => dflt | Some v => to_u64 v end.

(** The request that [/explain] evaluates, given its IMSI and the subscriber's
    record; an unknown DNN is refused. *)
Definition explain_request (rs : RuleSet) (req : HttpRequest) (imsi : Z) (rec : option SubscriberRecord)
  : HttpResponse + PolicyRequest :=
  let imei := match AdminHttp.param "imei" req with
              | Some v => match parse_imei v with Some i => i | None => 0 end
              | None => 0
              end in
  let plmn := u32 (uint_param req "plmn" 0) in
  let plmn := match AdminHttp.param "plmn" req with
              | Some v => match parse_plmn v with Some x => x | None => plmn end
              | None => plmn
              end in
  let plmn := match rec with Some rec => if plmn =? 0 then s_home_plmn rec else plmn | None => plmn end in
  let dnn := match AdminHttp.param "dnn" req with
             | None => Some 0
             | Some v => match index_of v (rs_dnn_names rs) with Some i => Some (u8 i) | None => None end
             end in
  match dnn with
  | None => inl (http_error 400 ("unknown DNN '" +:+ default EmptyString (AdminHttp.param "dnn" req) +:+ "'"))%string
  | Some dnn =>
      let '(usage, flags) := match AdminHttp.param "usage" req with
                             | Some v => (to_u64 v, kReqFlagUsageValid)
                             | None => (0, 0)
                             end in
      let flags := match AdminHttp.param "tethering" req with Some _ => Z.lor flags kReqFlagTetheringDetected | None => flags end in
      let flags := match AdminHttp.param "emergency" req with Some _ => Z.lor flags kReqFlagEmergency | None => flags end in
      inr (mkRequest kMagicVersion 0 imsi imei 0 usage plmn 0 (u8 (uint_param req "rat" 0)) dnn
             (u8 (uint_param req "qos_5qi" 9)) flags (u16 (uint_param req "minute" 720)) 0 0 0)
  end.

Definition explain_json (rs : RuleSet) (pr : PolicyRequest) (found : bool) (features : Z) (d : PolicyDecision) : string :=
  jobject
    [("imsi", jstr (format_imsi (rq_imsi pr) kImsiDigits)); ("subscriber_found", jbool found);
     ("features", jstr (hex64 features)); ("features_decoded", jstr (json_escape (describe_features rs features)));
     ("policy_version", snum (d_policy_version d)); ("rule_id", snum (d_rule_id d));
     ("verdict", jstr (verdict_name (d_verdict d))); ("reason", jstr (reason_name (d_reason d)));
     ("qos_5qi", snum (d_qos_5qi d)); ("arp", snum (d_arp d)); ("ambr_ul_kbps", snum (d_ambr_ul_kbps d));
     ("ambr_dl_kbps", snum (d_ambr_dl_kbps d)); ("rating_group", snum (d_rating_group d));
     ("quota_bytes", snum (d_quota_bytes d)); ("quota_validity_s", snum (d_quota_validity_s d));
     ("flags", snum (d_flags d));
     ("redirect", jstr (match rs_redirect_targets rs !! Z.to_nat (d_redirect_id d) with
                        | Some t => json_escape t | None => EmptyString end))].

Definition handle_explain (mo : Moment) (req : HttpRequest) (p : ControlPlane) : option HttpResponse :=
  match rules_ p with
  | None => Some (http_error 503 "no policy loaded")
  | Some rs =>
      match AdminHttp.param "imsi" req with
      | None => Some (http_error 400 "imsi parameter is required")
      | Some v =>
          match parse_imsi v with
          | None => Some (http_error 400 "invalid IMSI")
          | Some imsi =>
              rec ← Store.find (store_ p) imsi;
              match explain_request rs req imsi rec with
              | inl e => Some e
              | inr pr =>
                  features ← build_features (mo_coarse mo) rs pr rec;
                  d ← evaluate (mo_coarse mo) rs pr rec;
                  Some (json (explain_json rs pr (match rec with Some _ => true | None => false end) features d))
              end
          end
      end
  end.

Definition register_routes (mo : Moment) (r : Router Handler) : Router Handler :=
  route_prefix "GET" kPrefix (reads handle_subscriber)
    (route "GET" "/explain" (reads (handle_explain mo))
    (route "POST" "/rules/reload" (handle_reload mo)
    (route "GET" "/rules" (reads handle_rules)
    (route "GET" "/stats" (reads (handle_stats mo))
    (route "GET" "/metrics" (reads (handle_metrics mo))
    (route "GET" "/healthz" (reads handle_healthz) r)))))).
Definition admin_routes (mo : Moment) : Router Handler := register_routes mo (mkRouter [] []).

(** ** The banner *)

Record Machine := mkMachine {
  mc_threads : Z; mc_affinity : string; mc_counter_name : string; mc_cycles_per_second : double;
  mc_read_overhead_ns : double }.

(** A dash between blanks, in UTF-8. *)
Definition em_dash : string := String " " (String "226" (String "128" (String "148" " "))).

Definition describe (b : BuildInfo) (mc : Machine) (ingest : string) (p : ControlPlane) : string :=
  let st := stats (store_ p) in
  let cfg := cfg_ p in
  (cat (
    ["policyd "; bi_version b; " ("; bi_build_type b; ", "; bi_compiler_id b; " "; bi_compiler_ver b; ")"; endl;
     "  host          : "; bi_system_name b; "/"; bi_system_proc b; ", "; snum (mc_threads mc); " hardware threads"; endl;
     "  ingest        : "; ingest; endl;
     "  workers       : "; snum (worker_threads cfg); ", batch cap "; snum (batch_size cfg); ", busy-poll ";
     snum (busy_poll_us cfg); " us"; endl;
     "  pinning       : "; (if pin_workers cfg then "requested" else "disabled"); em_dash; mc_affinity mc; endl;
     "  cycle counter : "; mc_counter_name mc; " @ ";
     snum (dtrunc (ddiv (mc_cycles_per_second mc) (double_of_Z 1000000))); " MHz, "; show_double (mc_read_overhead_ns mc);
     " ns per read (service times include two)"; endl;
     "  listening     : "; bind_address cfg; ":"; snum (port cfg); " (UDP)"; endl]
    ++ match rules_ p with
       | None => []
       | Some rs =>
           ["  policy        : version "; snum (rs_version rs); ", "; snum (Z.of_nat (length (rs_rules rs))); " rules (";
            snum (rule_bytes rs); " B), "; snum (rs_plan_count rs); " plans, ";
            snum (Z.of_nat (length (rs_dnn_names rs))); " DNNs, sha256 "; str_take 12 (rs_source_sha256 rs); endl]
       end
    ++ ["  subscribers   : "; snum (stat_size st); " in "; snum (stat_capacity st); " slots, ";
        snum (stat_memory_bytes st / (1024 * 1024)); " MB, load factor "; show_double (stat_load_factor st);
        ", mean probe "; show_double (stat_mean_probe_length st); endl]))%string.

(** ** The escaped text is one JSON string token *)

Definition hex4 (a b c d : ascii) : option Z :=
  x ← hex_digit a; y ← hex_digit b; z ← hex_digit c; w ← hex_digit d;
  Some (((x * 16 + y) * 16 + z) * 16 + w).

(** The string token that starts after an opening quote, by RFC 8259, with what
    follows it; code points above 127 written with [\u] are not needed here. *)
Fixpoint json_token (s : string) : option (string * string) :=
  let cons c r := '(t, rest) ← r; Some (String c t, rest) in
  match s with
  | EmptyString => None
  | String c s =>
      if Ascii.eqb c dquote then Some (EmptyString, s)
      else if code c <? 32 then None
      else if Ascii.eqb c "\" then
        match s with
        | EmptyString => None
        | String e s =>
            if Ascii.eqb e dquote || Ascii.eqb e "\" || Ascii.eqb e "/" then cons e (json_token s)
            else if Ascii.eqb e "n" then cons newline (json_token s)
            else if Ascii.eqb e "r" then cons "013"%char (json_token s)
            else if Ascii.eqb e "t" then cons "009"%char (json_token s)
            else if Ascii.eqb e "b" then cons "008"%char (json_token s)
            else if Ascii.eqb e "f" then cons "012"%char (json_token s)
            else if Ascii.eqb e "u" then
              match s with
              | String a (String b (String c (String d s))) =>
                  v ← hex4 a b c d; if v <? 128 then cons (chr v) (json_token s) else None
              | _ => None
              end
            else None
        end
      else cons c (json_token s)
  end.

Lemma escape_char_token c s : json_token (escape_char c +:+ s)%string =
  ('(t, rest) ← json_token s; Some (String c t, rest)).
Proof. destruct c as [[] [] [] [] [] [] [] []]; reflexivity. Qed.

(** Nothing breaks out of a JSON string.  Whatever bytes a name or an error
    message holds, its escaped form followed by the closing quote is read back as one
    string token, equal to the original, and the text after it is left untouched. *)
Theorem json_escape_roundtrip s rest : json_token (json_escape s +:+ dq +:+ rest)%string = Some (s, rest).
Proof.
  induction s as [|c s IH]; [done|]. cbn [json_escape]. rewrite str_app_assoc, escape_char_token, IH. done.
Qed.

(** ** The interface answers every request *)

Record plane_ready (w : World) (p : ControlPlane) : Prop := {
  pr_version : fits 32 (next_version_ p);
  pr_doc : doc_ok (wd_files w) (wd_rules w);
  pr_rules : forall rs, rules_ p = Some rs -> compiled_ok rs;
  pr_store : exists m, store_rep (store_ p) m /\ map_Forall (fun _ => record_ok) m }.

Definition answers (mo : Moment) (f : HttpRequest -> ControlPlane -> option HttpResponse) : Prop :=
  forall req p, plane_ready (mo_world mo) p -> is_Some (f req p).

Lemma snapshot_some blocks : is_Some (snapshot blocks).
Proof.
  unfold snapshot, new_metrics. destruct service_ns_holds as (h0 & u & k & -> & _). by eexists.
Qed.

Lemma explain_request_ok rs req imsi rec pr : explain_request rs req imsi rec = inr pr ->
  rq_imsi pr = imsi /\ request_ok pr.
Proof.
  unfold explain_request. intros H.
  destruct (match AdminHttp.param "dnn" req with None => Some 0 | Some v => _ end) as [dnn|] eqn:Ed; [|done].
  assert (fits 8 dnn).
  { destruct (AdminHttp.param "dnn" req) as [v|]; [|injection Ed as <-; by apply fits_0].
    destruct (index_of _ _); [|done]. injection Ed as <-. by apply wrap_fits. }
  assert (fits 64 (match AdminHttp.param "usage" req with Some v => to_u64 v | None => 0 end)) as Hu.
  { destruct (AdminHttp.param "usage" req) as [v|]; [apply to_u64_fits|by apply fits_0]. }
  destruct (AdminHttp.param "usage" req); injection H as <-;
    (split; [done|]; split; simpl; auto; try (by apply wrap_fits); by apply fits_0).
Qed.

(** What [/explain] shows is what the data path answers. *)
Lemma explain_spec mo req p rs v imsi : plane_ready (mo_world mo) p -> rules_ p = Some rs ->
  AdminHttp.param "imsi" req = Some v -> parse_imsi v = Some imsi ->
  exists rec, Store.find (store_ p) imsi = Some rec /\
    match explain_request rs req imsi rec with
    | inl e => handle_explain mo req p = Some e
    | inr pr => exists f d, rq_imsi pr = imsi /\ request_ok pr /\
        build_features (mo_coarse mo) rs pr rec = Some f /\
        evaluate_in_store (mo_coarse mo) rs (store_ p) pr = Some d /\ meaningful rs d /\
        handle_explain mo req p =
          Some (json (explain_json rs pr (match rec with Some _ => true | None => false end) f d))
    end.
Proof.
  intros [_ _ Hr (m & R & Hm)] Er Ep Ei. specialize (Hr rs Er). exists (m !! imsi).
  split; [by apply find_lookup|]. unfold handle_explain. rewrite Er, Ep, Ei, (find_lookup _ m imsi R).
  cbn [mbind option_bind]. destruct (explain_request rs req imsi (m !! imsi)) as [e|pr] eqn:Eq; [done|].
  destruct (explain_request_ok _ _ _ _ _ Eq) as [Hi HQ].
  assert (forall x, m !! imsi = Some x -> record_ok x) as HC by (intros x Hx; by eapply Hm).
  destruct Hr as [(P & B & RS) H1 H2 H3 H4 H5 H6 H7] eqn:EE.
  destruct (build_features_spec (mo_coarse mo) rs P B pr (m !! imsi) RS HQ HC) as (f & Ef & _).
  destruct (compiled_decision (mo_coarse mo) rs pr (m !! imsi) Hr HQ HC) as (d & Ed & Hd).
  exists f, d. rewrite (evaluate_in_store_rep _ rs _ m pr R), Hi, Ef, Ed. done.
Qed.


Lemma explain_answers mo : answers mo (handle_explain mo).
Proof.
  intros req p Hp. unfold handle_explain. destruct (rules_ p) as [rs|] eqn:Er; [|by eexists].
  destruct (AdminHttp.param "imsi" req) as [v|] eqn:Ep; [|by eexists].
  destruct (parse_imsi v) as [imsi|] eqn:Ei; [|by eexists].
  destruct (explain_spec mo req p rs v imsi Hp Er Ep Ei) as (rec & Ef & H).
  unfold handle_explain in H. rewrite Er, Ep, Ei, Ef in H. rewrite Ef. cbn [mbind option_bind] in *.
  destruct (explain_request rs req imsi rec); [by eexists|]. destruct H as (f & d & _ & _ & _ & _ & _ & ->). by eexists.
Qed.

Lemma subscriber_answers mo : answers mo handle_subscriber.
Proof.
  intros req p [_ _ _ (m & R & _)]. unfold handle_subscriber. destruct (_ <=? _)%nat; [by eexists|].
  destruct (parse_imsi _) as [[|i|i]|]; try by eexists.
  all: rewrite (find_lookup _ m _ R); by eexists.
Qed.

Lemma rules_answers mo : answers mo handle_rules.
Proof.
  intros req p [_ _ Hr _]. unfold handle_rules. destruct (rules_ p) as [rs|]; [|by eexists].
  specialize (Hr rs eq_refl). enough (is_Some (mapM (plan_json rs) (seq 0 (Z.to_nat (rs_plan_count rs))))) as [l ->]
    by (by eexists).
  apply mapM_is_Some, list.Forall_forall. intros i Hi%elem_of_seq. change (is_Some (plan_json rs i)).
  unfold plan_json.
  rewrite (co_plan_names rs Hr) in Hi.
  destruct (lookup_lt_is_Some_2 (rs_plan_names rs) i) as [n ->]; [lia|]. by eexists.
Qed.

Lemma snapshot_answers mo : answers mo (handle_metrics mo) /\ answers mo (handle_stats mo).
Proof.
  split; intros req p _; unfold handle_metrics, handle_stats;
    destruct (snapshot_some (metrics_ p)) as [s ->]; by eexists.
Qed.

(** A handler of the table: one that only reads, or the reload. *)
Definition admin_handler (mo : Moment) (key : string) (h : Handler) : Prop :=
  (exists f, h = reads f /\ answers mo f) \/ (h = handle_reload mo /\ key = "POST /rules/reload"%string).

Lemma reads_handler mo key f : answers mo f -> admin_handler mo key (reads f).
Proof. intros H. left. by exists f. Qed.

Lemma admin_dispatch mo req h : dispatch (admin_routes mo) req = inl h ->
  admin_handler mo (route_key (hr_method req) (hr_path req)) h.
Proof.
  unfold dispatch. pose proof (find_route_spec (route_key (hr_method req) (hr_path req)) (rt_routes (admin_routes mo))) as E1.
  destruct (find_route _ _) as [x|].
  - intros [= ->]. destruct (snapshot_answers mo).
    unfold admin_routes, register_routes in E1. cbn -[handle_metrics handle_stats handle_explain handle_rules handle_reload] in E1.
    repeat (apply elem_of_cons in E1 as [[= Ek ->]|E1]); [..|by apply elem_of_nil in E1];
      auto using reads_handler, explain_answers, rules_answers.
    + right. by rewrite Ek.
    + apply reads_handler. intros r p _. by eexists.
  - destruct (best_prefix_spec (route_key (hr_method req) (hr_path req)) (rt_prefix (admin_routes mo)) None 0)
      as [[-> _]|(k & x & -> & E2 & _)]; [by destruct (existsb _ _)|]. intros [= ->].
    apply list_elem_of_singleton in E2. injection E2 as _ ->. apply reads_handler, subscriber_answers.
Qed.

Lemma reload_ready w p : plane_ready w p -> exists e p', reload_rules w p = Some (e, p') /\ plane_ready w p'.
Proof.
  intros [Hv Hd Hr Hs]. destruct (reload_spec w p Hv Hd) as (r & e & p' & _ & E & [_ Fs _ _ Fv _] & O).
  exists e, p'. split; [done|]. split; [rewrite Fv; by apply wrap_fits|done| |by rewrite Fs].
  intros rs Ers. destruct e as [msg|].
  - destruct O as (O1 & _). apply Hr. congruence.
  - destruct O as (rs' & _ & Hok & _ & _ & O1 & _). congruence.
Qed.

(** The administrative interface is total and, but for the reload, read-only.
    Whatever bytes a client sends, in whatever pieces, the connection is answered,
    the plane stays ready for the next one, and only a POST to /rules/reload changes
    it, by exactly one reload. *)
Theorem admin_serves mo chunks p : plane_ready (mo_world mo) p ->
  exists reply p', handle_connection (admin_routes mo) chunks p = Some (reply, p') /\ plane_ready (mo_world mo) p' /\
    (p' = p \/ exists req e, read_request chunks = PRequest req /\
       route_key (hr_method req) (hr_path req) = "POST /rules/reload"%string /\
       reload_rules (mo_world mo) p = Some (e, p')).
Proof.
  intros Hp. unfold handle_connection. destruct (read_request chunks) as [out|r|req]; [eauto 6..|].
  destruct (@dispatch (HttpRequest -> ControlPlane -> option (HttpResponse * ControlPlane)) (admin_routes mo) req)
    as [h|r] eqn:E; [|eauto 6].
  destruct (admin_dispatch mo req h E) as [(f & -> & Hf)|[-> Ek]].
  - destruct (Hf req p Hp) as [r Er]. unfold reads. cbv beta. rewrite Er. eexists _, p. split; [done|]. auto.
  - destruct (reload_ready _ p Hp) as (e & p' & Er & Hp'). unfold handle_reload. cbv beta. rewrite Er. cbn [mbind option_bind].
    eexists _, p'. split; [done|]. split; [done|]. right. by exists req, e.
Qed.

(** A plane that has started is ready, as long as its rules file stays readable. *)
Lemma started_ready cfg now w m p0 p : config_sane cfg -> files_small (wd_files w) -> doc_ok (wd_files w) (wd_rules w) ->
  new_control_plane cfg now = Some p0 -> initialize w m p0 = Some (None, p) -> plane_ready w p /\ is_Some (rules_ p).
Proof.
  intros Hc Hf Hd E0 Ei.
  destruct (initialize_spec cfg now w m Hc Hf Hd) as (p0' & r & e & p' & E0' & E' & _ & _ & Hn).
  rewrite E0 in E0'. injection E0' as <-. rewrite Ei in E'. injection E' as <- <-.
  destruct (Hn eq_refl) as (rs & _ & L & Hnext & _ & _ & _ & R).
  split; [|rewrite (lv_rules _ _ _ _ L); by eexists]. split; [rewrite Hnext; by split|done| |].
  - intros rs' Hrs. rewrite (lv_rules _ _ _ _ L) in Hrs. injection Hrs as <-. apply L.
  - eexists. split; [exact R|]. intros k x Hx. eapply rows_records; [|exact Hx].
    apply compiled_plan_names, (lv_ok _ _ _ _ L).
Qed.

(** ** Samples *)

Definition sample_moment : Moment := mkMoment sample_world 100 100 (mkBuild "1.0" "Release" "GNU" "13" "Linux" "x86_64").
Definition sample_explain : HttpRequest :=
  mkHttp "GET" "/explain" {["imsi"%string := "262011234567890"%string; "rat"%string := "NR"%string]} ∅ EmptyString.

Lemma admin_serves_witness : exists p reply p', plane_ready sample_world p /\
  handle_connection (admin_routes sample_moment) ["GET /healthz HTTP/1.1" +:+ crlf +:+ crlf]%string p = Some (reply, p').
Proof.
  destruct (sample_start 7) as (p0 & p & E0 & E).
  destruct (started_ready sample_cfg 0 sample_world 7 p0 p sample_cfg_sane sample_files_small sample_world_ok E0 E) as [Hp _].
  destruct (admin_serves sample_moment ["GET /healthz HTTP/1.1" +:+ crlf +:+ crlf]%string p Hp) as (reply & p' & H & _).
  exists p, reply, p'. exact (conj Hp H).
Defined.


(** The decision endpoint reads RAT names, [/explain] only numbers: asked about NR,
    it explains a request from LTE. *)
Theorem explain_reads_rat_as_lte rs rec : rat_value "NR" = Some 1 /\
  match explain_request rs sample_explain 262011234567890 rec with
  | inr pr => rq_rat_type pr = 0
  | inl _ => False
  end.
Proof. split; [by vm_compute|]. unfold explain_request. by vm_compute. Qed.
