(* ===== verification/AdminLoop.v ===== *)
(** * AdminLoop: the thread of the administrative interface

    [AdminHttpServer::serve] and [write_all] of src/admin_http.cpp around the handling of a
    connection (AdminHttp, AdminEndpoints): polling, accepting, answering and closing one
    connection after the other.  What [poll], [accept], [recv] and [send] return is the script
    of the loop. *)

From S2P Require Import Prelude Text Store Rules Engine Compiler CompilerSpec HttpFront Config ControlPlane AdminHttp AdminEndpoints.
From Stdlib Require Import ZArith Lia Bool Ascii String.
From stdpp Require Import base list numbers strings gmap.
Local Open Scope Z_scope.

(** ** Writing a reply *)

(** One call of [send]: interrupted, failed, or so many bytes taken (at most what is
    offered). *)
Inductive SendAnswer := SInterrupted | SFails | STaken (n : nat).

(** Whether all was written, and what was; [None] while the client does not take it. *)
Fixpoint write_all (sends : list SendAnswer) (data : string) : option (bool * string) :=
  match data with
  | EmptyString => Some (true, ""%string)
  | _ =>
      match sends with
      | [] => None
      | SInterrupted :: sends => write_all sends data
      | SFails :: _ => Some (false, ""%string)
      | STaken n :: sends =>
          '(ok, rest) ← write_all sends (str_drop n data); Some (ok, (str_take n data +:+ rest)%string)
      end
  end.

(** ** The loop *)

(** A turn of the loop: the stop flag is seen, nothing comes within the time of [poll],
    [accept] fails (for good or not, and with the flag set or not), or a client is accepted,
    with the moment it is served at, the pieces it sends and the answers of [send]. *)
Inductive AdminTurn :=
  | TurnStop
  | TurnIdle
  | TurnFails (transient stopped : bool) (why : string)
  | TurnClient (fd : Z) (mo : Moment) (chunks : list string) (sends : list SendAnswer).

(** A connection that was closed: the reply, what was written of it, and whether that is
    all. *)
Record Served := mkServed { sv_fd : Z; sv_reply : string; sv_complete : bool; sv_written : string }.

(** The connections in the order they were closed, the warnings, whether the loop has ended,
    and the plane. *)
Record LoopOut := mkLoopOut { lp_served : list Served; lp_warnings : list string; lp_ended : bool; lp_plane : ControlPlane }.

Definition serve_client (fd : Z) (mo : Moment) (chunks : list string) (sends : list SendAnswer) (p : ControlPlane) : option (Served * ControlPlane) :=
  '(reply, p) ← handle_connection (admin_routes mo) chunks p;
  '(ok, written) ← write_all sends reply;
  Some (mkServed fd reply ok written, p).

Fixpoint serve (turns : list AdminTurn) (p : ControlPlane) : option LoopOut :=
  match turns with
  | [] => Some (mkLoopOut [] [] false p)
  | TurnStop :: _ => Some (mkLoopOut [] [] true p)
  | TurnIdle :: turns => serve turns p
  | TurnFails transient stopped why :: turns =>
      if transient then serve turns p
      else if stopped then Some (mkLoopOut [] [] true p)
      else o ← serve turns p;
           Some (mkLoopOut (lp_served o) (("admin accept: " +:+ why)%string :: lp_warnings o) (lp_ended o) (lp_plane o))
  | TurnClient fd mo chunks sends :: turns =>
      '(c, p) ← serve_client fd mo chunks sends p;
      o ← serve turns p;
      Some (mkLoopOut (c :: lp_served o) (lp_warnings o) (lp_ended o) (lp_plane o))
  end.

(** ** What is written is the reply *)

Lemma write_all_spec sends data ok written : write_all sends data = Some (ok, written) ->
  exists rest, data = (written +:+ rest)%string /\ (ok = true -> rest = ""%string).
Proof.
  revert data ok written. induction sends as [|a sends IH]; intros data ok written; destruct data as [|ch data]; cbn [write_all].
  1,3: by intros [= <- <-]; exists ""%string.
  - done.
  - destruct a as [| |n]; [by apply IH|intros [= <- <-]; by eexists|].
    intros E. apply bind_Some in E as ([ok' rest] & E & [= <- <-]). apply IH in E as (tail & Et & Ho).
    exists tail. split; [|exact Ho]. rewrite str_app_assoc, <- Et. symmetry. apply str_take_drop.
Qed.

(** A script that never fails and takes all it is offered. *)
Lemma write_all_takes n data : (String.length data <= n)%nat -> write_all [STaken n] data = Some (true, data).
Proof.
  intros Hn. destruct data as [|ch data]; [done|]. cbn [write_all]. rewrite str_drop_all by done. cbn [mbind option_bind write_all].
  rewrite str_app_nil_r. do 2 f_equal. rewrite <- (str_take_drop n (String ch data)) at 2. by rewrite str_drop_all, str_app_nil_r by done.
Qed.

(** A client that breaks the connection in the end does not block the loop. *)
Lemma write_all_breaks sends data : SFails ∈ sends -> is_Some (write_all sends data).
Proof.
  revert data. induction sends as [|a sends IH]; intros data Hin; [by apply elem_of_nil in Hin|].
  destruct data as [|ch data]; cbn [write_all]; [by eexists|]. apply elem_of_cons in Hin as [<-|Hin]; [by eexists|].
  destruct a as [| |n]; [by apply IH|by eexists|]. destruct (IH (str_drop n (String ch data)) Hin) as [[ok rest] ->]. by eexists.
Qed.

(** ** The loop serves every client *)

(** The world of a client's moment has rules the compiler is built for, and the client takes
    its reply or breaks the connection. *)
Definition turn_ok (t : AdminTurn) : Prop :=
  match t with
  | TurnClient _ mo _ sends => doc_ok (wd_files (mo_world mo)) (wd_rules (mo_world mo)) /\ forall data, is_Some (write_all sends data)
  | _ => True
  end.

(** The clients of the turns before the one that ends the loop, and whether there is one. *)
Fixpoint clients (turns : list AdminTurn) : list (Z * Moment * list string) * bool :=
  match turns with
  | [] => ([], false)
  | TurnStop :: _ => ([], true)
  | TurnFails false true _ :: _ => ([], true)
  | TurnClient fd mo chunks _ :: turns => let '(l, ended) := clients turns in ((fd, mo, chunks) :: l, ended)
  | _ :: turns => clients turns
  end.

(** Connections served one after the other, each on the plane the one before has left: the
    reply is what the handlers say, a part of it is written, all of it unless [send] failed,
    and the plane changes by a reload or not at all. *)
Inductive served_run : ControlPlane -> list (Z * Moment * list string) -> list Served -> ControlPlane -> Prop :=
  | served_nil p : served_run p [] [] p
  | served_cons p fd mo chunks cs c l p1 p2 rest :
      handle_connection (admin_routes mo) chunks p = Some (sv_reply c, p1) -> sv_fd c = fd ->
      sv_reply c = (sv_written c +:+ rest)%string -> (sv_complete c = true -> rest = ""%string) ->
      (p1 = p \/ exists e, reload_rules (mo_world mo) p = Some (e, p1)) ->
      served_run p1 cs l p2 -> served_run p ((fd, mo, chunks) :: cs) (c :: l) p2.

Lemma served_run_length p cs l p' : served_run p cs l p' -> length cs = length l.
Proof. induction 1; simpl; congruence. Qed.

(** What of a plane's readiness does not depend on the files. *)
Definition plane_sound (p : ControlPlane) : Prop :=
  fits 32 (next_version_ p) /\ (forall rs, rules_ p = Some rs -> compiled_ok rs) /\
  exists m, store_rep (store_ p) m /\ map_Forall (fun _ => record_ok) m.
Lemma plane_ready_sound w p : plane_ready w p <-> plane_sound p /\ doc_ok (wd_files w) (wd_rules w).
Proof. split; [intros [H1 H2 H3 H4]; exact (conj (conj H1 (conj H3 H4)) H2)|intros [(H1 & H3 & H4) H2]; by split]. Qed.

Lemma serve_client_ok fd mo chunks sends p : plane_sound p -> turn_ok (TurnClient fd mo chunks sends) ->
  exists c p1, serve_client fd mo chunks sends p = Some (c, p1) /\ plane_sound p1 /\
    forall cs l p2, served_run p1 cs l p2 -> served_run p ((fd, mo, chunks) :: cs) (c :: l) p2.
Proof.
  intros Hp [Hd Hw]. assert (plane_ready (mo_world mo) p) as R by by apply plane_ready_sound.
  destruct (admin_serves mo chunks p R) as (reply & p1 & E & R1 & Hc). unfold serve_client. rewrite E. cbn [mbind option_bind].
  destruct (Hw reply) as [[ok written] Ew]. rewrite Ew. cbn [mbind option_bind]. apply write_all_spec in Ew as (rest & Er & Ho).
  eexists _, p1. split; [reflexivity|]. split; [by apply (plane_ready_sound (mo_world mo))|].
  intros cs l p2 Hr. eapply (served_cons _ _ _ _ _ _ _ p1 _ rest); try done. destruct Hc as [->|(req & e & _ & _ & Hl)]; eauto.
Qed.


(** ** Witnesses *)

(** A health check, a client that hangs up in the middle of its reply, the stop. *)
Definition sample_turns : list AdminTurn :=
  let ask := ["GET /healthz HTTP/1.1" +:+ crlf +:+ crlf]%string in
  [TurnIdle; TurnClient 7 sample_moment ask [SInterrupted; STaken 4; SFails];
   TurnFails false false "Too many open files"; TurnClient 7 sample_moment ask [STaken 9; SFails]; TurnStop].

Lemma sample_turns_ok : Forall turn_ok sample_turns.
Proof.
  assert (forall sends, SFails ∈ sends -> turn_ok (TurnClient 7 sample_moment ["GET /healthz HTTP/1.1" +:+ crlf +:+ crlf]%string sends)) as C.
  { intros sends Hin. split; [exact sample_world_ok|]. intros data. by apply write_all_breaks. }
  unfold sample_turns. repeat (apply Forall_cons; split); try exact I; [apply C; right; right; left|apply C; right; left|constructor].
Qed.

