(* ===== verification/Tools.v ===== *)
(** * Tools: the fixture generators

    The programs tools/gen_subscribers.cpp and tools/gen_golden.cpp: option parsing, the
    compilation of the rules, the checks of their inputs and the files they write.  A
    roster made for a rules file is accepted by the corpus generator under the same
    rules, and the corpus it then writes replays without a difference. *)

From S2P Require Import Prelude Text Imsi Wire Double DoubleBounds Yaml Probe FlatSet Store Rules Engine Golden Compiler CompilerSpec ControlPlane Random RequestGen Roster.
From Stdlib Require Import ZArith Lia Bool Ascii String.
From stdpp Require Import base list numbers strings gmap.
Local Open Scope Z_scope.
Local Open Scope random_scope.

(** ** Options *)

Record SubscriberOptions := mkSubOpts { so_count : Z; so_seed : Z; so_rules_path : string; so_out_path : string }.
Definition default_sub_opts : SubscriberOptions := mkSubOpts 1000000 20260830 "config/rules.yaml" "".

(** The exit status, or the options.  An option at the end of the line that lacks its
    value is ignored. *)
Fixpoint subscriber_args (argv : list string) (o : SubscriberOptions) : Z + SubscriberOptions :=
  match argv with
  | [] => inr o
  | a :: argv =>
      if String.eqb a "-h" || String.eqb a "--help" then inl 0
      else if String.eqb a "--count" then
        match argv with
        | v :: argv => subscriber_args argv (mkSubOpts (to_u64 v) (so_seed o) (so_rules_path o) (so_out_path o))
        | [] => inr o end
      else if String.eqb a "--seed" then
        match argv with
        | v :: argv => subscriber_args argv (mkSubOpts (so_count o) (to_u64 v) (so_rules_path o) (so_out_path o))
        | [] => inr o end
      else if String.eqb a "--rules" then
        match argv with
        | v :: argv => subscriber_args argv (mkSubOpts (so_count o) (so_seed o) v (so_out_path o))
        | [] => inr o end
      else if String.eqb a "--out" then
        match argv with
        | v :: argv => subscriber_args argv (mkSubOpts (so_count o) (so_seed o) (so_rules_path o) v)
        | [] => inr o end
      else inl 2
  end.

Record GoldenOptions := mkGoldenOpts {
  go_count : Z; go_seed : Z; go_rules_path : string; go_subs_path : string; go_out_path : string }.
Definition default_golden_opts : GoldenOptions :=
  mkGoldenOpts 10000 424242 "config/rules.yaml" "config/subscribers.csv" "tests/golden/decisions.csv".

Fixpoint golden_args (argv : list string) (o : GoldenOptions) : Z + GoldenOptions :=
  match argv with
  | [] => inr o
  | a :: argv =>
      if String.eqb a "-h" || String.eqb a "--help" then inl 0
      else if String.eqb a "--count" then
        match argv with
        | v :: argv => golden_args argv (mkGoldenOpts (to_u64 v) (go_seed o) (go_rules_path o) (go_subs_path o) (go_out_path o))
        | [] => inr o end
      else if String.eqb a "--seed" then
        match argv with
        | v :: argv => golden_args argv (mkGoldenOpts (go_count o) (to_u64 v) (go_rules_path o) (go_subs_path o) (go_out_path o))
        | [] => inr o end
      else if String.eqb a "--rules" then
        match argv with
        | v :: argv => golden_args argv (mkGoldenOpts (go_count o) (go_seed o) v (go_subs_path o) (go_out_path o))
        | [] => inr o end
      else if String.eqb a "--subscribers" then
        match argv with
        | v :: argv => golden_args argv (mkGoldenOpts (go_count o) (go_seed o) (go_rules_path o) v (go_out_path o))
        | [] => inr o end
      else if String.eqb a "--out" then
        match argv with
        | v :: argv => golden_args argv (mkGoldenOpts (go_count o) (go_seed o) (go_rules_path o) (go_subs_path o) v)
        | [] => inr o end
      else inl 2
  end.

(** ** The file system and the compiler as the tools see them *)

(** [tw_lines] is a file as a list of lines, [tw_text] as one text; [tw_writable] says
    whether [fopen] for writing succeeds. *)
Record ToolWorld := mkToolWorld {
  tw_lines : string -> option (list string); tw_text : string -> option string; tw_now : Z;
  tw_writable : string -> bool }.

(** The rule set, when there is one and no error was reported. *)
Definition tool_compile (w : ToolWorld) (path : string) : option (option RuleSet) :=
  r ← compile_rules_from_file (tw_lines w) (tw_now w) (tw_text w path) path 1;
  Some (if compile_ok r then cr_rule_set r else None).

Definition plan_quotas (rs : RuleSet) : list Z :=
  imap (fun i _ => if (i <? Z.to_nat kMaxPlans)%nat then p_quota_bytes (nth i (rs_plans rs) default_plan) else 0) (rs_plan_names rs).

(** [for_each] of the two tables. *)
Definition store_records (s : SubscriberStore) : list SubscriberRecord :=
  List.filter (fun r => negb (s_imsi r =? 0)) (st_slots s).

(** The traffic of a rules file: its blocked devices, its roaming partners and one network
    that is none, its data networks. *)
Definition traffic_generator (rs : RuleSet) (imsis : list Z) : Generator :=
  new_generator imsis (map u64 (fs_keys (rs_imei_blocklist rs)))
    (map u32 (fs_keys (rs_roaming_partners rs)) ++ [46000]) (u8 (Z.of_nat (length (rs_dnn_names rs)))) default_mix.

Lemma traffic_generator_ok rs imsis : compiled_ok rs -> Forall (fun i => 0 < i < 2 ^ 64) imsis -> gen_ok (traffic_generator rs imsis).
Proof.
  intros Hrs Hi. split; simpl; [exact Hi|..].
  - apply list.Forall_forall. intros i Hin. apply list_elem_of_In, in_map_iff in Hin as (r & <- & _). by apply wrap_fits.
  - apply Forall_app. split; [|by repeat constructor]. apply list.Forall_forall. intros i Hin.
    apply list_elem_of_In, in_map_iff in Hin as (r & <- & _). by apply wrap_fits.
  - pose proof (co_dnn_names _ Hrs) as Hd. unfold kMaxDnns in Hd. rewrite wrap_id by (split; [lia|]; change (2 ^ 8) with 256; lia).
    destruct (Z.eqb_spec (Z.of_nat (length (rs_dnn_names rs))) 0); lia.
Qed.

Definition kGoldenClockUnixS : Z := 1787788800.

Section Mains.
Context {S : Type} `{Rng S}.
(** The generator in the state [std::mt19937_64(seed)] puts it. *)
Variable seeded : Z -> S.

(** An exit status, with the lines of the output file when there are any. *)
Definition gen_subscribers_main (w : ToolWorld) (o : SubscriberOptions) : option (Z * list string) :=
  rs ← tool_compile w (so_rules_path o);
  match rs with
  | None => Some (1, [])
  | Some rs =>
      match rs_plan_names rs with
      | [] => Some (1, [])
      | plans =>
          if negb (String.eqb (so_out_path o) "") && negb (tw_writable w (so_out_path o)) then Some (1, [])
          else Some (0, (gen_subscribers plans (plan_quotas rs) (Z.to_nat (so_count o)) (seeded (so_seed o))).1)
      end
  end.

Definition golden_generator (rs : RuleSet) (store : SubscriberStore) : Generator :=
  traffic_generator rs (map s_imsi (store_records store)).

Definition set_plmn (plmn : Z) (r : PolicyRequest) : PolicyRequest :=
  mkRequest (rq_magic_version r) (rq_seq r) (rq_imsi r) (rq_imei r) (rq_client_ts_ns r) (rq_bytes_used_period r) plmn
    (rq_tac r) (rq_rat_type r) (rq_dnn_id r) (rq_requested_5qi r) (rq_flags r) (rq_local_minute r)
    (rq_req_ambr_ul_kbps r) (rq_req_ambr_dl_kbps r) (rq_reserved r).

Definition resolve_plmn (req : PolicyRequest) (rec : option SubscriberRecord) : PolicyRequest :=
  if rq_plmn req =? 0 then set_plmn (match rec with Some r => s_home_plmn r | None => 310260 end) req else req.

(** One case: the request and the decision. *)
Definition golden_case_for (rs : RuleSet) (store : SubscriberStore) (req : PolicyRequest)
    : option (PolicyRequest * PolicyDecision) :=
  rec ← Store.find store (rq_imsi req);
  let req := resolve_plmn req rec in
  d ← evaluate kGoldenClockUnixS rs req rec;
  Some (req, d).

Fixpoint golden_cases (rs : RuleSet) (store : SubscriberStore) (g : Generator) (count : nat)
    : G S (option (list (PolicyRequest * PolicyDecision))) :=
  match count with
  | O => ret (Some [])
  | Datatypes.S count =>
      draw req := fill g in
      match golden_case_for rs store req with
      | None => ret None
      | Some c => draw rest := golden_cases rs store g count in ret (cons c <$> rest)
      end
  end.

Definition gen_golden_main (w : ToolWorld) (o : GoldenOptions) : option (Z * list string) :=
  rs ← tool_compile w (go_rules_path o);
  match rs with
  | None => Some (1, [])
  | Some rs =>
      store ← new_store (Z.shiftl 1 16) default_load_factor;
      '(store, load) ← load_csv store (go_subs_path o) (tw_lines w (go_subs_path o)) (rs_plan_names rs);
      if negb (load_ok load) then Some (1, [])
      else if ld_loaded load =? 0 then Some (1, [])
      else if negb (tw_writable w (go_out_path o)) then Some (1, [])
      else
        cases ← (golden_cases rs store (golden_generator rs store) (Z.to_nat (go_count o)) (seeded (go_seed o))).1;
        Some (0, golden_header :: map (fun rd => golden_row rd.1 rd.2) cases)
  end.
End Mains.

(** ** The corpus replays *)

(** What the replay of a corpus does with a case: the comparison of the decision that is
    pinned with the one taken now. *)
Definition replay_diff (rs : RuleSet) (store : SubscriberStore) (c : GoldenCase) : option string :=
  rec ← Store.find store (rq_imsi (gc_request c));
  d ← evaluate kGoldenClockUnixS rs (gc_request c) rec;
  Some (diff_decisions (gc_expected c) d).

(** A decision depends on the pinned fields of the request alone. *)
Lemma evaluate_pinned now rs req rec d : evaluate now rs req rec = Some d ->
  exists d', evaluate now rs (pinned_request req) rec = Some d' /\ pinned_decision d' = pinned_decision d.
Proof.
  unfold evaluate. change (build_features now rs (pinned_request req) rec) with (build_features now rs req rec).
  destruct (build_features now rs req rec) as [f|]; [|done]. intros [= <-]. by eexists.
Qed.

Section Replay.
Context {S : Type} `{RngOk S}.
Variables (rs : RuleSet) (store : SubscriberStore) (m : gmap Z SubscriberRecord).
Hypothesis Hrs : compiled_ok rs.
Hypothesis Hstore : store_rep store m.
Hypothesis Hrecs : forall k rec, m !! k = Some rec ->
  record_ok rec /\ 0 < s_imsi rec < 2 ^ 64 /\ fits 32 (s_home_plmn rec).

Lemma golden_generator_ok : gen_ok (golden_generator rs store).
Proof using Hrs Hstore Hrecs.
  apply traffic_generator_ok; [done|].
  apply list.Forall_forall. intros i Hi. apply list_elem_of_In, in_map_iff in Hi as (r & <- & Hr).
  apply filter_In in Hr as [Hin Hne]. pose proof (slots_in_map _ _ Hstore) as Hs. rewrite list.Forall_forall in Hs.
  destruct (Z.eqb_spec (s_imsi r) 0) as [|Hz]; [done|]. apply list_elem_of_In in Hin.
  by apply (Hrecs _ _ (Hs _ Hin Hz)).
Qed.

Lemma set_plmn_ok plmn r : fits 32 plmn -> msg_ok r -> msg_ok (set_plmn plmn r).
Proof using.
  unfold msg_ok, fields_ok. simpl. unfold request_widths, request_fields. intros Hp Hr.
  repeat (apply Forall2_cons in Hr as [? Hr]). repeat (apply Forall2_cons; split); [done..|constructor].
Qed.

(** A case of the corpus: a well-formed row whose decision is the one of the engine. *)
Definition case_good (c : PolicyRequest * PolicyDecision) : Prop :=
  row_ok c /\ exists rec, Store.find store (rq_imsi c.1) = Some rec /\ evaluate kGoldenClockUnixS rs c.1 rec = Some c.2.

Lemma golden_case_ok req : msg_ok req -> exists c, golden_case_for rs store req = Some c /\ case_good c.
Proof using Hrs Hstore Hrecs.
  intros Hq. unfold golden_case_for. rewrite (find_lookup _ _ _ Hstore). cbn [mbind option_bind].
  set (rec := m !! rq_imsi req). set (req' := resolve_plmn req rec).
  assert (forall x, rec = Some x -> record_ok x /\ fits 32 (s_home_plmn x)) as Hrec.
  { intros x Hx. destruct (Hrecs _ _ Hx) as (? & _ & ?). done. }
  assert (msg_ok req') as Hq'.
  { unfold req', resolve_plmn. destruct (_ =? 0); [|done]. apply set_plmn_ok; [|done].
    destruct rec as [x|]; [by apply (Hrec x)|by vm_compute]. }
  assert (rq_imsi req' = rq_imsi req) as Ei by (unfold req', resolve_plmn; by destruct (_ =? 0)).
  destruct (co_engine _ Hrs) as (P & B & R).
  destruct (evaluate_fits kGoldenClockUnixS rs P B req' rec R (msg_ok_request_ok _ Hq')) as (d & E & Hd).
  { intros x Hx. by apply (Hrec x). }
  rewrite E. eexists. split; [reflexivity|]. split; [by split|]. exists rec. cbn [fst snd].
  rewrite (find_lookup _ _ _ Hstore), Ei. done.
Qed.

Lemma golden_cases_ok count : always (S := S) (golden_cases rs store (golden_generator rs store) count)
  (fun o => exists cases, o = Some cases /\ length cases = count /\ Forall case_good cases).
Proof using All.
  induction count as [|count IH]; cbn [golden_cases].
  { apply always_ret. exists []. split; [done|]. split; [done|constructor]. }
  eapply always_bind; [apply fill_ok, golden_generator_ok|]. intros req Hreq.
  destruct (golden_case_ok req (sy_msg _ _ Hreq)) as (c & -> & Hc). eapply always_bind; [exact IH|].
  intros o (cases & -> & Hl & F). apply always_ret. exists (c :: cases). split; [done|]. split; [simpl; lia|by constructor].
Qed.

Lemma case_replays c n : case_good c ->
  replay_diff rs store (mkCase (pinned_request c.1) (pinned_decision c.2) n) = Some EmptyString.
Proof using.
  intros [_ (rec & Ef & Ee)]. unfold replay_diff. cbn [gc_request gc_expected].
  change (rq_imsi (pinned_request c.1)) with (rq_imsi c.1). rewrite Ef. cbn [mbind option_bind].
  destruct (evaluate_pinned _ _ _ _ _ Ee) as (d' & -> & Hd). cbn [mbind option_bind]. f_equal.
  apply diff_decisions_empty. rewrite Hd. done.
Qed.
End Replay.

(** ** The programs *)

Lemma tool_compile_cases w path : doc_ok (tw_lines w) (tw_text w path) ->
  exists o, tool_compile w path = Some o /\ forall rs, o = Some rs -> compiled_ok rs.
Proof.
  intros Hd. unfold tool_compile.
  destruct (from_file_cases (tw_lines w) (tw_now w) (tw_text w path) path 1 ltac:(by split) Hd)
    as (r & -> & [[Er _]|(rs & Er & Ee & Hok & _)]); cbn [mbind option_bind]; eexists; (split; [reflexivity|]); rewrite Er.
  - by destruct (compile_ok r).
  - intros rs'. destruct (compile_ok r); [by intros [= <-]|done].
Qed.

Section Programs.
Context {S : Type} `{RngOk S}.
Variable seeded : Z -> S.
Variable w : ToolWorld.
Hypothesis Hfiles : files_small (tw_lines w).

(** The corpus generator on inputs that compile and load: what the corpus reads back as. *)
Lemma golden_main_writes o rs lines path : tool_compile w (go_rules_path o) = Some (Some rs) -> compiled_ok rs ->
  tw_lines w (go_subs_path o) = Some lines ->
  exists status corpus store, gen_golden_main seeded w o = Some (status, corpus) /\ (status = 0 \/ status = 1) /\
    (forall imsi, Store.find store imsi = Some (foldl (row_map (rs_plan_names rs)) ∅ (data_lines lines) !! imsi)) /\
    (status = 0 <-> List.filter (row_bad (rs_plan_names rs)) (data_lines lines) = [] /\ data_lines lines <> [] /\
       tw_writable w (go_out_path o) = true) /\
    (status = 0 -> 0 < go_count o -> exists cases, load_golden path (Some corpus) = mkGolden cases EmptyString /\
       length cases = Z.to_nat (go_count o) /\ Forall (fun c => replay_diff rs store c = Some EmptyString) cases).
Proof using All.
  intros Ec Hok El. unfold gen_golden_main. rewrite Ec. cbn [mbind option_bind].
  destruct (new_store_rep (Z.shiftl 1 16) default_load_factor) as (s0 & -> & R0); [by vm_compute| |].
  { exists (2 ^ 52), (-53). split; [apply dval_refl|lia]. }
  cbn [mbind option_bind]. rewrite El. unfold load_csv.
  destruct (load_lines_spec (go_subs_path o) (rs_plan_names rs) lines 0 s0 ∅ (mkLoad 0 0 []) R0) as (st & r & -> & P);
    [rewrite map_size_empty; specialize (Hfiles _ _ El); lia|done|].
  destruct P as (R & Sk & T & _ & OK). simpl in Sk, T. cbn [mbind option_bind].
  assert (forall imsi, Store.find st imsi = Some (foldl (row_map (rs_plan_names rs)) ∅ (data_lines lines) !! imsi)) as Hfind
    by (intros imsi; by apply find_lookup).
  assert (load_ok r = true <-> List.filter (row_bad (rs_plan_names rs)) (data_lines lines) = []) as Hlk.
  { rewrite <- length_zero_iff_nil. unfold load_ok. specialize (OK ltac:(done) ltac:(done)).
    destruct (ld_errors r); [split; [|done]; intros _; enough (ld_skipped r = 0) by lia; by apply OK|].
    split; [done|]. intros Hz. rewrite Hz in Sk. by apply OK in Sk. }
  destruct (load_ok r); cbn [negb].
  2: { exists 1, [], st. split; [done|]. split; [by right|]. split; [done|]. split; [|done]. split; [done|].
       intros [Hb _]. by apply Hlk in Hb. }
  pose proof (proj1 Hlk eq_refl) as Hb. rewrite Hb in Sk. simpl in Sk.
  destruct (Z.eqb_spec (ld_loaded r) 0) as [Hz|Hz].
  { exists 1, [], st. split; [done|]. split; [by right|]. split; [done|]. split; [|done]. split; [done|].
    intros (_ & Hne & _). destruct (data_lines lines); [done|]. simpl in T. lia. }
  assert (data_lines lines <> []) as Hne by (intros E; rewrite E in T; simpl in T; lia).
  destruct (tw_writable w (go_out_path o)); cbn [negb].
  2: { exists 1, [], st. split; [done|]. split; [by right|]. split; [done|]. split; [|done]. split; [done|by intros (_ & _ & ?)]. }
  assert (forall k rec, foldl (row_map (rs_plan_names rs)) ∅ (data_lines lines) !! k = Some rec ->
    record_ok rec /\ 0 < s_imsi rec < 2 ^ 64 /\ fits 32 (s_home_plmn rec)) as Hrecs.
  { intros k rec Hk. destruct (rows_records _ _ _ _ (compiled_plan_names _ Hok) Hk) as [Hr (row & _ & [[Hp Hf] _ _ _ _ _ Hh])].
    split; [done|]. split; [split; [done|apply Hf]|done]. }
  destruct (golden_cases_ok rs st _ Hok R Hrecs (Z.to_nat (go_count o)) (seeded (go_seed o))) as (cases & -> & Hlen & F).
  cbn [mbind option_bind]. eexists 0, _, st. split; [reflexivity|]. split; [by left|]. split; [done|]. split; [done|].
  intros _ Hcount. eexists. split; [|split].
  - unfold load_golden. cbn [load_golden_lines]. change (drop_while_end is_cr_blank golden_header) with kHeader.
    change (is_comment kHeader) with false. cbn [negb]. rewrite String.eqb_refl. apply load_rows.
    + eapply list.Forall_impl; [exact F|]. by intros c [? _].
    + right. destruct cases; [simpl in Hlen; lia|done].
  - simpl. by rewrite length_imap.
  - simpl. apply Forall_lookup_2. intros i c Hc. rewrite list_lookup_imap in Hc.
    destruct (cases !! i) as [rd|] eqn:Ei; [|done]. simpl in Hc. injection Hc as <-. rewrite Forall_lookup in F.
    apply (case_replays rs st), (F _ _ Ei).
Qed.

(** The corpus generator.  Whatever its input files hold it ends with status 0 or 1;
    when it ends with 0 the corpus it wrote loads, has the number of cases asked for, and
    every one of them replays: under the same rules, the same subscribers and the pinned
    clock the engine takes the pinned decision again, field by field. *)
Theorem corpus_replays o path : doc_ok (tw_lines w) (tw_text w (go_rules_path o)) ->
  exists status corpus, gen_golden_main seeded w o = Some (status, corpus) /\ (status = 0 \/ status = 1) /\
    (status = 0 -> 0 < go_count o -> exists rs lines store cases,
       tool_compile w (go_rules_path o) = Some (Some rs) /\ tw_lines w (go_subs_path o) = Some lines /\
       (forall imsi, Store.find store imsi = Some (foldl (row_map (rs_plan_names rs)) ∅ (data_lines lines) !! imsi)) /\
       load_golden path (Some corpus) = mkGolden cases EmptyString /\ length cases = Z.to_nat (go_count o) /\
       Forall (fun c => replay_diff rs store c = Some EmptyString) cases).
Proof using All.
  intros Hd. destruct (tool_compile_cases w _ Hd) as ([rs|] & Ec & Hok).
  2: { exists 1, []. unfold gen_golden_main. rewrite Ec. split; [done|]. split; [by right|done]. }
  destruct (tw_lines w (go_subs_path o)) as [lines|] eqn:El.
  - destruct (golden_main_writes o rs lines path Ec (Hok _ eq_refl) El) as (status & corpus & store & E & Hs & Hf & _ & Hr).
    exists status, corpus. split; [done|]. split; [done|]. intros Hz Hc. destruct (Hr Hz Hc) as (cases & E1 & E2 & E3).
    by exists rs, lines, store, cases.
  - exists 1, []. split; [|split; [by right|done]]. unfold gen_golden_main. rewrite Ec. cbn [mbind option_bind].
    destruct (new_store_rep (Z.shiftl 1 16) default_load_factor) as (s0 & -> & _); [by vm_compute| |].
    { exists (2 ^ 52), (-53). split; [apply dval_refl|lia]. }
    cbn [mbind option_bind]. by rewrite El.
Qed.

(** The fixtures fit together.  A roster written by the roster generator for a rules
    file, whatever it drew, is accepted by the corpus generator under the same rules: it
    ends with status 0 and writes a corpus that loads and replays without a difference. *)
Theorem fixtures_agree so o rs roster path : doc_ok (tw_lines w) (tw_text w (go_rules_path o)) ->
  so_rules_path so = go_rules_path o -> tool_compile w (go_rules_path o) = Some (Some rs) ->
  Forall clean_plan (rs_plan_names rs) -> Forall (fun q => 0 <= q <= 2 ^ 62) (plan_quotas rs) ->
  0 < so_count so <= 9 * 10 ^ 8 -> 0 < go_count o -> gen_subscribers_main seeded w so = Some (0, roster) ->
  tw_lines w (go_subs_path o) = Some roster -> tw_writable w (go_out_path o) = true ->
  exists corpus store cases, gen_golden_main seeded w o = Some (0, corpus) /\
    load_golden path (Some corpus) = mkGolden cases EmptyString /\ length cases = Z.to_nat (go_count o) /\
    Forall (fun c => replay_diff rs store c = Some EmptyString) cases.
Proof using All.
  intros Hd Erp Ec Hcl Hq Hsc Hgc Er El Hw. destruct (tool_compile_cases w _ Hd) as (x & Ec' & Hok).
  rewrite Ec in Ec'. injection Ec' as <-. specialize (Hok _ eq_refl).
  unfold gen_subscribers_main in Er. rewrite Erp, Ec in Er. cbn [mbind option_bind] in Er.
  destruct (rs_plan_names rs) as [|plan plans] eqn:Ep; [done|]. destruct (_ && _); [done|]. injection Er as Er.
  pose proof (compiled_plan_names _ Hok) as Hlen. rewrite Ep in Hlen.
  destruct (roster_lines (S := S) (plan :: plans) (plan_quotas rs) ltac:(done) Hq (Z.to_nat (so_count so)) (seeded (so_seed so)))
    as (rows & recs & E & Ed & Hl & _ & _ & Hbad); [lia|]. subst roster.
  destruct (golden_main_writes o rs _ path Ec Hok El) as (status & corpus & store & Eg & _ & _ & [_ Hs] & Hr).
  rewrite Ep, E, Ed in Hs. assert (status = 0) as -> by (apply Hs; split; [done|]; split; [destruct rows; [simpl in Hl; lia|done]|done]).
  destruct (Hr eq_refl Hgc) as (cases & E1 & E2 & E3). by exists corpus, store, cases.
Qed.
End Programs.

(** ** Samples *)

Definition sub_opts : SubscriberOptions := mkSubOpts 4 7 "rules.yaml" "".
Definition golden_opts : GoldenOptions := mkGoldenOpts 3 11 "rules.yaml" "roster.csv" "corpus.csv".
Definition tool_world (roster : list string) : ToolWorld :=
  mkToolWorld (fun path => if String.eqb path "roster.csv" then Some roster else None)
    (fun path => if String.eqb path "rules.yaml" then Some sample_doc else None) 0 (fun _ => true).
Definition tool_roster : list string :=
  Eval vm_compute in match gen_subscribers_main (S := Z) (fun s => s) (tool_world []) sub_opts with Some (_, l) => l | None => [] end.

Example tool_roster_head : nth 0 tool_roster EmptyString = roster_header /\ length tool_roster = 5%nat.
Proof. by vm_compute. Qed.

Definition tool_rules : RuleSet :=
  Eval vm_compute in match tool_compile (tool_world tool_roster) "rules.yaml" with Some (Some rs) => rs | _ => empty_rule_set 0 end.

Lemma tool_world_small : files_small (tw_lines (tool_world tool_roster)).
Proof. intros path lines. simpl. case_match; [|done]. intros [= <-]. by vm_compute. Qed.

Lemma tool_world_doc : doc_ok (tw_lines (tool_world tool_roster)) (tw_text (tool_world tool_roster) "rules.yaml").
Proof. apply no_lists_doc; [exact tool_world_small|by vm_compute]. Qed.

Lemma tool_world_compiles : tool_compile (tool_world tool_roster) "rules.yaml" = Some (Some tool_rules).
Proof. by vm_compute. Qed.

Lemma corpus_replays_witness : exists status corpus,
  gen_golden_main (S := Z) (fun s => s) (tool_world tool_roster) golden_opts = Some (status, corpus) /\ (status = 0 \/ status = 1).
Proof.
  destruct (corpus_replays (S := Z) (fun s => s) (tool_world tool_roster) tool_world_small golden_opts "c.csv" tool_world_doc)
    as (status & corpus & E & Hs & _). exists status, corpus. exact (conj E Hs).
Defined.

Lemma fixtures_agree_witness : exists corpus store cases,
  gen_golden_main (S := Z) (fun s => s) (tool_world tool_roster) golden_opts = Some (0, corpus) /\
  load_golden "c.csv" (Some corpus) = mkGolden cases EmptyString /\ length cases = 3%nat /\
  Forall (fun c => replay_diff tool_rules store c = Some EmptyString) cases.
Proof.
  apply (fixtures_agree (S := Z) (fun s => s) (tool_world tool_roster) tool_world_small sub_opts golden_opts tool_rules tool_roster "c.csv").
  - exact tool_world_doc.
  - reflexivity.
  - exact tool_world_compiles.
  - by repeat constructor.
  - repeat constructor; vm_compute; intros [=].
  - simpl; lia.
  - reflexivity.
  - vm_compute. reflexivity.
  - reflexivity.
  - reflexivity.
Defined.
