(* ===== verification/LoadGen.v ===== *)
(** * LoadGen: the open-loop load generator over UDP

    [Sender] of bench/loadgen.cpp with the binary protocol: the schedule of the open
    loop, the table of requests in flight, the timeout sweep, the drain at the end and
    the closed loop.  The environment of a turn is what the
    clock, the sockets and the traffic generator give. *)

From S2P Require Import Prelude Text Wire Double Probe Store Rules Engine Hdr Metrics Server RequestGen Random.
From Stdlib Require Import ZArith Lia Bool.
From stdpp Require Import base list numbers gmap.
Local Open Scope Z_scope.

(** [static_cast<std::int64_t>] of a 64-bit value. *)
Definition i64 (z : Z) : Z := let u := u64 z in if u <? 2 ^ 63 then u else u - 2 ^ 64.

(** ** Results *)

(** The counters of [ThreadResult]; two results are merged field by field. *)
Record Tally := mkTally {
  sent : Z; received : Z; measured_received : Z; lost : Z; send_errors : Z; bad_replies : Z; stale_replies : Z;
  denied : Z; allowed : Z; redirected : Z; schedule_slips : Z; max_slip_ns : Z; connection_starved : Z; reconnects : Z }.

Definition zero_tally : Tally := mkTally 0 0 0 0 0 0 0 0 0 0 0 0 0 0.
Definition add_tally (a b : Tally) : Tally :=
  mkTally (sent a + sent b) (received a + received b) (measured_received a + measured_received b) (lost a + lost b)
    (send_errors a + send_errors b) (bad_replies a + bad_replies b) (stale_replies a + stale_replies b)
    (denied a + denied b) (allowed a + allowed b) (redirected a + redirected b)
    (schedule_slips a + schedule_slips b) (Z.max (max_slip_ns a) (max_slip_ns b))
    (connection_starved a + connection_starved b) (reconnects a + reconnects b).

Definition one_sent : Tally := mkTally 1 0 0 0 0 0 0 0 0 0 0 0 0 0.
Definition one_received (measured : bool) : Tally := mkTally 0 1 (if measured then 1 else 0) 0 0 0 0 0 0 0 0 0 0 0.
Definition some_lost (n : Z) : Tally := mkTally 0 0 0 n 0 0 0 0 0 0 0 0 0 0.
Definition one_send_error : Tally := mkTally 0 0 0 0 1 0 0 0 0 0 0 0 0 0.
Definition one_bad : Tally := mkTally 0 0 0 0 0 1 0 0 0 0 0 0 0 0.
Definition one_stale : Tally := mkTally 0 0 0 0 0 0 1 0 0 0 0 0 0 0.
Definition one_slip (slip : Z) : Tally := mkTally 0 0 0 0 0 0 0 0 0 0 1 slip 0 0.
(** [note_verdict]: a verdict outside the enumeration is not counted. *)
Definition note_verdict (d : PolicyDecision) : Tally :=
  if d_verdict d =? verdict_code kAllow then mkTally 0 0 0 0 0 0 0 0 1 0 0 0 0 0
  else if d_verdict d =? verdict_code kDeny then mkTally 0 0 0 0 0 0 0 1 0 0 0 0 0 0
  else if d_verdict d =? verdict_code kRedirect then mkTally 0 0 0 0 0 0 0 0 0 1 0 0 0 0
  else zero_tally.

(** [latency{1, 60'000'000'000, 3}], and the other histograms. *)
Definition latency_histogram : option HdrHistogram := new_histogram 1 60000000000 3.

(** ** The sender *)

Record InFlight := mkInFlight { if_scheduled_ns : Z; if_sent_ns : Z; if_live : bool }.

Record SenderOptions := mkSenderOptions {
  qps : Z; duration_s : Z; warmup_s : Z; threads : Z; timeout_ms : Z; max_inflight : Z; timeline : bool;
  batch_recv : nat; host_little_endian : bool }.

Record Sender := mkSender {
  inflight_ : list InFlight; tally_ : Tally; latency_ : HdrHistogram; send_lateness_ : HdrHistogram;
  per_second_ : list HdrHistogram; per_second_count_ : list Z; seq_ : Z; next_send_ns_ : double; sweep_at_ns_ : Z }.

Definition bump_tally (t : Tally) (s : Sender) : Sender :=
  mkSender (inflight_ s) (add_tally (tally_ s) t) (latency_ s) (send_lateness_ s) (per_second_ s) (per_second_count_ s)
    (seq_ s) (next_send_ns_ s) (sweep_at_ns_ s).
Definition with_inflight (l : list InFlight) (s : Sender) : Sender :=
  mkSender l (tally_ s) (latency_ s) (send_lateness_ s) (per_second_ s) (per_second_count_ s) (seq_ s) (next_send_ns_ s)
    (sweep_at_ns_ s).

Definition slot_index (opt : SenderOptions) (seq : Z) : nat := Z.to_nat (Z.land seq (max_inflight opt - 1)).

Definition interval_ns (opt : SenderOptions) : double :=
  ddiv (dlit 1 9) (ddiv (double_of_Z (qps opt)) (double_of_Z (threads opt))).

Definition warmup_end_ns (opt : SenderOptions) (start : Z) : Z := u64 (start + u64 (warmup_s opt * 1000000000)).
Definition end_ns (opt : SenderOptions) (start : Z) : Z := u64 (warmup_end_ns opt start + u64 (duration_s opt * 1000000000)).
Definition timeout_ns (opt : SenderOptions) : Z := u64 (timeout_ms opt * 1000000).

(** The state when the loop starts. *)
Definition new_sender (opt : SenderOptions) (start : Z) : option Sender :=
  h ← latency_histogram;
  Some (mkSender (replicate (Z.to_nat (max_inflight opt)) (mkInFlight 0 0 false)) zero_tally h h
    (if timeline opt then replicate (Z.to_nat (duration_s opt + 1)) h else [])
    (replicate (Z.to_nat (u32 (duration_s opt + 1))) 0) 0 (double_of_Z start) (u64 (start + timeout_ns opt))).

(** ** Sending what is due *)

(** One attempt to send: the request the traffic generator drew, the clock and whether
    [send] took the whole message. *)
Record Attempt := mkAttempt { at_request : PolicyRequest; at_issue_ns : Z; at_sent : bool }.

Definition stamp (req : PolicyRequest) (seq scheduled : Z) : PolicyRequest :=
  mkRequest (rq_magic_version req) seq (rq_imsi req) (rq_imei req) scheduled (rq_bytes_used_period req)
    (if rq_plmn req =? 0 then 310260 else rq_plmn req) (rq_tac req) (rq_rat_type req) (rq_dnn_id req)
    (rq_requested_5qi req) (rq_flags req) (rq_local_minute req) (rq_req_ambr_ul_kbps req) (rq_req_ambr_dl_kbps req)
    (rq_reserved req).

(** The schedule fell more than one interval behind. *)
Definition note_slip (opt : SenderOptions) (now scheduled : Z) (s : Sender) : Sender :=
  let slip := u64 (now - scheduled) in
  if u64 (dtrunc (interval_ns opt)) <? slip then bump_tally (one_slip slip) s else s.

(** The slot of the request, its counters and the step of the schedule. *)
Definition sent_one (opt : SenderOptions) (measuring : bool) (scheduled issue_at : Z) (s : Sender) : option Sender :=
  let i := slot_index opt (seq_ s) in
  slot ← inflight_ s !! i;
  lateness ← (if measuring then record (i64 (issue_at - scheduled)) (send_lateness_ s) else Some (send_lateness_ s));
  Some (mkSender (<[i := mkInFlight scheduled issue_at true]> (inflight_ s))
    (add_tally (add_tally (tally_ s) (if if_live slot then some_lost 1 else zero_tally)) one_sent) (latency_ s) lateness
    (per_second_ s) (per_second_count_ s) (u32 (seq_ s + 1)) (dadd (next_send_ns_ s) (interval_ns opt)) (sweep_at_ns_ s)).

(** The loop of step 1, at most [room] sends; the datagrams handed to the kernel. *)
Fixpoint send_due (opt : SenderOptions) (now : Z) (measuring : bool) (attempts : nat -> Attempt) (room burst : nat)
    (s : Sender) : option (Sender * list (list Z)) :=
  match room with
  | O => Some (s, [])
  | S room =>
      if dleb (next_send_ns_ s) (double_of_Z now) then
        let scheduled := u64 (dtrunc (next_send_ns_ s)) in
        let s := note_slip opt now scheduled s in
        let a := attempts burst in
        let msg := Wire.encode (host_little_endian opt) (stamp (at_request a) (seq_ s) scheduled) in
        if at_sent a then
          s ← sent_one opt measuring scheduled (at_issue_ns a) s;
          '(s, out) ← send_due opt now measuring attempts room (S burst) s;
          Some (s, msg :: out)
        else Some (bump_tally one_send_error s, [])
      else Some (s, [])
  end.

(** ** Replies *)

(** The histogram and the count of the second the reply came in. *)
Definition note_second (opt : SenderOptions) (warmup_end recv_ns latency : Z) (s : Sender) : option Sender :=
  if timeline opt then
    let sec := Z.to_nat (u64 (recv_ns - warmup_end) / 1000000000) in
    match per_second_ s !! sec with
    | None => Some s
    | Some h =>
        h ← record latency h;
        c ← per_second_count_ s !! sec;
        Some (mkSender (inflight_ s) (tally_ s) (latency_ s) (send_lateness_ s) (<[sec := h]> (per_second_ s))
          (<[sec := c + 1]> (per_second_count_ s)) (seq_ s) (next_send_ns_ s) (sweep_at_ns_ s))
    end
  else Some s.

Definition complete (opt : SenderOptions) (warmup_end scheduled recv_ns : Z) (measured : bool) (s : Sender) : option Sender :=
  let s := bump_tally (one_received measured) s in
  if negb measured then Some s
  else
    let latency := i64 (recv_ns - scheduled) in
    h ← record latency (latency_ s);
    note_second opt warmup_end recv_ns latency
      (mkSender (inflight_ s) (tally_ s) h (send_lateness_ s) (per_second_ s) (per_second_count_ s) (seq_ s)
        (next_send_ns_ s) (sweep_at_ns_ s)).

(** A datagram as [recv] gives it into a buffer of one message, and the clock then. *)
Record Reply := mkReply { rp_bytes : list Z; rp_recv_ns : Z }.

Definition no_decision : PolicyDecision := decision_of_fields [].

(** [None]: the datagram is not a decision. *)
Definition decode_reply (opt : SenderOptions) (bytes : list Z) : option PolicyDecision :=
  let rx := take kWireMsgSize bytes in
  if negb (length rx =? kWireMsgSize)%nat then None
  else match Wire.decode (host_little_endian opt) rx no_decision with (true, d) => Some d | (false, _) => None end.

Definition settle (i : nat) (s : Sender) : Sender :=
  with_inflight (alter (fun f => mkInFlight (if_scheduled_ns f) (if_sent_ns f) false) i (inflight_ s)) s.

Definition receive_reply (opt : SenderOptions) (warmup_end : Z) (measuring : bool) (r : Reply) (s : Sender) : option Sender :=
  match decode_reply opt (rp_bytes r) with
  | None => Some (bump_tally one_bad s)
  | Some dec =>
      let i := slot_index opt (d_seq dec) in
      slot ← inflight_ s !! i;
      if negb (if_live slot) || negb (if_scheduled_ns slot =? d_client_ts_ns dec) then Some (bump_tally one_stale s)
      else complete opt warmup_end (if_scheduled_ns slot) (rp_recv_ns r) measuring (bump_tally (note_verdict dec) (settle i s))
  end.

Fixpoint receive_all (opt : SenderOptions) (warmup_end : Z) (measuring : bool) (rs : list Reply) (s : Sender) : option Sender :=
  match rs with
  | [] => Some s
  | r :: rs => s ← receive_reply opt warmup_end measuring r s; receive_all opt warmup_end measuring rs s
  end.

(** ** The timeout sweep *)

Definition expired (timeout sweep_now : Z) (f : InFlight) : bool :=
  if_live f && (if_sent_ns f <? sweep_now) && (timeout <? sweep_now - if_sent_ns f).

Definition sweep (opt : SenderOptions) (sweep_now : Z) (s : Sender) : Sender :=
  let dead := expired (timeout_ns opt) sweep_now in
  mkSender (map (fun f => if dead f then mkInFlight (if_scheduled_ns f) (if_sent_ns f) false else f) (inflight_ s))
    (add_tally (tally_ s) (some_lost (Z.of_nat (length (List.filter dead (inflight_ s)))))) (latency_ s) (send_lateness_ s)
    (per_second_ s) (per_second_count_ s) (seq_ s) (next_send_ns_ s) (u64 (sweep_now + timeout_ns opt)).

(** ** The open loop *)

(** What one turn of the loop sees. *)
Record Turn := mkTurn { tn_now : Z; tn_attempts : nat -> Attempt; tn_replies : list Reply; tn_sweep_now : Z }.

Definition open_turn (opt : SenderOptions) (start : Z) (t : Turn) (s : Sender) : option (Sender * list (list Z)) :=
  let warmup_end := warmup_end_ns opt start in
  let measuring := warmup_end <=? tn_now t in
  '(s, out) ← send_due opt (tn_now t) measuring (tn_attempts t) 256 0 s;
  s ← receive_all opt warmup_end measuring (take (batch_recv opt) (tn_replies t)) s;
  Some (if sweep_at_ns_ s <=? tn_now t then sweep opt (tn_sweep_now t) s else s, out).

(** The loop ends at the end of the window or when the program is stopped. *)
Fixpoint open_turns (opt : SenderOptions) (start : Z) (ts : list Turn) (s : Sender) : option (Sender * list (list Z)) :=
  match ts with
  | [] => Some (s, [])
  | t :: ts =>
      if end_ns opt start <=? tn_now t then Some (s, [])
      else
        '(s, out) ← open_turn opt start t s;
        '(s, outs) ← open_turns opt start ts s;
        Some (s, out ++ outs)
  end.

Definition outstanding (s : Sender) : nat := length (List.filter if_live (inflight_ s)).

(** The final drain: what [recv] gives until the deadline, [None] when nothing is there. *)
Fixpoint drain_tail (opt : SenderOptions) (rs : list (option (list Z))) (s : Sender) : option Sender :=
  match rs with
  | [] => Some s
  | r :: rs =>
      if (outstanding s =? 0)%nat then Some s
      else
        match r ≫= decode_reply opt with
        | None => drain_tail opt rs s
        | Some dec =>
            let i := slot_index opt (d_seq dec) in
            slot ← inflight_ s !! i;
            drain_tail opt rs (if if_live slot
              then bump_tally (note_verdict dec) (bump_tally (one_received false) (settle i s)) else s)
        end
  end.

Definition run_open_loop (opt : SenderOptions) (start : Z) (ts : list Turn) (tail : list (option (list Z)))
    : option (Sender * list (list Z)) :=
  s ← new_sender opt start;
  '(s, out) ← open_turns opt start ts s;
  s ← drain_tail opt tail s;
  Some (bump_tally (some_lost (Z.of_nat (outstanding s))) s, out).

(** ** The closed loop *)

(** What one request of the closed loop meets: the clock at the top and at the send, the
    outcome of [send], and the reply: [None] when [poll] timed out, no bytes when [recv]
    failed after it. *)
Record Exchange := mkExchange {
  ex_now : Z; ex_request : PolicyRequest; ex_send_ns : Z; ex_sent : bool; ex_reply : option Reply }.

Definition closed_exchange (opt : SenderOptions) (start : Z) (e : Exchange) (s : Sender) : option (Sender * list (list Z)) :=
  let measuring := warmup_end_ns opt start <=? ex_now e in
  let msg := Wire.encode (host_little_endian opt) (stamp (ex_request e) (seq_ s) (ex_now e)) in
  let s := mkSender (inflight_ s) (tally_ s) (latency_ s) (send_lateness_ s) (per_second_ s) (per_second_count_ s)
    (u32 (seq_ s + 1)) (next_send_ns_ s) (sweep_at_ns_ s) in
  if negb (ex_sent e) then Some (bump_tally one_send_error s, [])
  else
    let s := bump_tally one_sent s in
    match ex_reply e with
    | None => Some (bump_tally (some_lost 1) s, [msg])
    | Some r =>
        match decode_reply opt (rp_bytes r) with
        | None => Some (bump_tally one_bad s, [msg])
        | Some dec =>
            let s := bump_tally (note_verdict dec) (bump_tally (one_received measuring) s) in
            h ← (if measuring then record (i64 (rp_recv_ns r - ex_send_ns e)) (latency_ s) else Some (latency_ s));
            Some (mkSender (inflight_ s) (tally_ s) h (send_lateness_ s) (per_second_ s) (per_second_count_ s) (seq_ s)
              (next_send_ns_ s) (sweep_at_ns_ s), [msg])
        end
    end.

Fixpoint closed_exchanges (opt : SenderOptions) (start : Z) (es : list Exchange) (s : Sender) : option (Sender * list (list Z)) :=
  match es with
  | [] => Some (s, [])
  | e :: es =>
      if end_ns opt start <=? ex_now e then Some (s, [])
      else
        '(s, out) ← closed_exchange opt start e s;
        '(s, outs) ← closed_exchanges opt start es s;
        Some (s, out ++ outs)
  end.

Definition run_closed_loop (opt : SenderOptions) (start : Z) (es : list Exchange) : option (Sender * list (list Z)) :=
  s ← new_sender opt start; closed_exchanges opt start es s.

Definition p99_per_second (opt : SenderOptions) (s : Sender) : list Z :=
  if timeline opt then map (fun h => value_at_percentile (dlit 99 0) h) (per_second_ s)
  else replicate (Z.to_nat (u32 (duration_s opt + 1))) 0.

(** ** The schedule *)

(** The instant of the [n]-th request: a function of the start and the rate alone. *)
Fixpoint tick (opt : SenderOptions) (start : Z) (n : nat) : double :=
  match n with O => double_of_Z start | S n => dadd (tick opt start n) (interval_ns opt) end.
Definition sched (opt : SenderOptions) (start : Z) (n : nat) : Z := u64 (dtrunc (tick opt start n)).

(** ** Every request is answered once, lost or in flight *)

(** The requests in flight, by slot of the table. *)
Definition live_ids (ids : list (option nat)) : list nat := omap id ids.

Definition olist (o : option nat) : list nat := match o with Some i => [i] | None => [] end.

Lemma live_ids_app a b : live_ids (a ++ b) = live_ids a ++ live_ids b.
Proof. apply omap_app. Qed.

Lemma live_ids_cons o l : live_ids (o :: l) = olist o ++ live_ids l.
Proof. by destruct o. Qed.

Lemma live_ids_insert ids k o o' : ids !! k = Some o ->
  olist o ++ live_ids (<[k := o']> ids) ≡ₚ olist o' ++ live_ids ids.
Proof.
  intros Hk. rewrite <- (take_drop_middle ids k o Hk) at 2. pose proof (lookup_lt_Some _ _ _ Hk).
  rewrite insert_take_drop by done. rewrite !live_ids_app.
  rewrite !live_ids_cons.
  rewrite !(Permutation_app_comm (live_ids (take k ids))), <- !(assoc_L (++)), !(assoc_L (++)).
  do 2 apply Permutation_app_tail. apply Permutation_app_comm.
Qed.

(** A slot and the request in it. *)
Definition slot_rel (opt : SenderOptions) (start : Z) (f : InFlight) (o : option nat) : Prop :=
  match o with Some i => if_live f = true /\ if_scheduled_ns f = sched opt start i | None => if_live f = false end.

(** An answer: the request, the clock when it came and whether it is a sample. *)
Definition Answer : Type := nat * Z * bool.
Definition sample (opt : SenderOptions) (start : Z) (a : Answer) : Z := i64 (a.1.2 - sched opt start a.1.1).
Fixpoint in_window (done : list Answer) : list Answer :=
  match done with [] => [] | a :: done => if a.2 then a :: in_window done else in_window done end.
Definition samples (opt : SenderOptions) (start : Z) (done : list Answer) : list Z := map (sample opt start) (in_window done).

Lemma in_window_app a b : in_window (a ++ b) = in_window a ++ in_window b.
Proof. induction a as [|[? []] a IH]; simpl; by rewrite ?IH. Qed.

Definition recorded (h0 h : HdrHistogram) : Prop := exists vs, record_all vs h0 = Some h.

(** After [n] requests: [ids] are in flight, [done] answered and [gone] written off. *)
Record flight (opt : SenderOptions) (start : Z) (h0 : HdrHistogram) (n : nat) (ids : list (option nat))
    (done : list Answer) (gone : list nat) (s : Sender) : Prop := {
  fl_seq : seq_ s = u32 (Z.of_nat n);
  fl_next : next_send_ns_ s = tick opt start n;
  fl_table : Forall2 (slot_rel opt start) (inflight_ s) ids;
  fl_length : Z.of_nat (length (inflight_ s)) = max_inflight opt;
  fl_index : forall k i, ids !! k = Some (Some i) -> Z.of_nat i mod max_inflight opt = Z.of_nat k;
  fl_once : live_ids ids ++ map (fun a : Answer => a.1.1) done ++ gone ≡ₚ seq 0 n;
  fl_sent : sent (tally_ s) = Z.of_nat n;
  fl_received : received (tally_ s) = Z.of_nat (length done);
  fl_lost : lost (tally_ s) = Z.of_nat (length gone);
  fl_measured : measured_received (tally_ s) = Z.of_nat (length (in_window done));
  fl_latency : record_all (samples opt start done) h0 = Some (latency_ s);
  fl_lateness : recorded h0 (send_lateness_ s);
  fl_seconds : Forall (recorded h0) (per_second_ s) /\ (length (per_second_ s) <= length (per_second_count_ s))%nat }.

Lemma latency_histogram_ok : exists h0 u m, latency_histogram = Some h0 /\ hdr_ok h0 u m /\ holds h0 [].
Proof.
  destruct (new_histogram_holds 1 60000000000 3) as (h0 & u & m & E & OK & H0 & _); [lia..|]. exists h0, u, m. split_and!; assumption.
Qed.

#[local] Opaque latency_histogram.

Lemma record_more h0 h vs v : latency_histogram = Some h0 -> record_all vs h0 = Some h ->
  exists h', record v h = Some h' /\ record_all (vs ++ [v]) h0 = Some h'.
Proof.
  intros E Hh. destruct latency_histogram_ok as (h0' & u & k & E' & OK & H0). rewrite E in E'. injection E' as <-.
  destruct (record_all_holds h0 u k [] (vs ++ [v]) OK H0) as (h' & Er & _). exists h'. split; [|done].
  by rewrite record_all_app, Hh in Er.
Qed.

Lemma recorded_more h0 h v : latency_histogram = Some h0 -> recorded h0 h -> exists h', record v h = Some h' /\ recorded h0 h'.
Proof. intros E [vs Hh]. destruct (record_more h0 h vs v E Hh) as (h' & Er & Ea). exists h'. split; [done|]. by eexists. Qed.

(** A request that leaves the table joins the answered or the written off. *)
Lemma account_move {A} (O A' N L B G : list A) : O ++ A' ≡ₚ N ++ L -> A' ++ B ++ O ++ G ≡ₚ (L ++ B ++ G) ++ N.
Proof.
  intros Hp. rewrite (assoc_L (++) A'), (Permutation_app_swap_app (A' ++ B) O G), <- (assoc_L (++) A'), (assoc_L (++) O), Hp.
  rewrite <- (assoc_L (++)). apply Permutation_app_comm.
Qed.

Lemma alter_as_insert {A} (g : A -> A) j (l : list A) f : l !! j = Some f -> alter g j l = <[j := g f]> l.
Proof. revert j. induction l as [|a l IH]; intros [|j] E; simplify_eq/=; [done|]. f_equal. by apply IH. Qed.

(** Counters that are not part of the account. *)
Definition aside (t : Tally) : Prop := sent t = 0 /\ received t = 0 /\ measured_received t = 0 /\ lost t = 0.

Lemma note_verdict_aside d : aside (note_verdict d).
Proof. unfold note_verdict. by repeat case_match. Qed.

(** The datagrams of requests [n], [n + 1], ... *)
Definition datagrams (opt : SenderOptions) (start : Z) (n : nat) (reqs : list PolicyRequest) : list (list Z) :=
  zip_with (fun i req => Wire.encode (host_little_endian opt) (stamp req (u32 (Z.of_nat i)) (sched opt start i)))
    (seq n (length reqs)) reqs.

Lemma datagrams_app opt start n a b :
  datagrams opt start n (a ++ b) = datagrams opt start n a ++ datagrams opt start (n + length a) b.
Proof. unfold datagrams. rewrite length_app, seq_app. apply zip_with_app. by rewrite length_seq. Qed.

(** The reply that answers request [a]: it echoes the instant and names the slot. *)
Definition answers (opt : SenderOptions) (start : Z) (rs : list Reply) (a : Answer) : Prop :=
  exists r d, r ∈ rs /\ decode_reply opt (rp_bytes r) = Some d /\ rp_recv_ns r = a.1.2 /\
    d_client_ts_ns d = sched opt start a.1.1 /\ Z.of_nat (slot_index opt (d_seq d)) = Z.of_nat a.1.1 mod max_inflight opt.

Lemma answers_weaken opt start rs rs' a : (forall r, r ∈ rs -> r ∈ rs') -> answers opt start rs a -> answers opt start rs' a.
Proof. intros Hs (r & d & Hr & H). exists r, d. split; [by apply Hs|exact H]. Qed.

(** The sweep frees the slots whose request it counts as lost. *)
Lemma sweep_table opt start dead fs ids : Forall2 (slot_rel opt start) fs ids -> (forall f, dead f = true -> if_live f = true) ->
  exists ids' out, Forall2 (slot_rel opt start) (map (fun f => if dead f then mkInFlight (if_scheduled_ns f) (if_sent_ns f) false else f) fs) ids' /\
    out ++ live_ids ids' ≡ₚ live_ids ids /\ length out = length (List.filter dead fs) /\
    (forall k i, ids' !! k = Some (Some i) -> ids !! k = Some (Some i)).
Proof.
  intros HT Hd. induction HT as [|f o fs ids Hr HT IH]; [by exists [], []|]. destruct IH as (ids' & out & H1 & H2 & H3 & H4).
  simpl. destruct (dead f) eqn:Ed.
  - apply Hd in Ed. destruct o as [i|]; simpl in Hr; [|congruence]. exists (None :: ids'), (i :: out). simpl. split_and!.
    + by constructor.
    + by constructor.
    + by rewrite H3.
    + intros [|k] j Hj; simpl in *; [done|by apply H4].
  - exists (o :: ids'), out. split_and!; [by constructor| |done|intros [|k] j Hj; simpl in *; [done|by apply H4]].
    fold (live_ids ids). change (match o with Some y => y :: live_ids ids | None => live_ids ids end) with (live_ids (o :: ids)).
    rewrite !live_ids_cons.
    rewrite (Permutation_app_swap_app out (olist o)). by apply Permutation_app_head.
Qed.

Lemma live_count opt start fs ids : Forall2 (slot_rel opt start) fs ids -> length (List.filter if_live fs) = length (live_ids ids).
Proof. induction 1 as [|f [i|] fs ids Hr HT IH]; simpl in *; [done|destruct Hr as [-> _]; simpl; by rewrite IH|by rewrite Hr]. Qed.

(** The histograms of a sender whose latency recorded [vs]. *)
Record hists_ok (h0 : HdrHistogram) (vs : list Z) (s : Sender) : Prop := {
  hk_latency : record_all vs h0 = Some (latency_ s);
  hk_lateness : recorded h0 (send_lateness_ s);
  hk_seconds : Forall (recorded h0) (per_second_ s) /\ (length (per_second_ s) <= length (per_second_count_ s))%nat }.

(** What a completed reply does not touch. *)
Definition kept (s s' : Sender) : Prop :=
  inflight_ s' = inflight_ s /\ seq_ s' = seq_ s /\ next_send_ns_ s' = next_send_ns_ s /\ sweep_at_ns_ s' = sweep_at_ns_ s.

Lemma note_second_spec opt h0 vs s warmup_end recv latency : latency_histogram = Some h0 -> hists_ok h0 vs s ->
  exists s', note_second opt warmup_end recv latency s = Some s' /\ tally_ s' = tally_ s /\ kept s s' /\ hists_ok h0 vs s'.
Proof.
  intros E0 Hh. assert (exists s', Some s = Some s' /\ tally_ s' = tally_ s /\ kept s s' /\ hists_ok h0 vs s') as Same
    by (exists s; split; [reflexivity|]; split; [reflexivity|]; split; [by split|exact Hh]).
  unfold note_second. destruct (timeline opt); [|exact Same]. set (sec := Z.to_nat _).
  destruct (per_second_ s !! sec) as [h|] eqn:Eh; [|exact Same].
  destruct Hh as [H1 H2 [Hs Hl]]. pose proof (lookup_lt_Some _ _ _ Eh).
  destruct (recorded_more h0 h latency E0 (Forall_lookup_1 _ _ _ _ Hs Eh)) as (h' & -> & Hh').
  destruct (lookup_lt_is_Some_2 (per_second_count_ s) sec ltac:(lia)) as [c ->]. cbn [mbind option_bind].
  eexists. split; [reflexivity|]. split; [reflexivity|]. split; [by split|]. split; simpl; try assumption.
  split; [by apply Forall_insert|]. by rewrite !length_insert.
Qed.

Lemma complete_spec opt h0 vs warmup_end scheduled recv b s : latency_histogram = Some h0 -> hists_ok h0 vs s ->
  exists s', complete opt warmup_end scheduled recv b s = Some s' /\ tally_ s' = add_tally (tally_ s) (one_received b) /\
    kept s s' /\ hists_ok h0 (vs ++ if b then [i64 (recv - scheduled)] else []) s'.
Proof.
  intros E0 [H1 H2 H3]. unfold complete. destruct b; simpl negb; cbn iota.
  2:{ eexists. split; [reflexivity|]. split; [reflexivity|]. split; [by split|]. rewrite app_nil_r. by split. }
  destruct (record_more h0 _ vs (i64 (recv - scheduled)) E0 H1) as (h & Er & Ea). cbn [latency_ bump_tally]. rewrite Er. cbn [mbind option_bind].
  edestruct (note_second_spec opt h0 (vs ++ [i64 (recv - scheduled)])) as (s' & -> & Et & (K1 & K2 & K3 & K4) & Hh); [exact E0|by split|].
  exists s'. split; [reflexivity|]. split; [exact Et|]. split; [by split|exact Hh].
Qed.

Section Flight.
Variables (opt : SenderOptions) (start : Z) (h0 : HdrHistogram) (k : Z).
Hypothesis Hk : 0 <= k <= 31.
Hypothesis Hmax : max_inflight opt = 2 ^ k.
Hypothesis E0 : latency_histogram = Some h0.

Lemma slot_index_mod q : slot_index opt (u32 q) = Z.to_nat (q mod 2 ^ k).
Proof using Hk Hmax.
  unfold slot_index. rewrite Hmax. replace (2 ^ k - 1) with (Z.ones k) by (rewrite Z.ones_equiv; lia).
  rewrite Z.land_ones by lia. f_equal. unfold wrap. replace 32 with (k + (32 - k)) by lia. rewrite Z.pow_add_r by lia.
  rewrite Z.rem_mul_r by (apply Z.pow_nonzero || apply pow2_pos; lia).
  rewrite (Z.mul_comm (2 ^ k)), Z.mod_add, Z.mod_mod by (apply Z.pow_nonzero; lia). done.
Qed.

Lemma flight_bump n ids done gone s t : aside t -> flight opt start h0 n ids done gone s ->
  flight opt start h0 n ids done gone (bump_tally t s).
Proof using All. intros (H1 & H2 & H3 & H4) []. split; simpl; try assumption; lia. Qed.

Lemma flight_slip n ids done gone now scheduled s : flight opt start h0 n ids done gone s ->
  flight opt start h0 n ids done gone (note_slip opt now scheduled s).
Proof using All. intros F. unfold note_slip. case_match; [|exact F]. apply flight_bump; [repeat split|exact F]. Qed.

Lemma table_bound : 0 < 2 ^ k.
Proof using Hk. apply pow2_pos. lia. Qed.

(** Every slot a sequence number names is in the table. *)
Lemma slot_of n ids done gone s q : flight opt start h0 n ids done gone s ->
  exists f o, inflight_ s !! slot_index opt q = Some f /\ ids !! slot_index opt q = Some o /\ slot_rel opt start f o.
Proof using All.
  intros F. pose proof table_bound as Hp. pose proof (fl_length _ _ _ _ _ _ _ _ F) as Hlen.
  assert (slot_index opt q < length (inflight_ s))%nat as Hi.
  { unfold slot_index. rewrite Hmax in *. replace (2 ^ k - 1) with (Z.ones k) by (rewrite Z.ones_equiv; lia).
    rewrite Z.land_ones by lia. pose proof (Z.mod_pos_bound q (2 ^ k) Hp). lia. }
  destruct (lookup_lt_is_Some_2 _ _ Hi) as [f Ef].
  destruct (Forall2_lookup_l _ _ _ _ _ (fl_table _ _ _ _ _ _ _ _ F) Ef) as (o & Eo & Hr).
  exists f, o. split_and!; assumption.
Qed.

Lemma next_slot n ids done gone s : flight opt start h0 n ids done gone s ->
  Z.of_nat (slot_index opt (seq_ s)) = Z.of_nat n mod max_inflight opt.
Proof using All.
  intros F. pose proof table_bound as Hp. rewrite (fl_seq _ _ _ _ _ _ _ _ F), slot_index_mod, Hmax.
  pose proof (Z.mod_pos_bound (Z.of_nat n) (2 ^ k) Hp). lia.
Qed.

Lemma sent_one_ok n ids done gone s measuring issue_at : flight opt start h0 n ids done gone s ->
  exists s' gone', sent_one opt measuring (sched opt start n) issue_at s = Some s' /\
    flight opt start h0 (S n) (<[slot_index opt (seq_ s) := Some n]> ids) done gone' s'.
Proof using All.
  intros F. destruct (slot_of _ _ _ _ _ (seq_ s) F) as (f & o & Ef & Eo & Hr). pose proof (next_slot _ _ _ _ _ F) as Hi.
  unfold sent_one. rewrite Ef. cbn [mbind option_bind].
  assert (exists h, (if measuring then record (i64 (issue_at - sched opt start n)) (send_lateness_ s) else Some (send_lateness_ s)) = Some h
    /\ recorded h0 h) as (h & -> & Hh).
  { pose proof (fl_lateness _ _ _ _ _ _ _ _ F). destruct measuring; [by apply recorded_more|by eexists]. }
  cbn [mbind option_bind]. set (j := slot_index opt (seq_ s)) in *.
  eexists _, (olist o ++ gone). split; [done|].
  destruct F as [Hseq Hnext HT Hlen Hidx Honce Hsent Hrec Hlost Hmeas Hlat _ Hsec].
  assert (Z.of_nat (length (olist o)) = if if_live f then 1 else 0) as Hol
    by (destruct o; simpl in *; [destruct Hr as [-> _]|rewrite Hr]; done).
  split; simpl; try assumption.
  - rewrite Hseq. unfold wrap. rewrite Nat2Z.inj_succ, Z.add_mod_idemp_l by lia. reflexivity.
  - by rewrite Hnext.
  - by apply Forall2_insert.
  - by rewrite length_insert.
  - intros q i Hq. destruct (decide (q = j)) as [->|Hne].
    + rewrite list_lookup_insert_eq in Hq by (by eapply lookup_lt_Some). injection Hq as <-. lia.
    + rewrite list_lookup_insert_ne in Hq by done. by apply Hidx.
  - change (0%nat :: seq 1 n) with (seq 0 (S n)). rewrite (seq_S n 0), <- Honce. apply account_move. by apply (live_ids_insert ids j o (Some n)).
  - destruct (if_live f); simpl; lia.
  - destruct (if_live f); simpl; lia.
  - rewrite length_app, Nat2Z.inj_add, Hol. destruct (if_live f); simpl; lia.
  - destruct (if_live f); simpl; lia.
Qed.

Lemma send_due_ok room now measuring attempts : forall burst n ids done gone s, flight opt start h0 n ids done gone s ->
  exists s' reqs ids' gone', send_due opt now measuring attempts room burst s = Some (s', datagrams opt start n reqs) /\
    (length reqs <= room)%nat /\ Forall (fun req => exists b, req = at_request (attempts b)) reqs /\
    flight opt start h0 (n + length reqs) ids' done gone' s'.
Proof using All.
  induction room as [|room IH]; intros burst n ids done gone s F.
  { exists s, [], ids, gone. rewrite Nat.add_0_r. by split_and!. }
  cbn [send_due]. destruct (dleb _ _).
  2:{ exists s, [], ids, gone. rewrite Nat.add_0_r. split_and!; [done|simpl; lia|by constructor|exact F]. }
  rewrite (fl_next _ _ _ _ _ _ _ _ F). fold (sched opt start n). pose proof (flight_slip _ _ _ _ now (sched opt start n) _ F) as F1.
  destruct (at_sent (attempts burst)).
  2:{ eexists _, [], ids, gone. rewrite Nat.add_0_r. split_and!; [reflexivity|simpl; lia|by constructor|].
      apply flight_bump; [repeat split|exact F1]. }
  destruct (sent_one_ok _ _ _ _ _ measuring (at_issue_ns (attempts burst)) F1) as (s1 & gone1 & -> & F2). cbn [mbind option_bind].
  destruct (IH (S burst) _ _ _ _ _ F2) as (s2 & reqs & ids2 & gone2 & -> & Hl & Hd & F3). cbn [mbind option_bind].
  exists s2, (at_request (attempts burst) :: reqs), ids2, gone2. rewrite (fl_seq _ _ _ _ _ _ _ _ F1).
  split_and!; [reflexivity|simpl; lia|constructor; [by eexists|done]|].
  simpl. replace (n + S (length reqs))%nat with (S n + length reqs)%nat by lia. exact F3.
Qed.

(** The reply takes its request out of the table. *)
Lemma settle_ok n ids done gone s j f i recv : flight opt start h0 n ids done gone s ->
  inflight_ s !! j = Some f -> ids !! j = Some (Some i) ->
  flight opt start h0 n (<[j := None]> ids) (done ++ [(i, recv, false)]) gone (bump_tally (one_received false) (settle j s)).
Proof using All.
  intros [Hseq Hnext HT Hlen Hidx Honce Hsent Hrec Hlost Hmeas Hlat Hl Hsec] Ef Ei. split; simpl; try assumption.
  - rewrite (alter_as_insert _ _ _ _ Ef). by apply Forall2_insert.
  - by rewrite length_alter.
  - intros q i' Hq. apply Hidx. destruct (decide (q = j)) as [->|Hne]; [|by rewrite list_lookup_insert_ne in Hq].
    rewrite list_lookup_insert_eq in Hq by (by eapply lookup_lt_Some). done.
  - rewrite map_app, <- (assoc_L (++) (map _ done)), <- Honce, <- (app_nil_r (live_ids ids ++ _)).
    apply account_move. by apply (live_ids_insert ids j (Some i) None).
  - lia.
  - rewrite length_app, Hrec. simpl. lia.
  - lia.
  - rewrite in_window_app, app_nil_r. lia.
  - unfold samples. rewrite in_window_app, app_nil_r. exact Hlat.
Qed.

Lemma complete_ok n ids done gone s warmup_end i recv b :
  flight opt start h0 n ids (done ++ [(i, recv, false)]) gone (bump_tally (one_received false) s) ->
  exists s', complete opt warmup_end (sched opt start i) recv b s = Some s' /\
    flight opt start h0 n ids (done ++ [(i, recv, b)]) gone s' /\ tally_ s' = add_tally (tally_ s) (one_received b).
Proof using All.
  intros [Hseq Hnext HT Hlen Hidx Honce Hsent Hrec Hlost Hmeas Hlat Hl Hsec]. unfold samples in *.
  rewrite in_window_app, app_nil_r in Hlat, Hmeas.
  destruct (complete_spec opt h0 (map (sample opt start) (in_window done)) warmup_end (sched opt start i) recv b s E0) as (s' & Ec & Et & Hk' & Hh).
  { by split. }
  exists s'. split; [exact Ec|]. split; [|exact Et]. destruct Hk' as (K1 & K2 & K3 & K4), Hh as [Hh1 Hh2 Hh3]. simpl in *.
  split; rewrite ?Et, ?K1, ?K2, ?K3; try assumption.
  - rewrite map_app in *. exact Honce.
  - rewrite length_app in *. simpl in *. lia.
  - rewrite in_window_app, length_app. destruct b; simpl; lia.
  - unfold samples. rewrite in_window_app, map_app. destruct b; exact Hh1.
Qed.

(** A decision for the request in its slot, with the instant it echoes, answers it. *)
Lemma receive_match warmup_end measuring r d i n ids done gone s : flight opt start h0 n ids done gone s ->
  decode_reply opt (rp_bytes r) = Some d -> ids !! slot_index opt (d_seq d) = Some (Some i) ->
  d_client_ts_ns d = sched opt start i ->
  exists s', receive_reply opt warmup_end measuring r s = Some s' /\
    flight opt start h0 n (<[slot_index opt (d_seq d) := None]> ids) (done ++ [(i, rp_recv_ns r, measuring)]) gone s' /\
    tally_ s' = add_tally (add_tally (tally_ s) (note_verdict d)) (one_received measuring).
Proof using All.
  intros F Ed Eo Ets. unfold receive_reply. rewrite Ed.
  destruct (slot_of _ _ _ _ _ (d_seq d) F) as (f & o & Ef & Eo' & Hr). rewrite Ef. cbn [mbind option_bind].
  rewrite Eo in Eo'. injection Eo' as <-. destruct Hr as [El Hs]. rewrite El, Hs, Ets, Z.eqb_refl. cbn [negb orb].
  pose proof (flight_bump _ _ _ _ _ _ (note_verdict_aside d) F) as F1.
  pose proof (settle_ok _ _ _ _ _ _ f i (rp_recv_ns r) F1 Ef Eo) as F2.
  exact (complete_ok _ _ _ _ _ warmup_end _ _ measuring F2).
Qed.

Lemma receive_reply_ok warmup_end measuring r n ids done gone s : flight opt start h0 n ids done gone s ->
  exists s' ids' more, receive_reply opt warmup_end measuring r s = Some s' /\
    Forall (fun a => a.2 = measuring /\ answers opt start [r] a) more /\ flight opt start h0 n ids' (done ++ more) gone s'.
Proof using All.
  intros F. destruct (decode_reply opt (rp_bytes r)) as [d|] eqn:Ed.
  2:{ unfold receive_reply. rewrite Ed. eexists _, ids, []. rewrite app_nil_r. split_and!; [reflexivity|by constructor|].
      apply flight_bump; [repeat split|exact F]. }
  destruct (slot_of _ _ _ _ _ (d_seq d) F) as (f & o & Ef & Eo & Hr).
  destruct (negb (if_live f) || negb (if_scheduled_ns f =? d_client_ts_ns d)) eqn:Eg.
  { unfold receive_reply. rewrite Ed, Ef. cbn [mbind option_bind]. rewrite Eg. eexists _, ids, []. rewrite app_nil_r.
    split_and!; [reflexivity|by constructor|]. apply flight_bump; [repeat split|exact F]. }
  apply orb_false_iff in Eg as [Elive Ets]. apply negb_false_iff in Elive, Ets. apply Z.eqb_eq in Ets.
  destruct o as [i|]; simpl in Hr; [|congruence]. destruct Hr as [_ Hs]. rewrite Hs in Ets. symmetry in Ets.
  destruct (receive_match warmup_end measuring r d i _ _ _ _ _ F Ed Eo Ets) as (s' & Er & F' & _).
  eexists s', _, [(i, rp_recv_ns r, measuring)]. split_and!; [exact Er| |exact F'].
  constructor; [|constructor]. split; [reflexivity|]. exists r, d. pose proof (fl_index _ _ _ _ _ _ _ _ F _ _ Eo).
  split_and!; [by apply list_elem_of_singleton|exact Ed|reflexivity|exact Ets|by symmetry].
Qed.

Lemma receive_all_ok warmup_end measuring rs : forall n ids done gone s, flight opt start h0 n ids done gone s ->
  exists s' ids' more, receive_all opt warmup_end measuring rs s = Some s' /\
    Forall (fun a => a.2 = measuring /\ answers opt start rs a) more /\ flight opt start h0 n ids' (done ++ more) gone s'.
Proof using All.
  induction rs as [|r rs IH]; intros n ids done gone s F.
  { exists s, ids, []. rewrite app_nil_r. split_and!; [reflexivity|by constructor|exact F]. }
  destruct (receive_reply_ok warmup_end measuring r _ _ _ _ _ F) as (s1 & ids1 & m1 & E1 & H1 & F1).
  destruct (IH _ _ _ _ _ F1) as (s2 & ids2 & m2 & E2 & H2 & F2). exists s2, ids2, (m1 ++ m2). rewrite (assoc_L (++)).
  split_and!; [cbn [receive_all]; rewrite E1; exact E2| |exact F2]. apply Forall_app. split.
  - eapply Forall_impl; [exact H1|]. intros a [Ha Hw]. split; [done|]. eapply answers_weaken; [|exact Hw].
    intros r' ->%list_elem_of_singleton. left.
  - eapply Forall_impl; [exact H2|]. intros a [Ha Hw]. split; [done|]. eapply answers_weaken; [|exact Hw].
    intros r' Hr'. by right.
Qed.

Lemma sweep_ok sweep_now n ids done gone s : flight opt start h0 n ids done gone s ->
  exists ids' gone', flight opt start h0 n ids' done gone' (sweep opt sweep_now s).
Proof using All.
  intros [Hseq Hnext HT Hlen Hidx Honce Hsent Hrec Hlost Hmeas Hlat Hl Hsec].
  destruct (sweep_table opt start (expired (timeout_ns opt) sweep_now) _ _ HT) as (ids' & out & H1 & H2 & H3 & H4).
  { intros f. unfold expired. rewrite !andb_true_iff. by intros [[Hf _] _]. }
  exists ids', (out ++ gone). split; simpl; try assumption; try lia.
  - by rewrite length_map.
  - intros q i Hq. apply Hidx. by apply H4.
  - rewrite <- Honce, <- (app_nil_r (live_ids ids ++ _)). by apply account_move.
  - rewrite length_app, H3. lia.
Qed.

(** What a run of turns adds: requests drawn by the turns, replies the turns received. *)
Lemma open_turn_ok t n ids done gone s : flight opt start h0 n ids done gone s ->
  exists s' reqs more ids' gone', open_turn opt start t s = Some (s', datagrams opt start n reqs) /\
    Forall (fun req => exists b, req = at_request (tn_attempts t b)) reqs /\
    Forall (fun a => a.2 = (warmup_end_ns opt start <=? tn_now t) /\ answers opt start (tn_replies t) a) more /\
    flight opt start h0 (n + length reqs) ids' (done ++ more) gone' s'.
Proof using All.
  intros F. unfold open_turn.
  destruct (send_due_ok 256 (tn_now t) (warmup_end_ns opt start <=? tn_now t) (tn_attempts t) 0 _ _ _ _ _ F) as (s1 & reqs & ids1 & gone1 & -> & _ & Hd & F1).
  cbn [mbind option_bind].
  destruct (receive_all_ok (warmup_end_ns opt start) (warmup_end_ns opt start <=? tn_now t) (take (batch_recv opt) (tn_replies t)) _ _ _ _ _ F1)
    as (s2 & ids2 & more & -> & Hm & F2). cbn [mbind option_bind].
  assert (Forall (fun a : Answer => a.2 = (warmup_end_ns opt start <=? tn_now t) /\ answers opt start (tn_replies t) a) more) as Hm'.
  { eapply Forall_impl; [exact Hm|]. intros a [Ha Hw]. split; [done|]. eapply answers_weaken; [|exact Hw].
    intros r. by apply subseteq_take. }
  destruct (sweep_at_ns_ s2 <=? tn_now t).
  - destruct (sweep_ok (tn_sweep_now t) _ _ _ _ _ F2) as (ids3 & gone3 & F3). eexists _, reqs, more, ids3, gone3. split_and!; [reflexivity|assumption..].
  - eexists _, reqs, more, ids2, gone1. split_and!; [reflexivity|assumption..].
Qed.

Lemma open_turns_ok ts : forall n ids done gone s, flight opt start h0 n ids done gone s ->
  exists s' reqs more ids' gone', open_turns opt start ts s = Some (s', datagrams opt start n reqs) /\
    Forall (fun req => exists t b, t ∈ ts /\ req = at_request (tn_attempts t b)) reqs /\
    Forall (fun a => exists t, t ∈ ts /\ a.2 = (warmup_end_ns opt start <=? tn_now t) /\ tn_now t < end_ns opt start /\
      answers opt start (tn_replies t) a) more /\
    flight opt start h0 (n + length reqs) ids' (done ++ more) gone' s'.
Proof using All.
  induction ts as [|t ts IH]; intros n ids done gone s F; cbn [open_turns];
    [|destruct (Z.leb_spec (end_ns opt start) (tn_now t)) as [|Hnow]].
  1-2: exists s, [], [], ids, gone; rewrite Nat.add_0_r, app_nil_r; split_and!; [reflexivity|by constructor..|exact F].
  destruct (open_turn_ok t _ _ _ _ _ F) as (s1 & r1 & m1 & ids1 & gone1 & -> & Hr1 & Hm1 & F1). cbn [mbind option_bind].
  destruct (IH _ _ _ _ _ F1) as (s2 & r2 & m2 & ids2 & gone2 & -> & Hr2 & Hm2 & F2). cbn [mbind option_bind].
  exists s2, (r1 ++ r2), (m1 ++ m2), ids2, gone2. rewrite datagrams_app, length_app, Nat.add_assoc, (assoc_L (++)).
  split_and!; [reflexivity| | |exact F2]; apply Forall_app; split; eapply Forall_impl; [exact Hr1| |exact Hr2| |exact Hm1| |exact Hm2|].
  - intros req [b ->]. exists t, b. split; [left|reflexivity].
  - intros req (t' & b & Ht & ->). exists t', b. split; [by right|reflexivity].
  - intros a [Ha Hw]. exists t. split_and!; [left|exact Ha|exact Hnow|exact Hw].
  - intros a (t' & Ht & H). exists t'. split; [by right|exact H].
Qed.

(** The drain answers requests, none of them a sample. *)
Lemma drain_ok rs : forall n ids done gone s, flight opt start h0 n ids done gone s ->
  exists s' ids' more, drain_tail opt rs s = Some s' /\ Forall (fun a => a.2 = false) more /\
    flight opt start h0 n ids' (done ++ more) gone s'.
Proof using All.
  induction rs as [|r rs IH]; intros n ids done gone s F; cbn [drain_tail]; [|destruct (outstanding s =? 0)%nat].
  1-2: exists s, ids, []; rewrite app_nil_r; split_and!; [reflexivity|by constructor|exact F].
  destruct (r ≫= decode_reply opt) as [d|]; [|eapply IH; exact F].
  destruct (slot_of _ _ _ _ _ (d_seq d) F) as (f & o & Ef & Eo & Hr). rewrite Ef. cbn [mbind option_bind].
  destruct (if_live f) eqn:El; [|eapply IH; exact F]. destruct o as [i|]; simpl in Hr; [|congruence].
  pose proof (settle_ok _ _ _ _ _ _ _ _ 0 F Ef Eo) as F1.
  pose proof (flight_bump _ _ _ _ _ _ (note_verdict_aside d) F1) as F2.
  destruct (IH _ _ _ _ _ F2) as (s' & ids' & more & E & Hm & F3). exists s', ids', ((i, 0, false) :: more).
  split_and!; [exact E|by constructor|]. by rewrite <- (assoc_L (++)) in F3.
Qed.

Lemma new_sender_ok : 0 <= duration_s opt < 2 ^ 32 - 1 ->
  exists s, new_sender opt start = Some s /\ flight opt start h0 0 (replicate (Z.to_nat (max_inflight opt)) None) [] [] s.
Proof using All.
  intros Hd. pose proof table_bound as Hp. unfold new_sender. rewrite E0. cbn [mbind option_bind]. eexists. split; [reflexivity|].
  assert (recorded h0 h0) as R by (by exists []). split; cbn -[replicate Z.to_nat]; try reflexivity; try assumption.
  - apply Forall2_replicate. reflexivity.
  - rewrite length_replicate. lia.
  - intros q i Hq. apply lookup_replicate in Hq as [? _]. done.
  - rewrite app_nil_r. unfold live_ids. induction (Z.to_nat (max_inflight opt)); simpl; done.
  - rewrite !length_replicate. destruct (timeline opt); simpl; rewrite ?length_replicate, ?(wrap_id 32 (duration_s opt + 1)) by (unfold fits; lia); split; try lia; [by apply Forall_replicate|by constructor].
Qed.

(** When the program is done every request is answered or written off. *)
Lemma write_off_ok n ids done gone s : flight opt start h0 n ids done gone s ->
  let s' := bump_tally (some_lost (Z.of_nat (outstanding s))) s in
  map (fun a : Answer => a.1.1) done ++ live_ids ids ++ gone ≡ₚ seq 0 n /\
  sent (tally_ s') = Z.of_nat n /\ received (tally_ s') = Z.of_nat (length done) /\
  lost (tally_ s') = Z.of_nat (length (live_ids ids ++ gone)) /\
  measured_received (tally_ s') = Z.of_nat (length (in_window done)) /\ latency_ s' = latency_ s.
Proof using All.
  intros [Hseq Hnext HT Hlen Hidx Honce Hsent Hrec Hlost Hmeas Hlat Hl Hsec]. cbn -[Z.of_nat Z.add].
  split; [rewrite <- Honce; apply Permutation_app_swap_app|]. rewrite length_app. unfold outstanding.
  rewrite (live_count _ _ _ _ HT). split_and!; (reflexivity || lia).
Qed.
End Flight.

(** What the report of a run says: the requests [0 .. n-1] of the schedule, each answered
    once or lost; the samples are the replies of the window, taken from the schedule. *)
Record account (opt : SenderOptions) (start : Z) (ts : list Turn) (h0 : HdrHistogram) (n : nat) (done : list Answer)
    (s : Sender) : Prop := {
  ac_once : exists gone, map (fun a : Answer => a.1.1) done ++ gone ≡ₚ seq 0 n /\ lost (tally_ s) = Z.of_nat (length gone);
  ac_sent : sent (tally_ s) = Z.of_nat n;
  ac_received : received (tally_ s) = Z.of_nat (length done);
  ac_measured : measured_received (tally_ s) = Z.of_nat (length (in_window done));
  ac_window : Forall (fun a => exists t, t ∈ ts /\ warmup_end_ns opt start <= tn_now t < end_ns opt start /\
    answers opt start (tn_replies t) a) (in_window done);
  ac_latency : record_all (samples opt start done) h0 = Some (latency_ s) }.

Lemma account_balance opt start ts h0 n done s : account opt start ts h0 n done s ->
  sent (tally_ s) = received (tally_ s) + lost (tally_ s) /\ NoDup (map (fun a : Answer => a.1.1) done).
Proof.
  intros [(gone & Hp & Hl) Hs Hr _ _ _]. split.
  - apply Permutation_length in Hp. rewrite length_app, length_map, length_seq in Hp. lia.
  - assert (NoDup (map (fun a : Answer => a.1.1) done ++ gone)) as Hn by (rewrite Hp; apply NoDup_seq). by apply NoDup_app in Hn as [? _].
Qed.

Lemma in_window_none l : Forall (fun a : Answer => a.2 = false) l -> in_window l = [].
Proof. induction 1 as [|[? []] l H HF IH]; simplify_eq/=; [done|exact IH]. Qed.

Lemma in_window_impl (P Q : Answer -> Prop) l : (forall a, P a -> a.2 = true -> Q a) -> Forall P l -> Forall Q (in_window l).
Proof. intros Hi. induction 1 as [|a l Ha HF IH]; simpl; [constructor|]. destruct (a.2) eqn:E; [constructor; auto|exact IH]. Qed.

Lemma open_loop_runs opt start ts tail k h0 : 0 <= k <= 31 -> max_inflight opt = 2 ^ k -> 0 <= duration_s opt < 2 ^ 32 - 1 ->
  latency_histogram = Some h0 ->
  exists s reqs done, run_open_loop opt start ts tail = Some (s, datagrams opt start 0 reqs) /\
    Forall (fun req => exists t b, t ∈ ts /\ req = at_request (tn_attempts t b)) reqs /\
    account opt start ts h0 (length reqs) done s.
Proof.
  intros Hk Hmax Hd E0. unfold run_open_loop.
  destruct (new_sender_ok opt start h0 k Hk Hmax E0 Hd) as (s0 & -> & F0). cbn [mbind option_bind].
  destruct (open_turns_ok opt start h0 k Hk Hmax E0 ts _ _ _ _ _ F0) as (s1 & reqs & more & ids1 & gone1 & -> & Hr & Hm & F1).
  cbn [mbind option_bind]. destruct (drain_ok opt start h0 k Hk Hmax E0 tail _ _ _ _ _ F1) as (s2 & ids2 & late & -> & Hl & F2).
  cbn [mbind option_bind]. eexists _, reqs, (([] ++ more) ++ late). split; [reflexivity|]. split; [exact Hr|].
  destruct (write_off_ok opt start h0 k Hk Hmax E0 _ _ _ _ _ F2) as (H1 & H2 & H3 & H4 & H5 & H6).
  split; [by eexists|exact H2|exact H3|exact H5| |rewrite H6; apply (fl_latency _ _ _ _ _ _ _ _ F2)].
  rewrite in_window_app, (in_window_none late Hl), app_nil_r. eapply in_window_impl; [|exact Hm].
  intros a (t & Ht & Ea & He & Hw) Hb. exists t. rewrite Hb in Ea. symmetry in Ea. apply Z.leb_le in Ea.
  split_and!; assumption.
Qed.

(** An open-loop run of the load generator always ends with a report, whatever the
    server, the clock and the kernel do, provided the table of requests in flight has a
    power of two of slots.  The datagrams it sent are the requests 0, 1, 2, ... of the
    fixed schedule, in order and without a gap: the i-th one carries i (mod 2^32) as its
    sequence number and the i-th instant of the schedule as its timestamp, which depends
    on the start and the rate only and never on the replies.  Every request is answered at
    most once and is otherwise lost, so sent = received + lost; every latency sample is
    the time from the scheduled instant of a request to the arrival, inside the
    measurement window, of a reply that echoes that instant. *)
Theorem open_loop_exact opt start ts tail k : 0 <= k <= 31 -> max_inflight opt = 2 ^ k -> 0 <= duration_s opt < 2 ^ 32 - 1 ->
  exists h0 s reqs done, latency_histogram = Some h0 /\ run_open_loop opt start ts tail = Some (s, datagrams opt start 0 reqs) /\
    Forall (fun req => exists t b, t ∈ ts /\ req = at_request (tn_attempts t b)) reqs /\
    account opt start ts h0 (length reqs) done s /\
    sent (tally_ s) = received (tally_ s) + lost (tally_ s) /\ NoDup (map (fun a : Answer => a.1.1) done).
Proof.
  intros Hk Hmax Hd. destruct latency_histogram_ok as (h0 & _ & _ & E0 & _).
  destruct (open_loop_runs opt start ts tail k h0 Hk Hmax Hd E0) as (s & reqs & done & Er & Hr & Ha).
  destruct (account_balance _ _ _ _ _ _ _ Ha) as [Hb Hn]. exists h0, s, reqs, done. split_and!; assumption.
Qed.

(** ** The closed loop *)

(** The samples of a closed loop: from the send, not from a schedule. *)
Definition closed_sample (opt : SenderOptions) (start : Z) (e : Exchange) : list Z :=
  match ex_reply e with
  | Some r =>
      if ex_sent e && (warmup_end_ns opt start <=? ex_now e) && (ex_now e <? end_ns opt start) &&
        bool_decide (is_Some (decode_reply opt (rp_bytes r)))
      then [i64 (rp_recv_ns r - ex_send_ns e)] else []
  | None => []
  end.

(** The books of a closed loop. *)
Record closed_books (h0 : HdrHistogram) (vs : list Z) (out : list (list Z)) (s : Sender) : Prop := {
  cb_sent : sent (tally_ s) = received (tally_ s) + lost (tally_ s) + bad_replies (tally_ s);
  cb_out : sent (tally_ s) = Z.of_nat (length out);
  cb_measured : measured_received (tally_ s) = Z.of_nat (length vs);
  cb_latency : record_all vs h0 = Some (latency_ s) }.

Lemma note_verdict_bad d : bad_replies (note_verdict d) = 0.
Proof. unfold note_verdict. by repeat case_match. Qed.

Lemma closed_exchange_ok opt start h0 e vs out s : latency_histogram = Some h0 -> ex_now e < end_ns opt start ->
  closed_books h0 vs out s ->
  exists s' msg, closed_exchange opt start e s = Some (s', msg) /\ closed_books h0 (vs ++ closed_sample opt start e) (out ++ msg) s'.
Proof.
  intros E0 He [Hs Ho Hm Hl]. unfold closed_exchange, closed_sample. apply Z.ltb_lt in He. rewrite He.
  destruct (ex_sent e); cbn [negb andb].
  2:{ eexists _, []. split; [reflexivity|]. destruct (ex_reply e); rewrite !app_nil_r; split; cbn -[Z.add]; try assumption; lia. }
  destruct (ex_reply e) as [r|].
  2:{ eexists _, [_]. split; [reflexivity|]. rewrite app_nil_r. split; cbn -[Z.add]; rewrite ?length_app; try assumption; simpl; lia. }
  destruct (decode_reply opt (rp_bytes r)) as [d|].
  2:{ rewrite bool_decide_eq_false_2, andb_false_r by (by intros [? [=]]). eexists _, [_]. split; [reflexivity|]. rewrite app_nil_r. split; cbn -[Z.add]; rewrite ?length_app; try assumption; simpl; lia. }
  rewrite bool_decide_eq_true_2, !andb_true_r by (by eexists). cbn [latency_ bump_tally]. destruct (note_verdict_aside d) as (A1 & A2 & A3 & A4). pose proof (note_verdict_bad d).
  destruct (warmup_end_ns opt start <=? ex_now e).
  - destruct (record_more h0 _ vs (i64 (rp_recv_ns r - ex_send_ns e)) E0 Hl) as (h & -> & Ha). cbn [mbind option_bind].
    eexists _, [_]. split; [reflexivity|]. split; cbn -[Z.add note_verdict]; rewrite ?length_app; try assumption; simpl length; lia.
  - cbn [mbind option_bind]. eexists _, [_]. split; [reflexivity|]. rewrite app_nil_r.
    split; cbn -[Z.add note_verdict]; rewrite ?length_app; try assumption; simpl length; lia.
Qed.

(** The exchanges before the window closes. *)
Fixpoint until_end (opt : SenderOptions) (start : Z) (es : list Exchange) : list Exchange :=
  match es with
  | [] => []
  | e :: es => if end_ns opt start <=? ex_now e then [] else e :: until_end opt start es
  end.

Lemma closed_exchanges_ok opt start h0 es : latency_histogram = Some h0 -> forall vs out s, closed_books h0 vs out s ->
  exists s' outs, closed_exchanges opt start es s = Some (s', outs) /\
    closed_books h0 (vs ++ concat (map (closed_sample opt start) (until_end opt start es))) (out ++ outs) s'.
Proof.
  intros E0. induction es as [|e es IH]; intros vs out s B; cbn [closed_exchanges until_end];
    [|destruct (Z.leb_spec (end_ns opt start) (ex_now e)) as [|He]].
  1-2: exists s, []; rewrite !app_nil_r; split; [reflexivity|exact B].
  destruct (closed_exchange_ok opt start h0 e vs out s E0 He B) as (s1 & m1 & -> & B1). cbn [mbind option_bind].
  destruct (IH _ _ _ B1) as (s2 & m2 & -> & B2). cbn [mbind option_bind]. exists s2, (m1 ++ m2). split; [reflexivity|].
  cbn [map concat]. rewrite !(assoc_L (++)). exact B2.
Qed.

(** The closed loop, which waits for every reply, ends with a report in which every
    request it sent is answered, lost or answered by something that is no decision, and
    whose samples are the round trips of the replies of the window. *)
Theorem closed_loop_books opt start es : exists h0 s outs, latency_histogram = Some h0 /\
  run_closed_loop opt start es = Some (s, outs) /\
  closed_books h0 (concat (map (closed_sample opt start) (until_end opt start es))) outs s.
Proof.
  destruct latency_histogram_ok as (h0 & _ & _ & E0 & _). unfold run_closed_loop, new_sender. rewrite E0. cbn [mbind option_bind].
  destruct (closed_exchanges_ok opt start h0 es E0 [] [] (mkSender (replicate (Z.to_nat (max_inflight opt)) (mkInFlight 0 0 false)) zero_tally h0 h0
    (if timeline opt then replicate (Z.to_nat (duration_s opt + 1)) h0 else [])
    (replicate (Z.to_nat (u32 (duration_s opt + 1))) 0) 0 (double_of_Z start) (u64 (start + timeout_ns opt)))) as (s & outs & Es & B);
    [by split|]. exists h0, s, outs. split_and!; [reflexivity|exact Es|exact B].
Qed.

(** ** A run *)

(** 1000 requests a second, a table of eight slots: three requests are due in the first
    turn, the second one is answered in the window and the third in the drain. *)
Definition sample_opts : SenderOptions := mkSenderOptions 1000 1 0 1 200 8 false 32 true.
Definition reply_to (seq ts : Z) : list Z := Wire.encode true (decision_of_fields [kMagicVersion; seq; ts]).
Definition sample_attempt (_ : nat) : Attempt := mkAttempt (request_of_fields [kMagicVersion]) 2500000 true.
Definition sample_turns : list Turn :=
  [mkTurn 3000000 sample_attempt [mkReply (reply_to 1 2000000) 4000000; mkReply (reply_to 1 2000000) 4000000] 0].
Definition sample_tail : list (option (list Z)) := [None; Some (reply_to 2 3000000)].

Example open_loop_sample : option_map (fun '(s, out) => (length out, tally_ s, total_count_ (latency_ s)))
  (run_open_loop sample_opts 1000000 sample_turns sample_tail)
  = Some (3%nat, mkTally 3 2 1 1 0 0 1 0 2 0 1 2000000 0 0, 1).
Proof. vm_compute. reflexivity. Qed.

Lemma open_loop_exact_witness : exists h0 s reqs done, latency_histogram = Some h0 /\
  run_open_loop sample_opts 1000000 sample_turns sample_tail = Some (s, datagrams sample_opts 1000000 0 reqs) /\
  account sample_opts 1000000 sample_turns h0 (length reqs) done s /\ sent (tally_ s) = received (tally_ s) + lost (tally_ s).
Proof.
  destruct (open_loop_exact sample_opts 1000000 sample_turns sample_tail 3) as (h0 & s & reqs & done & E0 & Er & _ & Ha & Hb & _);
    [lia|reflexivity|simpl; lia|]. exists h0, s, reqs, done. split_and!; assumption.
Defined.
