(* ===== verification/HttpClient.v ===== *)
(** * HttpClient: the load generator over HTTP

    [HttpPool] of bench/loadgen.cpp and the branches of the open loop that drive it: one
    request in flight per connection, the cursor over the pool, the framing of responses,
    the timeout sweep that reopens connections, the drain at the end. *)

From S2P Require Import Prelude Text Imsi Wire Double Probe FlatSet Store Rules Engine Yaml Golden Hdr HttpFront Random RequestGen Roster LoadGen.
From Stdlib Require Import ZArith Lia Bool Ascii String.
From stdpp Require Import base list numbers strings gmap.
Local Open Scope Z_scope.

(** ** The text of a request *)

Definition has_flag (req : PolicyRequest) (flag : Z) : bool := negb (Z.land (rq_flags req) flag =? 0).

(** The parameters of the query, in order; the last three are there under their flags. *)
Definition issue_params (req : PolicyRequest) (seq : Z) : list (string * string) :=
  [("imsi", printf_0 15 (rq_imsi req)); ("imei", printf_0 15 (rq_imei req)); ("plmn", to_string (rq_plmn req));
   ("dnn", to_string (rq_dnn_id req)); ("rat", to_string (rq_rat_type req)); ("qos_5qi", to_string (rq_requested_5qi req));
   ("tac", to_string (rq_tac req)); ("minute", to_string (rq_local_minute req)); ("seq", to_string seq)]%string
  ++ (if has_flag req kReqFlagTetheringDetected then [("tethering", "1")]%string else [])
  ++ (if has_flag req kReqFlagEmergency then [("emergency", "1")]%string else [])
  ++ (if has_flag req kReqFlagUsageValid then [("usage", to_string (rq_bytes_used_period req))]%string else []).

Definition query_text (ps : list (string * string)) : string :=
  String.concat "&" (map (fun kv => (kv.1 +:+ "=" +:+ kv.2)%string) ps).

Definition issue_text (host : string) (req : PolicyRequest) (seq : Z) : string :=
  ("GET /v1/decide?" +:+ query_text (issue_params req seq) +:+ " HTTP/1.1" +:+ crlf +:+ "Host: " +:+ host +:+ crlf +:+ crlf)%string.

(** ** Connections *)

(** [hc_open] is [fd >= 0]; [hc_in] the [in_len] bytes of the buffer. *)
Record HConn := mkHConn {
  hc_open : bool; hc_busy : bool; hc_seq : Z; hc_scheduled_ns : Z; hc_issued_ns : Z; hc_in : string;
  hc_header_end : Z; hc_content_len : Z }.

Definition kConnBuffer : nat := 4096.
Definition kIssueBuffer : Z := 512.

Record HttpPool := mkPool { hp_conns : list HConn; hp_cursor : nat; hp_host : string }.

(** [connect_one] leaves the connection idle, open when it succeeds. *)
Definition connect_one (ok : bool) (c : HConn) : HConn :=
  if ok then mkHConn true false (hc_seq c) (hc_scheduled_ns c) (hc_issued_ns c) EmptyString (hc_header_end c) (hc_content_len c)
  else mkHConn false (hc_busy c) (hc_seq c) (hc_scheduled_ns c) (hc_issued_ns c) (hc_in c) (hc_header_end c) (hc_content_len c).

Definition fresh_conn : HConn := mkHConn false false 0 0 0 EmptyString 0 0.

(** [open]: the connections are made in order, the first failure ends it. *)
Definition open_pool (host : string) (connects : list bool) : option HttpPool :=
  if forallb id connects then Some (mkPool (map (fun ok => connect_one ok fresh_conn) connects) 0 host) else None.

Definition recycle (ok : bool) (c : HConn) : HConn :=
  connect_one ok (mkHConn false false (hc_seq c) (hc_scheduled_ns c) (hc_issued_ns c) EmptyString (hc_header_end c) (hc_content_len c)).

(** [issue]: the first free connection from the cursor on; [k] is what is left to look
    at, [sent] whether [send] takes the whole text. *)
Fixpoint issue_loop (req : PolicyRequest) (seq scheduled now : Z) (sent : bool) (k : nat) (p : HttpPool) : bool * HttpPool :=
  match k with
  | O => (false, p)
  | S k =>
      match hp_conns p !! hp_cursor p with
      | None => (false, p)
      | Some c =>
          let at_cursor := hp_cursor p in
          let p := mkPool (hp_conns p) ((hp_cursor p + 1) mod length (hp_conns p))%nat (hp_host p) in
          if hc_busy c || negb (hc_open c) then issue_loop req seq scheduled now sent k p
          else if kIssueBuffer <=? strlen (issue_text (hp_host p) req seq) then (false, p)
          else if negb sent then (false, p)
          else (true, mkPool (<[at_cursor := mkHConn true true seq scheduled now EmptyString 0 0]> (hp_conns p)) (hp_cursor p) (hp_host p))
      end
  end.
Definition issue (req : PolicyRequest) (seq scheduled now : Z) (sent : bool) (p : HttpPool) : bool * HttpPool :=
  issue_loop req seq scheduled now sent (length (hp_conns p)) p.

(** ** Responses *)

Definition response_complete (c : HConn) : bool * HConn :=
  let buf := hc_in c in
  let done c := (u64 (hc_header_end c + hc_content_len c) <=? strlen (hc_in c), c) in
  if hc_header_end c =? 0 then
    match String.index 0 (crlf +:+ crlf)%string buf with
    | None => (false, c)
    | Some e =>
        let len := match String.index 0 "Content-Length: " buf with
                   | None => 0 | Some cl => strtoull10 (str_drop (cl + 16) buf) end in
        done (mkHConn (hc_open c) (hc_busy c) (hc_seq c) (hc_scheduled_ns c) (hc_issued_ns c) buf (Z.of_nat e + 4) len)
    end
  else done c.

(** What a poll and a [recv] say of a connection: nothing to read, bytes at a time of the
    clock, or the end of the stream or an error. *)
Inductive HEvent := HNothing | HBytes (s : string) (recv_ns : Z) | HClosed.

Definition set_in (s : string) (c : HConn) : HConn :=
  mkHConn (hc_open c) (hc_busy c) (hc_seq c) (hc_scheduled_ns c) (hc_issued_ns c) s (hc_header_end c) (hc_content_len c).
Definition set_idle (open : bool) (c : HConn) : HConn :=
  mkHConn open false (hc_seq c) (hc_scheduled_ns c) (hc_issued_ns c) EmptyString (hc_header_end c) (hc_content_len c).

(** One connection of [drain]: it afterwards, and as the callback sees it when its
    response is complete. *)
Definition drain_one (e : HEvent) (c : HConn) : HConn * option (HConn * Z) :=
  if negb (hc_busy c) || negb (hc_open c) then (c, None)
  else match e with
       | HNothing => (c, None)
       | HClosed => (mkHConn false false (hc_seq c) (hc_scheduled_ns c) (hc_issued_ns c) (hc_in c) (hc_header_end c) (hc_content_len c), None)
       | HBytes s recv_ns =>
           let room := (kConnBuffer - String.length (hc_in c))%nat in
           let '(complete, c) := response_complete (set_in (hc_in c +:+ str_take room s)%string c) in
           if complete then (set_idle (hc_open c) c, Some (c, recv_ns))
           else if (kConnBuffer <=? String.length (hc_in c))%nat then (set_idle false c, None)
           else (c, None)
       end.

Definition drain (events : nat -> HEvent) (p : HttpPool) : HttpPool * list (HConn * Z) :=
  let r := imap (fun i c => drain_one (events i) c) (hp_conns p) in
  (mkPool (map fst r) (hp_cursor p) (hp_host p), omap snd r).

(** The verdict the body names. *)
Definition body_verdict (c : HConn) : option Verdict :=
  let body := str_take (Z.to_nat (hc_content_len c)) (str_drop (Z.to_nat (hc_header_end c)) (hc_in c)) in
  let names v := match String.index 0 (key_str "verdict" v) body with Some _ => true | None => false end in
  if names "ALLOW" then Some kAllow else if names "DENY" then Some kDeny else if names "REDIRECT" then Some kRedirect else None.

Definition count_verdict (v : Verdict) : Tally :=
  match v with
  | kAllow => mkTally 0 0 0 0 0 0 0 0 1 0 0 0 0 0
  | kDeny => mkTally 0 0 0 0 0 0 0 1 0 0 0 0 0 0
  | kRedirect => mkTally 0 0 0 0 0 0 0 0 0 1 0 0 0 0
  end.

(** ** The loop *)

Definition one_starved : Tally := mkTally 0 0 0 0 0 0 0 0 0 0 0 0 1 0.
Definition one_reconnect : Tally := mkTally 0 0 0 0 0 0 0 0 0 0 0 0 0 1.

(** A request that went out: the counters and the step of the schedule. *)
Definition http_sent (opt : SenderOptions) (measuring : bool) (scheduled issue_at : Z) (s : Sender) : option Sender :=
  lateness ← (if measuring then record (i64 (issue_at - scheduled)) (send_lateness_ s) else Some (send_lateness_ s));
  Some (mkSender (inflight_ s) (add_tally (tally_ s) one_sent) (latency_ s) lateness (per_second_ s) (per_second_count_ s)
    (u32 (seq_ s + 1)) (dadd (next_send_ns_ s) (interval_ns opt)) (sweep_at_ns_ s)).

Fixpoint http_send_due (opt : SenderOptions) (now : Z) (measuring : bool) (attempts : nat -> Attempt) (room burst : nat)
    (s : Sender) (p : HttpPool) : option (Sender * HttpPool * list string) :=
  match room with
  | O => Some (s, p, [])
  | S room =>
      if dleb (next_send_ns_ s) (double_of_Z now) then
        let scheduled := u64 (dtrunc (next_send_ns_ s)) in
        let s := note_slip opt now scheduled s in
        let a := attempts burst in
        let req := stamp (at_request a) (seq_ s) scheduled in
        let text := issue_text (hp_host p) req (seq_ s) in
        match issue req (seq_ s) scheduled (at_issue_ns a) (at_sent a) p with
        | (false, p) => Some (bump_tally one_starved s, p, [])
        | (true, p) =>
            s ← http_sent opt measuring scheduled (at_issue_ns a) s;
            '(s, p, out) ← http_send_due opt now measuring attempts room (S burst) s p;
            Some (s, p, text :: out)
        end
      else Some (s, p, [])
  end.

Definition http_on_complete (opt : SenderOptions) (warmup_end : Z) (measuring : bool) (cr : HConn * Z) (s : Sender) : option Sender :=
  match body_verdict cr.1 with
  | None => Some (bump_tally one_bad s)
  | Some v => complete opt warmup_end (hc_scheduled_ns cr.1) cr.2 measuring (bump_tally (count_verdict v) s)
  end.

Fixpoint http_complete_all (opt : SenderOptions) (warmup_end : Z) (measuring : bool) (l : list (HConn * Z)) (s : Sender) : option Sender :=
  match l with
  | [] => Some s
  | cr :: l => s ← http_on_complete opt warmup_end measuring cr s; http_complete_all opt warmup_end measuring l s
  end.

(** The sweep of one connection: what it counts, and the connection after it. *)
Definition http_sweep_one (timeout sweep_now : Z) (ok : bool) (c : HConn) : Tally * HConn :=
  if negb (hc_open c) then (if ok then one_reconnect else zero_tally, recycle ok c)
  else if hc_busy c && (hc_issued_ns c <? sweep_now) && (timeout <? sweep_now - hc_issued_ns c)
  then (add_tally (some_lost 1) (if ok then one_reconnect else zero_tally), recycle ok c)
  else (zero_tally, c).

Definition http_sweep (opt : SenderOptions) (sweep_now : Z) (reopen : nat -> bool) (s : Sender) (p : HttpPool) : Sender * HttpPool :=
  let r := imap (fun i c => http_sweep_one (timeout_ns opt) sweep_now (reopen i) c) (hp_conns p) in
  (mkSender (inflight_ s) (fold_left add_tally (map fst r) (tally_ s)) (latency_ s) (send_lateness_ s) (per_second_ s)
     (per_second_count_ s) (seq_ s) (next_send_ns_ s) (u64 (sweep_now + timeout_ns opt)),
   mkPool (map snd r) (hp_cursor p) (hp_host p)).

(** What one turn of the loop sees. *)
Record HTurn := mkHTurn { ht_now : Z; ht_attempts : nat -> Attempt; ht_events : nat -> HEvent; ht_sweep_now : Z; ht_reopen : nat -> bool }.

Definition http_turn (opt : SenderOptions) (start : Z) (t : HTurn) (s : Sender) (p : HttpPool) : option (Sender * HttpPool * list string) :=
  let warmup_end := warmup_end_ns opt start in
  let measuring := warmup_end <=? ht_now t in
  '(s, p, out) ← http_send_due opt (ht_now t) measuring (ht_attempts t) 256 0 s p;
  let '(p, completed) := drain (ht_events t) p in
  s ← http_complete_all opt warmup_end measuring completed s;
  let '(s, p) := if sweep_at_ns_ s <=? ht_now t then http_sweep opt (ht_sweep_now t) (ht_reopen t) s p else (s, p) in
  Some (s, p, out).

Fixpoint http_turns (opt : SenderOptions) (start : Z) (ts : list HTurn) (s : Sender) (p : HttpPool) : option (Sender * HttpPool * list string) :=
  match ts with
  | [] => Some (s, p, [])
  | t :: ts =>
      if end_ns opt start <=? ht_now t then Some (s, p, [])
      else
        '(s, p, out) ← http_turn opt start t s p;
        '(s, p, outs) ← http_turns opt start ts s p;
        Some (s, p, out ++ outs)
  end.

Definition busy_count (p : HttpPool) : nat := length (List.filter hc_busy (hp_conns p)).

(** The drain at the end, a round per element: any complete response counts. *)
Fixpoint http_drain_tail (rounds : list (nat -> HEvent)) (s : Sender) (p : HttpPool) : Sender * HttpPool :=
  match rounds with
  | [] => (bump_tally (some_lost (Z.of_nat (busy_count p))) s, p)
  | events :: rounds =>
      if (busy_count p =? 0)%nat then (s, p)
      else
        let '(p, completed) := drain events p in
        http_drain_tail rounds (fold_left (fun s _ => bump_tally (one_received false) s) completed s) p
  end.

Definition run_http (opt : SenderOptions) (start : Z) (host : string) (connects : list bool) (ts : list HTurn) (tail : list (nat -> HEvent))
    : option (option (Sender * list string)) :=
  match open_pool host connects with
  | None => Some None
  | Some p =>
      s ← new_sender opt start;
      '(s, p, out) ← http_turns opt start ts s p;
      Some (Some ((http_drain_tail tail s p).1, out))
  end.

(** ** Every request has one fate *)

(** What became of a request: a reply with a verdict, a reply without, nothing within the
    timeout, or a connection that went away under it. *)
Inductive Fate := Answered (recv_ns : Z) (measured : bool) | Refused | TimedOut | Dropped.

Definition is_answered (e : nat * Fate) : bool := match e.2 with Answered _ _ => true | _ => false end.
Definition is_measured (e : nat * Fate) : bool := match e.2 with Answered _ b => b | _ => false end.
Definition is_refused (e : nat * Fate) : bool := match e.2 with Refused => true | _ => false end.
Definition is_timed_out (e : nat * Fate) : bool := match e.2 with TimedOut => true | _ => false end.
Definition is_dropped (e : nat * Fate) : bool := match e.2 with Dropped => true | _ => false end.

Definition fate_samples (opt : SenderOptions) (start : Z) (ends : list (nat * Fate)) : list Z :=
  concat (map (fun e => match e.2 with Answered recv true => [i64 (recv - sched opt start e.1)] | _ => [] end) ends).

(** A connection and the request on it: a busy connection is open. *)
Definition conn_rel (opt : SenderOptions) (start : Z) (c : HConn) (o : option nat) : Prop :=
  match o with
  | Some i => hc_busy c = true /\ hc_open c = true /\ hc_scheduled_ns c = sched opt start i
  | None => hc_busy c = false
  end.

(** After [n] requests: [ids] on the connections, [pending] complete but not counted yet. *)
Record hflight (opt : SenderOptions) (start : Z) (h0 : HdrHistogram) (n : nat) (ids : list (option nat)) (pending : list nat)
    (ends : list (nat * Fate)) (s : Sender) (p : HttpPool) : Prop := {
  hf_seq : seq_ s = u32 (Z.of_nat n);
  hf_next : next_send_ns_ s = tick opt start n;
  hf_conns : Forall2 (conn_rel opt start) (hp_conns p) ids;
  hf_cursor : (hp_cursor p < length (hp_conns p))%nat;
  hf_once : live_ids ids ++ pending ++ map fst ends ≡ₚ seq 0 n;
  hf_sent : sent (tally_ s) = Z.of_nat n;
  hf_received : received (tally_ s) = countb is_answered ends;
  hf_measured : measured_received (tally_ s) = countb is_measured ends;
  hf_bad : bad_replies (tally_ s) = countb is_refused ends;
  hf_lost : lost (tally_ s) = countb is_timed_out ends;
  hf_hists : hists_ok h0 (fate_samples opt start ends) s }.

(** What the report of an HTTP run says: request [i] of the schedule has the fate [ends]
    gives it, one each. *)
Record http_account (opt : SenderOptions) (start : Z) (h0 : HdrHistogram) (n : nat) (ends : list (nat * Fate)) (s : Sender) : Prop := {
  ha_once : map fst ends ≡ₚ seq 0 n;
  ha_sent : sent (tally_ s) = Z.of_nat n;
  ha_received : received (tally_ s) = countb is_answered ends;
  ha_measured : measured_received (tally_ s) = countb is_measured ends;
  ha_bad : bad_replies (tally_ s) = countb is_refused ends;
  ha_lost : lost (tally_ s) = countb is_timed_out ends;
  ha_hists : hists_ok h0 (fate_samples opt start ends) s }.

Lemma fate_samples_app opt start a b : fate_samples opt start (a ++ b) = fate_samples opt start a ++ fate_samples opt start b.
Proof. unfold fate_samples. by rewrite map_app, concat_app. Qed.

(** The same fate for several requests. *)
Lemma countb_fates (g : nat * Fate -> bool) fate b ends out : (forall i, g (i, fate) = b) ->
  countb g (ends ++ map (fun i => (i, fate)) out) = countb g ends + if b then Z.of_nat (length out) else 0.
Proof.
  intros Hf. rewrite countb_app. f_equal. destruct b; [rewrite countb_all; [by rewrite length_map|]|apply countb_none];
    apply Forall_map, Forall_true; exact Hf.
Qed.

Lemma samples_fates opt start fate ends out : (forall recv, fate <> Answered recv true) ->
  fate_samples opt start (ends ++ map (fun i => (i, fate)) out) = fate_samples opt start ends.
Proof.
  intros Hf. rewrite fate_samples_app. replace (fate_samples opt start (map (fun i => (i, fate)) out)) with (@nil Z); [by rewrite app_nil_r|].
  symmetry. unfold fate_samples. rewrite map_map. simpl. induction out as [|i out IH]; [done|]. simpl. rewrite IH.
  destruct fate as [recv []| | |]; [by destruct (Hf recv)|done..].
Qed.

(** The texts of requests [n], [n + 1], ... *)
Definition texts (opt : SenderOptions) (start : Z) (host : string) (n : nat) (reqs : list PolicyRequest) : list string :=
  zip_with (fun i req => issue_text host (stamp req (u32 (Z.of_nat i)) (sched opt start i)) (u32 (Z.of_nat i)))
    (seq n (length reqs)) reqs.

Lemma texts_app opt start host n a b :
  texts opt start host n (a ++ b) = texts opt start host n a ++ texts opt start host (n + length a) b.
Proof. unfold texts. rewrite length_app, seq_app. apply zip_with_app. by rewrite length_seq. Qed.

Lemma response_complete_keeps c : let c' := (response_complete c).2 in
  hc_busy c' = hc_busy c /\ hc_open c' = hc_open c /\ hc_scheduled_ns c' = hc_scheduled_ns c.
Proof. unfold response_complete. by repeat case_match. Qed.

(** What [drain] does to a connection: its request stays, is complete, or is dropped with
    the connection. *)
Lemma drain_one_spec opt start e c o : conn_rel opt start c o ->
  exists o' ci di, conn_rel opt start (drain_one e c).1 o' /\ olist o = olist o' ++ ci ++ di /\
    match (drain_one e c).2 with
    | Some cr => exists i, ci = [i] /\ hc_scheduled_ns cr.1 = sched opt start i
    | None => ci = []
    end.
Proof.
  intros Hr. unfold drain_one. destruct o as [i|]; simpl in Hr.
  2:{ rewrite Hr. by exists None, [], []. }
  destruct Hr as (Hb & Ho & Hs). rewrite Hb, Ho. cbn [negb orb]. destruct e as [|t recv|].
  - by exists (Some i), [], [].
  - set (c1 := set_in _ c). destruct (response_complete_keeps c1) as (K1 & K2 & K3).
    destruct (response_complete c1) as [b c2]. simpl in K1, K2, K3. destruct b.
    + exists None, [i], []. split; [done|]. split; [done|]. exists i. split; [done|]. simpl. by rewrite K3.
    + case_match; [by exists None, [], [i]|]. exists (Some i), [], []. simpl. rewrite K1, K2, K3. done.
  - by exists None, [], [i].
Qed.

Lemma drain_table opt start : forall conns ids events, Forall2 (conn_rel opt start) conns ids ->
  let r := imap (fun i c => drain_one (events i) c) conns in
  exists ids' cids drops, Forall2 (conn_rel opt start) (map fst r) ids' /\
    Forall2 (fun cr i => hc_scheduled_ns cr.1 = sched opt start i) (omap snd r) cids /\
    live_ids ids ≡ₚ live_ids ids' ++ cids ++ drops.
Proof.
  induction conns as [|c conns IH]; intros ids events HT.
  { apply Forall2_nil_inv_l in HT as ->. by exists [], [], []. }
  apply Forall2_cons_inv_l in HT as (o & ids0 & Hr & HT & ->).
  destruct (IH ids0 (fun i => events (S i)) HT) as (ids' & cids & drops & H1 & H2 & H3).
  destruct (drain_one_spec opt start (events 0%nat) c o Hr) as (o' & ci & di & D1 & D2 & D3).
  cbv zeta in *. change (imap (fun i c => drain_one (events i) c) (c :: conns))
    with (drain_one (events 0%nat) c :: imap (fun i c => drain_one (events (S i)) c) conns).
  set (r := imap _ conns) in *. destruct (drain_one (events 0%nat) c) as [c' out]. simpl in D1, D3.
  exists (o' :: ids'), (ci ++ cids), (di ++ drops). split_and!.
  - by constructor.
  - cbn [omap list_omap snd]. destruct out as [cr|]; [destruct D3 as (i & -> & Hs); by constructor|by subst ci].
  - rewrite !live_ids_cons, D2, H3, <- !(assoc_L (++)). apply Permutation_app_head.
    rewrite (Permutation_app_swap_app di), (Permutation_app_swap_app (live_ids ids') ci), (Permutation_app_swap_app ci (live_ids ids')).
    rewrite (Permutation_app_swap_app ci (live_ids ids')). apply Permutation_app_head. apply Permutation_app_head.
    apply Permutation_app_swap_app.
Qed.

(** The counters of the account of an HTTP run. *)
Definition http_aside (t : Tally) : Prop := aside t /\ bad_replies t = 0.

(** The sweep of a connection: a request that timed out is lost, no other leaves. *)
Lemma sweep_one_spec opt start timeout sweep_now ok c o : conn_rel opt start c o ->
  exists o' li, let r := http_sweep_one timeout sweep_now ok c in
    conn_rel opt start r.2 o' /\ olist o = olist o' ++ li /\ lost r.1 = Z.of_nat (length li) /\
    sent r.1 = 0 /\ received r.1 = 0 /\ measured_received r.1 = 0 /\ bad_replies r.1 = 0.
Proof.
  intros Hr. unfold http_sweep_one. destruct o as [i|]; simpl in Hr.
  - destruct Hr as (Hb & Ho & Hs). rewrite Ho, Hb. cbn [negb andb]. case_match.
    + exists None, [i]. destruct ok; by split_and!.
    + exists (Some i), []. simpl. by split_and!.
  - rewrite Hr. exists None, []. destruct (hc_open c), ok; by split_and!.
Qed.

Lemma http_sweep_table opt start timeout sweep_now : forall conns ids reopen t, Forall2 (conn_rel opt start) conns ids ->
  let r := imap (fun i c => http_sweep_one timeout sweep_now (reopen i) c) conns in
  let t' := fold_left add_tally (map fst r) t in
  exists ids' out, Forall2 (conn_rel opt start) (map snd r) ids' /\ live_ids ids ≡ₚ live_ids ids' ++ out /\
    lost t' = lost t + Z.of_nat (length out) /\ sent t' = sent t /\ received t' = received t /\
    measured_received t' = measured_received t /\ bad_replies t' = bad_replies t.
Proof.
  induction conns as [|c conns IH]; intros ids reopen t HT.
  { apply Forall2_nil_inv_l in HT as ->. exists [], []. simpl. split_and!; (done || lia). }
  apply Forall2_cons_inv_l in HT as (o & ids0 & Hr & HT & ->).
  destruct (sweep_one_spec opt start timeout sweep_now (reopen 0%nat) c o Hr) as (o' & li & D1 & D2 & D3 & D4 & D5 & D6 & D7).
  destruct (IH ids0 (fun i => reopen (S i)) (add_tally t (http_sweep_one timeout sweep_now (reopen 0%nat) c).1) HT)
    as (ids' & out & H1 & H2 & H3 & H4 & H5 & H6 & H7). cbv zeta in *.
  change (imap (fun i c => http_sweep_one timeout sweep_now (reopen i) c) (c :: conns))
    with (http_sweep_one timeout sweep_now (reopen 0%nat) c :: imap (fun i c => http_sweep_one timeout sweep_now (reopen (S i)) c) conns).
  cbn [map fold_left]. exists (o' :: ids'), (li ++ out). rewrite !live_ids_cons, length_app. cbn [add_tally sent received measured_received lost bad_replies] in *.
  split_and!; try lia; [by constructor|]. rewrite D2, H2, <- !(assoc_L (++)). apply Permutation_app_head, Permutation_app_swap_app.
Qed.

Lemma busy_live opt start conns ids : Forall2 (conn_rel opt start) conns ids -> length (List.filter hc_busy conns) = length (live_ids ids).
Proof. induction 1 as [|c [i|] conns ids Hr _ IH]; simpl in *; [done|destruct Hr as [-> _]; simpl; by rewrite IH|by rewrite Hr]. Qed.

(** The pool after [issue]: as it was, or with the request on a connection that was idle. *)
Lemma issue_loop_ok opt start req seq scheduled now snt k : forall p ids, Forall2 (conn_rel opt start) (hp_conns p) ids ->
  (hp_cursor p < length (hp_conns p))%nat ->
  exists b p', issue_loop req seq scheduled now snt k p = (b, p') /\ hp_host p' = hp_host p /\
    (hp_cursor p' < length (hp_conns p'))%nat /\
    if b then exists j, ids !! j = Some None /\ hp_conns p' = <[j := mkHConn true true seq scheduled now EmptyString 0 0]> (hp_conns p)
    else hp_conns p' = hp_conns p.
Proof.
  induction k as [|k IH]; intros p ids HT Hc; [by exists false, p|]. cbn [issue_loop].
  destruct (lookup_lt_is_Some_2 _ _ Hc) as [c Ec]. rewrite Ec.
  set (p1 := mkPool (hp_conns p) ((hp_cursor p + 1) mod length (hp_conns p))%nat (hp_host p)).
  assert (hp_cursor p1 < length (hp_conns p1))%nat as Hc1 by (apply Nat.mod_upper_bound; intros Hz; cbn in Hz; lia).
  destruct (hc_busy c || negb (hc_open c)) eqn:Eb; [exact (IH p1 ids HT Hc1)|].
  destruct (_ <=? _); [by exists false, p1|]. destruct snt; [|by exists false, p1].
  eexists true, _. split; [reflexivity|]. split; [reflexivity|]. split; [simpl; by rewrite length_insert|].
  exists (hp_cursor p). split; [|reflexivity]. apply orb_false_iff in Eb as [Eb _].
  destruct (Forall2_lookup_l _ _ _ _ _ HT Ec) as ([i|] & Eo & Hr); [|exact Eo]. simpl in Hr. destruct Hr. congruence.
Qed.

Lemma count_verdict_aside v : aside (count_verdict v) /\ bad_replies (count_verdict v) = 0.
Proof. by destruct v. Qed.

#[local] Opaque latency_histogram.

Section HFlight.
Variables (opt : SenderOptions) (start : Z) (h0 : HdrHistogram).
Hypothesis E0 : latency_histogram = Some h0.

Lemma hflight_bump n ids pending ends s p t : http_aside t -> hflight opt start h0 n ids pending ends s p ->
  hflight opt start h0 n ids pending ends (bump_tally t s) p.
Proof using. intros ((H1 & H2 & H3 & H4) & H5) [? ? ? ? ? ? ? ? ? ? []]. split; cbn -[Z.add]; try assumption; try lia. by split. Qed.

Lemma hflight_slip n ids pending ends s p now scheduled : hflight opt start h0 n ids pending ends s p ->
  hflight opt start h0 n ids pending ends (note_slip opt now scheduled s) p.
Proof using. intros F. unfold note_slip. case_match; [|exact F]. apply hflight_bump; [repeat split|exact F]. Qed.

Lemma http_sent_ok n ids ends s p p' j measuring req issue_at : hflight opt start h0 n ids [] ends s p -> ids !! j = Some None ->
  hp_conns p' = <[j := mkHConn true true req (sched opt start n) issue_at EmptyString 0 0]> (hp_conns p) ->
  (hp_cursor p' < length (hp_conns p'))%nat ->
  exists s', http_sent opt measuring (sched opt start n) issue_at s = Some s' /\
    hflight opt start h0 (S n) (<[j := Some n]> ids) [] ends s' p'.
Proof using All.
  intros [Hseq Hnext HT Hcur Honce Hsent Hrec Hmeas Hbad Hlost [K1 K2 K3]] Hj Ep Hc. unfold http_sent.
  assert (exists h, (if measuring then record (i64 (issue_at - sched opt start n)) (send_lateness_ s) else Some (send_lateness_ s)) = Some h
    /\ recorded h0 h) as (h & -> & Hh) by (destruct measuring; [by apply recorded_more|by eexists]).
  cbn [mbind option_bind]. eexists. split; [reflexivity|]. split; cbn -[Z.add Z.of_nat tick seq]; try assumption; try lia.
  - rewrite Hseq. unfold wrap. rewrite Nat2Z.inj_succ, Z.add_mod_idemp_l by lia. reflexivity.
  - rewrite Hnext. reflexivity.
  - rewrite Ep. by apply Forall2_insert.
  - rewrite (seq_S n 0), <- Honce. pose proof (live_ids_insert ids j None (Some n) Hj) as Hp. simpl in Hp. rewrite Hp. simpl.
    rewrite <- Permutation_cons_append. reflexivity.
  - split; assumption.
Qed.

Lemma http_send_due_ok room now measuring attempts : forall burst n ids ends s p, hflight opt start h0 n ids [] ends s p ->
  exists s' p' reqs ids', http_send_due opt now measuring attempts room burst s p = Some (s', p', texts opt start (hp_host p) n reqs) /\
    hp_host p' = hp_host p /\ Forall (fun req => exists b, req = at_request (attempts b)) reqs /\
    hflight opt start h0 (n + length reqs) ids' [] ends s' p'.
Proof using All.
  induction room as [|room IH]; intros burst n ids ends s p F.
  { exists s, p, [], ids. rewrite Nat.add_0_r. split_and!; [reflexivity|reflexivity|constructor|exact F]. }
  cbn [http_send_due]. destruct (dleb _ _).
  2:{ exists s, p, [], ids. rewrite Nat.add_0_r. split_and!; [reflexivity|reflexivity|constructor|exact F]. }
  rewrite (hf_next _ _ _ _ _ _ _ _ _ F). fold (sched opt start n).
  pose proof (hflight_slip _ _ _ _ _ _ now (sched opt start n) F) as F1. set (s1 := note_slip opt now (sched opt start n) s) in *.
  set (req := stamp (at_request (attempts burst)) (seq_ s1) (sched opt start n)).
  destruct (issue_loop_ok opt start req (seq_ s1) (sched opt start n) (at_issue_ns (attempts burst)) (at_sent (attempts burst))
    (length (hp_conns p)) p ids (hf_conns _ _ _ _ _ _ _ _ _ F) (hf_cursor _ _ _ _ _ _ _ _ _ F)) as (b & p1 & Ei & Eh & Hc & Hp).
  unfold issue. rewrite Ei. destruct b.
  2:{ exists (bump_tally one_starved s1), p1, [], ids. rewrite Nat.add_0_r. split_and!; [reflexivity|exact Eh|constructor|].
      apply hflight_bump; [repeat split|]. destruct F1. split; rewrite ?Hp; try assumption. by rewrite <- Hp. }
  destruct Hp as (j & Hj & Ep).
  destruct (http_sent_ok _ _ _ _ _ _ _ measuring _ _ F1 Hj Ep Hc) as (s2 & -> & F2). cbn [mbind option_bind].
  destruct (IH (S burst) _ _ _ _ _ F2) as (s3 & p3 & reqs & ids3 & -> & Eh3 & Hd & F3). cbn [mbind option_bind].
  exists s3, p3, (at_request (attempts burst) :: reqs), ids3. rewrite (hf_seq _ _ _ _ _ _ _ _ _ F1) in *.
  split_and!; [by rewrite Eh|by rewrite Eh3|constructor; [by eexists|done]|].
  simpl. replace (n + S (length reqs))%nat with (S n + length reqs)%nat by lia. exact F3.
Qed.

(** A complete response gets its fate. *)
Lemma http_on_complete_ok n ids pending ends s p warmup_end measuring cr i : hflight opt start h0 n ids (i :: pending) ends s p ->
  hc_scheduled_ns cr.1 = sched opt start i ->
  exists s' f, http_on_complete opt warmup_end measuring cr s = Some s' /\
    (f = Refused \/ f = Answered cr.2 measuring) /\ hflight opt start h0 n ids pending (ends ++ [(i, f)]) s' p.
Proof using All.
  intros [Hseq Hnext HT Hcur Honce Hsent Hrec Hmeas Hbad Hlost Hh] Hs. unfold http_on_complete.
  assert (forall f, live_ids ids ++ pending ++ map fst (ends ++ [(i, f)]) ≡ₚ seq 0 n) as Once.
  { intros f. rewrite <- Honce, map_app. apply Permutation_app_head. simpl. rewrite (assoc_L (++)). symmetry. apply Permutation_cons_append. }
  destruct (body_verdict cr.1) as [v|].
  2:{ eexists _, Refused. split; [reflexivity|]. split; [by left|].
      split; cbn -[Z.add fate_samples]; rewrite ?countb_app; try assumption; try (simpl; lia); [by apply Once|].
      rewrite fate_samples_app, app_nil_r. destruct Hh; by split. }
  destruct (complete_spec opt h0 (fate_samples opt start ends) warmup_end (hc_scheduled_ns cr.1) cr.2 measuring (bump_tally (count_verdict v) s) E0)
    as (s' & -> & Et & (K1 & K2 & K3 & K4) & Hh'); [destruct Hh; by split|].
  exists s', (Answered cr.2 measuring). split; [reflexivity|]. split; [by right|].
  destruct (count_verdict_aside v) as [(A1 & A2 & A3 & A4) A5].
  split; rewrite ?Et, ?K2, ?K3, ?countb_app; cbn -[Z.add fate_samples count_verdict seq]; rewrite ?A1, ?A2, ?A3, ?A4, ?A5; try assumption; try lia;
    [by apply Once|].
  rewrite fate_samples_app. rewrite Hs in Hh'. destruct measuring; exact Hh'.
Qed.

Lemma http_complete_all_ok warmup_end measuring l : forall cids n ids ends s p,
  Forall2 (fun cr i => hc_scheduled_ns cr.1 = sched opt start i) l cids -> hflight opt start h0 n ids cids ends s p ->
  exists s' more, http_complete_all opt warmup_end measuring l s = Some s' /\
    Forall (fun e => e.2 = Refused \/ exists recv, e.2 = Answered recv measuring) more /\
    hflight opt start h0 n ids [] (ends ++ more) s' p.
Proof using All.
  induction l as [|cr l IH]; intros cids n ids ends s p HF F.
  { apply Forall2_nil_inv_l in HF as ->. exists s, []. rewrite app_nil_r. split_and!; [reflexivity|constructor|exact F]. }
  apply Forall2_cons_inv_l in HF as (i & cids0 & Hs & HF & ->).
  destruct (http_on_complete_ok _ _ _ _ _ _ warmup_end measuring cr i F Hs) as (s1 & f & E1 & Hf & F1).
  destruct (IH _ _ _ _ _ _ HF F1) as (s2 & more & E2 & Hm & F2). exists s2, ((i, f) :: more).
  split_and!; [cbn [http_complete_all]; rewrite E1; exact E2| |by rewrite <- (assoc_L (++)) in F2].
  constructor; [|exact Hm]. destruct Hf as [-> | ->]; [by left|right; by eexists].
Qed.

(** [drain] takes the complete responses off the connections. *)
Lemma pool_drain_ok events n ids ends s p : hflight opt start h0 n ids [] ends s p ->
  exists ids' cids drops, Forall2 (fun cr i => hc_scheduled_ns cr.1 = sched opt start i) (drain events p).2 cids /\
    hp_host (drain events p).1 = hp_host p /\
    hflight opt start h0 n ids' cids (ends ++ map (fun i => (i, Dropped)) drops) s (drain events p).1.
Proof using All.
  intros [Hseq Hnext HT Hcur Honce Hsent Hrec Hmeas Hbad Hlost Hh].
  destruct (drain_table opt start (hp_conns p) ids events HT) as (ids' & cids & drops & H1 & H2 & H3).
  exists ids', cids, drops. split; [exact H2|]. split; [reflexivity|].
  split; try assumption; try (rewrite (countb_fates _ _ false) by reflexivity; rewrite Z.add_0_r; assumption).
  - simpl. by rewrite length_map, length_imap.
  - rewrite <- Honce, H3, map_app, map_map, map_id, <- !(assoc_L (++)). apply Permutation_app_head, Permutation_app_head. simpl.
    apply Permutation_app_comm.
  - by rewrite samples_fates.
Qed.

Lemma http_sweep_ok sweep_now reopen n ids ends s p : hflight opt start h0 n ids [] ends s p ->
  exists ids' more, let r := http_sweep opt sweep_now reopen s p in
    Forall (fun e => e.2 = TimedOut) more /\ hp_host r.2 = hp_host p /\ hflight opt start h0 n ids' [] (ends ++ more) r.1 r.2.
Proof using All.
  intros [Hseq Hnext HT Hcur Honce Hsent Hrec Hmeas Hbad Hlost [K1 K2 K3]].
  destruct (http_sweep_table opt start (timeout_ns opt) sweep_now (hp_conns p) ids reopen (tally_ s) HT)
    as (ids' & out & H1 & H2 & H3 & H4 & H5 & H6 & H7). cbv zeta in *.
  exists ids', (map (fun i => (i, TimedOut)) out). split; [by apply Forall_map, Forall_true|]. split; [reflexivity|].
  split; cbn [http_sweep fst snd tally_ seq_ next_send_ns_ hp_conns hp_cursor];
    try assumption; try (rewrite (countb_fates _ _ false) by reflexivity; lia); try lia.
  - by rewrite length_map, length_imap.
  - rewrite <- Honce, H2, map_app, map_map, map_id, <- !(assoc_L (++)). apply Permutation_app_head. simpl. apply Permutation_app_comm.
  - rewrite (countb_fates _ _ true) by reflexivity. lia.
  - rewrite samples_fates by done. by split.
Qed.

(** What a turn adds to the fates: replies of the turn, timeouts and drops. *)
Lemma http_turn_ok t n ids ends s p : hflight opt start h0 n ids [] ends s p ->
  exists s' p' reqs ids' more, http_turn opt start t s p = Some (s', p', texts opt start (hp_host p) n reqs) /\
    hp_host p' = hp_host p /\ Forall (fun req => exists b, req = at_request (ht_attempts t b)) reqs /\
    Forall (fun e => forall recv, e.2 = Answered recv true -> warmup_end_ns opt start <= ht_now t) more /\
    hflight opt start h0 (n + length reqs) ids' [] (ends ++ more) s' p'.
Proof using All.
  intros F. unfold http_turn. set (measuring := warmup_end_ns opt start <=? ht_now t).
  destruct (http_send_due_ok 256 (ht_now t) measuring (ht_attempts t) 0 _ _ _ _ _ F) as (s1 & p1 & reqs & ids1 & -> & Eh & Hd & F1).
  cbn [mbind option_bind]. destruct (pool_drain_ok (ht_events t) _ _ _ _ _ F1) as (ids2 & cids & drops & Hc & Eh2 & F2).
  destruct (drain (ht_events t) p1) as [p2 completed]. simpl in Hc, Eh2, F2.
  destruct (http_complete_all_ok (warmup_end_ns opt start) measuring completed _ _ _ _ _ _ Hc F2) as (s2 & more & -> & Hm & F3).
  cbn [mbind option_bind]. rewrite <- (assoc_L (++)) in F3.
  assert (Forall (fun e : nat * Fate => forall recv, e.2 = Answered recv true -> warmup_end_ns opt start <= ht_now t) (map (fun i => (i, Dropped)) drops ++ more)) as HF.
  { apply Forall_app. split; [by apply Forall_map, Forall_true|]. eapply Forall_impl; [exact Hm|].
    intros e [He|[recv He]] recv' E; rewrite He in E; [done|]. injection E as _ E. by apply Z.leb_le. }
  destruct (sweep_at_ns_ s2 <=? ht_now t).
  - destruct (http_sweep_ok (ht_sweep_now t) (ht_reopen t) _ _ _ _ _ F3) as (ids3 & late & Hl & Eh3 & F4). cbv zeta in *.
    destruct (http_sweep opt (ht_sweep_now t) (ht_reopen t) s2 p2) as [s3 p3]. simpl in Eh3, F4. rewrite <- (assoc_L (++)) in F4.
    eexists s3, p3, reqs, ids3, _. split; [reflexivity|]. split; [congruence|]. split; [exact Hd|]. split; [|exact F4].
    apply Forall_app. split; [exact HF|]. eapply Forall_impl; [exact Hl|]. intros e -> recv [=].
  - eexists s2, p2, reqs, ids2, _. split; [reflexivity|]. split; [congruence|]. split; [exact Hd|]. split; [exact HF|exact F3].
Qed.

Lemma http_turns_ok ts : forall n ids ends s p, hflight opt start h0 n ids [] ends s p ->
  exists s' p' reqs ids' more, http_turns opt start ts s p = Some (s', p', texts opt start (hp_host p) n reqs) /\
    Forall (fun req => exists t b, t ∈ ts /\ req = at_request (ht_attempts t b)) reqs /\
    Forall (fun e => forall recv, e.2 = Answered recv true -> exists t, t ∈ ts /\ warmup_end_ns opt start <= ht_now t < end_ns opt start) more /\
    hflight opt start h0 (n + length reqs) ids' [] (ends ++ more) s' p'.
Proof using All.
  induction ts as [|t ts IH]; intros n ids ends s p F; cbn [http_turns];
    [|destruct (Z.leb_spec (end_ns opt start) (ht_now t)) as [|Hnow]].
  1-2: exists s, p, [], ids, []; rewrite Nat.add_0_r, app_nil_r; split_and!; [reflexivity|constructor|constructor|exact F].
  destruct (http_turn_ok t _ _ _ _ _ F) as (s1 & p1 & r1 & ids1 & m1 & -> & Eh & Hr1 & Hm1 & F1). cbn [mbind option_bind].
  destruct (IH _ _ _ _ _ F1) as (s2 & p2 & r2 & ids2 & m2 & -> & Hr2 & Hm2 & F2). cbn [mbind option_bind]. rewrite Eh.
  exists s2, p2, (r1 ++ r2), ids2, (m1 ++ m2). rewrite texts_app, length_app, Nat.add_assoc, (assoc_L (++)).
  split_and!; [reflexivity| | |exact F2]; apply Forall_app; split; eapply Forall_impl; [exact Hr1| |exact Hr2| |exact Hm1| |exact Hm2|].
  - intros req [b ->]. exists t, b. split; [left|reflexivity].
  - intros req (t' & b & Ht & ->). exists t', b. split; [by right|reflexivity].
  - intros e He recv E. exists t. split; [left|]. specialize (He recv E). lia.
  - intros e He recv E. destruct (He recv E) as (t' & Ht & H). exists t'. split; [by right|exact H].
Qed.

(** A complete response of the last drain is an answer, never a sample. *)
Lemma tail_completed l : forall cids n ids ends s p, Forall2 (fun (cr : HConn * Z) i => hc_scheduled_ns cr.1 = sched opt start i) l cids ->
  hflight opt start h0 n ids cids ends s p ->
  hflight opt start h0 n ids [] (ends ++ map (fun i => (i, Answered 0 false)) cids)
    (fold_left (fun s _ => bump_tally (one_received false) s) l s) p.
Proof using All.
  induction l as [|cr l IH]; intros cids n ids ends s p HF F.
  { apply Forall2_nil_inv_l in HF as ->. rewrite app_nil_r. exact F. }
  apply Forall2_cons_inv_l in HF as (i & cids0 & Hs & HF & ->). cbn [map fold_left].
  rewrite (cons_middle _ ends), (assoc_L (++)). apply IH; [exact HF|].
  destruct F as [Hseq Hnext HT Hcur Honce Hsent Hrec Hmeas Hbad Hlost [K1 K2 K3]].
  split; cbn -[Z.add fate_samples seq]; rewrite ?countb_app; try assumption; try (simpl; lia).
  - rewrite <- Honce, map_app. apply Permutation_app_head. simpl. rewrite (assoc_L (++)). symmetry. apply Permutation_cons_append.
  - rewrite fate_samples_app, app_nil_r. by split.
Qed.

Lemma http_drain_tail_ok rounds : forall n ids ends s p, hflight opt start h0 n ids [] ends s p ->
  exists more, Forall (fun e => forall recv, e.2 <> Answered recv true) more /\
    http_account opt start h0 n (ends ++ more) (http_drain_tail rounds s p).1.
Proof using All.
  induction rounds as [|events rounds IH]; intros n ids ends s p F; cbn [http_drain_tail].
  - destruct F as [Hseq Hnext HT Hcur Honce Hsent Hrec Hmeas Hbad Hlost [K1 K2 K3]].
    exists (map (fun i => (i, TimedOut)) (live_ids ids)). split; [by apply Forall_map, Forall_true|].
    unfold busy_count. rewrite (busy_live _ _ _ _ HT). cbn [fst].
    split; cbn -[Z.add fate_samples seq]; try (rewrite (countb_fates _ _ false) by reflexivity; lia); try lia.
    + rewrite map_app, map_map, map_id, <- Honce. apply Permutation_app_comm.
    + rewrite (countb_fates _ _ true) by reflexivity. lia.
    + rewrite samples_fates by done. by split.
  - destruct (Nat.eqb_spec (busy_count p) 0) as [Hz|Hz].
    + exists []. split; [constructor|]. rewrite app_nil_r. destruct F as [Hseq Hnext HT Hcur Honce Hsent Hrec Hmeas Hbad Hlost Hh].
      unfold busy_count in Hz. rewrite (busy_live _ _ _ _ HT) in Hz. apply nil_length_inv in Hz. rewrite Hz in Honce. by split.
    + destruct (pool_drain_ok events _ _ _ _ _ F) as (ids2 & cids & drops & Hc & _ & F2).
      destruct (drain events p) as [p2 completed]. simpl in Hc, F2.
      destruct (IH _ _ _ _ _ (tail_completed _ _ _ _ _ _ _ Hc F2)) as (more & Hm & Ha). rewrite <- !(assoc_L (++)) in Ha.
      eexists. split; [|exact Ha]. repeat (apply Forall_app; split); [by apply Forall_map, Forall_true..|exact Hm].
Qed.
End HFlight.

Lemma fates_total ends : Z.of_nat (length ends) =
  countb is_answered ends + countb is_refused ends + countb is_timed_out ends + countb is_dropped ends.
Proof. induction ends as [|[i []] ends IH]; cbn [countb length]; [done|..]; cbn -[Z.add Z.of_nat countb]; lia. Qed.

(** A run over a connected pool ends, and accounts for every request. *)
Lemma http_loop_runs opt start host connects ts tail : connects <> [] -> forallb id connects = true ->
  0 <= duration_s opt < 2 ^ 32 - 1 ->
  exists h0 s reqs ends, latency_histogram = Some h0 /\
    run_http opt start host connects ts tail = Some (Some (s, texts opt start host 0 reqs)) /\
    Forall (fun req => exists t b, t ∈ ts /\ req = at_request (ht_attempts t b)) reqs /\
    http_account opt start h0 (length reqs) ends s /\
    Forall (fun e => forall recv, e.2 = Answered recv true -> exists t, t ∈ ts /\ warmup_end_ns opt start <= ht_now t < end_ns opt start) ends.
Proof.
  intros Hne Hc Hd. destruct latency_histogram_ok as (h0 & _ & _ & E0 & _).
  unfold run_http, open_pool. rewrite Hc. set (p := mkPool _ 0 host). unfold new_sender. rewrite E0. cbn [mbind option_bind].
  set (s0 := mkSender _ _ _ _ _ _ _ _ _).
  assert (hflight opt start h0 0 (replicate (length connects) None) [] [] s0 p) as F.
  { assert (recorded h0 h0) as R by (by exists []).
    split; try reflexivity.
    - clear -connects. induction connects as [|[] l IH]; constructor; done.
    - unfold p. simpl. rewrite length_map. destruct connects; [done|simpl; lia].
    - simpl. rewrite app_nil_r. clear. induction (length connects); done.
    - split; [done|done|]. unfold s0. cbn [per_second_ per_second_count_]. rewrite !length_replicate.
      destruct (timeline opt); rewrite ?length_replicate, ?(wrap_id 32 (duration_s opt + 1)) by (unfold fits; lia); split; try (simpl; lia); [by apply Forall_replicate|constructor]. }
  destruct (http_turns_ok opt start h0 E0 ts _ _ _ _ _ F) as (s1 & p1 & reqs & ids1 & more & -> & Hr & Hf & F1). cbn [mbind option_bind].
  destruct (http_drain_tail_ok opt start h0 E0 tail _ _ _ _ _ F1) as (late & Hl & Ha).
  eexists h0, _, reqs, _. split; [reflexivity|]. split; [reflexivity|]. split; [exact Hr|]. split; [exact Ha|].
  apply Forall_app. split; [exact Hf|]. eapply Forall_impl; [exact Hl|]. intros e He recv E. by destruct (He recv).
Qed.


(** ** Samples *)

Definition sample_response : string :=
  (response_head 200 "OK" 20 true +:+ "{" +:+ key_str "verdict" "ALLOW" +:+ "}" +:+ Yaml.endl)%string.

(** Two connections, three requests due: the third finds no connection; the first is
    answered, in two pieces, and the connection of the second is closed. *)
Definition http_turns_sample : list HTurn :=
  [mkHTurn 3000000 sample_attempt (fun i => if (i =? 0)%nat then HBytes (str_take 60 sample_response) 3100000 else HClosed) 0 (fun _ => true);
   mkHTurn 3000001 (fun b => mkAttempt (at_request (sample_attempt b)) 3000000 false)
     (fun i => if (i =? 0)%nat then HBytes (str_drop 60 sample_response) 3200000 else HNothing) 0 (fun _ => true)].

Example http_sample : option_map (option_map (fun r => (tally_ r.1, length r.2, total_count_ (latency_ r.1))))
  (run_http sample_opts 1000000 "127.0.0.1:9600" [true; true] http_turns_sample []) =
  Some (Some (mkTally 2 1 1 0 0 0 0 0 1 0 1 2000000 2 0, 2%nat, 1)).
Proof. vm_compute. reflexivity. Qed.

