(* ===== verification/HttpExchange.v ===== *)
(** * HttpExchange: a request of the load generator through the HTTP front and back

    The query the load generator writes (bench/loadgen.cpp), as the HTTP front
    (src/http_front.cpp) reads it, and the response of the front, as the load generator
    frames it and reads its verdict. *)

From S2P Require Import Prelude Text Imsi Wire Double Probe FlatSet Store Rules Engine Yaml Golden Hdr HttpFront AdminHttp Random RequestGen Roster LoadGen HttpClient.
From Stdlib Require Import ZArith Lia Bool Ascii String.
From stdpp Require Import base list numbers strings gmap.
Local Open Scope Z_scope.

(** ** The query, written and read *)

Definition free_of (c : ascii) (s : string) : Prop := all_chars (fun d => negb (Ascii.eqb d c)) s = true.

Lemma digits_free c s : (code c < 48 \/ 57 < code c) -> all_digits s = true -> free_of c s.
Proof. intros Hc. unfold free_of. rewrite digits_all_chars. apply all_chars_impl. intros d Hd. by rewrite digit_not. Qed.

Lemma number_free c v : 0 <= v -> (code c < 48 \/ 57 < code c) -> free_of c (to_string v).
Proof. intros H0 Hc. apply digits_free; [done|]. by apply to_string_value. Qed.

(** A pair the loop over the parameters gives back. *)
Definition plain_pair (kv : string * string) : Prop :=
  free_of "&" kv.1 /\ free_of "=" kv.1 /\ free_of "&" kv.2 /\ kv.1 <> EmptyString.

Lemma pair_of_plain kv : plain_pair kv ->
  match (kv.1 +:+ "=" +:+ kv.2)%string with
  | EmptyString => []
  | _ => match split_at_char "=" (kv.1 +:+ "=" +:+ kv.2)%string with
         | None => [((kv.1 +:+ "=" +:+ kv.2)%string, EmptyString)] | Some kv => [kv] end
  end = [kv].
Proof.
  intros (_ & H & _ & Hne). destruct kv as [k v]. cbn [fst snd] in *.
  assert (split_at_char "=" (k +:+ "=" +:+ v)%string = Some (k, v)) as E by exact (split_first "=" k v H).
  rewrite E. destruct (k +:+ "=" +:+ v)%string as [|c t]; [done|reflexivity].
Qed.

Lemma params_of_query : forall ps n, Forall plain_pair ps -> (length ps <= S n)%nat -> params_loop n (query_text ps) = ps.
Proof.
  induction ps as [|kv ps IH]; intros n HF Hn; [by destruct n|]. apply Forall_cons in HF as [Hkv HF].
  assert (split_at_char "&" (kv.1 +:+ "=" +:+ kv.2)%string = None) as Hsp.
  { destruct Hkv as (H1 & _ & H2 & _). apply split_none. rewrite all_chars_app. unfold free_of in *. rewrite H1. exact H2. }
  pose proof (pair_of_plain kv Hkv) as Hp. destruct ps as [|kv' ps].
  - unfold query_text. cbn [map String.concat]. destruct n; cbn [params_loop]; [exact Hp|]. rewrite Hsp. exact Hp.
  - destruct n as [|n]; [simpl in Hn; lia|].
    change (query_text (kv :: kv' :: ps)) with ((kv.1 +:+ "=" +:+ kv.2) +:+ String "&" (query_text (kv' :: ps)))%string.
    cbn [params_loop]. rewrite (split_char_app "&" _ (query_text (kv' :: ps)) Hsp). rewrite Hp. simpl app. f_equal. apply IH; [exact HF|simpl in *; lia].
Qed.

Lemma query_long ps : (length ps <= S (String.length (query_text ps)))%nat.
Proof.
  unfold query_text. induction ps as [|kv ps IH]; [simpl; lia|]. destruct ps as [|kv' ps]; [simpl; lia|].
  cbn [map String.concat] in *. rewrite !str_app_length. simpl in *. lia.
Qed.

Lemma for_each_param_query ps : Forall plain_pair ps -> for_each_param (query_text ps) = ps.
Proof. intros HF. apply params_of_query; [exact HF|apply query_long]. Qed.

(** A request the query can carry: digits that fit, a network code of six digits, a data
    network of the rules that is not also the name of one. *)
Record offerable (rs : RuleSet) (req : PolicyRequest) : Prop := {
  of_imsi : 0 < rq_imsi req < 10 ^ 15;
  of_imei : 0 <= rq_imei req < 10 ^ 15;
  of_plmn : 100000 <= rq_plmn req <= 999999;
  of_dnn : 0 <= rq_dnn_id req < Z.of_nat (length (rs_dnn_names rs)) /\ rq_dnn_id req < 256 /\
    index_of (to_string (rq_dnn_id req)) (rs_dnn_names rs) = None;
  of_rat : 0 <= rq_rat_type req < 3;
  of_5qi : 1 <= rq_requested_5qi req <= 255;
  of_tac : 0 <= rq_tac req <= 65535;
  of_minute : 0 <= rq_local_minute req <= 1439;
  of_flags : 0 <= rq_flags req < 8;
  of_usage : fits 64 (rq_bytes_used_period req) /\ (has_flag req kReqFlagUsageValid = false -> rq_bytes_used_period req = 0) }.

(** What of a request the query carries. *)
Definition http_view (req : PolicyRequest) (seq : Z) : PolicyRequest :=
  mkRequest kMagicVersion seq (rq_imsi req) (rq_imei req) 0 (rq_bytes_used_period req) (rq_plmn req) (rq_tac req)
    (rq_rat_type req) (rq_dnn_id req) (rq_requested_5qi req) (rq_flags req) (rq_local_minute req) 0 0 0.

Lemma parse_u64_sv_to_string v : fits 64 v -> parse_u64_sv (to_string v) = Some v.
Proof.
  intros Hv. destruct (to_string_value v (proj1 Hv)) as [Hd Hval]. pose proof (to_string_length_20 v Hv) as Hl.
  unfold parse_u64_sv. destruct (to_string v) as [|c t] eqn:E.
  { destruct (to_string_first v (proj1 Hv)) as (c & t & E' & _). congruence. }
  rewrite <- E in *. unfold strlen. destruct (Z.ltb_spec 20 (Z.of_nat (String.length (to_string v)))); [lia|].
  rewrite digits_loop_spec by (split; lia). rewrite Hd, Hval. by rewrite wrap_id.
Qed.

Lemma bounded_to_string lo hi v : fits 64 v -> lo <= v <= hi -> bounded lo hi (to_string v) = Some v.
Proof.
  intros Hf Hv. unfold bounded. rewrite parse_u64_sv_to_string by done.
  destruct (Z.leb_spec lo v), (Z.leb_spec v hi); try lia. done.
Qed.

Lemma rat_to_string v : 0 <= v < 3 -> rat_value (to_string v) = Some v.
Proof. intros Hv. assert (v = 0 \/ v = 1 \/ v = 2) as [->|[->| ->]] by lia; by vm_compute. Qed.

Lemma no_plmn_sep s : all_digits s = true -> find_plmn_sep s = None.
Proof.
  induction s as [|c s IH]; [done|]. simpl. intros [Hc Hs]%andb_prop. unfold is_plmn_sep.
  rewrite !(digit_not c) by (done || (vm_compute; by left)). simpl. by rewrite (IH Hs).
Qed.

Lemma all_digits_split n s : all_digits s = true -> all_digits (str_take n s) = true /\ all_digits (str_drop n s) = true /\
  dec_value s 0 = dec_value (str_take n s) 0 * 10 ^ Z.of_nat (String.length (str_drop n s)) + dec_value (str_drop n s) 0.
Proof.
  intros H. rewrite <- (str_take_drop n s) in H. rewrite digits_all_chars, all_chars_app in H. apply andb_prop in H as [H1 H2].
  rewrite <- !digits_all_chars in *. split; [done|]. split; [done|]. rewrite <- (str_take_drop n s) at 1.
  generalize (str_take n s), (str_drop n s). clear. intros a b.
  assert (forall v, dec_value (a +:+ b)%string v = dec_value a v * 10 ^ Z.of_nat (String.length b) + dec_value b 0) as G; [|apply G].
  induction a as [|c a IH]; intros v; [apply dec_value_acc|exact (IH _)].
Qed.

Lemma parse_plmn_number v : 100000 <= v <= 999999 -> parse_plmn (to_string v) = Some v.
Proof.
  intros Hv. destruct (to_string_value v ltac:(lia)) as [Hd Hval]. unfold parse_plmn. rewrite no_plmn_sep by done.
  assert (String.length (to_string v) = 6%nat) as Hl.
  { pose proof (dec_value_bound _ Hd) as Hb. rewrite Hval in Hb. pose proof (dec_length_upper (Z.to_nat (Z.log2 v)) v 6 ltac:(lia) ltac:(simpl; lia)) as Hu.
    rewrite <- to_string_length in Hu. apply Nat.le_antisymm; [exact Hu|]. apply Nat.nlt_ge. intros Hlt.
    assert (10 ^ Z.of_nat (String.length (to_string v)) <= 10 ^ 5) by (apply Z.pow_le_mono_r; lia). lia. }
  rewrite Hl. cbn [Nat.eqb negb andb]. destruct (all_digits_split 3 _ Hd) as (H1 & H2 & H3).
  assert (String.length (str_take 3 (to_string v)) = 3%nat) as L1 by (rewrite str_take_length, Hl; reflexivity).
  assert (String.length (str_drop 3 (to_string v)) = 3%nat) as L2 by (rewrite str_drop_length, Hl; reflexivity).
  rewrite !parse_digits_dec by (done || lia). pose proof (dec_value_bound _ H1) as B1. pose proof (dec_value_bound _ H2) as B2.
  rewrite L1 in B1. rewrite L2 in B2, H3. rewrite Hval in H3. change (10 ^ Z.of_nat 3) with 1000 in *.
  unfold make_plmn. rewrite !wrap_id by (unfold fits; rewrite ?wrap_id by (unfold fits; lia); lia). f_equal. lia.
Qed.

Section Params.
Variable rs : RuleSet.

Lemma param_imsi v r : 0 < v < 10 ^ 15 -> HttpFront.param rs "imsi" (printf_0 15 v) r = Some (set_imsi v r).
Proof using.
  intros Hv. unfold HttpFront.param. cbn [String.eqb]. simpl. rewrite printf_0_format by (simpl; lia).
  unfold parse_imsi, kImsiDigits. rewrite (parse_format_digits 15) by (simpl; lia). simpl. destruct (Z.eqb_spec v 0); [lia|done].
Qed.

Lemma param_imei v r : 0 <= v < 10 ^ 15 -> HttpFront.param rs "imei" (printf_0 15 v) r = Some (set_imei v r).
Proof using.
  intros Hv. unfold HttpFront.param. simpl. rewrite printf_0_format by (simpl; lia). unfold parse_imei, kImeiDigits.
  destruct (format_imsi v 15) as [|c t] eqn:E.
  - apply (f_equal String.length) in E. unfold format_imsi in E. rewrite format_digits_length in E. done.
  - rewrite <- E. rewrite (parse_format_digits 15) by (simpl; lia). done.
Qed.

Lemma param_plmn v r : 100000 <= v <= 999999 -> HttpFront.param rs "plmn" (to_string v) r = Some (set_plmn v r).
Proof using. intros Hv. unfold HttpFront.param. simpl. by rewrite parse_plmn_number. Qed.

Lemma param_dnn v r : 0 <= v < Z.of_nat (length (rs_dnn_names rs)) -> v < 256 -> index_of (to_string v) (rs_dnn_names rs) = None ->
  HttpFront.param rs "dnn" (to_string v) r = Some (set_dnn v r).
Proof using.
  intros Hv Hs Hi. unfold HttpFront.param. simpl. unfold dnn_value. rewrite Hi, parse_u64_sv_to_string by (unfold fits; lia).
  destruct (Z.ltb_spec v (Z.of_nat (length (rs_dnn_names rs)))); [|lia]. simpl. by rewrite wrap_id by (unfold fits; lia).
Qed.

Lemma param_small key lo hi (set : Z -> PolicyRequest -> PolicyRequest) v r : lo <= v <= hi -> fits 64 v ->
  (forall value r, HttpFront.param rs key value r = (n ← bounded lo hi value; Some (set n r))) ->
  HttpFront.param rs key (to_string v) r = Some (set v r).
Proof using. intros Hv Hf E. rewrite E, bounded_to_string by done. done. Qed.

Lemma param_rat v r : 0 <= v < 3 -> HttpFront.param rs "rat" (to_string v) r = Some (set_rat v r).
Proof using. intros Hv. unfold HttpFront.param. simpl. by rewrite rat_to_string. Qed.

Lemma param_seq v r : fits 32 v -> HttpFront.param rs "seq" (to_string v) r = Some (HttpFront.set_seq v r).
Proof using. intros Hv. unfold HttpFront.param. simpl. rewrite parse_u64_sv_to_string by (unfold fits in *; lia). by rewrite wrap_id. Qed.

Lemma param_usage v r : fits 64 v -> HttpFront.param rs "usage" (to_string v) r = Some (set_usage_flags v (Z.lor (rq_flags r) kReqFlagUsageValid) r).
Proof using. intros Hv. unfold HttpFront.param. simpl. by rewrite parse_u64_sv_to_string. Qed.

Lemma param_tethering r : HttpFront.param rs "tethering" "1" r = Some (add_flag kReqFlagTetheringDetected r).
Proof using. reflexivity. Qed.

Lemma param_emergency r : HttpFront.param rs "emergency" "1" r = Some (add_flag kReqFlagEmergency r).
Proof using. reflexivity. Qed.
End Params.

Lemma printf_0_free c v : 0 <= v < 10 ^ 15 -> (code c < 48 \/ 57 < code c) -> free_of c (printf_0 15 v).
Proof. intros Hv Hc. rewrite printf_0_format by (simpl; lia). apply digits_free; [done|]. apply format_digits_ok. Qed.

Lemma flag_cases (P : Z -> Prop) z : 0 <= z < 8 -> P 0 -> P 1 -> P 2 -> P 3 -> P 4 -> P 5 -> P 6 -> P 7 -> P z.
Proof.
  intros Hz. assert (z = 0 \/ z = 1 \/ z = 2 \/ z = 3 \/ z = 4 \/ z = 5 \/ z = 6 \/ z = 7) as C by lia.
  repeat destruct C as [->|C]; [..|subst z]; tauto.
Qed.

Definition issue_keys : list string :=
  ["imsi"; "imei"; "plmn"; "dnn"; "rat"; "qos_5qi"; "tac"; "minute"; "seq"; "tethering"; "emergency"; "usage"]%string.

(** Every value of the query is a number. *)
Lemma issue_params_digits rs req seq : offerable rs req -> fits 32 seq ->
  Forall (fun kv => kv.1 ∈ issue_keys /\ all_digits kv.2 = true) (issue_params req seq).
Proof.
  intros [H1 H2 H3 H4 H5 H6 H7 H8 H9 [[H10 _] _]] [H11 _]. unfold issue_params.
  assert (forall k v, k ∈ issue_keys -> 0 <= v -> k ∈ issue_keys /\ all_digits (to_string v) = true) as N
    by (intros k v Hk Hv; split; [done|by apply to_string_value]).
  assert (forall k v, k ∈ issue_keys -> 0 <= v < 10 ^ 15 -> k ∈ issue_keys /\ all_digits (printf_0 15 v) = true) as I.
  { intros k v Hk Hv. split; [done|]. rewrite printf_0_format by (simpl; lia). apply format_digits_ok. }
  assert (forall k, In k issue_keys -> k ∈ issue_keys) as M by (intros; by apply list_elem_of_In).
  repeat (apply Forall_app; split); repeat case_match; repeat (apply Forall_cons_2; [|]); try apply Forall_nil_2; cbn [fst snd];
    first [apply N | apply I | split; [|reflexivity]]; (lia || (apply M; simpl; tauto)).
Qed.

Lemma issue_params_plain rs req seq : offerable rs req -> fits 32 seq -> Forall plain_pair (issue_params req seq).
Proof.
  intros O Hs. eapply Forall_impl; [exact (issue_params_digits rs req seq O Hs)|]. intros [k v] [Hk Hv]. cbn [fst snd] in *.
  split_and!; cbn [fst snd]; [..|apply digits_free; [vm_compute; tauto|done]|];
    apply list_elem_of_In in Hk; simpl in Hk; repeat destruct Hk as [<-|Hk]; done.
Qed.

(** The query has neither blanks nor line ends. *)
Lemma query_free rs req seq c : offerable rs req -> fits 32 seq -> c = " "%char \/ c = "013"%char ->
  free_of c (query_text (issue_params req seq)).
Proof.
  intros O Hs Hc. pose proof (issue_params_digits rs req seq O Hs) as HF. unfold query_text.
  induction HF as [|[k v] ps [Hk Hv] _ IH]; [done|]. cbn [fst snd map] in *.
  assert (free_of c (k +:+ "=" +:+ v)%string) as H1.
  { unfold free_of. rewrite !all_chars_app. apply andb_true_intro; split; [|apply andb_true_intro; split].
    - apply list_elem_of_In in Hk. simpl in Hk. destruct Hc as [-> | ->]; repeat destruct Hk as [<-|Hk]; done.
    - by destruct Hc as [-> | ->].
    - apply digits_free; [destruct Hc as [-> | ->]; vm_compute; tauto|done]. }
  destruct ps as [|kv ps]; [exact H1|]. cbn [map String.concat] in *. unfold free_of in *.
  rewrite (all_chars_app _ (k +:+ "=" +:+ v)%string), (all_chars_app _ "&"%string), H1, IH.
  by destruct Hc as [-> | ->].
Qed.

(** The tests of the flags of a known value. *)
#[local] Ltac eval_flags :=
  repeat match goal with |- context [Z.land ?a ?b =? 0] => let v := eval vm_compute in (Z.land a b =? 0) in change (Z.land a b =? 0) with v end.

Lemma http_parse rs req seq : offerable rs req -> fits 32 seq ->
  parse_decide_query rs (query_text (issue_params req seq)) = inr (http_view req seq).
Proof.
  intros O Hs. unfold parse_decide_query. rewrite (for_each_param_query _ (issue_params_plain rs req seq O Hs)).
  destruct O as [H1 H2 H3 (H4 & H4' & H4'') H5 H6 H7 H8 H9 [H10 H11]]. unfold issue_params, has_flag in *. cbn [app parse_params].
  rewrite param_imsi, param_imei, param_plmn, param_dnn, param_rat by done.
  rewrite (param_small rs "qos_5qi" 1 255 set_5qi), (param_small rs "tac" 0 65535 set_tac), (param_small rs "minute" 0 1439 set_minute), param_seq
    by (reflexivity || done || (unfold fits; lia)).
  destruct req as [mv sq imsi imei cts usage plmn tac rat dnn q5 flags minute ul dl rv]. unfold http_view. simpl in *.
  revert H11. apply (flag_cases (fun flags => (negb (Z.land flags kReqFlagUsageValid =? 0) = false -> usage = 0) -> _) flags H9);
    intros H11; eval_flags; cbn [negb app parse_params];
    rewrite ?param_tethering, ?param_emergency; cbn [parse_params]; rewrite ?param_emergency; cbn [parse_params];
    rewrite ?param_usage by done; cbn [parse_params]; rewrite ?(H11 eq_refl); reflexivity.
Qed.

(** The HTTP front reads the request the load generator wrote.  For every request the
    query can carry, the parameters the load generator prints parse, under the rules of
    the front, to a request with the same subscriber, device, network, data network,
    access type, 5QI, area, minute, flags, usage and sequence number; the time stamp and
    the requested rates are not part of the query. *)
Theorem http_query_roundtrip rs req seq : offerable rs req -> fits 32 seq ->
  parse_decide_query rs (query_text (issue_params req seq)) = inr (http_view req seq).
Proof. apply http_parse. Qed.

(** ** Framing *)

Lemma index_skip c pat s t : free_of c s ->
  String.index 0 (String c pat) (s +:+ t)%string = option_map (Nat.add (String.length s)) (String.index 0 (String c pat) t).
Proof.
  unfold free_of. induction s as [|d s IH]; intros H.
  { change (EmptyString +:+ t)%string with t. by destruct (String.index 0 (String c pat) t). }
  cbn [all_chars] in H. apply andb_prop in H as [Hd Hs]. apply negb_true_iff, Ascii.eqb_neq in Hd.
  change (String d s +:+ t)%string with (String d (s +:+ t)%string). cbn [String.index String.prefix].
  destruct (ascii_dec c d) as [->|_]; [done|]. rewrite (IH Hs). by destruct (String.index 0 (String c pat) t).
Qed.

(** The text of a request in the input buffer of the front: one head, the whole text. *)
Lemma issue_text_framed host req seq : free_of "013" host -> free_of "013" (query_text (issue_params req seq)) ->
  exists head_end, String.index 0 (crlf +:+ crlf)%string (issue_text host req seq) = Some head_end /\
    str_drop (head_end + 4) (issue_text host req seq) = EmptyString /\
    request_line (str_take head_end (issue_text host req seq)) = decide_line (query_text (issue_params req seq)).
Proof.
  intros Hh Hq. set (q := query_text (issue_params req seq)) in *. set (L := decide_line q).
  assert (free_of "013" L) as HL.
  { unfold L, decide_line, free_of. rewrite !all_chars_app. unfold free_of in Hq. rewrite Hq. reflexivity. }
  set (H := ("Host: " +:+ host)%string).
  assert (issue_text host req seq = (L +:+ crlf +:+ H +:+ crlf +:+ crlf)%string) as ->.
  { unfold issue_text, L, decide_line, H. fold q. rewrite !str_app_assoc. reflexivity. }
  assert (free_of "013" H) as HH by (unfold H, free_of in *; rewrite all_chars_app, Hh; reflexivity).
  exists (String.length L + (2 + String.length H))%nat. split_and!.
  - change (crlf +:+ crlf)%string with (String "013" (String newline crlf)) at 1. rewrite index_skip by done.
    assert (String.index 0 (String "013" (String newline crlf)) (crlf +:+ H +:+ crlf +:+ crlf)%string = Some (2 + String.length H)%nat) as ->; [|reflexivity].
    pose proof (index_skip "013" (String newline crlf) H (crlf +:+ crlf)%string HH) as E.
    change (String.index 0 (String "013" (String newline crlf)) (crlf +:+ crlf)%string) with (Some 0%nat) in E. simpl option_map in E.
    change (crlf +:+ H +:+ crlf +:+ crlf)%string with (String "013" (String newline (H +:+ crlf +:+ crlf)))%string.
    cbn [String.index]. rewrite E. unfold H. cbn. by rewrite Nat.add_0_r.
  - apply str_drop_all. rewrite !str_app_length. simpl. lia.
  - assert (str_take (String.length L + (2 + String.length H)) (L +:+ crlf +:+ H +:+ crlf +:+ crlf)%string = (L +:+ crlf +:+ H)%string) as ->.
    { replace (L +:+ crlf +:+ H +:+ crlf +:+ crlf)%string with ((L +:+ crlf +:+ H) +:+ crlf +:+ crlf)%string by (by rewrite !str_app_assoc).
      apply (str_take_drop_app _ (L +:+ crlf +:+ H)%string). rewrite !str_app_length. reflexivity. }
    unfold request_line. change crlf with (String "013" (String newline EmptyString)) at 1. rewrite index_skip by done.
    change (String.index 0 (String "013" (String newline EmptyString)) (crlf +:+ H)%string) with (Some 0%nat). simpl option_map. rewrite Nat.add_0_r.
    by apply (str_take_drop_app _ L).
Qed.

(** A number at the front of a text that goes on with something else. *)
Lemma strtoull10_prefix v t : fits 64 v -> stops dec_digit t -> strtoull10 (to_string v +:+ t)%string = v.
Proof.
  intros [H0 H1] Ht. destruct (to_string_first v H0) as (c & s & E & Hc & Hs & _). destruct (to_string_value v H0) as [Hd Hv].
  unfold strtoull10. rewrite E. change (String c s +:+ t)%string with (String c (s +:+ t)%string).
  rewrite digit_not_space, digit_no_sign by done. change (String c (s +:+ t)%string) with (String c s +:+ t)%string.
  rewrite <- E, scan_digits_app by done. rewrite Hv. destruct (Z.leb_spec (2 ^ 64) v); [lia|done].
Qed.

(** The end of a head is not in a line that is followed by another. *)
Definition next_line (u : string) : Prop := match u with String d _ => d <> "013"%char | EmptyString => False end.

Lemma index_line L u : free_of "013" L -> next_line u ->
  String.index 0 (crlf +:+ crlf)%string (L +:+ crlf +:+ u)%string =
  option_map (Nat.add (String.length L + 2)) (String.index 0 (crlf +:+ crlf)%string u).
Proof.
  intros HL Hd. change (crlf +:+ crlf)%string with (String "013" (String newline crlf)) at 1. rewrite index_skip by done.
  change (String "013" (String newline crlf)) with (crlf +:+ crlf)%string.
  change (crlf +:+ u)%string with (String "013" (String newline u)).
  assert (String.prefix (crlf +:+ crlf)%string (String "013" (String newline u)) = false) as Hp.
  { destruct u as [|d t]; [done|]. change (crlf +:+ crlf)%string with (String "013" (String newline (String "013" (String newline EmptyString)))).
    simpl in Hd. cbn [String.prefix]. repeat destruct (ascii_dec _ _); congruence. }
  cbn [String.index]. rewrite Hp. change (String.prefix (crlf +:+ crlf)%string (String newline u)) with false. cbn iota.
  destruct (String.index 0 (crlf +:+ crlf)%string u); cbn -[Nat.add]; [f_equal; lia|done].
Qed.

Definition connection_line (ka : bool) : string := ("Connection: " +:+ (if ka then "keep-alive" else "close"))%string.

Lemma response_head_lines n ka body : (response_head 200 "OK" n ka +:+ body)%string =
  ("HTTP/1.1 200 OK" +:+ crlf +:+ "Content-Type: application/json" +:+ crlf +:+ ("Content-Length: " +:+ to_string n) +:+ crlf +:+
   connection_line ka +:+ crlf +:+ crlf +:+ body)%string.
Proof. unfold response_head, connection_line. rewrite !str_app_assoc. reflexivity. Qed.

Lemma index_here c pat t : String.index 0 (String c pat) (String c pat +:+ t)%string = Some 0%nat.
Proof.
  change (String c pat +:+ t)%string with (String c (pat +:+ t)%string). cbn [String.index].
  assert (forall a, String.prefix a (a +:+ t)%string = true) as P.
  { intros a. induction a as [|d a IH]; [by destruct t|]. change (String d a +:+ t)%string with (String d (a +:+ t)%string). cbn [String.prefix].
    destruct (ascii_dec d d); [exact IH|done]. }
  pose proof (P (String c pat)) as Hp. change (String c pat +:+ t)%string with (String c (pat +:+ t)%string) in Hp. by rewrite Hp.
Qed.

(** The client finds the end of the head and the length of the body. *)
Lemma response_head_framed n ka body : fits 64 n -> let out := (response_head 200 "OK" n ka +:+ body)%string in
  String.index 0 (crlf +:+ crlf)%string out = Some (String.length (response_head 200 "OK" n ka) - 4)%nat /\
  String.index 0 "Content-Length: " out = Some 49%nat /\ strtoull10 (str_drop 65 out) = n.
Proof.
  intros Hn. cbv zeta. rewrite response_head_lines. split_and!.
  - assert (free_of "013" ("Content-Length: " +:+ to_string n)%string) as H3.
    { unfold free_of. rewrite all_chars_app. apply andb_true_intro. split; [reflexivity|]. apply number_free; [apply Hn|vm_compute; tauto]. }
    rewrite (index_line "HTTP/1.1 200 OK"), (index_line "Content-Type: application/json"), (index_line _ _ H3) by (done || by destruct ka).
    change (crlf +:+ crlf)%string with (String "013" (String newline crlf)) at 1.
    rewrite index_skip by (by destruct ka).
    replace (crlf +:+ crlf +:+ body)%string with (String "013" (String newline crlf) +:+ body)%string by reflexivity.
    rewrite index_here. cbn [option_map]. f_equal. pose proof (f_equal String.length (response_head_lines n ka "")) as El.
    rewrite !str_app_length in *. cbn [String.length crlf] in *. lia.
  - set (rest := (to_string n +:+ crlf +:+ connection_line ka +:+ crlf +:+ crlf +:+ body)%string).
    change ("HTTP/1.1 200 OK" +:+ crlf +:+ "Content-Type: application/json" +:+ crlf +:+ ("Content-Length: " +:+ to_string n) +:+ crlf +:+
      connection_line ka +:+ crlf +:+ crlf +:+ body)%string
      with ("HTTP/1.1 200 OK" +:+ crlf +:+ "Content-Type: application/json" +:+ crlf +:+ "Content-Length: " +:+ rest)%string.
    destruct rest; reflexivity.
  - change (str_drop 65 _) with (to_string n +:+ crlf +:+ connection_line ka +:+ crlf +:+ crlf +:+ body)%string.
    apply strtoull10_prefix; done.
Qed.

(** ** The verdict in the body *)

Definition not_v (u : string) : Prop := match u with String d _ => d <> "v"%char | EmptyString => True end.

Section Avoid.
Variable value : string.
#[local] Abbreviation pat := (key_str "verdict" value).

Lemma avoid_seg s t : free_of dquote s -> String.index 0 pat t = None -> String.index 0 pat (s +:+ t)%string = None.
Proof using.
  intros Hs Ht. pose proof (index_skip dquote ("verdict" +:+ dq +:+ ":" +:+ dq +:+ value +:+ dq)%string s t Hs) as E.
  change (String dquote ("verdict" +:+ dq +:+ ":" +:+ dq +:+ value +:+ dq)%string) with pat in E. by rewrite E, Ht.
Qed.

Lemma avoid_quote u : not_v u -> String.index 0 pat u = None -> String.index 0 pat (dq +:+ u)%string = None.
Proof using.
  intros Hu Ht. change (dq +:+ u)%string with (String dquote u). cbn [String.index].
  assert (String.prefix pat (String dquote u) = false) as ->; [|by rewrite Ht].
  change pat with (String dquote (String "v" ("erdict" +:+ dq +:+ ":" +:+ dq +:+ value +:+ dq)%string)). cbn [String.prefix].
  destruct (ascii_dec dquote dquote); [|done]. destruct u as [|d t]; [done|]. simpl in Hu. cbn [String.prefix].
  destruct (ascii_dec "v" d); [congruence|done].
Qed.

Lemma avoid_num name v t : free_of dquote name -> not_v (name +:+ dq)%string -> 0 <= v -> String.index 0 pat t = None ->
  String.index 0 pat (key_num name v +:+ t)%string = None.
Proof using.
  intros Hn Hv H0 Ht. unfold key_num. rewrite !str_app_assoc. apply avoid_quote.
  { destruct name; [done|exact Hv]. }
  apply avoid_seg; [done|]. apply avoid_quote; [done|]. apply avoid_seg; [reflexivity|]. apply avoid_seg; [|done].
  apply number_free; [done|vm_compute; tauto].
Qed.

Lemma avoid_str name v t : free_of dquote name -> not_v (name +:+ dq)%string -> free_of dquote v -> (forall t, not_v (v +:+ t)%string) ->
  not_v t -> String.index 0 pat t = None -> String.index 0 pat (key_str name v +:+ t)%string = None.
Proof using.
  intros Hn Hv Hf Hnv Hnt Ht.
  replace (key_str name v +:+ t)%string with (dq +:+ name +:+ dq +:+ ":" +:+ dq +:+ v +:+ dq +:+ t)%string
    by (unfold key_str; by rewrite !str_app_assoc).
  apply avoid_quote; [destruct name; [done|exact Hv]|]. apply avoid_seg; [done|]. apply avoid_quote; [done|].
  apply avoid_seg; [reflexivity|]. apply avoid_quote; [apply Hnv|]. apply avoid_seg; [done|]. by apply avoid_quote.
Qed.
End Avoid.

Lemma reason_name_plain r : free_of dquote (reason_name r) /\ forall t, not_v (reason_name r +:+ t)%string.
Proof. unfold reason_name. destruct (list_find _ _) as [[? []]|]; split; try reflexivity; intros t [=]. Qed.

(** The body after the verdict names no other. *)
Definition after_verdict (d : PolicyDecision) : string :=
  ("," +:+ key_str "reason" (reason_name (d_reason d)) +:+ "," +:+
   key_num "rule_id" (d_rule_id d) +:+ "," +:+ key_num "policy_version" (d_policy_version d) +:+ "," +:+
   key_num "qos_5qi" (d_qos_5qi d) +:+ "," +:+ key_num "arp" (d_arp d) +:+ "," +:+
   key_num "ambr_ul_kbps" (d_ambr_ul_kbps d) +:+ "," +:+ key_num "ambr_dl_kbps" (d_ambr_dl_kbps d) +:+ "," +:+
   key_num "rating_group" (d_rating_group d) +:+ "," +:+ key_num "quota_bytes" (d_quota_bytes d) +:+ "," +:+
   key_num "quota_validity_s" (d_quota_validity_s d) +:+ "," +:+ key_num "flags" (d_flags d) +:+ "," +:+
   key_num "redirect_id" (d_redirect_id d) +:+ "}" +:+ Yaml.endl)%string.

Lemma after_verdict_none value d : msg_ok d -> String.index 0 (key_str "verdict" value) (after_verdict d) = None.
Proof.
  intros H. unfold msg_ok, fields_ok in H. simpl in H. unfold decision_widths, decision_fields in H. rewrite !Forall2_cons in H. decompose [and] H. clear H.
  unfold fits in *. destruct (reason_name_plain (d_reason d)) as [R1 R2]. unfold after_verdict.
  apply avoid_seg; [reflexivity|]. apply avoid_str; [reflexivity|done|exact R1|exact R2|done|].
  do 11 (apply avoid_seg; [reflexivity|]; apply avoid_num; [reflexivity|done|tauto|]).
  apply avoid_seg; [reflexivity|]. reflexivity.
Qed.

Lemma other_verdict V N t : String.prefix (key_str "verdict" V) (key_str "verdict" N +:+ t)%string = false -> free_of dquote N ->
  (forall t, not_v (N +:+ t)%string) -> not_v t -> String.index 0 (key_str "verdict" V) t = None ->
  String.index 0 (key_str "verdict" V) (key_str "verdict" N +:+ t)%string = None.
Proof.
  intros Hp Hf Hn Ht E. set (u := ("verdict" +:+ dq +:+ ":" +:+ dq +:+ N +:+ dq +:+ t)%string).
  assert (key_str "verdict" N +:+ t = String dquote u)%string as Eu by (unfold u, key_str; by rewrite !str_app_assoc).
  rewrite Eu in *. cbn [String.index]. rewrite Hp.
  assert (String.index 0 (key_str "verdict" V) u = None) as ->; [|done]. unfold u.
  apply avoid_seg; [reflexivity|]. apply avoid_quote; [done|]. apply avoid_seg; [reflexivity|]. apply avoid_quote; [apply Hn|].
  apply avoid_seg; [exact Hf|]. by apply avoid_quote.
Qed.

Definition verdict_of (code : Z) : option Verdict :=
  if code =? 0 then Some kAllow else if code =? 1 then Some kDeny else if code =? 2 then Some kRedirect else None.

(** The body names its verdict and no other. *)
Lemma json_names d V : msg_ok d -> V ∈ ["ALLOW"; "DENY"; "REDIRECT"]%string ->
  match String.index 0 (key_str "verdict" V) (json_text d) with Some _ => true | None => false end = String.eqb V (verdict_name (d_verdict d)).
Proof.
  intros Hd HV. pose proof (after_verdict_none V d Hd) as Ha. set (N := verdict_name (d_verdict d)).
  assert (json_text d = "{" +:+ key_str "verdict" N +:+ after_verdict d)%string as -> by reflexivity.
  assert (N ∈ ["ALLOW"; "DENY"; "REDIRECT"; "INVALID"]%string) as HN.
  { unfold N, verdict_name. repeat case_match; apply list_elem_of_In; simpl; tauto. }
  destruct (String.eqb_spec V N) as [->|Hne].
  - pose proof (index_skip dquote ("verdict" +:+ dq +:+ ":" +:+ dq +:+ N +:+ dq)%string "{" (key_str "verdict" N +:+ after_verdict d)%string eq_refl) as E.
    change (String dquote ("verdict" +:+ dq +:+ ":" +:+ dq +:+ N +:+ dq)%string) with (key_str "verdict" N) in E. rewrite E.
    unfold key_str at 2. by rewrite (index_here dquote ("verdict" +:+ dq +:+ ":" +:+ dq +:+ N +:+ dq)%string).
  - rewrite avoid_seg; [done|reflexivity|]. apply list_elem_of_In in HV, HN. simpl in HV, HN.
    apply other_verdict; [..|exact Ha]; [| | |done];
      repeat match goal with H : _ \/ _ |- _ => destruct H as [<-|H] end; try done; try reflexivity; try (intros ? [=]).
Qed.

(** The response in the buffer of an issued connection is complete, and its verdict is the
    one of the decision. *)
Lemma response_read c d ka recv : msg_ok d -> hc_busy c = true -> hc_open c = true -> hc_in c = EmptyString -> hc_header_end c = 0 ->
  let out := (response_head 200 "OK" (strlen (json_text d)) ka +:+ json_text d)%string in
  exists c', drain_one (HBytes out recv) c = (set_idle true c', Some (c', recv)) /\ hc_scheduled_ns c' = hc_scheduled_ns c /\
    body_verdict c' = verdict_of (d_verdict d).
Proof.
  intros Hd Hb Ho Hin He. cbv zeta. set (n := strlen (json_text d)). pose proof (json_length d Hd) as Hn. fold n in Hn.
  assert (0 <= n) as Hn0 by (unfold n, strlen; lia). pose proof (head_length n ka ltac:(lia)) as Hh.
  set (H := response_head 200 "OK" n ka) in *. set (out := (H +:+ json_text d)%string).
  destruct (response_head_framed n ka (json_text d) ltac:(unfold fits; lia)) as (F1 & F2 & F3). cbv zeta in F1, F2, F3. fold H in F1, F2, F3. fold out in F1, F2, F3.
  assert (Z.of_nat (String.length out) = strlen H + n) as Hlen by (unfold out, n, strlen; rewrite str_app_length; lia).
  assert (4 <= String.length H)%nat as H4 by (unfold H, response_head; rewrite !str_app_length; cbn [String.length crlf]; lia).
  unfold drain_one. rewrite Hb, Ho, Hin. cbn [negb orb String.length]. change (kConnBuffer - 0)%nat with 4096%nat.
  rewrite (str_take_id 4096 out) by lia. change (EmptyString +:+ out)%string with out.
  unfold response_complete. cbn [hc_header_end hc_in set_in]. rewrite He, Z.eqb_refl, F1, F2. change (49 + 16)%nat with 65%nat. rewrite F3.
  cbn [hc_header_end hc_content_len hc_in hc_open hc_busy hc_seq hc_scheduled_ns hc_issued_ns].
  assert (u64 (Z.of_nat (String.length H - 4) + 4 + n) = strlen H + n) as -> by (rewrite wrap_id; unfold strlen, fits in *; lia).
  assert (strlen out = strlen H + n) as -> by (unfold strlen at 1; lia). rewrite Z.leb_refl. cbn [hc_open set_in]. rewrite Ho.
  eexists. split; [reflexivity|]. split; [reflexivity|]. unfold body_verdict. cbn [hc_header_end hc_content_len hc_in].
  replace (Z.to_nat (Z.of_nat (String.length H - 4) + 4)) with (String.length H) by lia.
  assert (str_drop (String.length H) out = json_text d) as -> by (by apply (str_take_drop_app _ H)).
  rewrite str_take_id by (unfold n, strlen; lia).
  rewrite !(json_names d) by (done || (apply list_elem_of_In; simpl; tauto)). unfold verdict_of, verdict_name. by repeat case_match.
Qed.


(** ** Samples *)

Definition offered : PolicyRequest := mkRequest kMagicVersion 0 310260100000000 350000000000001 0 5000 310410 77 1 0 9 5 600 0 0 0.

Lemma offered_ok : offerable sample_rule_set offered.
Proof. split; cbn -[Z.of_nat]; try (split; lia); try lia; [by vm_compute|split; [split; lia|done]]. Qed.

Example offered_text : issue_text "127.0.0.1:9600" offered 3 =
  ("GET /v1/decide?imsi=310260100000000&imei=350000000000001&plmn=310410&dnn=0&rat=1&qos_5qi=9&tac=77&minute=600&seq=3&tethering=1&usage=5000 HTTP/1.1"
   +:+ crlf +:+ "Host: 127.0.0.1:9600" +:+ crlf +:+ crlf)%string.
Proof. vm_compute. reflexivity. Qed.

Lemma http_query_roundtrip_witness : offerable sample_rule_set offered /\
  parse_decide_query sample_rule_set (query_text (issue_params offered 3)) = inr (http_view offered 3).
Proof. split; [exact offered_ok|]. apply (http_query_roundtrip sample_rule_set offered 3); [exact offered_ok|split; lia]. Defined.


(** The network that is no roaming partner, 46000, is not the one the front reads, and a
    network code of fewer than five digits (the test network 001-01 is 1001) makes the
    front refuse the query. *)
Example short_network_codes :
  let parse plmn := parse_decide_query sample_rule_set (query_text (issue_params
    (mkRequest kMagicVersion 0 310260100000000 0 0 0 plmn 77 1 0 9 0 600 0 0 0) 3)) in
  match parse 46000 with inr r => rq_plmn r | inl _ => 0 end = 460000 /\
  parse 1001 = inl "invalid or unknown parameter 'plmn'"%string.
Proof. split; vm_compute; reflexivity. Qed.
