(* ===== verification/LoadRun.v ===== *)
(** * LoadRun: the load generator as a program

    [main] of bench/loadgen.cpp around the senders: the options, the size of the table of
    requests in flight, the pool of IMSIs, the traffic generator of each thread, the
    merge of the results of the threads and the exit status. *)

From S2P Require Import Prelude Text Imsi Wire Double DoubleBounds Probe FlatSet Store Rules Engine Golden Compiler CompilerSpec Hdr Random RequestGen Roster Tools AdminEndpoints LoadGen.
From Stdlib Require Import ZArith Lia Bool Ascii String.
From stdpp Require Import base list numbers strings gmap.
Local Open Scope Z_scope.

(** ** Options *)

Inductive Protocol := kUdpBinary | kHttpJson.

Record LoadOptions := mkLoadOptions {
  lo_host : string; lo_port : Z; lo_protocol : Protocol; lo_connections : Z; lo_first_core : Z; lo_pin : bool;
  lo_closed_loop : bool; lo_seed : Z; lo_rules_path : string; lo_subscribers_path : string; lo_out_prefix : string;
  lo_tag : string; lo_summary_csv : string; lo_sender : SenderOptions }.

Definition default_sender (little_endian : bool) : SenderOptions :=
  mkSenderOptions 100000 10 2 1 200 65536 false 32 little_endian.
Definition default_load (little_endian : bool) : LoadOptions :=
  mkLoadOptions "127.0.0.1" 9500 kUdpBinary 64 0 true false 0x5EED1234 "config/rules.yaml" "config/subscribers.csv" "" "" ""
    (default_sender little_endian).

Definition with_sender (f : SenderOptions -> SenderOptions) (o : LoadOptions) : LoadOptions :=
  mkLoadOptions (lo_host o) (lo_port o) (lo_protocol o) (lo_connections o) (lo_first_core o) (lo_pin o) (lo_closed_loop o)
    (lo_seed o) (lo_rules_path o) (lo_subscribers_path o) (lo_out_prefix o) (lo_tag o) (lo_summary_csv o) (f (lo_sender o)).
Definition with_target (host : string) (port : Z) (p : Protocol) (o : LoadOptions) : LoadOptions :=
  mkLoadOptions host port p (lo_connections o) (lo_first_core o) (lo_pin o) (lo_closed_loop o)
    (lo_seed o) (lo_rules_path o) (lo_subscribers_path o) (lo_out_prefix o) (lo_tag o) (lo_summary_csv o) (lo_sender o).
Definition with_mode (connections first_core : Z) (pin closed : bool) (seed : Z) (o : LoadOptions) : LoadOptions :=
  mkLoadOptions (lo_host o) (lo_port o) (lo_protocol o) connections first_core pin closed seed (lo_rules_path o)
    (lo_subscribers_path o) (lo_out_prefix o) (lo_tag o) (lo_summary_csv o) (lo_sender o).
Definition with_paths (rules subscribers out_prefix tag summary : string) (o : LoadOptions) : LoadOptions :=
  mkLoadOptions (lo_host o) (lo_port o) (lo_protocol o) (lo_connections o) (lo_first_core o) (lo_pin o) (lo_closed_loop o)
    (lo_seed o) rules subscribers out_prefix tag summary (lo_sender o).

(** [s.rfind(':')]: what is before and after the last colon. *)
Fixpoint split_last_colon (s : string) : option (string * string) :=
  match s with
  | EmptyString => None
  | String c s =>
      match split_last_colon s with
      | Some (a, b) => Some (String c a, b)
      | None => if Ascii.eqb c ":" then Some (EmptyString, s) else None
      end
  end.

(** [static_cast<std::uint32_t>(strtoul(v))]. *)
Definition to_u32 (v : string) : Z := u32 (to_u64 v).

(** An option that takes a value; [None]: there is no such option. *)
Definition load_value (a v : string) (o : LoadOptions) : option (Z + LoadOptions) :=
  let s := lo_sender o in
  let sender q d w t tm mi b := Some (inr (with_sender (fun s => mkSenderOptions q d w t tm mi (timeline s) b (host_little_endian s)) o)) in
  let mode c f sd := Some (inr (with_mode c f (lo_pin o) (lo_closed_loop o) sd o)) in
  let paths r sb op tg sm := Some (inr (with_paths r sb op tg sm o)) in
  if String.eqb a "--server" then
    Some (inr (match split_last_colon v with
               | None => with_target v (lo_port o) (lo_protocol o) o
               | Some (h, p) => with_target h (u16 (to_u64 p)) (lo_protocol o) o end))
  else if String.eqb a "--protocol" then
    if String.eqb v "udp" || String.eqb v "binary" then Some (inr (with_target (lo_host o) (lo_port o) kUdpBinary o))
    else if String.eqb v "http" || String.eqb v "json" then Some (inr (with_target (lo_host o) (lo_port o) kHttpJson o))
    else Some (inl 2)
  else if String.eqb a "--connections" then mode (to_u32 v) (lo_first_core o) (lo_seed o)
  else if String.eqb a "--qps" then sender (to_u64 v) (duration_s s) (warmup_s s) (threads s) (timeout_ms s) (max_inflight s) (batch_recv s)
  else if String.eqb a "--duration" then sender (qps s) (to_u32 v) (warmup_s s) (threads s) (timeout_ms s) (max_inflight s) (batch_recv s)
  else if String.eqb a "--warmup" then sender (qps s) (duration_s s) (to_u32 v) (threads s) (timeout_ms s) (max_inflight s) (batch_recv s)
  else if String.eqb a "--threads" then sender (qps s) (duration_s s) (warmup_s s) (to_u32 v) (timeout_ms s) (max_inflight s) (batch_recv s)
  else if String.eqb a "--first-core" then mode (lo_connections o) (to_u32 v) (lo_seed o)
  else if String.eqb a "--timeout-ms" then sender (qps s) (duration_s s) (warmup_s s) (threads s) (to_u32 v) (max_inflight s) (batch_recv s)
  else if String.eqb a "--max-inflight" then sender (qps s) (duration_s s) (warmup_s s) (threads s) (timeout_ms s) (to_u32 v) (batch_recv s)
  else if String.eqb a "--batch-recv" then sender (qps s) (duration_s s) (warmup_s s) (threads s) (timeout_ms s) (max_inflight s) (Z.to_nat (to_u32 v))
  else if String.eqb a "--rules" then paths v (lo_subscribers_path o) (lo_out_prefix o) (lo_tag o) (lo_summary_csv o)
  else if String.eqb a "--subscribers" then paths (lo_rules_path o) v (lo_out_prefix o) (lo_tag o) (lo_summary_csv o)
  else if String.eqb a "--seed" then mode (lo_connections o) (lo_first_core o) (to_u64 v)
  else if String.eqb a "--out-prefix" then paths (lo_rules_path o) (lo_subscribers_path o) v (lo_tag o) (lo_summary_csv o)
  else if String.eqb a "--summary-csv" then paths (lo_rules_path o) (lo_subscribers_path o) (lo_out_prefix o) (lo_tag o) v
  else if String.eqb a "--tag" then paths (lo_rules_path o) (lo_subscribers_path o) (lo_out_prefix o) v (lo_summary_csv o)
  else None.

Definition load_flag (a : string) (o : LoadOptions) : option LoadOptions :=
  if String.eqb a "--no-pin" then Some (with_mode (lo_connections o) (lo_first_core o) false (lo_closed_loop o) (lo_seed o) o)
  else if String.eqb a "--closed-loop" then Some (with_mode (lo_connections o) (lo_first_core o) (lo_pin o) true (lo_seed o) o)
  else if String.eqb a "--timeline" then
    Some (with_sender (fun s => mkSenderOptions (qps s) (duration_s s) (warmup_s s) (threads s) (timeout_ms s) (max_inflight s) true
      (batch_recv s) (host_little_endian s)) o)
  else None.

(** The exit status, or the options.  The last option of the line may lack its value: it
    is then ignored. *)
Fixpoint load_args (argv : list string) (o : LoadOptions) : Z + LoadOptions :=
  match argv with
  | [] => inr o
  | a :: argv =>
      if String.eqb a "-h" || String.eqb a "--help" then inl 0
      else match load_flag a o with
           | Some o => load_args argv o
           | None =>
               match argv with
               | v :: argv =>
                   match load_value a v o with
                   | Some (inr o) => load_args argv o
                   | Some (inl status) => inl status
                   | None => inl 2
                   end
               | [] => match load_value a "" o with Some _ => inr o | None => inl 2 end
               end
           end
  end.

(** ** The table of requests in flight *)

(** Twice the requests of one timeout. *)
Definition needed_inflight (s : SenderOptions) : Z :=
  u64 (dtrunc (dmul (ddiv (dmul (ddiv (double_of_Z (qps s)) (double_of_Z (threads s))) (double_of_Z (timeout_ms s)))
    (dlit 1000 0)) (double_of_Z 2))).

(** [None]: [next_pow2] does not return. *)
Definition size_inflight (s : SenderOptions) : option SenderOptions :=
  n ← next_pow2 (max_inflight s);
  let n := u32 n in
  m ← (if n <? needed_inflight s then m ← next_pow2 (needed_inflight s); Some (u32 m) else Some n);
  Some (mkSenderOptions (qps s) (duration_s s) (warmup_s s) (threads s) (timeout_ms s) m (timeline s) (batch_recv s)
    (host_little_endian s)).

(** The checks of [main] and the defaults they put in. *)
Definition check_options (o : LoadOptions) : option (Z + LoadOptions) :=
  let o := if threads (lo_sender o) =? 0
    then with_sender (fun s => mkSenderOptions (qps s) (duration_s s) (warmup_s s) 1 (timeout_ms s) (max_inflight s) (timeline s)
      (batch_recv s) (host_little_endian s)) o else o in
  if qps (lo_sender o) =? 0 then Some (inl 2)
  else match lo_protocol o with
       | kHttpJson =>
           if lo_closed_loop o then Some (inl 2)
           else s ← size_inflight (lo_sender o);
                Some (inr (with_sender (fun _ => s) (if lo_connections o =? 0
                  then with_mode 1 (lo_first_core o) (lo_pin o) (lo_closed_loop o) (lo_seed o) o else o)))
       | kUdpBinary => s ← size_inflight (lo_sender o); Some (inr (with_sender (fun _ => s) o))
       end.

(** ** The traffic *)

(** The IMSI column of a roster. *)
Fixpoint imsi_column (first : bool) (lines : list string) : list Z :=
  match lines with
  | [] => []
  | line :: lines =>
      match line with
      | EmptyString => imsi_column first lines
      | String c _ =>
          if Ascii.eqb c "#" then imsi_column first lines
          else if first && String.prefix "imsi" line then imsi_column false lines
          else
            match parse_imsi (match split_at_char "," line with Some (f, _) => f | None => line end) with
            | Some i => if i =? 0 then imsi_column false lines else i :: imsi_column false lines
            | None => imsi_column false lines
            end
      end
  end.

(** [None]: the file cannot be read, or has no IMSI to offer. *)
Definition load_imsi_pool (file : option (list string)) : option (list Z) :=
  match file with
  | None => None
  | Some lines => match imsi_column true lines with [] => None | pool => Some pool end
  end.

(** The requests of one thread: the generator of the rules file over the pool, drawn from
    the state the seed of the thread puts the engine in. *)
Definition thread_seed (o : LoadOptions) (index : Z) : Z := u64 (lo_seed o + u64 (index * 0x9E3779B9)).

Definition load_generator (rs : RuleSet) (pool : list Z) : Generator := traffic_generator rs pool.

Fixpoint drawn {S} `{Rng S} (g : Generator) (n : nat) (seed : S) : list PolicyRequest :=
  match n with
  | O => []
  | S n => let '(r, seed) := fill g seed in r :: drawn g n seed
  end.

(** ** The results of the threads *)

Record ThreadResult := mkResult {
  tr_tally : Tally; tr_latency : HdrHistogram; tr_lateness : HdrHistogram; tr_per_second : list Z; tr_p99 : list Z }.

Definition result_of (opt : SenderOptions) (s : Sender) : ThreadResult :=
  mkResult (tally_ s) (latency_ s) (send_lateness_ s) (per_second_count_ s) (p99_per_second opt s).

Definition resize (n : nat) (l : list Z) : list Z := take n l ++ replicate (n - length l) 0.
Definition combine_at (f : Z -> Z -> Z) (total l : list Z) : list Z :=
  imap (fun i x => match l !! i with Some y => f x y | None => x end) total.

(** One turn of the merge; whether the histograms could be added is not looked at. *)
Definition merge_result (total r : ThreadResult) : ThreadResult :=
  let grow := (length (tr_per_second total) <? length (tr_per_second r))%nat in
  let counts := if grow then resize (length (tr_per_second r)) (tr_per_second total) else tr_per_second total in
  let p99 := if grow then resize (length (tr_p99 r)) (tr_p99 total) else tr_p99 total in
  mkResult (add_tally (tr_tally total) (tr_tally r)) (add (tr_latency total) (tr_latency r)).2
    (add (tr_lateness total) (tr_lateness r)).2 (combine_at Z.add counts (tr_per_second r)) (combine_at Z.max p99 (tr_p99 r)).

Definition merge_results (rs : list ThreadResult) : option ThreadResult :=
  h ← latency_histogram; Some (fold_left merge_result rs (mkResult zero_tally h h [] [])).

(** ** The report *)

Definition achieved_qps (opt : SenderOptions) (t : ThreadResult) : double :=
  if 0 <? duration_s opt then ddiv (double_of_Z (measured_received (tr_tally t))) (double_of_Z (duration_s opt)) else DFin 0 0.
Definition loss_pct (t : ThreadResult) : double :=
  if 0 <? sent (tr_tally t)
  then ddiv (dmul (dlit 100 0) (double_of_Z (lost (tr_tally t)))) (double_of_Z (sent (tr_tally t))) else DFin 0 0.
Definition us (t : ThreadResult) (pct : double) : double :=
  ddiv (double_of_Z (value_at_percentile pct (tr_latency t))) (dlit 1000 0).
Definition late_us (t : ThreadResult) (pct : double) : double :=
  ddiv (double_of_Z (value_at_percentile pct (tr_lateness t))) (dlit 1000 0).

(** The generator could not keep to its schedule. *)
Definition missed_schedule (closed : bool) (t : ThreadResult) : bool :=
  negb closed && (sent (tr_tally t) / 100 <? schedule_slips (tr_tally t)).
Definition degraded (t : ThreadResult) : bool := dltb (dlit 1 (-2)) (loss_pct t).
Definition exit_status (t : ThreadResult) : Z := if degraded t || (0 <? send_errors (tr_tally t)) then 3 else 0.

(** The file of the seconds of the window. *)
Definition timeline_csv (t : ThreadResult) : list string :=
  "second,replies,p99_us"%string ::
  imap (fun i c => (to_string (Z.of_nat i) +:+ "," +:+ to_string c +:+ "," +:+
    show_double (ddiv (double_of_Z (nth i (tr_p99 t) 0)) (dlit 1000 0)))%string) (removelast (tr_per_second t)).

(** The row appended to the summary, given the time stamp and what the build says of the
    host and of itself. *)
Definition summary_row (o : LoadOptions) (iso_now host build : string) (t : ThreadResult) : string :=
  let c := tr_tally t in
  String.concat ","
    [iso_now; lo_tag o; if lo_closed_loop o then "closed-loop" else "open-loop";
     match lo_protocol o with kHttpJson => "http" | kUdpBinary => "udp" end; to_string (qps (lo_sender o));
     show_double (achieved_qps (lo_sender o) t); to_string (threads (lo_sender o)); to_string (sent c); to_string (received c);
     to_string (lost c); show_double (loss_pct t); show_double (us t (dlit 50 0)); show_double (us t (dlit 90 0));
     show_double (us t (dlit 99 0)); show_double (us t (dlit 999 (-1))); show_double (us t (dlit 9999 (-2)));
     show_double (ddiv (double_of_Z (hdr_max (tr_latency t))) (dlit 1000 0));
     show_double (ddiv (mean (tr_latency t)) (dlit 1000 0)); show_double (late_us t (dlit 99 0));
     to_string (schedule_slips c); to_string (allowed c); to_string (denied c); to_string (redirected c); host; build]%string.

(** ** The table is a power of two *)

Lemma next_pow2_31 n : n <= 2 ^ 31 -> exists k, 3 <= k <= 31 /\ next_pow2 n = Some (2 ^ k) /\ n <= 2 ^ k.
Proof.
  intros Hn. destruct (pow2_loop_spec 64 3 n) as (k & Hk & E & Hge & Hmin); [lia..|]. exists k. unfold next_pow2.
  change 8 with (2 ^ 3). rewrite E. split_and!; try done; [lia|]. destruct Hmin as [->|Hlt]; [lia|]. apply Z.nlt_ge. intros Hc.
  assert (2 ^ 31 <= 2 ^ (k - 1)) by (apply Z.pow_le_mono_r; lia). lia.
Qed.

Lemma u32_pow2 k : 0 <= k <= 31 -> u32 (2 ^ k) = 2 ^ k.
Proof. intros Hk. apply wrap_id. split; [apply Z.pow_nonneg; lia|apply Z.pow_lt_mono_r; lia]. Qed.

Lemma size_inflight_spec s : max_inflight s <= 2 ^ 31 -> needed_inflight s <= 2 ^ 31 ->
  exists s' k, size_inflight s = Some s' /\ 3 <= k <= 31 /\ max_inflight s' = 2 ^ k /\
    max_inflight s <= max_inflight s' /\ needed_inflight s <= max_inflight s' /\
    qps s' = qps s /\ threads s' = threads s /\ timeout_ms s' = timeout_ms s /\ duration_s s' = duration_s s /\
    host_little_endian s' = host_little_endian s.
Proof.
  intros Hm Hn. unfold size_inflight. destruct (next_pow2_31 _ Hm) as (k & Hk & -> & Hge). cbn [mbind option_bind].
  rewrite u32_pow2 by lia. destruct (Z.ltb_spec (2 ^ k) (needed_inflight s)) as [Hlt|Hle].
  - destruct (next_pow2_31 _ Hn) as (k' & Hk' & -> & Hge'). cbn [mbind option_bind]. rewrite u32_pow2 by lia.
    eexists _, k'. split; [reflexivity|]. simpl. split_and!; (reflexivity || lia).
  - cbn [mbind option_bind]. eexists _, k. split; [reflexivity|]. simpl. split_and!; (reflexivity || lia).
Qed.

(** ** The pool *)

Lemma imsi_column_ok first lines : Forall (fun i => 0 < i < 2 ^ 64) (imsi_column first lines).
Proof.
  revert first. induction lines as [|line lines IH]; intros first; [constructor|]. cbn [imsi_column].
  destruct line as [|c t]; [apply IH|]. destruct (Ascii.eqb c "#"); [apply IH|]. destruct (first && _); [apply IH|].
  set (f := match split_at_char "," (String c t) with Some (f, _) => f | None => String c t end).
  destruct (parse_imsi f) as [i|] eqn:Ep; [|apply IH]. destruct (Z.eqb_spec i 0) as [|Hz]; [apply IH|].
  apply parse_imsi_fits in Ep as [H0 H1]. constructor; [lia|apply IH].
Qed.

(** Under rules that compile, and over any pool that could be read, a thread draws nothing
    but well-formed requests. *)
Lemma drawn_wf {S} `{RngOk S} rs file pool n (seed : S) : compiled_ok rs -> load_imsi_pool file = Some pool ->
  Forall (synthetic (load_generator rs pool)) (drawn (load_generator rs pool) n seed).
Proof.
  intros Hrs Hp. assert (gen_ok (load_generator rs pool)) as Hg.
  { apply traffic_generator_ok; [exact Hrs|]. destruct file as [lines|]; [|done]. unfold load_imsi_pool in Hp.
    pose proof (imsi_column_ok true lines) as Hc. destruct (imsi_column true lines); [done|]. injection Hp as <-. exact Hc. }
  revert seed. induction n as [|n IH]; intros seed; [constructor|]. cbn [drawn]. pose proof (fill_ok _ Hg seed) as Hf.
  destruct (fill (load_generator rs pool) seed) as [r seed']. constructor; [exact Hf|apply IH].
Qed.

Lemma good_line_imsi plans line rec lines : good_line plans line rec ->
  imsi_column false (line :: lines) = s_imsi rec :: imsi_column false lines.
Proof.
  intros (_ & Hc & _ & [(net & m & Hn & Hm & Ei & _) _ _ _ _ _ _] & Ht & Hf). cbn [imsi_column andb].
  unfold is_content in Hc. rewrite Ht in Hc. destruct line as [|c t]; [done|]. apply negb_true_iff in Hc. rewrite Hc.
  assert (match split_at_char "," (String c t) with Some (f, _) => f | None => String c t end = format_imsi (s_imsi rec) 15) as ->.
  { rewrite <- Hf. cbn [split_fields]. by destruct (split_at_char "," (String c t)) as [[]|]. }
  pose proof (net_imsi_range net m Hn ltac:(lia)) as Hr. rewrite <- Ei in Hr.
  unfold parse_imsi, kImsiDigits. rewrite (parse_format_digits 15) by (simpl; lia). destruct (Z.eqb_spec (s_imsi rec) 0); [lia|done].
Qed.

Lemma good_lines_imsi plans rows recs : Forall2 (good_line plans) rows recs -> imsi_column false rows = map s_imsi recs.
Proof. induction 1 as [|line rec rows recs Hg _ IH]; [done|]. rewrite (good_line_imsi _ _ _ _ Hg), IH. done. Qed.

(** The load generator asks about the subscribers the server has.  For a roster of the
    roster generator, of at least one subscriber, the load generator reads its pool of
    IMSIs without an error, one for every line; the table the server loads from the same
    file knows exactly the IMSIs of the pool. *)
Theorem pool_is_table {S} `{RngOk S} plans quota count (seed : S) n lf path :
  plans <> [] /\ Z.of_nat (length plans) <= 32 /\ Forall clean_plan plans -> Forall (fun q => 0 <= q <= 2 ^ 62) quota ->
  0 <= n <= 2 ^ 50 -> finite_double lf -> (0 < count)%nat -> Z.of_nat count <= 9 * 10 ^ 8 ->
  exists roster pool s0 st r, (gen_subscribers plans quota count seed).1 = roster /\
    load_imsi_pool (Some roster) = Some pool /\ length pool = count /\ NoDup pool /\
    new_store n lf = Some s0 /\ load_csv s0 path (Some roster) plans = Some (st, r) /\
    forall imsi, exists o, Store.find st imsi = Some o /\ (is_Some o <-> imsi ∈ pool).
Proof.
  intros Hp Hq Hn Hlf Hpos Hc.
  destruct (roster_loaded plans quota Hp Hq count seed n lf path Hn Hlf Hc)
    as (rows & recs & s0 & st & r & -> & HF & E0 & E & _ & _ & _ & Hl & Hnd & _ & Hfind).
  exists (roster_header :: rows), (map s_imsi recs), s0, st, r. split; [reflexivity|]. split.
  { unfold load_imsi_pool. change (imsi_column true (roster_header :: rows)) with (imsi_column false rows).
    rewrite (good_lines_imsi plans rows recs HF). destruct recs; [simpl in Hl; lia|reflexivity]. }
  split; [by rewrite length_map|]. split; [exact Hnd|]. split; [exact E0|]. split; [exact E|].
  intros imsi. destruct (Hfind imsi) as (o & Eo & Ho). exists o. split; [exact Eo|]. split.
  - intros [rec ->]. destruct (proj1 (Ho rec) eq_refl) as [Hin <-]. by apply list_elem_of_fmap_2.
  - intros (rec & -> & Hin)%list_elem_of_fmap. exists rec. by apply Ho.
Qed.

(** ** The merge *)

(** A histogram of a run, and what it holds. *)
Record run_hist (h0 : HdrHistogram) (u m : Z) (vs : list Z) (h : HdrHistogram) : Prop := {
  rh_ok : hdr_ok h u m;
  rh_holds : holds h (clamp_values (highest_ h0) vs);
  rh_highest : highest_ h = highest_ h0;
  rh_length : length (counts_ h) = length (counts_ h0) }.

Lemma run_hist_of h0 u m vs h : hdr_ok h0 u m -> holds h0 [] -> record_all vs h0 = Some h -> run_hist h0 u m vs h.
Proof.
  intros OK H0 E. destruct (record_all_holds h0 u m [] vs OK H0) as (h' & E' & OK' & H' & Hh & Hl & _).
  rewrite E in E'. injection E' as <-. by split.
Qed.

Lemma run_hist_add h0 u m vs ws h1 h2 : run_hist h0 u m vs h1 -> run_hist h0 u m ws h2 -> run_hist h0 u m (vs ++ ws) (add h1 h2).2.
Proof.
  intros [O1 H1 G1 L1] [O2 H2 G2 L2].
  destruct (add_holds h1 h2 u m _ _ O1 O2 H1 H2) as (h & Ea & Oh & Hd & _); [congruence..|].
  destruct (add_shape _ _ _ Ea) as [Hl Hh]. rewrite Ea. split; simpl; [done| |congruence..]. by rewrite clamp_app.
Qed.

(** The counters of the merged result are the sums. *)
Lemma merge_tally (f : Tally -> Z) rs total : (forall a b, f (add_tally a b) = f a + f b) ->
  f (tr_tally (fold_left merge_result rs total)) = f (tr_tally total) + sumZ (map (fun r => f (tr_tally r)) rs).
Proof.
  intros Hf. revert total. induction rs as [|r rs IH]; intros total; simpl; [lia|]. rewrite IH. simpl. rewrite Hf. lia.
Qed.

Lemma merge_latency h0 u m rs vss : Forall2 (fun r vs => run_hist h0 u m vs (tr_latency r)) rs vss ->
  forall vs total, run_hist h0 u m vs (tr_latency total) ->
  run_hist h0 u m (vs ++ concat vss) (tr_latency (fold_left merge_result rs total)).
Proof.
  induction 1 as [|r ws rs vss Hr _ IH]; intros vs total Ht; simpl; [by rewrite app_nil_r|].
  rewrite (assoc_L (++)). apply IH. simpl. by apply run_hist_add.
Qed.

(** ** The run *)

(** What the environment gives a thread. *)
Record ThreadRun := mkThreadRun { th_start : Z; th_turns : list Turn; th_tail : list (option (list Z)) }.

Definition run_thread (opt : SenderOptions) (r : ThreadRun) : option (ThreadResult * list (list Z)) :=
  '(s, out) ← run_open_loop opt (th_start r) (th_turns r) (th_tail r); Some (result_of opt s, out).

(** The merged result and the datagrams of the threads. *)
Definition open_loop_report (opt : SenderOptions) (runs : list ThreadRun) : option (ThreadResult * list (list (list Z))) :=
  rs ← mapM (run_thread opt) runs;
  total ← merge_results (map fst rs);
  Some (total, map snd rs).

(** A thread has sent [a.1] and got the answers [a.2]. *)
Definition thread_account (opt : SenderOptions) (h0 : HdrHistogram) (r : ThreadRun) (a : list PolicyRequest * list Answer)
    (x : ThreadResult * list (list Z)) : Prop :=
  x.2 = datagrams opt (th_start r) 0 a.1 /\
  Forall (fun req => exists t b, t ∈ th_turns r /\ req = at_request (tn_attempts t b)) a.1 /\
  exists s, x.1 = result_of opt s /\ account opt (th_start r) (th_turns r) h0 (length a.1) a.2 s.

Definition thread_samples (opt : SenderOptions) (r : ThreadRun) (a : list PolicyRequest * list Answer) : list Z :=
  samples opt (th_start r) a.2.

Lemma threads_run opt k h0 runs : 0 <= k <= 31 -> max_inflight opt = 2 ^ k -> 0 <= duration_s opt < 2 ^ 32 - 1 ->
  latency_histogram = Some h0 ->
  exists xs accts, mapM (run_thread opt) runs = Some xs /\ Forall3 (thread_account opt h0) runs accts xs.
Proof.
  intros Hk Hmax Hd E0. induction runs as [|r runs (xs & accts & E & IH)]; [exists [], []; split; [reflexivity|constructor]|].
  destruct (open_loop_runs opt (th_start r) (th_turns r) (th_tail r) k h0 Hk Hmax Hd E0) as (s & reqs & dn & Er & Hr & Ha).
  assert (run_thread opt r = Some (result_of opt s, datagrams opt (th_start r) 0 reqs)) as Et by (unfold run_thread; by rewrite Er).
  eexists _, ((reqs, dn) :: accts). split; [simpl; rewrite Et, E; reflexivity|]. constructor; [|exact IH].
  split; [reflexivity|]. split; [exact Hr|]. exists s. split; [reflexivity|exact Ha].
Qed.

Section Merge.
Variables (opt : SenderOptions) (h0 : HdrHistogram) (u m : Z).
Hypothesis OK : hdr_ok h0 u m.
Hypothesis H0 : holds h0 [].

Lemma accounts_latency runs accts xs : Forall3 (thread_account opt h0) runs accts xs ->
  Forall2 (fun r vs => run_hist h0 u m vs (tr_latency r)) (map fst xs) (zip_with (thread_samples opt) runs accts).
Proof using All.
  induction 1 as [|r a x runs accts xs (_ & _ & s & Es & Ha) _ IH]; simpl; constructor; [|exact IH].
  rewrite Es. simpl. apply run_hist_of; [done..|]. apply (ac_latency _ _ _ _ _ _ _ Ha).
Qed.

(** The sums over the threads of what every thread says of itself. *)
Lemma accounts_sums runs accts xs : Forall3 (thread_account opt h0) runs accts xs ->
  let sum f := sumZ (map (fun r => f (tr_tally r)) (map fst xs)) in
  sum sent = sum received + sum lost /\ sum sent = Z.of_nat (length (concat (map snd xs))) /\
  sum measured_received = Z.of_nat (length (concat (zip_with (thread_samples opt) runs accts))).
Proof using All.
  induction 1 as [|r a x runs accts xs (Eo & _ & s & Es & Ha) _ IH]; [done|]. destruct (account_balance _ _ _ _ _ _ _ Ha) as [Hb _].
  assert (length (thread_samples opt r a) = length (in_window a.2)) as Ew by apply length_map.
  cbv zeta in IH |- *. destruct IH as (I1 & I2 & I3). cbn -[Z.of_nat Z.add thread_samples sumZ]. rewrite Es, Eo, !length_app.
  pose proof (ac_sent _ _ _ _ _ _ _ Ha). pose proof (ac_measured _ _ _ _ _ _ _ Ha).
  assert (length (datagrams opt (th_start r) 0 a.1) = length a.1) as -> by (unfold datagrams; rewrite length_zip_with, length_seq; lia).
  rewrite Ew. unfold sumZ in *. cbn [foldr tr_tally result_of]. split_and!; lia.
Qed.
End Merge.

Lemma exit_status_clean t : lost (tr_tally t) = 0 -> send_errors (tr_tally t) = 0 -> exit_status t = 0.
Proof.
  intros Hl He. unfold exit_status, degraded, loss_pct. rewrite Hl, He. destruct (0 <? sent (tr_tally t)); [|reflexivity].
  change (dmul (dlit 100 0) (double_of_Z 0)) with (DFin 0 0). destruct (double_of_Z (sent (tr_tally t))) as [m e| |]; try reflexivity.
  unfold ddiv. destruct (m =? 0); [reflexivity|]. rewrite !Z.mul_0_l. reflexivity.
Qed.

(** What [main] leaves of the options once it accepts them. *)
Lemma check_options_sized o o' : check_options o = Some (inr o') -> max_inflight (lo_sender o) <= 2 ^ 31 ->
  needed_inflight (lo_sender o') <= 2 ^ 31 ->
  exists k, 3 <= k <= 31 /\ max_inflight (lo_sender o') = 2 ^ k /\ needed_inflight (lo_sender o') <= 2 ^ k /\
    duration_s (lo_sender o') = duration_s (lo_sender o) /\ 0 <> qps (lo_sender o') /\ 0 <> threads (lo_sender o').
Proof.
  unfold check_options. set (o1 := if threads (lo_sender o) =? 0 then _ else o).
  assert (max_inflight (lo_sender o1) = max_inflight (lo_sender o) /\ duration_s (lo_sender o1) = duration_s (lo_sender o) /\
    0 <> threads (lo_sender o1)) as (<- & <- & Ht).
  { unfold o1. destruct (Z.eqb_spec (threads (lo_sender o)) 0); simpl; split_and!; (reflexivity || lia). }
  destruct (Z.eqb_spec (qps (lo_sender o1)) 0) as [|Hq]; [done|]. intros E Hm Hn.
  assert (size_inflight (lo_sender o1) = Some (lo_sender o')) as Es.
  { destruct (lo_protocol o1); [|destruct (lo_closed_loop o1); [done|]]; apply bind_Some in E as (s & Es & [= <-]); exact Es. }
  assert (needed_inflight (lo_sender o') = needed_inflight (lo_sender o1)) as En.
  { unfold size_inflight in Es. apply bind_Some in Es as (n & _ & Es). apply bind_Some in Es as (n' & _ & [= <-]). reflexivity. }
  destruct (size_inflight_spec (lo_sender o1) Hm ltac:(lia)) as (s' & k & E' & Hk & Emax & _ & Hge & Eq & Et & _ & Ed & _).
  rewrite Es in E'. injection E' as <-. exists k. split_and!; lia || congruence.
Qed.


(** ** Samples *)

Definition sample_load : LoadOptions :=
  match load_args ["--qps"; "1000"; "--duration"; "1"; "--warmup"; "0"; "--threads"; "2"]%string (default_load true) with
  | inr o => o | inl _ => default_load true end.
Definition checked_load : LoadOptions := match check_options sample_load with Some (inr o) => o | _ => sample_load end.
(** A table of more than 2^31 slots does not fit the field: [next_pow2] gives 2^32, and the
    cast leaves a table without a slot, where the first request sent is out of bounds. *)
Example oversized_table_empty :
  match load_args ["--qps"; "1"; "--max-inflight"; "3000000000"]%string (default_load true) with
  | inr o => match check_options o with Some (inr o) => Some (max_inflight (lo_sender o)) | _ => None end
  | inl _ => None end = Some 0.
Proof. vm_compute. reflexivity. Qed.

Definition answered_turns : list Turn :=
  [mkTurn 3000000 sample_attempt [mkReply (reply_to 1 3000000) 4000000; mkReply (reply_to 0 1000000) 5000000] 0].
Definition sample_runs : list ThreadRun := [mkThreadRun 1000000 answered_turns []; mkThreadRun 3000000 answered_turns []].

(** Two threads at 500 requests a second each: the first is answered twice, the request of
    the second is lost, since the replies it gets are not its own. *)
Example sample_report : option_map (fun r => (tr_tally r.1, map (@length _) r.2, exit_status r.1))
  (open_loop_report (lo_sender checked_load) sample_runs) = Some (mkTally 3 2 2 1 0 0 2 0 2 0 0 0 0 0, [2; 1]%nat, 3).
Proof. vm_compute. reflexivity. Qed.


Lemma pool_is_table_witness : exists pool st r s0, load_imsi_pool (Some (gen_subscribers (S := Z) sample_plans [20000000000; 0] 20 7).1) = Some pool /\
  new_store 16 (dlit 5 (-1)) = Some s0 /\
  load_csv s0 "subs.csv" (Some (gen_subscribers (S := Z) sample_plans [20000000000; 0] 20 7).1) sample_plans = Some (st, r) /\
  forall imsi, exists o, Store.find st imsi = Some o /\ (is_Some o <-> imsi ∈ pool).
Proof.
  destruct (pool_is_table (S := Z) sample_plans [20000000000; 0] 20 7 16 (dlit 5 (-1)) "subs.csv" sample_plans_ok sample_quota_ok)
    as (roster & pool & s0 & st & r & <- & Ep & _ & _ & E0 & E & Hf); [lia| |lia|lia|].
  - exists (2 ^ 52), (-53). split; [apply dval_refl|lia].
  - exists pool, st, r, s0. split_and!; assumption.
Defined.
