(* ===== verification/EndToEnd.v ===== *)
(** * EndToEnd: a request of the load generator through the server and back

    The datagram of the load generator (bench/loadgen.cpp), the decision of the server
    worker (src/server_udp.cpp) and the reply back at the generator, composed: the two
    programs may run on hosts of different byte order. *)

From S2P Require Import Prelude Text Wire Double Probe FlatSet Store Rules Engine Hdr Metrics Server RequestGen Random LoadGen LoadRun.
From Stdlib Require Import ZArith Lia Bool.
From stdpp Require Import base list numbers gmap.
Local Open Scope Z_scope.

(** The decision carries the sequence number and the time stamp of its request. *)
Lemma evaluate_echo now rs req rec d : evaluate now rs req rec = Some d ->
  d_seq d = rq_seq req /\ d_client_ts_ns d = rq_client_ts_ns req.
Proof. intros E. unfold evaluate in E. apply bind_Some in E as (f & _ & [= <-]). done. Qed.

Lemma stamp_ok req seq ts : msg_ok req -> fits 32 seq -> fits 64 ts -> msg_ok (stamp req seq ts).
Proof.
  unfold msg_ok, fields_ok. simpl. unfold request_widths, request_fields. intros Hr Hs Ht.
  repeat (apply Forall2_cons in Hr as [? Hr]). repeat (apply Forall2_cons; split); simpl; try done.
  by case_match.
Qed.

(** The reply of the server to a well-formed request: the decision on that request. *)
Lemma served_reply h hs rs P B store subs req now ts ns m h0 vs : rule_set_ok rs P B -> store_ok store subs ->
  service_ns = Some h0 -> block_records h0 m vs -> fits 64 ts -> msg_ok req -> rq_magic_version req = kMagicVersion ->
  exists m' d, serve_datagram hs rs store (mkDatagram (Wire.encode h req) now ts ns) m =
      Some (Some (Wire.encode hs (set_server_ts ts d)), m') /\
    evaluate now rs req (subs !! rq_imsi req) = Some d /\ msg_ok (set_server_ts ts d) /\ d_magic_version d = kMagicVersion.
Proof.
  intros HR HS E0 HB Ht Hm Hmv. set (dg := mkDatagram _ now ts ns).
  assert (datagram_ok dg) as Hdg by (split; [by apply encode_bytes|done]).
  destruct (serve_datagram_spec hs rs P B store subs HR HS h0 dg m vs E0 HB Hdg)
    as (reply & m' & r & s & b & u & Es & _ & _ & _ & _ & _ & _ & Hs).
  assert (sized dg = true) as Hsz by (apply Nat.eqb_eq; by apply encode_length). rewrite Hsz in Hs.
  destruct Hs as (_ & d & -> & Hd & Hdm & Ha). unfold Server.answers in Ha. cbn [dg dg_bytes] in Ha.
  rewrite (Wire.decode_encode h hs req blank_request Hm) in Ha. cbn [msg_magic] in Ha. simpl in Ha. rewrite Hmv, Z.eqb_refl in Ha.
  destruct Ha as (d0 & Ee & ->). exists m', d0. split; [exact Es|]. split; [exact Ee|]. split; [exact Hd|exact Hdm].
Qed.

Section Exchange.
Context {S : Type} `{RngOk S}.
Variables (opt : SenderOptions) (start k : Z) (h0 : HdrHistogram).
Hypothesis Hk : 0 <= k <= 31.
Hypothesis Hmax : max_inflight opt = 2 ^ k.
Hypothesis E0 : latency_histogram = Some h0.

(** C12: A request of the load generator that reaches the server, and whose reply comes
    back while it is in flight, is answered with the decision of the server.  For every
    request the traffic generator can draw, in its slot of the table as the [i]-th of the
    schedule, and for hosts of any byte order: the server worker answers its datagram; the
    generator takes the reply for that request and for no other, frees the slot, counts
    the verdict of the rule set in force for that subscriber and, inside the window,
    records the time since the scheduled instant. *)
Theorem request_comes_back g seed hs rs P B store subs now ts ns m hd vs i n ids done gone s warmup_end measuring recv :
  gen_ok g -> rule_set_ok rs P B -> store_ok store subs -> service_ns = Some hd -> block_records hd m vs -> fits 64 ts ->
  flight opt start h0 n ids done gone s -> ids !! slot_index opt (u32 (Z.of_nat i)) = Some (Some i) ->
  let req := stamp (fill (S := S) g seed).1 (u32 (Z.of_nat i)) (sched opt start i) in
  exists reply m' d s', serve_datagram hs rs store (mkDatagram (Wire.encode (host_little_endian opt) req) now ts ns) m = Some (Some reply, m') /\
    evaluate now rs req (subs !! rq_imsi req) = Some d /\
    receive_reply opt warmup_end measuring (mkReply reply recv) s = Some s' /\
    flight opt start h0 n (<[slot_index opt (u32 (Z.of_nat i)) := None]> ids) (done ++ [(i, recv, measuring)]) gone s' /\
    tally_ s' = add_tally (add_tally (tally_ s) (note_verdict d)) (one_received measuring).
Proof using All.
  intros Hg HR HS Ed HB Ht F Hi req. pose proof (fill_ok g Hg seed) as Hs.
  assert (msg_ok req) as Hm by (apply stamp_ok; [apply (sy_msg _ _ Hs)|by apply wrap_fits..]).
  destruct (served_reply (host_little_endian opt) hs rs P B store subs req now ts ns m hd vs HR HS Ed HB Ht Hm (sy_magic _ _ Hs))
    as (m' & d & Er & Ee & Hd & Hdm). destruct (evaluate_echo _ _ _ _ _ Ee) as [Eseq Ets].
  assert (decode_reply opt (Wire.encode hs (set_server_ts ts d)) = Some (set_server_ts ts d)) as Edec.
  { unfold decode_reply. pose proof (encode_length hs _ Hd) as Hl. rewrite take_ge by lia. rewrite Hl, Nat.eqb_refl. cbn [negb].
    rewrite (Wire.decode_encode hs _ _ no_decision Hd). cbn. rewrite Hdm, Z.eqb_refl. reflexivity. }
  destruct (receive_match opt start h0 k Hk Hmax E0 warmup_end measuring (mkReply (Wire.encode hs (set_server_ts ts d)) recv)
    (set_server_ts ts d) i n ids done gone s F Edec) as (s' & Es & F' & Et); [cbn; by rewrite Eseq|exact Ets|].
  exists (Wire.encode hs (set_server_ts ts d)), m', d, s'. split; [exact Er|]. split; [exact Ee|]. split; [exact Es|].
  split; [|exact Et]. cbn [d_seq set_server_ts] in F'. rewrite Eseq in F'. exact F'.
Qed.
End Exchange.

(** ** A sample *)

(** The first request of a run, in flight. *)
Lemma one_in_flight h0 : latency_histogram = Some h0 ->
  exists s gone, flight sample_opts 1000000 h0 1 (<[0%nat := Some 0%nat]> (replicate 8 None)) [] gone s.
Proof.
  intros E0. destruct (new_sender_ok sample_opts 1000000 h0 3 ltac:(lia) eq_refl E0 ltac:(simpl; lia)) as (s0 & _ & F0).
  destruct (sent_one_ok sample_opts 1000000 h0 3 ltac:(lia) eq_refl E0 _ _ _ _ _ true 1500000 F0) as (s & gone & _ & F).
  exists s, gone. rewrite (fl_seq _ _ _ _ _ _ _ _ F0) in F. exact F.
Qed.

Lemma request_comes_back_witness : exists store m reply m' s s', new_store 4 (dlit 5 (-1)) = Some store /\
  serve_datagram false sample_rule_set store (mkDatagram (Wire.encode true
    (stamp (fill (S := Z) sample_gen 42).1 0 (sched sample_opts 1000000 0))) 0 7 500) m = Some (Some reply, m') /\
  receive_reply sample_opts 1000000 true (mkReply reply 2000000) s = Some s' /\
  received (tally_ s') = received (tally_ s) + 1.
Proof.
  destruct empty_table as (store & Es & HS). destruct service_ns_holds as (hd & _ & _ & Ed & _).
  destruct latency_histogram_ok as (h0 & _ & _ & E0 & _). destruct (one_in_flight h0 E0) as (s & gone & F).
  destruct (request_comes_back (S := Z) sample_opts 1000000 3 h0 ltac:(lia) eq_refl E0 sample_gen 42 false sample_rule_set
    (list_to_set [310410] ∖ {[0]}) (list_to_set [350000000000001] ∖ {[0]}) store ∅ 0 7 500
    (mkMetrics zero_counters (replicate 3 0) (replicate (Z.to_nat kReasonCount) 0) hd) hd [] 0 1 (<[0%nat := Some 0%nat]> (replicate 8 None)) [] gone s 1000000 true 2000000
    sample_gen_ok sample_rule_set_ok HS Ed) as (reply & m' & d & s' & Er & _ & Erx & _ & Et).
  - by split.
  - split; lia.
  - exact F.
  - reflexivity.
  - eexists store, _, reply, m', s, s'. split; [exact Es|]. split; [exact Er|]. split; [exact Erx|].
    rewrite Et. cbn [received add_tally one_received]. destruct (note_verdict_aside d) as (_ & -> & _). lia.
Defined.
