(* ===== verification/Clock.v ===== *)
(** * Clock: the cycle counter and the coarse clock

    include/policy/cycles.hpp: the frequency of the counter, the conversion of counts to
    nanoseconds, the clock derived from the counter and the cost of a reading; and
    include/policy/coarse_clock.hpp: the thread that stores the wall clock in a shared
    variable, as a transition system.  Readings of counters and clocks are arguments. *)

From S2P Require Import Prelude Text Double DoubleBounds DoubleOrder.
From Stdlib Require Import ZArith Lia Bool String.
From stdpp Require Import base list numbers strings.
Local Open Scope Z_scope.

(** ** The frequency *)

(** The counter of AArch64, that of x86-64, and the steady clock where there is neither. *)
Inductive Counter := Cntvct | Rdtsc | SteadyClock.
Definition cycle_counter_name (c : Counter) : string :=
  match c with Cntvct => "cntvct_el0" | Rdtsc => "rdtsc" | SteadyClock => "steady_clock" end.

(** The frequency register, and the readings of counter and clock (in nanoseconds) on
    both sides of the 20 ms of the calibration. *)
Record Calibration := mkCalibration { ca_freq : Z; ca_c0 : Z; ca_c1 : Z; ca_t0 : Z; ca_t1 : Z }.

Definition cycles_per_second (c : Counter) (ca : Calibration) : double :=
  match c with
  | Cntvct => double_of_Z (ca_freq ca)
  | Rdtsc =>
      let elapsed_s := ddiv (double_of_Z (ca_t1 ca - ca_t0 ca)) (dlit 1 9) in
      ddiv (double_of_Z (u64 (ca_c1 ca - ca_c0 ca))) elapsed_s
  | SteadyClock => dlit 1 9
  end.

(** ** From counts to nanoseconds *)

Definition cycles_to_ns (cps : double) (cycles : Z) : double := ddiv (dmul (double_of_Z cycles) (dlit 1 9)) cps.
(** The conversion truncates; its result is defined when it fits 64 bits. *)
Definition cycles_to_ns_i (cps : double) (cycles : Z) : Z := dtrunc (cycles_to_ns cps cycles).

(** A counter reading and a clock reading taken together, and the length of a cycle. *)
Record Anchor := mkAnchor { an_cycles : Z; an_ns : Z; an_ns_per_cycle : double }.
Definition make_anchor (cps : double) (cycles ns : Z) : Anchor := mkAnchor cycles (u64 ns) (ddiv (dlit 1 9) cps).

(** The nanoseconds since the anchor. *)
Definition since (a : Anchor) (reading : Z) : Z :=
  dtrunc (dmul (double_of_Z (u64 (reading - an_cycles a))) (an_ns_per_cycle a)).
Definition cycles_now_ns (a : Anchor) (reading : Z) : Z := u64 (an_ns a + since a reading).

(** The smallest difference of two readings in a row that is not zero, over the pairs of
    readings of the loop. *)
Definition no_difference : Z := 2 ^ 64 - 1.
Fixpoint smallest_loop (pairs : list (Z * Z)) (smallest : Z) : Z :=
  match pairs with
  | [] => smallest
  | (a, b) :: pairs =>
      let d := u64 (b - a) in
      smallest_loop pairs (if negb (d =? 0) && (d <? smallest) then d else smallest)
  end.
Definition cycle_read_overhead_ns (cps : double) (pairs : list (Z * Z)) : double :=
  let smallest := smallest_loop pairs no_difference in
  if smallest =? no_difference then DFin 0 0 else cycles_to_ns cps smallest.

(** The budget of busy polling in cycles (src/server_udp.cpp). *)
Definition busy_poll_cycles (busy_poll_us : Z) (cps : double) : Z :=
  dtrunc (ddiv (dmul (double_of_Z busy_poll_us) cps) (dlit 1 6)).

(** ** The clock never goes back *)

(** A cycle is not negative and lasts at most [2^32] nanoseconds. *)
Definition anchor_ok (a : Anchor) : Prop := fits 64 (an_ns a) /\ dwithin (an_ns_per_cycle a) 1 32.

Lemma product_finite n x : 0 <= n < 2 ^ 64 -> dwithin x 1 32 -> exists m e, dmul (double_of_Z n) x = DFin m e /\ 0 <= m.
Proof.
  intros Hn Hx. pose proof (dmul_within _ _ 1 64 1 32 (double_of_Z_within n 64 ltac:(lia) ltac:(lia)) Hx
    ltac:(lia) ltac:(lia) ltac:(lia) ltac:(lia)) as (m & e & E & Hm & _). by exists m, e.
Qed.

(** The time since the anchor grows with the count, rounding included. *)
Lemma since_mono a r1 r2 : anchor_ok a -> 0 <= an_cycles a -> an_cycles a <= r1 <= r2 -> r2 < 2 ^ 64 ->
  0 <= since a r1 <= since a r2.
Proof.
  intros [_ Hx] H0 Hr Hr2. unfold since. rewrite !(wrap_id 64) by (split; lia).
  destruct (product_finite (r2 - an_cycles a) _ ltac:(lia) Hx) as (m & e & E & Hm).
  destruct (double_of_Z_within (r2 - an_cycles a) 64 ltac:(lia) ltac:(lia)) as (m2 & e2 & E2 & H2 & _).
  destruct Hx as (mc & ec & Ec & Hc & _). rewrite Ec, E2 in E. rewrite Ec, E2, E.
  apply dtrunc_mono. apply (dmul_mono _ m2 e2); [|done|done]. apply (double_of_Z_mono _ (r2 - an_cycles a)); [lia|done].
Qed.

(** C39: The clock derived from the cycle counter is monotone: from one reading of the counter to
    a later one it never goes back, in spite of the roundings of the conversion, and never
    behind the anchor, until it leaves 64 bits. *)
Theorem cycles_now_monotone a r1 r2 : anchor_ok a -> 0 <= an_cycles a -> an_cycles a <= r1 <= r2 -> r2 < 2 ^ 64 ->
  an_ns a + since a r2 < 2 ^ 64 -> an_ns a <= cycles_now_ns a r1 <= cycles_now_ns a r2.
Proof.
  intros Ha H0 Hr Hr2 Hb. pose proof (since_mono a r1 r2 Ha H0 Hr Hr2). destruct Ha as [[Hn _] _].
  unfold cycles_now_ns. rewrite !(wrap_id 64) by (split; lia). lia.
Qed.

(** ** The frequency is usable *)

Lemma nanos_within : dwithin (dlit 1 9) 1 30.
Proof. apply (dwithin_compute _ _ _ 100). vm_compute. reflexivity. Qed.

(** The anchor of a counter of at least one cycle per second. *)
Lemma make_anchor_ok cps cycles ns : at_least_one cps -> anchor_ok (make_anchor cps cycles ns).
Proof.
  intros Hc. split; [apply wrap_fits; lia|]. apply (dwithin_weaken _ 1 30 1 32 0); [lia..|].
  apply ddiv_within; [exact nanos_within|done|lia|lia].
Qed.

(** A sample of a histogram: not negative, and within 64 bits for every interval of at
    most [2^32] cycles, whatever the frequency. *)
Lemma cycles_to_ns_range cps c : at_least_one cps -> 0 <= c <= 2 ^ 32 -> 0 <= cycles_to_ns_i cps c <= 2 ^ 62.
Proof.
  intros Hc Hn. unfold cycles_to_ns_i, cycles_to_ns.
  replace (2 ^ 62) with (1 * 2 ^ 62) by lia. apply dtrunc_within; [|lia..]. apply ddiv_within; [|done|lia|lia].
  apply (dmul_within _ _ 1 32 1 30); [apply double_of_Z_within; lia|exact nanos_within|lia..].
Qed.

(** ** The cost of a reading *)

Lemma smallest_loop_spec pairs s0 : 0 < s0 -> let s := smallest_loop pairs s0 in
  0 < s <= s0 /\ (s = s0 \/ exists ab, ab ∈ pairs /\ s = u64 (ab.2 - ab.1)) /\
  Forall (fun ab => u64 (ab.2 - ab.1) = 0 \/ s <= u64 (ab.2 - ab.1)) pairs.
Proof.
  revert s0. induction pairs as [|[a b] pairs IH]; intros s0 Hs; cbn [smallest_loop]; [repeat split; [lia|lia|by left|constructor]|].
  set (d := u64 (b - a)). assert (0 <= d) as Hd by (apply wrap_fits; lia).
  set (s1 := if negb (d =? 0) && (d <? s0) then d else s0).
  assert (0 < s1 <= s0 /\ (s1 = s0 \/ s1 = d) /\ (d = 0 \/ s1 <= d)) as (H1 & H2 & H3).
  { unfold s1. destruct (Z.eqb_spec d 0); simpl; [repeat split; auto; lia|]. destruct (Z.ltb_spec d s0); repeat split; auto; lia. }
  destruct (IH s1 ltac:(lia)) as (G1 & G2 & G3). split; [lia|]. split.
  - destruct G2 as [G2|(ab & Hab & E)]; [|right; exists ab; by split; [right|]].
    destruct H2 as [H2|H2]; [left; lia|]. right. exists (a, b). split; [left|]. rewrite G2. exact H2.
  - constructor; [|done]. simpl. fold d. lia.
Qed.

(** ** The coarse clock *)

(** Where the ticking thread stands: at the head of its loop, before the store, in the
    loop of sleeps with what it has slept (in milliseconds), at its end. *)
Inductive TickPhase := TkHead | TkStore | TkSlice (slept : Z) | TkDone.

(** [tk_coarse] is the shared variable.  [tk_age] counts the sleeps since the variable was
    last stored; the code has no such field. *)
Record Ticker := mkTicker { tk_interval : Z; tk_stop : bool; tk_phase : TickPhase; tk_coarse : Z; tk_age : Z }.

(** The constructor stores a first reading and starts the thread. *)
Definition new_ticker (interval now : Z) : Ticker := mkTicker interval false TkHead now 0.

(** A step of the thread, which may read the wall clock, or the store of the destructor. *)
Inductive TickLabel := TkRun (now : Z) | TkStop.

Definition thread_step (now : Z) (t : Ticker) : Ticker :=
  match tk_phase t with
  | TkHead => mkTicker (tk_interval t) (tk_stop t) (if tk_stop t then TkDone else TkStore) (tk_coarse t) (tk_age t)
  | TkStore => mkTicker (tk_interval t) (tk_stop t) (TkSlice 0) now 0
  | TkSlice slept =>
      if (slept <? tk_interval t) && negb (tk_stop t)
      then mkTicker (tk_interval t) (tk_stop t) (TkSlice (slept + 10)) (tk_coarse t) (tk_age t + 1)
      else mkTicker (tk_interval t) (tk_stop t) TkHead (tk_coarse t) (tk_age t)
  | TkDone => t
  end.
Definition tick_step (l : TickLabel) (t : Ticker) : Ticker :=
  match l with
  | TkRun now => thread_step now t
  | TkStop => mkTicker (tk_interval t) true (tk_phase t) (tk_coarse t) (tk_age t)
  end.
Definition tick_exec (ls : list TickLabel) (t : Ticker) : Ticker := foldl (fun t l => tick_step l t) t ls.

Definition readings (ls : list TickLabel) : list Z := omap (fun l => match l with TkRun now => Some now | TkStop => None end) ls.

(** The slices of an interval. *)
Definition slices (interval : Z) : Z := (Z.max interval 0 + 9) / 10.

Record tick_inv (interval : Z) (rs : list Z) (t : Ticker) : Prop := {
  ti_interval : tk_interval t = interval;
  ti_age : 0 <= tk_age t <= slices interval;
  ti_slice : forall slept, tk_phase t = TkSlice slept -> slept = 10 * tk_age t;
  ti_reading : tk_coarse t ∈ rs }.

Lemma tick_inv_step interval rs rs' l t : tick_inv interval rs t -> (forall x, x ∈ rs -> x ∈ rs') ->
  (forall now, l = TkRun now -> now ∈ rs') -> tick_inv interval rs' (tick_step l t).
Proof.
  intros [Hi Ha Hs Hr] Hsub Hnow. assert (0 <= slices interval) as Hp by (apply Z.div_pos; lia).
  destruct l as [now|]; [|split; simpl; auto]. simpl. unfold thread_step. destruct (tk_phase t) as [| |slept|] eqn:Ep.
  - split; simpl; auto. intros slept. by destruct (tk_stop t).
  - split; simpl; auto with lia. intros slept [= <-]. lia.
  - specialize (Hs slept eq_refl). destruct (Z.ltb_spec slept (tk_interval t)) as [Hlt|]; simpl; [destruct (tk_stop t); simpl|].
    + split; simpl; auto. done.
    + split; simpl; auto; [|intros ? [= <-]; lia]. split; [lia|]. rewrite Hi in Hlt. unfold slices.
      apply Z.div_le_lower_bound; lia.
    + split; simpl; auto. done.
  - split; simpl; auto. rewrite Ep. done.
Qed.

Lemma tick_exec_inv interval rs ls t : tick_inv interval rs t -> tick_inv interval (rs ++ readings ls) (tick_exec ls t).
Proof.
  revert rs t. induction ls as [|l ls IH]; intros rs t H; [by rewrite app_nil_r|].
  change (tick_exec (l :: ls) t) with (tick_exec ls (tick_step l t)).
  assert (rs ++ readings (l :: ls) = (rs ++ readings [l]) ++ readings ls) as ->.
  { rewrite <- app_assoc. f_equal. by destruct l. }
  apply IH. eapply tick_inv_step; [exact H|intros x Hx; apply elem_of_app; by left|]. intros now ->. apply elem_of_app. right. left.
Qed.

(** The coarse clock is fresh and its thread stops promptly.  However the steps of the
    thread interleave with the destructor, the shared variable holds a reading of the wall
    clock that was taken at most [ceil(interval / 10)] sleeps of 10 ms ago (ten for the default
    of 100 ms); and once the destructor has set the flag, the thread ends in at most three
    steps, without another sleep. *)
Theorem coarse_clock_fresh interval now0 ls : let t := tick_exec ls (new_ticker interval now0) in
  tk_coarse t ∈ now0 :: readings ls /\ 0 <= tk_age t <= slices interval /\
  (tk_stop t = true -> forall now, exists n, (n <= 3)%nat /\
     let t' := tick_exec (replicate n (TkRun now)) t in tk_phase t' = TkDone /\ tk_age t' <= tk_age t).
Proof.
  intros t. assert (0 <= slices interval) as Hp by (apply Z.div_pos; lia).
  assert (tick_inv interval [now0] (new_ticker interval now0)) as H0.
  { split; simpl; [done|lia|done|left]. }
  destruct (tick_exec_inv interval [now0] ls _ H0) as [Hi Ha Hs Hr]. fold t in Hi, Ha, Hs, Hr. clearbody t.
  split; [exact Hr|]. split; [exact Ha|]. intros Hstop now. destruct t as [i st ph co ag]; simpl in *. subst st.
  destruct ph as [| |slept|]; [exists 1%nat|exists 3%nat|exists 2%nat|exists 0%nat]; (split; [lia|]); cbn;
    rewrite ?andb_false_r; cbn; (split; [done|lia]).
Qed.

(** ** Witnesses *)

Definition sample_anchor : Anchor := make_anchor (dlit 2995 6) 1000 5000000.

Lemma sample_anchor_ok : anchor_ok sample_anchor.
Proof.
  apply make_anchor_ok. apply round_q_one; [|vm_compute; reflexivity]. vm_compute. split; congruence.
Qed.

(** One microsecond of a counter of 2.995 GHz. *)
Lemma cycles_now_monotone_witness : an_ns sample_anchor <= cycles_now_ns sample_anchor 3000 <= cycles_now_ns sample_anchor 3995 /\
  cycles_now_ns sample_anchor 3995 = 5001000.
Proof.
  split; [|vm_compute; reflexivity]. apply cycles_now_monotone; [exact sample_anchor_ok|vm_compute; congruence| | |];
    try (vm_compute; reflexivity). split; vm_compute; congruence.
Defined.
