(* ===== verification/Journal.v ===== *)
(** * Journal: the log lines, the calendar they print, thread names and pinning

    src/logging.cpp (the line of a message), the timestamp of bench/loadgen.cpp, and
    src/affinity.cpp with the first lines of every thread that names and pins itself
    (server_udp.cpp, server_iouring.cpp, http_front.cpp, control_plane.cpp, admin_http.cpp,
    loadgen.cpp).  The wall clock and the answers of the platform are arguments. *)

From S2P Require Import Prelude Text Config Tools.
From Stdlib Require Import ZArith Lia Bool Ascii String.
From stdpp Require Import base list numbers strings.
Local Open Scope Z_scope.

(** ** The calendar of [gmtime_r] *)

(** The fields of [std::tm] the sources print; the month counts from 0 and the year from
    1900, as in C. *)
Record tm := mkTm { tm_year : Z; tm_mon : Z; tm_mday : Z; tm_hour : Z; tm_min : Z; tm_sec : Z }.

Definition leap (y : Z) : bool := (y mod 4 =? 0) && (negb (y mod 100 =? 0) || (y mod 400 =? 0)).

(** A period of 400 years that starts on the first of March has three centuries of 36524
    days and one of a day more; a century has 24 groups of four years of 1461 days and a last
    one; a group has three years of 365 days and a last one.  The centuries, groups and years
    before a day of the period, and the day of its year. *)
Definition date_in_era (doe : Z) : Z * Z * Z * Z :=
  let c := Z.min 3 (doe / 36524) in let doc := doe - 36524 * c in
  let q := Z.min 24 (doc / 1461) in let doq := doc - 1461 * q in
  let r := Z.min 3 (doq / 365) in
  (c, q, r, doq - 365 * r).

(** The month from March and the day of the month, both from 0, of a day of such a year. *)
Definition month_in_year (doy : Z) : Z * Z := let mp := (5 * doy + 2) / 153 in (mp, doy - (153 * mp + 2) / 5).

(** The year, the month from 1 and the day of the month from 1 of a day counted from
    1970-01-01. *)
Definition civil (days : Z) : Z * Z * Z :=
  let z := days + 719468 in
  let '(c, q, r, doy) := date_in_era (z mod 146097) in
  let '(mp, d) := month_in_year doy in
  let y := 400 * (z / 146097) + 100 * c + 4 * q + r in
  if mp <? 10 then (y, mp + 3, d + 1) else (y + 1, mp - 9, d + 1).

Definition gmtime (t : Z) : tm :=
  let '(y, m, d) := civil (t / 86400) in
  let s := t mod 86400 in
  mkTm (y - 1900) (m - 1) d (s / 3600) (s / 60 mod 60) (s mod 60).

(** ** The texts *)

(** [%0nd] of a number that is not negative. *)
Definition show_padded (n : nat) (v : Z) : string :=
  if v <? 10 ^ Z.of_nat n then format_digits n v "" else to_string v.

Definition date_text (t : tm) : string :=
  (show_padded 4 (tm_year t + 1900) +:+ "-" +:+ show_padded 2 (tm_mon t + 1) +:+ "-" +:+ show_padded 2 (tm_mday t) +:+ "T" +:+
   show_padded 2 (tm_hour t) +:+ ":" +:+ show_padded 2 (tm_min t) +:+ ":" +:+ show_padded 2 (tm_sec t))%string.

(** A reading of the wall clock: seconds and nanoseconds. *)
Record timespec := mkTimespec { tv_sec : Z; tv_nsec : Z }.

Definition stamp (ts : timespec) : string :=
  (date_text (gmtime (tv_sec ts)) +:+ "." +:+ show_padded 3 (tv_nsec ts / 1000000) +:+ "Z")%string.

Definition level_tag (l : LogLevel) : string :=
  match l with
  | kTrace => "TRACE" | kDebug => "DEBUG" | kInfo => "INFO " | kWarn => "WARN " | kError => "ERROR" | kOff => "OFF  "
  end.

Definition newline : string := String "010" "".

(** The line that is written under the lock. *)
Definition log_write (ts : timespec) (l : LogLevel) (message : string) : string :=
  (stamp ts +:+ " " +:+ level_tag l +:+ " " +:+ message +:+ newline)%string.

(** The time of a result file of the load generator. *)
Definition iso_now (t : Z) : string := (date_text (gmtime t) +:+ "Z")%string.

(** ** Reading a stamp back *)

(** The days from 1970-01-01 to a date, by the rule of the calendar: 365 days a year, the
    leap years before, the lengths of the months before. *)
Definition leaps_before (y : Z) : Z := (y - 1) / 4 - (y - 1) / 100 + (y - 1) / 400.
Definition month_length (lp : bool) (m : Z) : Z :=
  if m =? 2 then (if lp then 29 else 28) else if (m =? 4) || (m =? 6) || (m =? 9) || (m =? 11) then 30 else 31.
Fixpoint month_lengths (lp : bool) (n : nat) : Z :=
  match n with O => 0 | S n => month_lengths lp n + month_length lp (Z.of_nat n + 1) end.
Definition days_of (y m d : Z) : Z :=
  365 * (y - 1970) + (leaps_before y - leaps_before 1970) + month_lengths (leap y) (Z.to_nat (m - 1)) + (d - 1).

Definition read_field (n : nat) (s : string) : option (Z * string) :=
  let f := str_take n s in
  if (String.length f =? n)%nat && all_digits f then Some (dec_value f 0, str_drop n s) else None.
Definition read_char (c : ascii) (s : string) : option string :=
  match s with String c' s => if ascii_dec c' c then Some s else None | EmptyString => None end.

(** The milliseconds since 1970 of a stamp. *)
Definition read_stamp (s : string) : option Z :=
  '(y, s) ← read_field 4 s; s ← read_char "-" s;
  '(m, s) ← read_field 2 s; s ← read_char "-" s;
  '(d, s) ← read_field 2 s; s ← read_char "T" s;
  '(h, s) ← read_field 2 s; s ← read_char ":" s;
  '(mi, s) ← read_field 2 s; s ← read_char ":" s;
  '(se, s) ← read_field 2 s; s ← read_char "." s;
  '(ms, s) ← read_field 3 s; s ← read_char "Z" s;
  if bool_decide (s = ""%string) then Some (((days_of y m d * 24 + h) * 60 + mi) * 60000 + se * 1000 + ms) else None.

(** ** The calendar is right *)

(** A date of the calendar: a month and a day of that month. *)
Definition date_ok (y m d : Z) : Prop := 1 <= m <= 12 /\ 1 <= d <= month_length (leap y) m.

Lemma leaps_before_succ y : leaps_before (y + 1) = leaps_before y + Z.b2z (leap y).
Proof.
  unfold leaps_before, leap. destruct (Z.eqb_spec (y mod 4) 0), (Z.eqb_spec (y mod 100) 0), (Z.eqb_spec (y mod 400) 0); simpl;
    Z.div_mod_to_equations; lia.
Qed.

Lemma date_in_era_spec doe c q r doy : 0 <= doe < 146097 -> date_in_era doe = (c, q, r, doy) ->
  0 <= c <= 3 /\ 0 <= q <= 24 /\ 0 <= r <= 3 /\ 0 <= doy <= 365 /\ doe = 36524 * c + 1461 * q + 365 * r + doy /\
  (doy = 365 -> r = 3 /\ (q <> 24 \/ c = 3)).
Proof. intros H [= <- <- <- <-]. Z.div_mod_to_equations. lia. Qed.

(** The day of a year from March against the months of that year and the next. *)
Definition month_ok (lp : bool) (doy : Z) : bool :=
  let '(mp, d) := month_in_year doy in
  let m := if mp <? 10 then mp + 3 else mp - 9 in
  (0 <=? mp) && (mp <=? 11) && (0 <=? d) && (d <? month_length lp m) &&
  (if mp <? 10 then month_lengths lp (Z.to_nat (m - 1)) + d =? 59 + Z.b2z lp + doy
   else month_lengths lp (Z.to_nat (m - 1)) + d =? doy - 306).

Lemma month_ok_table : forallb (fun n => month_ok true (Z.of_nat n) && ((n =? 365)%nat || month_ok false (Z.of_nat n))) (seq 0 366) = true.
Proof. vm_compute. reflexivity. Qed.

Lemma month_in_year_ok lp doy : 0 <= doy <= 365 -> (doy = 365 -> lp = true) -> month_ok lp doy = true.
Proof.
  intros H Hl. pose proof month_ok_table as T. rewrite forallb_forall in T.
  specialize (T (Z.to_nat doy)). rewrite Z2Nat.id in T by lia.
  specialize (T ltac:(apply in_seq; lia)). bool_to_prop. destruct lp; [done|].
  destruct (Nat.eqb_spec (Z.to_nat doy) 365); [by specialize (Hl ltac:(lia))|]. by bool_to_prop.
Qed.

Lemma year_shape e c q r : 0 <= c <= 3 -> 0 <= q <= 24 -> 0 <= r <= 3 -> let y := 400 * e + 100 * c + 4 * q + r in
  leaps_before (y + 1) = 97 * e + 24 * c + q /\ (r = 3 /\ (q <> 24 \/ c = 3) -> leap (y + 1) = true).
Proof.
  intros Hc Hq Hr y. unfold leaps_before, leap. split.
  - subst y. Z.div_mod_to_equations. lia.
  - intros H. rewrite !Z.eqb_compare. subst y.
    destruct (Z.compare_spec ((400 * e + 100 * c + 4 * q + r + 1) mod 4) 0) as [E4|E4|E4],
      (Z.compare_spec ((400 * e + 100 * c + 4 * q + r + 1) mod 100) 0) as [E1|E1|E1],
      (Z.compare_spec ((400 * e + 100 * c + 4 * q + r + 1) mod 400) 0) as [E0|E0|E0]; try done;
      exfalso; Z.div_mod_to_equations; lia.
Qed.

(** Every day gets a date of the calendar, and it is that day's. *)
Lemma civil_ok days y m d : civil days = (y, m, d) -> date_ok y m d /\ days_of y m d = days.
Proof.
  unfold civil. set (z := days + 719468). destruct (date_in_era (z mod 146097)) as [[[c q] r] doy] eqn:E.
  apply date_in_era_spec in E as (Hc & Hq & Hr & Hd & Hz & Hl); [|apply Z.mod_pos_bound; lia].
  pose proof (Z.div_mod z 146097 ltac:(lia)) as Hdm.
  destruct (year_shape (z / 146097) c q r Hc Hq Hr) as [Hy Hleap]. set (y0 := 400 * (z / 146097) + 100 * c + 4 * q + r) in *.
  pose proof (month_in_year_ok (leap y0) doy Hd) as M0. pose proof (month_in_year_ok (leap (y0 + 1)) doy Hd ltac:(auto)) as M1.
  unfold month_ok in M0, M1. destruct (month_in_year doy) as [mp d0] eqn:Em. unfold days_of, date_ok.
  assert (mp < 10 -> doy <> 365) as Hmar.
  { intros ? ->. vm_compute in Em. injection Em as <- <-. lia. }
  pose proof (leaps_before_succ y0) as Hs. change (leaps_before 1970) with 477.
  revert M0 M1. destruct (Z.ltb_spec mp 10); intros M0 M1 [= <- <- <-].
  - specialize (M0 ltac:(intros; exfalso; by apply Hmar)). bool_to_prop. split; [lia|]. subst z. lia.
  - bool_to_prop. split; [lia|]. subst z. lia.
Qed.

Lemma day_of_year_bound y m d : date_ok y m d ->
  0 <= month_lengths (leap y) (Z.to_nat (m - 1)) + (d - 1) < 365 + Z.b2z (leap y).
Proof.
  intros [Hm Hd].
  assert (m = 1 \/ m = 2 \/ m = 3 \/ m = 4 \/ m = 5 \/ m = 6 \/ m = 7 \/ m = 8 \/ m = 9 \/ m = 10 \/ m = 11 \/ m = 12) as Hin by lia.
  repeat destruct Hin as [->|Hin]; subst; destruct (leap y);
    match goal with |- context [month_lengths ?b ?n] => let v := eval vm_compute in (month_lengths b n) in change (month_lengths b n) with v end;
    match goal with H : context [month_length ?b ?n] |- _ => let v := eval vm_compute in (month_length b n) in change (month_length b n) with v in H end;
    simpl; lia.
Qed.

(** The first second of the year 10000. *)
Definition end_of_years : Z := 253402300800.

Lemma civil_year t y m d : 0 <= t < end_of_years -> civil (t / 86400) = (y, m, d) -> 1970 <= y <= 9999.
Proof.
  intros Ht E. apply civil_ok in E as [Hd E]. apply day_of_year_bound in Hd. pose proof (leaps_before_succ y) as Hs.
  assert (0 <= t / 86400 < 2932897) as Hday by (split; [apply Z.div_pos|apply Z.div_lt_upper_bound]; unfold end_of_years in Ht; lia).
  unfold days_of in E. change (leaps_before 1970) with 477 in E. revert E Hs Hd.
  generalize (month_lengths (leap y) (Z.to_nat (m - 1))) (Z.b2z (leap y)). unfold leaps_before. intros a b E Hs Hd.
  split; Z.div_mod_to_equations; lia.
Qed.

(** ** Reading back what was written *)

Lemma str_split_app s t : str_take (String.length s) (s +:+ t) = s /\ str_drop (String.length s) (s +:+ t) = t.
Proof.
  induction s as [|c s [IH1 IH2]]; [by destruct t|]. change (String c s +:+ t)%string with (String c (s +:+ t)).
  simpl. by rewrite IH1, IH2.
Qed.

Lemma read_field_padded n v rest : 0 <= v < 10 ^ Z.of_nat n -> read_field n (show_padded n v +:+ rest) = Some (v, rest).
Proof.
  intros Hv. unfold show_padded. rewrite (proj2 (Z.ltb_lt _ _)) by lia. unfold read_field.
  pose proof (str_split_app (format_digits n v "") rest) as [Ht Hd]. rewrite format_digits_length in Ht, Hd. simpl in Ht, Hd.
  rewrite Nat.add_0_r in Ht, Hd. rewrite Ht, Hd, format_digits_length, format_digits_all, dec_value_format by lia. simpl.
  rewrite Nat.add_0_r, Nat.eqb_refl. simpl. by rewrite Z.mod_small.
Qed.

Lemma read_char_app c rest : read_char c (String c "" +:+ rest) = Some rest.
Proof. simpl. by destruct (ascii_dec c c). Qed.

Lemma show_padded_length n v : 0 <= v < 10 ^ Z.of_nat n -> String.length (show_padded n v) = n.
Proof.
  intros Hv. unfold show_padded. rewrite (proj2 (Z.ltb_lt _ _)) by lia. rewrite format_digits_length. simpl. lia.
Qed.

(** C40: The timestamp of a log line is exact: until the year 10000 it is 24 characters long and
    reads back, by the rules of the calendar, as the millisecond of the clock reading.  So
    lines written in different milliseconds have different stamps. *)
Theorem stamp_roundtrip ts : 0 <= tv_sec ts < end_of_years -> 0 <= tv_nsec ts < 10 ^ 9 ->
  String.length (stamp ts) = 24%nat /\ read_stamp (stamp ts) = Some (tv_sec ts * 1000 + tv_nsec ts / 1000000).
Proof.
  destruct ts as [t ns]. simpl. intros Ht Hn. unfold stamp, date_text, gmtime. cbn [tv_sec tv_nsec].
  destruct (civil (t / 86400)) as [[y m] d] eqn:E. pose proof (civil_year t y m d Ht E) as Hy.
  apply civil_ok in E as [[Hm Hd] E]. assert (month_length (leap y) m <= 31) by (unfold month_length; repeat case_match; lia).
  assert (0 <= ns / 1000000 < 1000) as Hms by (Z.div_mod_to_equations; lia).
  assert (0 <= t mod 86400 / 3600 < 24 /\ 0 <= t mod 86400 / 60 mod 60 < 60 /\ 0 <= t mod 86400 mod 60 < 60 /\
    t = t / 86400 * 86400 + t mod 86400 / 3600 * 3600 + t mod 86400 / 60 mod 60 * 60 + t mod 86400 mod 60) as (Hh & Hmi & Hs & Hsum)
    by (Z.div_mod_to_equations; lia).
  cbn [tm_year tm_mon tm_mday tm_hour tm_min tm_sec]. split.
  - rewrite !str_app_length, !show_padded_length by (simpl; lia). reflexivity.
  - unfold read_stamp. rewrite !str_app_assoc.
    repeat first [rewrite read_field_padded by (simpl; lia)|rewrite read_char_app|progress cbn [mbind option_bind]].
    change (read_char "Z" "Z") with (Some ""%string). simpl. rewrite Z.sub_add, Z.sub_add. f_equal. lia.
Qed.

(** The instant of the golden decisions is five days before the date its comment gives. *)
Lemma golden_clock_date : iso_now kGoldenClockUnixS = "2026-08-27T00:00:00Z" /\ days_of 2026 9 1 * 86400 = kGoldenClockUnixS + 5 * 86400.
Proof. split; vm_compute; reflexivity. Qed.

(** ** Names and cores of threads *)

Inductive PinResult := kPinned | kUnsupported | kFailed.

Inductive System := Linux | Apple | OtherSystem.

(** What the platform answers: the number of hardware threads, the result of
    [pthread_setaffinity_np] for a set of cores, that of the request for a quality of service,
    and the texts of error codes. *)
Record Host := mkHost {
  ho_system : System; ho_hardware : Z; ho_setaffinity : list Z -> Z; ho_qos : Z; ho_error : Z -> string }.

Definition hardware_thread_count (mc : Host) : Z := if ho_hardware mc =? 0 then 1 else ho_hardware mc.

Definition dash : string := String "226" (String "128" (String "148" "")).
Definition affinity_support_description (mc : Host) : string :=
  match ho_system mc with
  | Linux => "sched_setaffinity (hard pinning)"
  | Apple => "none " +:+ dash +:+ " macOS has no sched_setaffinity; threads request " +:+
             "QOS_CLASS_USER_INTERACTIVE instead, which buys performance-core " +:+ "eligibility but not placement"
  | OtherSystem => "none " +:+ dash +:+ " unsupported platform"
  end.

(** [CPU_SET] ignores a core beyond the 1024 bits of the set. *)
Definition cpu_set (core : Z) : list Z := if core <? 1024 then [core] else [].

Definition pin_current_thread (mc : Host) (core : Z) : PinResult * string :=
  match ho_system mc with
  | Linux =>
      let rc := ho_setaffinity mc (cpu_set core) in
      if negb (rc =? 0) then (kFailed, "pthread_setaffinity_np: " +:+ ho_error mc rc)
      else (kPinned, "core " +:+ to_string core)
  | Apple =>
      (kUnsupported, if ho_qos mc =? 0 then "QoS set to USER_INTERACTIVE (performance cores); macOS has no true pinning"
                     else "macOS has no true pinning, and the QoS request failed")
  | OtherSystem => (kUnsupported, "not supported on this platform")
  end.

(** The name the system is given; where names are not supported it is dropped. *)
Definition name_current_thread (mc : Host) (name : string) : option string :=
  match ho_system mc with OtherSystem => None | _ => Some (str_take 15 name) end.

(** What a thread has done when its own work begins: its name, the core it was asked onto
    and the answer, and its lines in the log. *)
Record Prologue := mkPrologue { pr_name : option string; pr_pin : option (Z * PinResult); pr_log : list (LogLevel * string) }.

Definition prologue (mc : Host) (name : string) (core : option Z) (report : PinResult -> string -> list (LogLevel * string)) : Prologue :=
  match core with
  | None => mkPrologue (name_current_thread mc name) None []
  | Some core =>
      let '(res, detail) := pin_current_thread mc core in
      mkPrologue (name_current_thread mc name) (Some (core, res)) (report res detail)
  end.

Definition worker_core (cfg : ServerConfig) (i : nat) : option Z :=
  if pin_workers cfg then Some (u32 (first_core cfg + u32 (Z.of_nat i))) else None.
Definition show_index (i : nat) : string := to_string (Z.of_nat i).

Definition udp_prologue (mc : Host) (cfg : ServerConfig) (i : nat) : Prologue :=
  prologue mc ("policy-w" +:+ show_index i) (worker_core cfg i) (fun res detail =>
    match res with
    | kPinned => [(kInfo, "worker " +:+ show_index i +:+ " pinned to " +:+ detail)]
    | kUnsupported => [(kWarn, "worker " +:+ show_index i +:+ " not pinned: " +:+ detail)]
    | kFailed => [(kError, "worker " +:+ show_index i +:+ " pinning failed: " +:+ detail)]
    end%string).
Definition uring_prologue (mc : Host) (cfg : ServerConfig) (i : nat) : Prologue :=
  prologue mc ("policy-u" +:+ show_index i) (worker_core cfg i) (fun res detail =>
    match res with
    | kPinned => [(kInfo, "io_uring worker " +:+ show_index i +:+ " pinned to " +:+ detail)]
    | _ => []
    end%string).
Definition http_prologue (mc : Host) (cfg : ServerConfig) (i : nat) : Prologue :=
  prologue mc ("policy-h" +:+ show_index i) (worker_core cfg i) (fun _ _ => []).
Definition watch_prologue (mc : Host) (cfg : ServerConfig) : Prologue :=
  prologue mc "policy-watch" (if 0 <=? control_plane_core cfg then Some (u32 (control_plane_core cfg)) else None) (fun _ _ => []).
Definition admin_prologue (mc : Host) : Prologue := prologue mc "policy-admin" None (fun _ _ => []).
(** A thread of the load generator. *)
Definition loadgen_prologue (mc : Host) (pin : bool) (first_core : Z) (i : nat) : Prologue :=
  prologue mc ("loadgen-" +:+ show_index i) (if pin then Some (u32 (first_core + u32 (Z.of_nat i))) else None) (fun _ _ => []).

(** ** Workers get cores of their own *)

Lemma to_string_inj a b : 0 <= a -> 0 <= b -> to_string a = to_string b -> a = b.
Proof. intros Ha Hb E. rewrite <- (proj2 (to_string_value a Ha)), <- (proj2 (to_string_value b Hb)). by rewrite E. Qed.

Lemma str_take_all n s : (String.length s <= n)%nat -> str_take n s = s.
Proof. intros H. rewrite <- (str_take_drop n s) at 2. by rewrite (str_drop_all n s H), str_app_nil_r. Qed.

Lemma str_app_inj s t u : (s +:+ t = s +:+ u)%string -> t = u.
Proof. induction s as [|c s IH]; [done|]. intros E. injection E as E. by apply IH. Qed.

(** Names of up to seven digits are not cut. *)
Lemma names_apart mc p i j : String.length p = 8%nat -> Z.of_nat i < 10 ^ 7 -> Z.of_nat j < 10 ^ 7 -> i <> j -> ho_system mc <> OtherSystem ->
  name_current_thread mc (p +:+ show_index i) <> name_current_thread mc (p +:+ show_index j).
Proof.
  intros Hp Hi Hj Hij Hs E. assert (forall k, Z.of_nat k < 10 ^ 7 -> str_take 15 (p +:+ show_index k) = (p +:+ show_index k)%string) as Hk.
  { intros k Hk. apply str_take_all. rewrite str_app_length, Hp. unfold show_index. rewrite to_string_length.
    pose proof (dec_length_upper (Z.to_nat (Z.log2 (Z.of_nat k))) (Z.of_nat k) 7 ltac:(lia) Hk). lia. }
  unfold name_current_thread in E. rewrite !Hk in E by done.
  assert (show_index i = show_index j) as E'; [|apply to_string_inj in E'; lia].
  destruct (ho_system mc); [| |done]; injection E as E; by apply (str_app_inj p).
Qed.

(** The check of the configuration that pinning relies on. *)
Lemma validate_cores hc fe io cfg : validate_config hc fe io cfg = ""%string -> pin_workers cfg = true ->
  u32 (first_core cfg + worker_threads cfg) <= hw hc.
Proof.
  unfold validate_config. intros H Hp. rewrite Hp in H. repeat case_match; bool_to_prop; try done; lia.
Qed.

(** The thread of an ingest worker and that of the HTTP worker of the same number are bound
    to the same core, although the pinning is there to keep workers apart. *)
Lemma http_worker_shares_core mc cfg i : option_map fst (pr_pin (http_prologue mc cfg i)) = option_map fst (pr_pin (udp_prologue mc cfg i)).
Proof. unfold http_prologue, udp_prologue, prologue. destruct (worker_core cfg i) as [c|]; [|done]. by destruct (pin_current_thread mc c). Qed.

(** In a configuration that passes validation with pinning on, on a Linux that binds a
    thread to any core it has, every ingest worker is bound to a core of the machine and says
    so, no two to the same one, and no two threads have the same name. *)
Theorem workers_pinned_apart mc fe io cfg i j :
  ho_system mc = Linux -> 0 < ho_hardware mc <= 1024 -> (forall core, 0 <= core < ho_hardware mc -> ho_setaffinity mc [core] = 0) ->
  0 <= first_core cfg -> first_core cfg + worker_threads cfg < 2 ^ 32 -> pin_workers cfg = true ->
  validate_config (ho_hardware mc) fe io cfg = ""%string -> (i < j)%nat -> Z.of_nat j < worker_threads cfg ->
  let p := udp_prologue mc cfg in let core k := first_core cfg + Z.of_nat k in
  (forall k, (k = i \/ k = j) -> core k < hardware_thread_count mc /\ pr_pin (p k) = Some (core k, kPinned) /\
     pr_log (p k) = [(kInfo, "worker " +:+ show_index k +:+ " pinned to core " +:+ to_string (core k))%string]) /\
  core i <> core j /\ pr_name (p i) <> pr_name (p j).
Proof.
  intros Hs Hh Hk Hf Hw Hp Hv Hij Hj p core. apply validate_cores in Hv; [|done]. unfold hw in Hv. rewrite (wrap_id 32) in Hv by (split; lia).
  assert (forall k, (k <= j)%nat -> p k = mkPrologue (name_current_thread mc ("policy-w" +:+ show_index k)) (Some (core k, kPinned))
    [(kInfo, "worker " +:+ show_index k +:+ " pinned to core " +:+ to_string (core k))%string]) as E.
  { intros k Hkj. unfold p, udp_prologue, prologue, worker_core. rewrite Hp, !(wrap_id 32) by (rewrite ?(wrap_id 32) by (split; lia); split; lia).
    unfold pin_current_thread. fold (core k). rewrite Hs. unfold cpu_set. rewrite (proj2 (Z.ltb_lt (core k) 1024)) by (unfold core; lia).
    rewrite Hk by (unfold core; lia). reflexivity. }
  split; [|split; [unfold core; lia|]].
  - intros k Hkij. rewrite E by lia. unfold hardware_thread_count. rewrite (proj2 (Z.eqb_neq _ _)) by lia. split; [unfold core; lia|done].
  - rewrite !E by lia. apply (names_apart mc "policy-w"); [done|lia..|by rewrite Hs].
Qed.

(** ** Witnesses *)

Lemma stamp_roundtrip_witness :
  stamp (mkTimespec 1709210096 789654321) = "2024-02-29T12:34:56.789Z"%string /\
  read_stamp (stamp (mkTimespec 1709210096 789654321)) = Some 1709210096789.
Proof.
  split; [vm_compute; reflexivity|]. apply (stamp_roundtrip (mkTimespec 1709210096 789654321)); vm_compute; split; congruence.
Defined.

(** Four workers on a machine of eight threads. *)
Definition sample_host : Host := mkHost Linux 8 (fun cores => if forallb (fun c => c <? 8) cores then 0 else 22) 0 (fun _ => "Invalid argument"%string).
Definition pinned_config : ServerConfig := set_first_core 2 (set_worker_threads 4 default_config).

Lemma workers_pinned_apart_witness :
  pr_log (udp_prologue sample_host pinned_config 3) = [(kInfo, "worker 3 pinned to core 5"%string)] /\
  pr_name (udp_prologue sample_host pinned_config 0) <> pr_name (udp_prologue sample_host pinned_config 3).
Proof.
  destruct (workers_pinned_apart sample_host (fun _ => true) false pinned_config 0 3) as (Hk & _ & Hn);
    [reflexivity|split; vm_compute; congruence| |vm_compute; congruence|vm_compute; reflexivity|reflexivity|vm_compute; reflexivity|lia|vm_compute; reflexivity|].
  - intros core Hc. simpl. rewrite (proj2 (Z.ltb_lt core 8)); [reflexivity|]. apply Hc.
  - split; [|exact Hn]. apply (Hk 3%nat). by right.
Defined.
