(* ===== verification/Os.v ===== *)
(** * Os: descriptors, threads and the calls of the operating system

    What the start-up and shutdown code of the program does to its surroundings: open
    descriptors, running threads, lines of the log and of standard error.  A program is
    a state transformer; [None] is a run that cannot go on: a [join] of a thread that
    nobody asked to stop, a descriptor that is closed twice or while a thread uses it.
    The kernel is an interface, [Kernel] with its laws [KernelOk]: it may refuse any
    call, and a new descriptor is one that is not open.  [owns] describes a process by
    the groups of descriptors and threads that belong together. *)

From S2P Require Import Prelude Text Config.
From Stdlib Require Import ZArith Lia Bool Ascii String.
From stdpp Require Import base list numbers strings gmap countable.
Local Open Scope Z_scope.

(** ** Sockets and threads *)

(** A port in network byte order is its two bytes, an IPv4 address its four. *)
Record sockaddr_in := mkAddr { sin_addr : list Z; sin_port : list Z }.

Definition htons (p : Z) : list Z := [p / 256 mod 256; p mod 256].
Definition ntohs (b : list Z) : Z := match b with [hi; lo] => hi * 256 + lo | _ => 0 end.

Lemma ntohs_htons p : fits 16 p -> ntohs (htons p) = p.
Proof.
  intros [H0 H1]. unfold ntohs, htons. assert (p / 256 < 256) by (apply Z.div_lt_upper_bound; simpl in H1; lia).
  rewrite (Z.mod_small (p / 256)) by (split; [apply Z.div_pos; lia|done]). pose proof (Z.div_mod p 256). lia.
Qed.

(** What the kernel keeps for a socket. *)
Record Sock := mkSock {
  sk_stream : bool; sk_reuseaddr : bool; sk_reuseport : bool; sk_nonblock : bool;
  sk_bound : option sockaddr_in; sk_listening : bool }.
Definition new_sock (stream : bool) : Sock := mkSock stream false false false None false.
Definition set_reuseaddr (k : Sock) : Sock :=
  mkSock (sk_stream k) true (sk_reuseport k) (sk_nonblock k) (sk_bound k) (sk_listening k).
Definition set_reuseport (k : Sock) : Sock :=
  mkSock (sk_stream k) (sk_reuseaddr k) true (sk_nonblock k) (sk_bound k) (sk_listening k).
Definition set_nonblock (k : Sock) : Sock :=
  mkSock (sk_stream k) (sk_reuseaddr k) (sk_reuseport k) true (sk_bound k) (sk_listening k).
Definition set_bound (a : sockaddr_in) (k : Sock) : Sock :=
  mkSock (sk_stream k) (sk_reuseaddr k) (sk_reuseport k) (sk_nonblock k) (Some a) (sk_listening k).
Definition set_listening (k : Sock) : Sock :=
  mkSock (sk_stream k) (sk_reuseaddr k) (sk_reuseport k) (sk_nonblock k) (sk_bound k) true.

(** The threads of the program: the workers of the two servers, the administrative
    server, the watcher of the rules file and the ticking clock. *)
Inductive Tid := TIngest (i : nat) | THttp (i : nat) | TAdmin | TWatcher | TTicker.

#[export] Instance Tid_eq_dec : EqDecision Tid.
Proof. solve_decision. Defined.
#[export] Instance Tid_countable : Countable Tid.
Proof.
  apply (inj_countable'
    (fun t => match t with
              | TIngest i => (0%nat, i) | THttp i => (1%nat, i) | TAdmin => (2%nat, 0%nat)
              | TWatcher => (3%nat, 0%nat) | TTicker => (4%nat, 0%nat) end)
    (fun p => match p with
              | (0%nat, i) => TIngest i | (1%nat, i) => THttp i | (2%nat, _) => TAdmin
              | (3%nat, _) => TWatcher | _ => TTicker end)).
  by intros [].
Defined.

(** [os_threads] gives the descriptor a running thread was started with. *)
Record Os := mkOs {
  os_fds : gmap Z Sock;
  os_threads : gmap Tid (option Z);
  os_level : LogLevel;
  os_log : list (LogLevel * string);
  os_stderr : list string;
  os_calls : nat }.

(** ** The kernel *)

(** The answers to the [n]-th call: [k_socket] gives an error number or a descriptor,
    given the open ones; [k_errno] is 0 when another call succeeds, and [k_value] the
    number such a call reports (the size of a buffer, the port of a socket that is
    bound to port 0).  [strerror] is the text of an error number. *)
Class Kernel := {
  k_socket : nat -> gset Z -> Z + Z;
  k_errno : nat -> Z;
  k_value : nat -> Z;
  strerror : Z -> string }.

Class KernelOk (K : Kernel) := {
  k_socket_fresh : forall n open fd, k_socket n open = inr fd -> 0 <= fd /\ fd ∉ open;
  k_socket_errno : forall n open e, k_socket n open = inl e -> e <> 0 }.

Definition EBADF : Z := 9.

(** ** The monad *)

Definition OsM (A : Type) : Type := Os -> option (A * Os).
Definition ret {A} (a : A) : OsM A := fun s => Some (a, s).
Definition bind {A B} (m : OsM A) (k : A -> OsM B) : OsM B := fun s =>
  match m s with Some (a, s') => k a s' | None => None end.
(** A run that does not go on. *)
Definition stuck {A} : OsM A := fun _ => None.

Declare Scope os_scope.
Delimit Scope os_scope with os.
Notation "'do' x := m 'in' k" := (bind m (fun x => k))
  (at level 10, x pattern, m at level 100, k at level 200) : os_scope.
Notation "m ;; k" := (bind m (fun _ => k)) (at level 100, k at level 200, right associativity) : os_scope.
Local Open Scope os_scope.

(** [m] runs from [s] to an end that satisfies [Q]. *)
Definition post {A} (m : OsM A) (s : Os) (Q : A -> Os -> Prop) : Prop :=
  exists a s', m s = Some (a, s') /\ Q a s'.

Lemma post_ret {A} (a : A) s (Q : A -> Os -> Prop) : Q a s -> post (ret a) s Q.
Proof. intros H. by exists a, s. Qed.

Lemma post_bind {A B} (m : OsM A) (k : A -> OsM B) s P Q :
  post m s P -> (forall a s', P a s' -> post (k a) s' Q) -> post (bind m k) s Q.
Proof.
  intros (a & s' & E & H) Hk. destruct (Hk a s' H) as (b & s'' & E' & H'). exists b, s''.
  unfold bind. by rewrite E.
Qed.

Lemma post_mono {A} (m : OsM A) s (P Q : A -> Os -> Prop) :
  post m s P -> (forall a s', P a s' -> Q a s') -> post m s Q.
Proof. intros (a & s' & E & H) HPQ. exists a, s'. auto. Qed.

Lemma post_assoc {A B C} (m : OsM A) (k : A -> OsM B) (h : B -> OsM C) s Q :
  post (bind (bind m k) h) s Q -> post (bind m (fun a => bind (k a) h)) s Q.
Proof. unfold post, bind. by destruct (m s) as [[a s']|]. Qed.

(** The rule of an [if] on a value that is known to be one of the two. *)
Lemma post_if {A} (b : bool) (m n : OsM A) s Q :
  (b = true -> post m s Q) -> (b = false -> post n s Q) -> post (if b then m else n) s Q.
Proof. destruct b; auto. Qed.

(** ** Calls *)

Section Calls.
Context {K : Kernel}.

Definition set_fds (f : gmap Z Sock) (s : Os) : Os :=
  mkOs f (os_threads s) (os_level s) (os_log s) (os_stderr s) (os_calls s).
Definition set_threads (t : gmap Tid (option Z)) (s : Os) : Os :=
  mkOs (os_fds s) t (os_level s) (os_log s) (os_stderr s) (os_calls s).
Definition count_call (s : Os) : Os :=
  mkOs (os_fds s) (os_threads s) (os_level s) (os_log s) (os_stderr s) (S (os_calls s)).

(** The number of the next call. *)
Definition tick : OsM nat := fun s => Some (os_calls s, count_call s).

(** [socket(2)]: an error number or a descriptor. *)
Definition sys_socket (stream : bool) : OsM (Z + Z) := fun s =>
  match k_socket (os_calls s) (dom (os_fds s)) with
  | inl e => Some (inl e, count_call s)
  | inr fd => Some (inr fd, count_call (set_fds (<[fd := new_sock stream]> (os_fds s)) s))
  end.

(** A call that changes the socket [fd] by [f] when it succeeds; the error number, 0
    for success. *)
Definition sys_set (fd : Z) (f : Sock -> Sock) : OsM Z := fun s =>
  match os_fds s !! fd with
  | None => Some (EBADF, count_call s)
  | Some k =>
      if k_errno (os_calls s) =? 0
      then Some (0, count_call (set_fds (<[fd := f k]> (os_fds s)) s))
      else Some (k_errno (os_calls s), count_call s)
  end.

(** A call on [fd] that changes nothing and reports a number. *)
Definition sys_get (fd : Z) : OsM (Z * Z) := fun s =>
  match os_fds s !! fd with
  | None => Some ((EBADF, 0), count_call s)
  | Some _ => Some ((k_errno (os_calls s), k_value (os_calls s)), count_call s)
  end.

(** [bind(2)]; a socket bound to port 0 gets a port of the kernel's choice. *)
Definition chosen (a : sockaddr_in) (n : nat) : sockaddr_in :=
  if ntohs (sin_port a) =? 0 then mkAddr (sin_addr a) (htons (k_value n)) else a.
Definition sys_bind (fd : Z) (a : sockaddr_in) : OsM Z := fun s =>
  sys_set fd (set_bound (chosen a (os_calls s))) s.

(** [getsockname(2)], [None] when it fails. *)
Definition sys_getsockname (fd : Z) : OsM (option sockaddr_in) := fun s =>
  match os_fds s !! fd with
  | Some k =>
      Some (if k_errno (os_calls s) =? 0 then Some (default (mkAddr [0; 0; 0; 0] (htons 0)) (sk_bound k)) else None,
            count_call s)
  | None => Some (None, count_call s)
  end.

Definition uses (fd : Z) (u : option Z) : bool := bool_decide (u = Some fd).
(** [close(2)] of an open descriptor that no running thread works on. *)
Definition sys_close (fd : Z) : OsM unit := fun s =>
  match os_fds s !! fd with
  | None => None
  | Some _ =>
      if existsb (fun tu => uses fd tu.2) (map_to_list (os_threads s)) then None
      else Some (tt, count_call (set_fds (delete fd (os_fds s)) s))
  end.

(** A new [std::thread]. *)
Definition spawn (t : Tid) (u : option Z) : OsM unit := fun s =>
  match os_threads s !! t with
  | Some _ => None
  | None => Some (tt, set_threads (<[t := u]> (os_threads s)) s)
  end.
(** [join] of a thread whose loop ends when its stop flag is set. *)
Definition join_thread (stop : bool) (t : Tid) : OsM unit := fun s =>
  match os_threads s !! t with
  | None => None
  | Some _ => if stop then Some (tt, set_threads (delete t (os_threads s)) s) else None
  end.

Fixpoint for_each {A} (f : A -> OsM unit) (l : list A) : OsM unit :=
  match l with
  | [] => ret tt
  | x :: l => f x ;; for_each f l
  end.

Definition eprint (line : string) : OsM unit := fun s =>
  Some (tt, mkOs (os_fds s) (os_threads s) (os_level s) (os_log s) (os_stderr s ++ [line]) (os_calls s)).

(** ** Logging *)

Definition level_rank (l : LogLevel) : Z :=
  match l with kTrace => 0 | kDebug => 1 | kInfo => 2 | kWarn => 3 | kError => 4 | kOff => 5 end.
Definition set_log_level (l : LogLevel) : OsM unit := fun s =>
  Some (tt, mkOs (os_fds s) (os_threads s) l (os_log s) (os_stderr s) (os_calls s)).
(** [POLICY_LOG]: the message is written when its level reaches the threshold. *)
Definition policy_log (l : LogLevel) (msg : string) : OsM unit := fun s =>
  Some (tt, if level_rank (os_level s) <=? level_rank l
            then mkOs (os_fds s) (os_threads s) (os_level s) (os_log s ++ [(l, msg)]) (os_stderr s) (os_calls s)
            else s).
Definition LOG_INFO : string -> OsM unit := policy_log kInfo.
Definition LOG_WARN : string -> OsM unit := policy_log kWarn.
Definition LOG_ERROR : string -> OsM unit := policy_log kError.
End Calls.

(** ** Groups of descriptors and threads *)

Record Group := mkGroup { g_fds : list (Z * Sock); g_threads : list (Tid * option Z) }.
Definition no_group : Group := mkGroup [] [].

(** The descriptors of the threads of a group are descriptors of the group. *)
Definition group_ok (g : Group) : Prop :=
  (forall fd k, (fd, k) ∈ g_fds g -> 0 <= fd) /\
  forall t fd, (t, Some fd) ∈ g_threads g -> fd ∈ (g_fds g).*1.

Definition all_fds (gs : list Group) : list (Z * Sock) := gs ≫= g_fds.
Definition all_threads (gs : list Group) : list (Tid * option Z) := gs ≫= g_threads.

(** The process has the descriptors and threads of these groups and no others. *)
Record owns (gs : list Group) (s : Os) : Prop := {
  ow_fds : os_fds s = list_to_map (all_fds gs);
  ow_nodup : NoDup (all_fds gs).*1;
  ow_threads : os_threads s = list_to_map (all_threads gs);
  ow_tids : NoDup (all_threads gs).*1;
  ow_groups : Forall group_ok gs }.

Lemma owns_nil s : owns [] s <-> os_fds s = ∅ /\ os_threads s = ∅.
Proof.
  split; [by intros [H _ H' _ _]|]. intros [H H']. split; [done|constructor|done|constructor|constructor].
Qed.

#[export] Instance owns_perm : Proper ((≡ₚ) ==> eq ==> iff) owns.
Proof.
  assert (forall gs gs' s, gs ≡ₚ gs' -> owns gs s -> owns gs' s) as H.
  { intros gs gs' s E [H1 H2 H3 H4 H5]. assert (all_fds gs ≡ₚ all_fds gs') as Ef by (by apply bind_Permutation).
    assert (all_threads gs ≡ₚ all_threads gs') as Et by (by apply bind_Permutation).
    split; [|by rewrite <- Ef| |by rewrite <- Et|by rewrite <- E].
    - rewrite H1. by apply list_to_map_proper.
    - rewrite H3. by apply list_to_map_proper. }
  intros gs gs' E s ? <-. split; apply H; [done|by symmetry].
Qed.

Lemma owns_new gs s : owns gs s -> owns (no_group :: gs) s.
Proof.
  intros [H1 H2 H3 H4 H5]. split; [done..|]. constructor; [|done]. by split; simpl; intros; set_solver.
Qed.
Lemma owns_drop gs s : owns (no_group :: gs) s -> owns gs s.
Proof. intros [H1 H2 H3 H4 H5]. split; [done..|]. by apply Forall_cons_1 in H5 as [_ ?]. Qed.

(** [owns] speaks of descriptors and threads only. *)
Lemma owns_same gs s s' : os_fds s' = os_fds s -> os_threads s' = os_threads s -> owns gs s -> owns gs s'.
Proof. intros E1 E2 [H1 H2 H3 H4 H5]. split; congruence || done. Qed.

Section Rules.
Context {K : Kernel} {KO : KernelOk K}.
Context (gs : list Group).

Lemma socket_post stream l ts s : owns (mkGroup l ts :: gs) s -> post (sys_socket stream) s (fun r s' =>
  match r with
  | inl e => owns (mkGroup l ts :: gs) s'
  | inr fd => 0 <= fd /\ owns (mkGroup ((fd, new_sock stream) :: l) ts :: gs) s'
  end).
Proof.
  intros H. unfold post, sys_socket. destruct (k_socket (os_calls s) (dom (os_fds s))) as [e|fd] eqn:E.
  { do 2 eexists. split; [done|]. by apply (owns_same _ s). }
  apply k_socket_fresh in E as [H0 Hf]. do 2 eexists. split; [done|]. split; [done|].
  destruct H as [H1 H2 H3 H4 H5]. apply not_elem_of_dom in Hf. rewrite H1 in Hf. apply not_elem_of_list_to_map in Hf.
  apply Forall_cons_1 in H5 as [[G1 G2] H5]. split; simpl.
  - change (all_fds (mkGroup ((fd, new_sock stream) :: l) ts :: gs)) with ((fd, new_sock stream) :: all_fds (mkGroup l ts :: gs)).
    simpl. by rewrite H1.
  - constructor; [done|]. exact H2.
  - done.
  - done.
  - constructor; [|done]. split; simpl.
    + intros fd' k [[= -> ->]|Hin]%elem_of_cons; [done|]. by eapply G1.
    + intros t fd' Hin. right. by eapply G2.
Qed.

Lemma set_post fd f k l ts s : owns (mkGroup ((fd, k) :: l) ts :: gs) s -> post (sys_set fd f) s (fun e s' =>
  owns (mkGroup ((fd, if e =? 0 then f k else k) :: l) ts :: gs) s').
Proof.
  intros H. pose proof H as [H1 H2 H3 H4 H5]. unfold post, sys_set. rewrite H1. simpl. rewrite lookup_insert_eq.
  destruct (k_errno (os_calls s) =? 0) eqn:E; do 2 eexists; (split; [done|]).
  2: { rewrite E. by apply (owns_same _ s). }
  simpl. apply Forall_cons_1 in H5 as [[G1 G2] H5]. split; simpl; [|done..|].
  - by rewrite insert_insert_eq.
  - constructor; [|done]. split; simpl; [|done].
    intros fd' k' [[= -> ->]|Hin]%elem_of_cons; [apply (G1 fd k); left|]. eapply G1. right. done.
Qed.

Lemma get_post fd s : owns gs s -> post (sys_get fd) s (fun _ s' => owns gs s').
Proof.
  intros H. unfold post, sys_get. destruct (os_fds s !! fd); do 2 eexists; (split; [done|]); by apply (owns_same _ s).
Qed.

Lemma getsockname_post fd k l ts s : owns (mkGroup ((fd, k) :: l) ts :: gs) s -> post (sys_getsockname fd) s (fun r s' =>
  owns (mkGroup ((fd, k) :: l) ts :: gs) s' /\ forall a, r = Some a -> sk_bound k = Some a \/ sk_bound k = None).
Proof.
  intros H. pose proof H as [H1 _ _ _ _]. unfold post, sys_getsockname. rewrite H1. simpl. rewrite lookup_insert_eq.
  do 2 eexists. split; [done|]. split; [by apply (owns_same _ s)|]. intros a. case_match; [|done].
  destruct (sk_bound k); intros [= <-]; auto.
Qed.

(** A descriptor that no thread of its group works on can be closed. *)
Lemma close_post fd k l ts s : (forall t, (t, Some fd) ∉ ts) -> owns (mkGroup ((fd, k) :: l) ts :: gs) s ->
  post (sys_close fd) s (fun _ s' => owns (mkGroup l ts :: gs) s').
Proof.
  intros Hts [H1 H2 H3 H4 H5]. unfold post, sys_close. rewrite H1. simpl. rewrite lookup_insert_eq.
  change (NoDup (fd :: (all_fds (mkGroup l ts :: gs)).*1)) in H2. apply list.NoDup_cons in H2 as [Hfd H2].
  apply Forall_cons_1 in H5 as [[G1 G2] H5].
  assert (existsb (fun tu => uses fd tu.2) (map_to_list (os_threads s)) = false) as ->.
  { apply not_true_iff_false. intros ([t u] & Hin%list_elem_of_In & Hu)%existsb_exists. unfold uses in Hu.
    apply bool_decide_eq_true in Hu. simpl in Hu. subst u. rewrite H3 in Hin.
    rewrite map_to_list_to_map in Hin by done.
    apply elem_of_app in Hin as [Hin|Hin]; [by apply (Hts t)|].
    apply list_elem_of_bind in Hin as (g & Hg & Hin). apply list_elem_of_In in Hin. rewrite Forall_forall in H5. specialize (H5 g Hin) as [_ G]. apply list_elem_of_In in Hin.
    apply Hfd. specialize (G t fd Hg). apply list_elem_of_fmap in G as ([fd' k'] & -> & G). apply list_elem_of_fmap.
    exists (fd', k'). split; [done|]. apply elem_of_app. right. apply list_elem_of_bind. by exists g. }
  do 2 eexists. split; [done|]. split; simpl; [|done..|].
  - rewrite delete_insert_id; [done|]. by apply not_elem_of_list_to_map.
  - constructor; [|done]. split; simpl.
    + intros fd' k' Hin. eapply G1. by right.
    + intros t fd' Hin. specialize (G2 t fd' Hin). apply elem_of_cons in G2 as [->|]; [by apply Hts in Hin|done].
Qed.

Lemma spawn_post t u l ts s : t ∉ (all_threads (mkGroup l ts :: gs)).*1 -> (forall fd, u = Some fd -> fd ∈ l.*1) ->
  owns (mkGroup l ts :: gs) s -> post (spawn t u) s (fun _ s' => owns (mkGroup l ((t, u) :: ts) :: gs) s').
Proof.
  intros Ht Hu [H1 H2 H3 H4 H5]. unfold post, spawn. apply not_elem_of_list_to_map in Ht as Ht'. rewrite H3, Ht'.
  do 2 eexists. split; [done|]. apply Forall_cons_1 in H5 as [[G1 G2] H5]. split; simpl; [done..|by constructor|].
  constructor; [|done]. split; simpl; [done|]. intros t' fd [[= -> <-]|Hin]%elem_of_cons; [by apply Hu|by eapply G2].
Qed.

Lemma join_post t u l ts s : owns (mkGroup l ((t, u) :: ts) :: gs) s ->
  post (join_thread true t) s (fun _ s' => owns (mkGroup l ts :: gs) s').
Proof.
  intros [H1 H2 H3 H4 H5]. unfold post, join_thread. rewrite H3. simpl. rewrite lookup_insert_eq. do 2 eexists. split; [done|].
  change (NoDup (t :: (all_threads (mkGroup l ts :: gs)).*1)) in H4. apply list.NoDup_cons in H4 as [Ht H4].
  apply Forall_cons_1 in H5 as [[G1 G2] H5]. split; simpl; [done..| |done|].
  - rewrite delete_insert_id; [done|]. by apply not_elem_of_list_to_map.
  - constructor; [|done]. split; simpl; [done|]. intros t' fd Hin. eapply G2. by right.
Qed.

(** All threads of a group, in any order of starting. *)
Lemma join_all_post l ts s : owns (mkGroup l ts :: gs) s ->
  post (for_each (join_thread true) ts.*1) s (fun _ s' => owns (mkGroup l [] :: gs) s').
Proof.
  revert s. induction ts as [|[t u] ts IH]; intros s H; simpl; [by apply post_ret|].
  eapply post_bind; [by eapply join_post|]. intros [] s' H'. by apply IH.
Qed.

Lemma close_all_post l s : owns (mkGroup l [] :: gs) s ->
  post (for_each sys_close l.*1) s (fun _ s' => owns (no_group :: gs) s').
Proof.
  revert s. induction l as [|[fd k] l IH]; intros s H; simpl; [by apply post_ret|].
  eapply post_bind; [eapply close_post; [|exact H]; set_solver|]. intros [] s' H'. by apply IH.
Qed.

Lemma log_post l msg s : owns gs s -> post (policy_log l msg) s (fun _ s' => owns gs s').
Proof.
  intros H. unfold post, policy_log. do 2 eexists. split; [done|]. case_match; [|done]. by apply (owns_same _ s).
Qed.
Lemma eprint_post line s : owns gs s -> post (eprint line) s (fun _ s' => owns gs s').
Proof. intros H. do 2 eexists. split; [done|]. by apply (owns_same _ s). Qed.
End Rules.

(** The first command of a sequence, by a rule for it. *)
Tactic Notation "step" "by" tactic3(t) := eapply post_bind; [solve [t]|cbv beta].

(** The order inside a group does not matter. *)
Lemma owns_group_perm l l' ts ts' gs s : l ≡ₚ l' -> ts ≡ₚ ts' -> owns (mkGroup l ts :: gs) s -> owns (mkGroup l' ts' :: gs) s.
Proof.
  intros El Et [H1 H2 H3 H4 H5]. unfold all_fds, all_threads in *. simpl in *.
  split; unfold all_fds, all_threads; simpl.
  - rewrite H1. apply list_to_map_proper; [done|]. by rewrite El.
  - by rewrite <- El.
  - rewrite H3. apply list_to_map_proper; [done|]. by rewrite Et.
  - by rewrite <- Et.
  - apply Forall_cons_1 in H5 as [[G1 G2] H5]. constructor; [|done]. split; simpl in *.
    + intros fd k. rewrite <- El. apply G1.
    + intros t fd. rewrite <- Et, <- El. apply G2.
Qed.
