(* ===== verification/Sockets.v ===== *)
(** * Sockets: addresses and the creation of sockets

    src/net.cpp without its batched I/O: the owner of a descriptor, the resolution and
    the text of IPv4 addresses, the socket buffers and the socket of a UDP worker.  The
    name service is an argument; [inet_pton] and [inet_ntop] are written out. *)

From S2P Require Import Prelude Text Config Os.
From Stdlib Require Import ZArith Lia Bool Ascii String.
From stdpp Require Import base list numbers strings gmap.
Local Open Scope Z_scope.
Local Open Scope os_scope.

(** ** Addresses *)

(** One number of a dotted address: digits without a leading zero, up to 255. *)
Definition parse_octet (s : string) : option Z :=
  match s with
  | EmptyString => None
  | String c t =>
      if all_digits s && (dec_value s 0 <=? 255) && (negb (Ascii.eqb c "0") || String.eqb t EmptyString)
      then Some (dec_value s 0) else None
  end.

(** [inet_pton(AF_INET, s, _)]. *)
Definition inet_pton (s : string) : option (list Z) :=
  '(s1, s) ← split_at_char "." s; '(s2, s) ← split_at_char "." s; '(s3, s4) ← split_at_char "." s;
  a ← parse_octet s1; b ← parse_octet s2; c ← parse_octet s3; d ← parse_octet s4; Some [a; b; c; d].

(** [inet_ntop(AF_INET, a, _, _)]. *)
Definition inet_ntop (a : list Z) : string :=
  match a with
  | [a; b; c; d] => to_string a +:+ "." +:+ to_string b +:+ "." +:+ to_string c +:+ "." +:+ to_string d
  | _ => EmptyString
  end%string.

(** [getaddrinfo] with the address of its first result, and the text of its errors. *)
Class Resolver := {
  getaddrinfo : string -> Z * option (list Z);
  gai_strerror : Z -> string }.

Definition INADDR_ANY : list Z := [0; 0; 0; 0].

Definition resolve_v4 `{Resolver} (host : string) (port : Z) : string + sockaddr_in :=
  if String.eqb host "" || String.eqb host "*" then inr (mkAddr INADDR_ANY (htons port))
  else match inet_pton host with
  | Some a => inr (mkAddr a (htons port))
  | None =>
      let '(rc, res) := getaddrinfo host in
      match res with
      | Some a => if negb (rc =? 0) then inl ("cannot resolve '" +:+ host +:+ "': " +:+ gai_strerror rc)%string
                  else inr (mkAddr a (htons port))
      | None => inl ("cannot resolve '" +:+ host +:+ "': " +:+ gai_strerror rc)%string
      end
  end.

Definition format_addr (a : sockaddr_in) : string :=
  (inet_ntop (sin_addr a) +:+ ":" +:+ to_string (ntohs (sin_port a)))%string.

(** ** The owner of a descriptor *)

(** [fd_], -1 when there is none. *)
Definition Socket : Type := Z.
Definition no_socket : Socket := -1.
Definition valid (s : Socket) : bool := 0 <=? s.

Section Sockets.
Context {K : Kernel} {R : Resolver}.

Definition reset (s : Socket) : OsM Socket := if 0 <=? s then sys_close s ;; ret no_socket else ret s.
(** [*this = std::move(o)] for another socket: the new owner and what is left of the old one. *)
Definition move_assign (this o : Socket) : OsM (Socket * Socket) := reset this ;; ret (o, no_socket).
(** [clear] of a vector of sockets. *)
Definition clear_sockets (l : list Socket) : OsM unit := for_each (fun s => reset s ;; ret tt) l.

(** ** A UDP socket *)

Record SocketOptions := mkSockOpts {
  op_bind_address : string; op_port : Z; op_rcvbuf : Z; op_sndbuf : Z; op_reuseport : bool; op_nonblocking : bool }.
Definition default_socket_options : SocketOptions :=
  mkSockOpts "0.0.0.0" 9500 (Z.shiftl 4 20) (Z.shiftl 4 20) true true.

(** The buffer that was asked for against what the kernel reports. *)
Definition set_buf_size (fd want : Z) (name : string) : OsM unit :=
  do e := sys_set fd (fun k => k) in
  if negb (e =? 0) then
    LOG_WARN ("setsockopt(" +:+ name +:+ ", " +:+ to_string want +:+ ") failed: " +:+ strerror e)%string
  else
    do (e, got) := sys_get fd in
    if e =? 0 then
      let effective := u32 got in
      if effective <? want then
        LOG_WARN (name +:+ " capped at " +:+ to_string effective +:+ " bytes (asked for " +:+ to_string want +:+
                  "); raise net.core.rmem_max")%string
      else ret tt
    else ret tt.

(** The end of a scope that owns [fd], with an error. *)
Definition fail_closing {A} (fd : Z) (error : string) : OsM (string + A) := reset fd ;; ret (inl error).

Definition make_nonblocking (fd : Z) : OsM Z :=
  do (e, _) := sys_get fd in
  if negb (e =? 0) then ret e else sys_set fd set_nonblock.

Definition bind_udp (opts : SocketOptions) : OsM (string + Socket) :=
  match resolve_v4 (op_bind_address opts) (op_port opts) with
  | inl error => ret (inl error)
  | inr addr =>
      do r := sys_socket false in
      match r with
      | inl e => ret (inl ("socket(): " +:+ strerror e)%string)
      | inr fd =>
          do e := sys_set fd set_reuseaddr in
          if negb (e =? 0) then fail_closing fd ("SO_REUSEADDR: " +:+ strerror e)%string else
          do e := (if op_reuseport opts then sys_set fd set_reuseport else ret 0) in
          if negb (e =? 0) then fail_closing fd ("SO_REUSEPORT: " +:+ strerror e)%string else
          set_buf_size fd (op_rcvbuf opts) "SO_RCVBUF" ;;
          set_buf_size fd (op_sndbuf opts) "SO_SNDBUF" ;;
          do e := (if op_nonblocking opts then make_nonblocking fd else ret 0) in
          if negb (e =? 0) then fail_closing fd ("O_NONBLOCK: " +:+ strerror e)%string else
          do e := sys_bind fd addr in
          if negb (e =? 0) then
            fail_closing fd ("bind(" +:+ op_bind_address opts +:+ ":" +:+ to_string (op_port opts) +:+ "): " +:+
                             strerror e)%string
          else ret (inr fd)
      end
  end.
End Sockets.

(** ** Addresses and their text *)

Lemma octets_check : forallb (fun v => bool_decide (parse_octet (to_string v) = Some v) &&
  (String.length (to_string v) =? (if (v <? 10)%Z then 1 else if (v <? 100)%Z then 2 else 3))%nat) (seqZ 0 256) = true.
Proof. vm_compute. reflexivity. Qed.

Lemma octet_text v : 0 <= v <= 255 -> parse_octet (to_string v) = Some v /\
  String.length (to_string v) = (if (v <? 10)%Z then 1 else if (v <? 100)%Z then 2 else 3)%nat.
Proof.
  intros Hv. pose proof octets_check as H. rewrite forallb_forall in H.
  specialize (H v). rewrite <- list_elem_of_In, elem_of_seqZ in H. specialize (H ltac:(lia)).
  apply andb_prop in H as [H1%bool_decide_eq_true H2%Nat.eqb_eq]. done.
Qed.

Lemma octet_canonical s v : parse_octet s = Some v -> 0 <= v <= 255 /\ to_string v = s.
Proof.
  unfold parse_octet. destruct s as [|c t] eqn:Es; [done|]. rewrite <- Es. destruct (_ && _) eqn:E; [|done].
  intros [= <-]. apply andb_prop in E as [[Hd Hv%Z.leb_le]%andb_prop Hz]. pose proof (dec_value_bound s Hd) as Hb.
  split; [lia|]. destruct (octet_text (dec_value s 0)) as [_ Hl]; [lia|]. rewrite to_string_length in Hl.
  enough (String.length s = if (dec_value s 0 <? 10)%Z then 1 else if (dec_value s 0 <? 100)%Z then 2 else 3)%nat as E.
  { unfold to_string. rewrite Hl, <- E, format_digits_value by done. apply str_app_nil_r. }
  subst s. simpl in Hd. apply andb_prop in Hd as [Hc Ht]. pose proof (is_digit_range c Hc) as Hr.
  pose proof (dec_value_bound t Ht) as Hbt. pose proof (dec_value_acc t (0 * 10 + (code c - 48))) as Ea.
  change (dec_value (String c t) 0) with (dec_value t (0 * 10 + (code c - 48))) in *. rewrite Ea in *.
  assert (t = EmptyString \/ 1 <= code c - 48) as [->|H1].
  { destruct (String.eqb_spec t EmptyString); [by left|]. right. rewrite orb_false_r in Hz.
    apply negb_true_iff, Ascii.eqb_neq in Hz. destruct (decide (code c - 48 = 0)) as [E0|]; [|lia].
    exfalso. apply Hz. rewrite <- (chr_code c). replace (code c) with 48 by lia. reflexivity. }
  { simpl in *. repeat (case_bool; bool_to_prop); lia. }
  destruct t as [|c1 [|c2 [|c3 t]]]; cbn [String.length] in *.
  4: { exfalso. rewrite !Nat2Z.inj_succ, !Z.pow_succ_r in Hv by lia.
       pose proof (Z.pow_pos_nonneg 10 (Z.of_nat (String.length t))). nia. }
  all: change (10 ^ Z.of_nat 0) with 1 in *; change (10 ^ Z.of_nat 1) with 10 in *; change (10 ^ Z.of_nat 2) with 100 in *;
    clear Ea; repeat (case_bool; bool_to_prop); try lia.
Qed.

Lemma split_at_char_digits s t : all_digits s = true -> split_at_char "." (s +:+ "." +:+ t)%string = Some (s, t).
Proof.
  induction s as [|c s IH]; [done|]. simpl. intros [Hc Hs]%andb_prop. rewrite IH by done.
  destruct (Ascii.eqb_spec c "."); [by subst c|done].
Qed.

(** The text of an address is read back, and an address has one text. *)
Lemma inet_ntop_pton a b c d : 0 <= a <= 255 -> 0 <= b <= 255 -> 0 <= c <= 255 -> 0 <= d <= 255 ->
  inet_pton (inet_ntop [a; b; c; d]) = Some [a; b; c; d].
Proof.
  intros Ha Hb Hc Hd. unfold inet_pton, inet_ntop.
  pose proof (fun v H => proj1 (to_string_value v H)) as D.
  rewrite split_at_char_digits by (apply D; lia). cbn [mbind option_bind].
  rewrite split_at_char_digits by (apply D; lia). cbn [mbind option_bind].
  rewrite split_at_char_digits by (apply D; lia). cbn [mbind option_bind].
  by rewrite !(fun v H => proj1 (octet_text v H)) by done.
Qed.

Lemma inet_pton_ntop s a : inet_pton s = Some a -> inet_ntop a = s.
Proof.
  unfold inet_pton. intros H.
  destruct (split_at_char "." s) as [[s1 r1]|] eqn:E1; [|done]. cbn [mbind option_bind] in H.
  destruct (split_at_char "." r1) as [[s2 r2]|] eqn:E2; [|done]. cbn [mbind option_bind] in H.
  destruct (split_at_char "." r2) as [[s3 s4]|] eqn:E3; [|done]. cbn [mbind option_bind] in H.
  destruct (parse_octet s1) as [v1|] eqn:P1; [|done]. destruct (parse_octet s2) as [v2|] eqn:P2; [|done].
  destruct (parse_octet s3) as [v3|] eqn:P3; [|done]. destruct (parse_octet s4) as [v4|] eqn:P4; [|done].
  cbn in H. injection H as <-. apply split_at_char_app in E1, E2, E3. subst.
  apply octet_canonical in P1 as [_ <-], P2 as [_ <-], P3 as [_ <-], P4 as [_ <-]. reflexivity.
Qed.

(** ** What the calls leave behind *)

Section Posts.
Context {K : Kernel} {KO : KernelOk K} {R : Resolver}.
Context (gs : list Group).

Lemma reset_post fd k l ts s : (forall t, (t, Some fd) ∉ ts) -> owns (mkGroup ((fd, k) :: l) ts :: gs) s ->
  post (reset fd) s (fun r s' => r = no_socket /\ owns (mkGroup l ts :: gs) s').
Proof.
  intros Ht H. unfold reset. pose proof (ow_groups _ _ H) as G. apply Forall_cons_1 in G as [[G _] _].
  specialize (G fd k ltac:(left)). apply Z.leb_le in G as ->.
  step by (eapply close_post; eassumption). intros [] s' H'. by apply post_ret.
Qed.

(** [clear] closes every socket of a group without threads. *)
Lemma clear_sockets_post l s : owns (mkGroup l [] :: gs) s ->
  post (clear_sockets l.*1) s (fun _ s' => owns (no_group :: gs) s').
Proof.
  revert s. induction l as [|[fd k] l IH]; intros s H; simpl; [by apply post_ret|].
  apply (post_bind _ _ _ (fun _ s' => owns (mkGroup l [] :: gs) s')); [|intros ? s' H'; by apply IH].
  step by (eapply reset_post; [|exact H]; set_solver). intros ? s' [_ H']. by apply post_ret.
Qed.

Lemma fail_closing_post {A} fd k l error s (Q : string + A -> Os -> Prop) : owns (mkGroup ((fd, k) :: l) [] :: gs) s ->
  (forall s', owns (mkGroup l [] :: gs) s' -> Q (inl error) s') -> post (fail_closing fd error) s Q.
Proof.
  intros H HQ. step by (eapply reset_post; [|exact H]; set_solver). intros ? s' [_ H']. by apply post_ret, HQ.
Qed.

Lemma set_buf_size_post fd k l want name s : owns (mkGroup ((fd, k) :: l) [] :: gs) s ->
  post (set_buf_size fd want name) s (fun _ s' => owns (mkGroup ((fd, k) :: l) [] :: gs) s').
Proof.
  intros H. step by (apply set_post; eassumption). intros e s1 H1.
  assert (owns (mkGroup ((fd, k) :: l) [] :: gs) s1) as H1' by (by destruct (e =? 0)).
  apply post_if; intros _; [by apply log_post|].
  step by (apply get_post; eassumption). intros [e' got] s2 H2.
  apply post_if; intros _; [|by apply post_ret]. apply post_if; intros _; [by apply log_post|by apply post_ret].
Qed.

Lemma make_nonblocking_post fd k l s : owns (mkGroup ((fd, k) :: l) [] :: gs) s ->
  post (make_nonblocking fd) s (fun e s' => owns (mkGroup ((fd, if e =? 0 then set_nonblock k else k) :: l) [] :: gs) s').
Proof.
  intros H. step by (apply get_post; eassumption). intros [e v] s1 H1.
  destruct (e =? 0) eqn:E; simpl; [by apply set_post|]. apply post_ret. by rewrite E.
Qed.

(** The socket that [bind_udp] makes. *)
Definition udp_sock (opts : SocketOptions) (a : sockaddr_in) : Sock :=
  mkSock false true (op_reuseport opts) (op_nonblocking opts) (Some a) false.

(** [bind_udp] returns a socket that is configured as asked and bound to the address,
    or an error, and then no descriptor is left open. *)
Lemma bind_udp_post opts l s : owns (mkGroup l [] :: gs) s -> post (bind_udp opts) s (fun r s' =>
  match r with
  | inl _ => owns (mkGroup l [] :: gs) s'
  | inr fd => exists a n, resolve_v4 (op_bind_address opts) (op_port opts) = inr a /\
      owns (mkGroup ((fd, udp_sock opts (chosen a n)) :: l) [] :: gs) s'
  end).
Proof.
  intros H. unfold bind_udp. destruct (resolve_v4 _ _) as [error|a] eqn:Ea; [by apply post_ret|].
  step by (apply socket_post; eassumption). intros [e|fd] s1; [intros H1; by apply post_ret|]. intros [H0 H1].
  step by (apply set_post; eassumption). intros e s2 H2. destruct (e =? 0) eqn:E; simpl in H2 |- *; [|by eapply fail_closing_post].
  eapply (post_bind _ _ _ (fun e s' => owns (mkGroup ((fd, mkSock false true
    (if e =? 0 then op_reuseport opts else false) false None false) :: l) [] :: gs) s')).
  { destruct (op_reuseport opts); [|apply post_ret; exact H2]. eapply post_mono; [by apply set_post|].
    intros e' s3 Hs. simpl in Hs. by destruct (e' =? 0). }
  clear e E s2 H2. intros e s2 H2. destruct (e =? 0) eqn:E; simpl; [|by eapply fail_closing_post].
  step by (apply set_buf_size_post; eassumption). intros ? s3 H3.
  step by (apply set_buf_size_post; eassumption). intros ? s4 H4. clear H2 H3.
  eapply (post_bind _ _ _ (fun e s' => owns (mkGroup ((fd, mkSock false true (op_reuseport opts)
    (if e =? 0 then op_nonblocking opts else false) None false) :: l) [] :: gs) s')).
  { destruct (op_nonblocking opts); [|apply post_ret; exact H4]. eapply post_mono; [by apply make_nonblocking_post|].
    intros e' s5 Hs. simpl in Hs. by destruct (e' =? 0). }
  clear e E H4. intros e s5 H5. destruct (e =? 0) eqn:E; simpl; [|by eapply fail_closing_post].
  step by (apply set_post; eassumption). intros e' s6 H6. destruct (e' =? 0); simpl in H6 |- *; [|by eapply fail_closing_post].
  apply post_ret. exists a, (os_calls s5). done.
Qed.
End Posts.

(** ** A kernel, and what it grants *)

Definition fresh_fd (open : gset Z) : Z := foldr Z.max 2 (elements open) + 1.
(** Every call succeeds; Linux reports twice the size of the buffer that it granted. *)
Definition linux_kernel (granted : Z) : Kernel :=
  {| k_socket := fun _ open => inr (fresh_fd open); k_errno := fun _ => 0; k_value := fun _ => 2 * granted;
     strerror := fun _ => "error"%string |}.

#[export] Instance linux_kernel_ok granted : KernelOk (linux_kernel granted).
Proof.
  split; [|done]. intros n open fd [= <-]. unfold fresh_fd.
  assert (forall l x, x ∈ l -> x <= foldr Z.max 2 l) as Hmax.
  { induction l as [|y l IH]; intros x Hx; [set_solver|]. simpl. apply elem_of_cons in Hx as [->|Hx]; [lia|]. specialize (IH x Hx). lia. }
  assert (forall l, 2 <= foldr Z.max 2 l) as Hpos by (induction l; simpl; lia).
  split; [specialize (Hpos (elements open)); lia|]. intros Hin%elem_of_elements%Hmax. lia.
Qed.

(** On Linux the reported size is twice the granted one, and it is compared with what was
    asked for: a buffer that was cut down to anything from one half upwards is not reported. *)
Theorem halved_buffer_unreported granted want name fd s : 0 <= granted < 2 ^ 31 -> fd ∈ dom (os_fds s) ->
  want <= 2 * granted -> exists s', set_buf_size (K := linux_kernel granted) fd want name s = Some (tt, s') /\ os_log s' = os_log s.
Proof.
  intros Hg [k Hk]%elem_of_dom Hw. unfold set_buf_size, bind. unfold sys_set at 1. rewrite Hk. cbn -[u32 Z.mul Z.ltb].
  unfold sys_get. simpl. rewrite lookup_insert_eq. cbn -[u32 Z.mul Z.ltb].
  change (u32 (2 * granted)) with (wrap 32 (2 * granted)). rewrite wrap_id by (split; simpl; lia).
  destruct (Z.ltb_spec (2 * granted) want); [lia|]. eexists. split; [done|]. done.
Qed.
