(* ===== verification/LoadMain.v ===== *)
(** * LoadMain: the load generator from its arguments to its files

    [main] of bench/loadgen.cpp as a whole: options, rules and roster, the sockets of the
    senders, the run of every thread in its mode, the merge, the report on the terminal, the
    three files and the exit status.  What the kernel, the clocks and the server do is the
    environment of the run; files are a map from paths to texts. *)

From S2P Require Import Prelude Text Imsi Wire Double Hdr HdrText Store Yaml Rules Engine Compiler CompilerSpec RequestGen Tools ControlPlane AdminEndpoints LoadGen HttpClient LoadRun Clock Journal Os Sockets.
From Stdlib Require Import ZArith Lia Bool Ascii String.
From stdpp Require Import base list numbers strings gmap.
Local Open Scope Z_scope.

(** ** A sender *)

(** What [socket] and [connect] answer, with the text of the error. *)
Inductive ConnectAnswer := Connected | SocketFails (why : string) | ConnectFails (why : string).
Definition connect_error (a : ConnectAnswer) : option string :=
  match a with
  | Connected => None
  | SocketFails why => Some ("socket(): " +:+ why)%string
  | ConnectFails why => Some ("connect(): " +:+ why)%string
  end.

(** What a sender meets in the mode it is in. *)
Record SenderEnv := mkSenderEnv {
  se_udp : ConnectAnswer; se_http : nat -> ConnectAnswer; se_start : Z;
  se_turns : list Turn; se_tail : list (option (list Z));
  se_exchanges : list Exchange;
  se_hturns : list HTurn; se_htail : list (nat -> HEvent) }.

Section Sender.
Context (o : LoadOptions) (target : sockaddr_in) (e : SenderEnv).

(** The connections of the pool of an HTTP sender. *)
Definition pool_answers : list ConnectAnswer := map (se_http e) (seq 0 (Z.to_nat (Z.max 1 (lo_connections o)))).

(** [Some error] when the sender cannot be opened. *)
Definition sender_open : option string :=
  match lo_protocol o with
  | kHttpJson => list_find is_Some (map connect_error pool_answers) ≫= snd
  | kUdpBinary => connect_error (se_udp e)
  end.

(** [run], for a sender that is open; [None] when it does not return. *)
Definition sender_run : option ThreadResult :=
  if lo_closed_loop o then
    '(s, _) ← run_closed_loop (lo_sender o) (se_start e) (se_exchanges e); Some (result_of (lo_sender o) s)
  else
    match lo_protocol o with
    | kUdpBinary =>
        '(r, _) ← run_thread (lo_sender o) (mkThreadRun (se_start e) (se_turns e) (se_tail e)); Some r
    | kHttpJson =>
        r ← run_http (lo_sender o) (se_start e) (format_addr target)
              (map (fun a => bool_decide (connect_error a = None)) pool_answers) (se_hturns e) (se_htail e);
        '(s, _) ← r; Some (result_of (lo_sender o) s)
    end.
End Sender.

(** ** Texts *)

Definition mode_name (o : LoadOptions) : string := if lo_closed_loop o then "closed-loop" else "open-loop".
Definition protocol_name (o : LoadOptions) : string := match lo_protocol o with kHttpJson => "http" | kUdpBinary => "udp" end.

(** [%8.1f] *)
Definition pad_left (n : nat) (s : string) : string :=
  (string_of_list_ascii (replicate (n - String.length s) " "%char) +:+ s)%string.
Definition column (x : double) : string := pad_left 8 (show_fixed 1 x).

Definition raised_note (s : SenderOptions) : string :=
  ("note: raised --max-inflight to " +:+ to_string (max_inflight s) +:+ " so the sequence table cannot wrap " +:+
   "within one " +:+ to_string (timeout_ms s) +:+ " ms timeout window" +:+ newline)%string.

(** The first line of a run. *)
Definition banner (o : LoadOptions) (imsis : Z) (c : Counter) (cps : double) : string :=
  let s := lo_sender o in
  ("loadgen -> " +:+ lo_host o +:+ ":" +:+ to_string (lo_port o) +:+ " | " +:+
   match lo_protocol o with kHttpJson => "HTTP/1.1 + JSON, keep-alive" | kUdpBinary => "binary/UDP, 64 B" end +:+ " | " +:+
   (if lo_closed_loop o then "CLOSED loop (not a valid tail measurement)" else "OPEN loop (fixed schedule)") +:+ " | " +:+
   to_string (qps s) +:+ " QPS offered across " +:+ to_string (threads s) +:+ " thread(s) | " +:+ to_string (warmup_s s) +:+
   " s warm-up + " +:+ to_string (duration_s s) +:+ " s measured | " +:+ to_string imsis +:+ " IMSIs | clock " +:+
   cycle_counter_name c +:+ " @ " +:+ show_fixed 0 (ddiv cps (dlit 1 6)) +:+ " MHz" +:+ newline)%string.
Definition http_note (o : LoadOptions) : string :=
  ("  " +:+ to_string (lo_connections o) +:+ " persistent connections per thread. HTTP here is a GET with query" +:+ newline +:+
   "  parameters and no body, which is the cheapest it can be -- so any" +:+ newline +:+
   "  overhead this shows against the binary path is a lower bound." +:+ newline)%string.

(** The report, given the seconds the run took. *)
Definition report_text (o : LoadOptions) (t : ThreadResult) (wall_s : double) : string :=
  let c := tr_tally t in let thousand := dlit 1000 0 in
  String.concat newline
    ["";
     "  offered      " +:+ to_string (qps (lo_sender o)) +:+ " QPS   achieved " +:+ show_fixed 0 (achieved_qps (lo_sender o) t) +:+
       " QPS   (" +:+ show_fixed 1 (ddiv (dmul (dlit 100 0) (achieved_qps (lo_sender o) t)) (double_of_Z (qps (lo_sender o)))) +:+ "% of offered)";
     "  sent         " +:+ to_string (sent c);
     "  received     " +:+ to_string (received c);
     "  lost         " +:+ to_string (lost c) +:+ " (" +:+ show_fixed 4 (loss_pct t) +:+ "%)" +:+
       (if degraded t then "   <-- DEGRADED: percentiles below are over received replies only" else "");
     "  send errors  " +:+ to_string (send_errors c) +:+ "    bad replies " +:+ to_string (bad_replies c) +:+
       "    stale " +:+ to_string (stale_replies c);
     "  verdicts     allow " +:+ to_string (allowed c) +:+ "  deny " +:+ to_string (denied c) +:+ "  redirect " +:+ to_string (redirected c);
     "";
     "  latency (us, end to end, from the SCHEDULED send time)";
     "    p50    " +:+ column (us t (dlit 50 0));
     "    p90    " +:+ column (us t (dlit 90 0));
     "    p99    " +:+ column (us t (dlit 99 0));
     "    p99.9  " +:+ column (us t (dlit 999 (-1)));
     "    p99.99 " +:+ column (us t (dlit 9999 (-2)));
     "    max    " +:+ column (ddiv (double_of_Z (hdr_max (tr_latency t))) thousand);
     "    mean   " +:+ column (ddiv (mean (tr_latency t)) thousand);
     "";
     "  generator send lateness (us) " +:+ dash +:+ " how far behind schedule this process fell";
     "    p50 " +:+ show_fixed 1 (late_us t (dlit 50 0)) +:+ "   p99 " +:+ show_fixed 1 (late_us t (dlit 99 0)) +:+ "   max " +:+
       show_fixed 1 (ddiv (double_of_Z (hdr_max (tr_lateness t))) thousand) +:+ "   slips " +:+ to_string (schedule_slips c) +:+
       " (max " +:+ show_fixed 1 (ddiv (double_of_Z (max_slip_ns c)) thousand) +:+ " us)";
     "  connection starved " +:+ to_string (connection_starved c) +:+ "   reconnects " +:+ to_string (reconnects c);
     "  wall clock " +:+ show_fixed 2 wall_s +:+ " s";
     ""]%string.
Definition schedule_warning (o : LoadOptions) (t : ThreadResult) : string :=
  let c := tr_tally t in
  (newline +:+ "WARNING: the generator missed its schedule on " +:+
   show_fixed 1 (ddiv (dmul (dlit 100 0) (double_of_Z (schedule_slips c))) (double_of_Z (sent c))) +:+ "% of sends. It could not " +:+
   "offer " +:+ to_string (qps (lo_sender o)) +:+ " QPS, so this run measures the generator, not the server. " +:+
   "Add threads or reduce --qps." +:+ newline)%string.

(** ** The files *)

Section Files.
(** Which files can be opened for writing. *)
Context (writable : string -> bool) (log2 : double -> double) (build : BuildInfo).

(** [std::ofstream out(path)], written and closed: the line it puts on the terminal, the
    files. *)
Definition write_file (path text : string) (fs : gmap string string) : list string * gmap string string :=
  if writable path then ([("  wrote " +:+ path +:+ newline)%string], <[path := text]> fs) else ([], fs).

Definition hdr_path (o : LoadOptions) : string := (lo_out_prefix o +:+ ".hdr.csv")%string.
Definition timeline_path (o : LoadOptions) : string := (lo_out_prefix o +:+ ".timeline.csv")%string.

Definition hdr_text (o : LoadOptions) (now : Z) (t : ThreadResult) : string :=
  ("# policy-loadgen percentile distribution, latency in nanoseconds" +:+ newline +:+
   "# " +:+ iso_now now +:+ "  tag=" +:+ lo_tag o +:+ "  offered_qps=" +:+ to_string (qps (lo_sender o)) +:+ "  threads=" +:+
   to_string (threads (lo_sender o)) +:+ "  mode=" +:+ mode_name o +:+ "  protocol=" +:+ protocol_name o +:+ newline +:+
   percentile_csv log2 5 (tr_latency t))%string.

Definition lines_text (lines : list string) : string := foldr (fun l s => (l +:+ newline +:+ s)%string) ""%string lines.

Definition write_prefixed (o : LoadOptions) (now : Z) (t : ThreadResult) (fs : gmap string string) : list string * gmap string string :=
  if String.eqb (lo_out_prefix o) "" then ([], fs)
  else
    let '(said, fs) := write_file (hdr_path o) (hdr_text o now t) fs in
    if timeline (lo_sender o) then
      let '(said', fs) := write_file (timeline_path o) (lines_text (timeline_csv t)) fs in (said ++ said', fs)
    else (said, fs).

Definition summary_header : string :=
  ("timestamp,tag,mode,protocol,offered_qps,achieved_qps,threads,sent,received,lost," +:+
   "loss_pct,p50_us,p90_us,p99_us,p999_us,p9999_us,max_us,mean_us," +:+
   "send_late_p99_us,schedule_slips,allow,deny,redirect,host,build" +:+ newline)%string.
Definition summary_text (o : LoadOptions) (now : Z) (t : ThreadResult) : string :=
  (summary_row o (iso_now now) (bi_system_name build +:+ "/" +:+ bi_system_proc build)
     (bi_build_type build +:+ " " +:+ bi_compiler_id build) t +:+ newline)%string.

(** The row goes to the end of the file, which gets its header when it is new. *)
Definition append_summary (o : LoadOptions) (now : Z) (t : ThreadResult) (fs : gmap string string) : list string * gmap string string :=
  let path := lo_summary_csv o in
  if String.eqb path "" || negb (writable path) then ([], fs)
  else
    let old := match fs !! path with Some text => text | None => summary_header end in
    ([("  appended summary row to " +:+ path +:+ newline)%string], <[path := (old +:+ summary_text o now t)%string]> fs).

(** The files of a run: the percentiles, the timeline, the summary. *)
Definition write_files (o : LoadOptions) (now now' : Z) (t : ThreadResult) (fs : gmap string string) : list string * gmap string string :=
  let '(said, fs) := write_prefixed o now t fs in
  let '(said', fs) := append_summary o now' t fs in
  (said ++ said', fs).
End Files.

(** ** The program *)

Record LoadEnv := mkLoadEnv {
  le_little_endian : bool;
  le_rules : string -> option string; le_lines : string -> option (list string); le_compile_s : Z;
  le_counter : Counter; le_cps : double; le_build : BuildInfo; le_log2 : double -> double;
  le_senders : nat -> SenderEnv; le_wall_s : double;
  le_writable : string -> bool; le_hdr_s : Z; le_row_s : Z }.

Record LoadOutcome := mkLoadOutcome { lr_status : Z; lr_said : list string; lr_files : gmap string string }.

Section Program.
Context `{Resolver} (env : LoadEnv).

Definition pool_error (path : string) (file : option (list string)) : string :=
  match file with None => "cannot open " +:+ path | Some _ => path +:+ " contains no usable IMSIs" end%string.

(** The senders are opened in order; the first failure ends the program. *)
Fixpoint open_senders (o : LoadOptions) (ixs : list nat) : option string :=
  match ixs with
  | [] => None
  | i :: ixs =>
      match sender_open o (le_senders env i) with
      | Some error => Some ("thread " +:+ to_string (Z.of_nat i) +:+ ": " +:+ error +:+ newline)%string
      | None => open_senders o ixs
      end
  end.

(** From the merged results on. *)
Definition load_report (o : LoadOptions) (said : list string) (total : ThreadResult) (fs : gmap string string) : LoadOutcome :=
  let warn := if missed_schedule (lo_closed_loop o) total then [schedule_warning o total] else [] in
  let '(wrote, fs) := write_files (le_writable env) (le_log2 env) (le_build env) o (le_hdr_s env) (le_row_s env) total fs in
  mkLoadOutcome (exit_status total) (said ++ [report_text o total (le_wall_s env)] ++ warn ++ wrote) fs.

(** From the target on: the senders and their threads. *)
Definition load_senders (o : LoadOptions) (target : sockaddr_in) (said : list string) (fs : gmap string string) : option LoadOutcome :=
  let ixs := seq 0 (Z.to_nat (threads (lo_sender o))) in
  match open_senders o ixs with
  | Some error => Some (mkLoadOutcome 1 (said ++ [error]) fs)
  | None =>
      rs ← mapM (fun i => sender_run o target (le_senders env i)) ixs;
      total ← merge_results rs;
      Some (load_report o said total fs)
  end.

(** With the options checked: the rules, the roster and the target. *)
Definition load_checked (o : LoadOptions) (note : list string) (fs : gmap string string) : option LoadOutcome :=
  let fail (msg : string) := Some (mkLoadOutcome 1 (note ++ [(msg +:+ newline)%string]) fs) in
  compiled ← compile_rules_from_file (le_lines env) (le_compile_s env) (le_rules env (lo_rules_path o)) (lo_rules_path o) 1;
  if negb (compile_ok compiled) then fail ("cannot compile " +:+ lo_rules_path o +:+ ": " +:+ error_summary compiled)%string
  else
    let roster := le_lines env (lo_subscribers_path o) in
    match load_imsi_pool roster with
    | None => fail (pool_error (lo_subscribers_path o) roster)
    | Some imsis =>
        match resolve_v4 (lo_host o) (lo_port o) with
        | inl error => fail error
        | inr target =>
            let said := banner o (Z.of_nat (length imsis)) (le_counter env) (le_cps env) ::
              match lo_protocol o with kHttpJson => [http_note o] | kUdpBinary => [] end in
            load_senders o target (note ++ said) fs
        end
    end.

(** [main], for the arguments after the name; [None] when it does not return. *)
Definition load_main (argv : list string) (fs : gmap string string) : option LoadOutcome :=
  match load_args argv (default_load (le_little_endian env)) with
  | inl status => Some (mkLoadOutcome status [] fs)
  | inr o =>
      checked ← check_options o;
      match checked with
      | inl status => Some (mkLoadOutcome status [] fs)
      | inr o' =>
          rounded ← next_pow2 (max_inflight (lo_sender o));
          let note := if u32 rounded <? needed_inflight (lo_sender o') then [raised_note (lo_sender o')] else [] in
          load_checked o' note fs
      end
  end.
End Program.

(** ** The program ends *)

Lemma next_pow2_total n : n <= 2 ^ 31 -> exists m, next_pow2 n = Some m.
Proof. intros Hn. destruct (next_pow2_31 n Hn) as (k & _ & -> & _). by eexists. Qed.

Lemma http_connected o e : lo_protocol o = kHttpJson -> sender_open o e = None ->
  forallb id (map (fun a => bool_decide (connect_error a = None)) (pool_answers o e)) = true.
Proof.
  unfold sender_open. intros ->. induction (pool_answers o e) as [|a l IH]; [done|]. cbn [map list_find forallb].
  destruct (connect_error a) as [msg|]; simpl; [done|]. intros Hf. apply IH. revert Hf.
  by destruct (list_find is_Some (map connect_error l)) as [[i m]|].
Qed.

Lemma pool_answers_some o e (f : ConnectAnswer -> bool) : map f (pool_answers o e) <> [].
Proof. intros H. apply (f_equal (@length _)) in H. unfold pool_answers in H. rewrite !length_map, length_seq in H. simpl in H. lia. Qed.

(** A sender that is open runs to its end in every mode. *)
Lemma sender_run_ends o target e k : 0 <= k <= 31 -> max_inflight (lo_sender o) = 2 ^ k -> 0 <= duration_s (lo_sender o) < 2 ^ 32 - 1 ->
  sender_open o e = None -> is_Some (sender_run o target e).
Proof.
  intros Hk Hm Hd Ho. unfold sender_run. destruct (lo_closed_loop o).
  { destruct (closed_loop_books (lo_sender o) (se_start e) (se_exchanges e)) as (h0 & s & outs & _ & -> & _). by eexists. }
  destruct (lo_protocol o) eqn:Ep.
  - destruct latency_histogram_ok as (h0 & _ & _ & E0 & _). unfold run_thread. cbn [th_start th_turns th_tail].
    destruct (open_loop_runs (lo_sender o) (se_start e) (se_turns e) (se_tail e) k h0 Hk Hm Hd E0) as (s & reqs & dn & -> & _). by eexists.
  - destruct (http_loop_runs (lo_sender o) (se_start e) (format_addr target) _ (se_hturns e) (se_htail e)
      (pool_answers_some o e _) (http_connected o e Ep Ho) Hd) as (h0 & s & reqs & ends & _ & -> & _). by eexists.
Qed.

Lemma open_senders_all env o ixs : open_senders env o ixs = None -> Forall (fun i => sender_open o (le_senders env i) = None) ixs.
Proof.
  induction ixs as [|i ixs IH]; cbn [open_senders]; [constructor|]. destruct (sender_open o (le_senders env i)) eqn:E; [done|].
  intros Hr. constructor; auto.
Qed.

Lemma mapM_total {A B} (f : A -> option B) l : Forall (fun x => is_Some (f x)) l -> exists ys, mapM f l = Some ys /\ length ys = length l.
Proof.
  induction 1 as [|x l [y Hy] _ (ys & E & El)]; [by exists []|]. exists (y :: ys). simpl. rewrite Hy, E. simpl. by rewrite El.
Qed.

(** Only the files of the options change. *)
Lemma write_files_frame writable log2 build o now now' t fs path :
  path <> hdr_path o -> path <> timeline_path o -> path <> lo_summary_csv o ->
  (write_files writable log2 build o now now' t fs).2 !! path = fs !! path.
Proof.
  intros H1 H2 H3. unfold write_files, write_prefixed, append_summary, write_file.
  repeat case_match; simplify_eq/=; rewrite ?lookup_insert_ne by done; reflexivity.
Qed.


(** ** The summary file *)

(** A run that writes a row: its options, the two readings of the clock and its results. *)
Record RunRow := mkRunRow { rw_options : LoadOptions; rw_hdr_s : Z; rw_row_s : Z; rw_total : ThreadResult }.
Definition write_row (writable : string -> bool) (log2 : double -> double) (build : BuildInfo) (fs : gmap string string) (r : RunRow) : gmap string string :=
  (write_files writable log2 build (rw_options r) (rw_hdr_s r) (rw_row_s r) (rw_total r) fs).2.
Definition row_line (build : BuildInfo) (r : RunRow) : string := summary_text build (rw_options r) (rw_row_s r) (rw_total r).

(** A run that names [path] as its summary, and for nothing else. *)
Definition sums_up (path : string) (r : RunRow) : Prop :=
  lo_summary_csv (rw_options r) = path /\ path <> hdr_path (rw_options r) /\ path <> timeline_path (rw_options r).

Lemma write_row_summary writable log2 build path r fs : path <> ""%string -> writable path = true -> sums_up path r ->
  write_row writable log2 build fs r !! path =
  Some (match fs !! path with Some text => text | None => summary_header end +:+ row_line build r)%string.
Proof.
  intros Hp Hw (Hs & H1 & H2). unfold write_row, write_files. destruct (write_prefixed _ _ _ _ _ _) as [said fs1] eqn:E.
  assert (fs1 !! path = fs !! path) as <-.
  { unfold write_prefixed, write_file in E. repeat case_match; simplify_eq/=; rewrite ?lookup_insert_ne by done; reflexivity. }
  unfold append_summary, row_line. rewrite Hs, Hw. rewrite (proj2 (String.eqb_neq _ _)) by done. simpl. by rewrite lookup_insert_eq.
Qed.

Definition rows_text (build : BuildInfo) (rows : list RunRow) : string := foldr (fun r s => (row_line build r +:+ s)%string) ""%string rows.

Lemma summary_continues writable log2 build path rows text fs : path <> ""%string -> writable path = true ->
  Forall (sums_up path) rows -> fs !! path = Some text ->
  foldl (write_row writable log2 build) fs rows !! path = Some (text +:+ rows_text build rows)%string.
Proof.
  intros Hp Hw HF. revert text fs. induction HF as [|r rows Hr _ IH]; intros text fs Ef; [simpl; by rewrite str_app_nil_r|].
  cbn [foldl]. rewrite (IH (text +:+ row_line build r)%string); [by rewrite str_app_assoc|]. by rewrite (write_row_summary _ _ _ path), Ef.
Qed.

(** Runs that share a summary file build one table: whatever else they write, after any
    number of runs a file that did not exist holds the header once, and then the row of every
    run in the order of the runs. *)
Theorem summary_accumulates writable log2 build path rows fs : path <> ""%string -> writable path = true ->
  Forall (sums_up path) rows -> rows <> [] -> fs !! path = None ->
  foldl (write_row writable log2 build) fs rows !! path = Some (summary_header +:+ rows_text build rows)%string.
Proof.
  intros Hp Hw HF Hne H0. destruct HF as [|r rows Hr HF]; [done|]. cbn [foldl].
  rewrite (summary_continues _ _ _ path rows (summary_header +:+ row_line build r)%string); [by rewrite str_app_assoc|done..|].
  by rewrite (write_row_summary _ _ _ path), H0.
Qed.

(** ** Witnesses *)

#[local] Instance no_names : Resolver := {| getaddrinfo := fun _ => (-2, None); gai_strerror := fun _ => "Name or service not known"%string |}.

Definition sample_argv : list string :=
  ["--qps"; "1000"; "--duration"; "1"; "--warmup"; "0"; "--threads"; "2"; "--tag"; "t"; "--summary-csv"; "sum.csv"]%string.
Definition sample_sender (i : nat) : SenderEnv :=
  mkSenderEnv Connected (fun _ => Connected) (1000000 + 2000000 * Z.of_nat i) answered_turns [] [] [] [].
Definition sample_load_env : LoadEnv :=
  mkLoadEnv true (fun _ => Some sample_doc) (fun p => if String.eqb p "config/subscribers.csv" then Some ["001010000000001"]%string else None) 0
    Rdtsc (dlit 2995 6) (mkBuild "1.0" "Release" "GNU" "13" "Linux" "x86_64") floor_log2 sample_sender (dlit 1 0)
    (fun _ => true) 1709210096 1709210097.
Definition sample_options : LoadOptions :=
  match load_args sample_argv (default_load true) with inr o => o | inl _ => default_load true end.
Definition sample_checked : LoadOptions := match check_options sample_options with Some (inr o) => o | _ => sample_options end.
Definition sample_outcome : option LoadOutcome := load_main sample_load_env sample_argv ∅.

Lemma sample_env_doc : doc_ok (le_lines sample_load_env) (le_rules sample_load_env (lo_rules_path sample_checked)).
Proof.
  apply no_lists_doc; [|vm_compute; reflexivity]. intros path lines. unfold sample_load_env. cbn [le_lines].
  destruct (String.eqb path "config/subscribers.csv"); [|done]. intros [= <-]. reflexivity.
Qed.


Definition sample_rows : list RunRow :=
  match open_loop_report (lo_sender sample_checked) sample_runs with
  | Some (t, _) => [mkRunRow sample_checked 1 2 t; mkRunRow sample_checked 3 4 t]
  | None => [] end.

Lemma sample_rows_sum : Forall (sums_up "sum.csv") sample_rows.
Proof. unfold sample_rows. destruct (open_loop_report _ _) as [[t outs]|]; repeat constructor; vm_compute; congruence. Qed.
Lemma sample_rows_some : sample_rows <> [].
Proof. intros H. apply (f_equal (@length _)) in H. vm_compute in H. congruence. Qed.

Lemma summary_accumulates_witness :
  foldl (write_row (fun _ => true) floor_log2 (le_build sample_load_env)) ∅ sample_rows !! "sum.csv"%string =
  Some (summary_header +:+ rows_text (le_build sample_load_env) sample_rows)%string.
Proof.
  exact (summary_accumulates (fun _ => true) floor_log2 (le_build sample_load_env) "sum.csv" sample_rows ∅ ltac:(congruence) eq_refl
    sample_rows_sum sample_rows_some (lookup_empty "sum.csv"%string)).
Defined.
