(* ===== verification/Lifecycle.v ===== *)
(** * Lifecycle: starting and stopping the parts of the program

    The [start], [request_stop], [join] and [stop] members and the destructors of the
    ingest servers (src/server_udp.cpp, src/server_iouring.cpp), the HTTP front
    (src/http_front.cpp), the administrative server (src/admin_http.cpp) and the control
    plane (src/control_plane.cpp), over the calls of [Os].  What the threads do once they
    run is in Server.v, IoUring.v, HttpLoop.v, AdminHttp.v and ControlPlane.v. *)

From S2P Require Import Prelude Text Config ControlPlane AdminEndpoints Os Sockets.
From Stdlib Require Import ZArith Lia Bool Ascii String.
From stdpp Require Import base list numbers strings gmap.
Local Open Scope Z_scope.
Local Open Scope os_scope.

(** What was compiled in, and whether the kernel can make an io_uring. *)
Record Platform := mkPlatform { have_per_worker_sockets : bool; have_batched_syscalls : bool;
  have_io_uring : bool; io_uring_works : bool }.

Section Lifecycle.
Context {K : Kernel} {R : Resolver} (pf : Platform) (cfg : ServerConfig).

Definition workers : nat := Z.to_nat (worker_threads cfg).
(** One socket per worker, or one for all. *)
Definition socket_count : nat := if have_per_worker_sockets pf then workers else 1.
(** The socket of worker [i]. *)
Definition socket_of (l : list Socket) (i : nat) : option Socket := l !! (if have_per_worker_sockets pf then i else O).

(** ** The ingest servers *)

Record IngestServer := mkIngest {
  ig_backend : IngestBackend; ig_sockets : list Socket; ig_threads : list Tid; ig_stop : bool; ig_running : bool }.
Definition new_ingest (b : IngestBackend) : IngestServer := mkIngest b [] [] false false.

Definition udp_description : string :=
  ("UDP/" +:+ (if have_batched_syscalls pf then "recvmmsg+sendmmsg" else "recvfrom+sendto loop") +:+
   (if have_per_worker_sockets pf then ", SO_REUSEPORT socket per worker"
    else ", one socket shared by all workers (SO_REUSEPORT does not load-balance on this platform)"))%string.
Definition uring_description : string :=
  ("io_uring (submit_and_wait, " +:+ to_string (batch_size cfg) +:+ " recvmsg in flight)" +:+
   (if have_per_worker_sockets pf then ", SO_REUSEPORT socket per worker" else ", shared socket"))%string.
Definition ingest_description (srv : IngestServer) : string :=
  match ig_backend srv with kUdp => udp_description | kIoUring => uring_description end.

(** The options of the sockets; io_uring leaves them blocking. *)
Definition ingest_options (nonblocking : bool) : SocketOptions :=
  mkSockOpts (bind_address cfg) (port cfg) (so_rcvbuf cfg) (so_sndbuf cfg) (have_per_worker_sockets pf) nonblocking.

Fixpoint bind_sockets (opts : SocketOptions) (n : nat) (acc : list Socket) : OsM (string + list Socket) :=
  match n with
  | O => ret (inr acc)
  | S n =>
      do r := bind_udp opts in
      match r with
      | inl error => clear_sockets acc ;; ret (inl error)
      | inr fd => bind_sockets opts n (acc ++ [fd])
      end
  end.

(** One thread per worker, each on its socket. *)
Fixpoint spawn_workers (tid : nat -> Tid) (socks : list Socket) (ixs : list nat) : OsM unit :=
  match ixs with
  | [] => ret tt
  | i :: ixs =>
      match socket_of socks i with
      | None => stuck
      | Some fd => spawn (tid i) (Some fd) ;; spawn_workers tid socks ixs
      end
  end.

Definition shared_warning : string :=
  (to_string (worker_threads cfg) +:+ " workers are sharing ONE socket: this platform's SO_REUSEPORT does not distribute " +:+
   "datagrams and there is no SO_REUSEPORT_LB. Expect reply drops under load " +:+
   "(policy_send_wouldblock_total) and treat any scaling figure from this build as a " +:+
   "property of the shared socket, not of the server. Use one worker here, or Linux.")%string.

(** [None] for success, the error otherwise. *)
Definition udp_start (srv : IngestServer) : OsM (option string * IngestServer) :=
  do r := bind_sockets (ingest_options true) socket_count (ig_sockets srv) in
  match r with
  | inl error => ret (Some error, mkIngest (ig_backend srv) [] (ig_threads srv) (ig_stop srv) (ig_running srv))
  | inr socks =>
      (if negb (have_per_worker_sockets pf) && (1 <? workers)%nat then LOG_WARN shared_warning else ret tt) ;;
      spawn_workers TIngest socks (seq 0 workers) ;;
      ret (None, mkIngest (ig_backend srv) socks (ig_threads srv ++ map TIngest (seq 0 workers)) false true)
  end.

Definition uring_start (srv : IngestServer) : OsM (option string * IngestServer) :=
  do r := bind_sockets (ingest_options false) socket_count (ig_sockets srv) in
  match r with
  | inl error => ret (Some error, mkIngest (ig_backend srv) [] (ig_threads srv) (ig_stop srv) (ig_running srv))
  | inr socks =>
      spawn_workers TIngest socks (seq 0 workers) ;;
      ret (None, mkIngest (ig_backend srv) socks (ig_threads srv ++ map TIngest (seq 0 workers)) false true)
  end.

Definition ingest_start (srv : IngestServer) : OsM (option string * IngestServer) :=
  match ig_backend srv with kUdp => udp_start srv | kIoUring => uring_start srv end.
Definition ingest_request_stop (srv : IngestServer) : IngestServer :=
  mkIngest (ig_backend srv) (ig_sockets srv) (ig_threads srv) true (ig_running srv).
Definition ingest_join (srv : IngestServer) : OsM IngestServer :=
  for_each (join_thread (ig_stop srv)) (ig_threads srv) ;;
  clear_sockets (ig_sockets srv) ;;
  ret (mkIngest (ig_backend srv) [] [] (ig_stop srv) false).
Definition ingest_destroy (srv : IngestServer) : OsM unit := ingest_join (ingest_request_stop srv) ;; ret tt.

(** The back end that was asked for, or UDP when it is not there. *)
Definition make_server : OsM IngestServer :=
  match backend cfg with
  | kIoUring =>
      if have_io_uring pf then
        if io_uring_works pf then ret (new_ingest kIoUring)
        else LOG_WARN "io_uring requested but unavailable at runtime; falling back to the socket backend" ;;
             ret (new_ingest kUdp)
      else LOG_WARN ("this binary has no io_uring backend (needs Linux and liburing at build time); " +:+
                     "falling back to the socket backend")%string ;;
           ret (new_ingest kUdp)
  | kUdp => ret (new_ingest kUdp)
  end.

(** ** The HTTP front *)

Record HttpFrontServer := mkHttp {
  hf_bind_address : string; hf_port : Z; hf_bound_port : Z; hf_listeners : list Socket; hf_threads : list Tid; hf_stop : bool }.
Definition new_http : HttpFrontServer := mkHttp (http_bind_address cfg) (http_port cfg) 0 [] [] false.

Definition http_description : string :=
  ("HTTP/1.1 GET /v1/decide, keep-alive, " +:+
   (if have_per_worker_sockets pf then "SO_REUSEPORT listener per worker" else "one shared listener"))%string.

(** The ports after a listener was made: a port of the kernel's choice is read back once,
    and the other listeners use it. *)
Definition note_port (fd : Z) (srv : HttpFrontServer) : OsM (Z * Z) :=
  if hf_bound_port srv =? 0 then
    do r := sys_getsockname fd in
    let bound := match r with Some a => ntohs (sin_port a) | None => hf_bound_port srv end in
    ret (if hf_port srv =? 0 then bound else hf_port srv, bound)
  else ret (hf_port srv, hf_bound_port srv).

(** One listener. *)
Definition http_listen (srv : HttpFrontServer) : OsM (string + HttpFrontServer) :=
  match resolve_v4 (hf_bind_address srv) (hf_port srv) with
  | inl error => ret (inl error)
  | inr addr =>
      do r := sys_socket true in
      match r with
      | inl e => ret (inl ("http front socket(): " +:+ strerror e)%string)
      | inr fd =>
          sys_set fd set_reuseaddr ;;
          (if have_per_worker_sockets pf then sys_set fd set_reuseport else ret 0) ;;
          sys_get fd ;;
          sys_set fd set_nonblock ;;
          do e := sys_bind fd addr in
          if negb (e =? 0) then
            fail_closing fd ("http front bind(" +:+ hf_bind_address srv +:+ ":" +:+ to_string (hf_port srv) +:+ "): " +:+
                             strerror e)%string
          else
            do e := sys_set fd set_listening in
            if negb (e =? 0) then fail_closing fd ("http front listen(): " +:+ strerror e)%string
            else
              do (p, bound) := note_port fd srv in
              ret (inr (mkHttp (hf_bind_address srv) p bound (hf_listeners srv ++ [fd]) (hf_threads srv) (hf_stop srv)))
      end
  end.

Fixpoint http_listeners (n : nat) (srv : HttpFrontServer) : OsM (option string * HttpFrontServer) :=
  match n with
  | O => ret (None, srv)
  | S n =>
      do r := http_listen srv in
      match r with
      | inl error => ret (Some error, srv)
      | inr srv => http_listeners n srv
      end
  end.

(** On failure the listeners made so far stay with the server until its destructor. *)
Definition http_start (srv : HttpFrontServer) : OsM (option string * HttpFrontServer) :=
  do (e, srv) := http_listeners socket_count srv in
  match e with
  | Some error => ret (Some error, srv)
  | None =>
      spawn_workers THttp (hf_listeners srv) (seq 0 workers) ;;
      ret (None, mkHttp (hf_bind_address srv) (hf_port srv) (hf_bound_port srv) (hf_listeners srv)
                   (hf_threads srv ++ map THttp (seq 0 workers)) false)
  end.
Definition http_request_stop (srv : HttpFrontServer) : HttpFrontServer :=
  mkHttp (hf_bind_address srv) (hf_port srv) (hf_bound_port srv) (hf_listeners srv) (hf_threads srv) true.
Definition http_join (srv : HttpFrontServer) : OsM HttpFrontServer :=
  for_each (join_thread (hf_stop srv)) (hf_threads srv) ;;
  clear_sockets (hf_listeners srv) ;;
  ret (mkHttp (hf_bind_address srv) (hf_port srv) (hf_bound_port srv) [] [] (hf_stop srv)).
Definition http_destroy (srv : HttpFrontServer) : OsM unit := http_join (http_request_stop srv) ;; ret tt.

(** ** The administrative server *)

Record AdminServer := mkAdmin { ad_socket : Socket; ad_joinable : bool; ad_stop : bool; ad_bound_port : Z }.
Definition new_admin : AdminServer := mkAdmin no_socket false false 0.

(** The steps after the socket was made; an error leaves the socket with the server. *)
Definition admin_listen (fd : Z) (addr : sockaddr_in) (srv : AdminServer) : OsM (option string * AdminServer) :=
  sys_set fd set_reuseaddr ;;
  do e := sys_bind fd addr in
  if negb (e =? 0) then
    ret (Some ("admin bind(" +:+ admin_bind_address cfg +:+ ":" +:+ to_string (admin_port cfg) +:+ "): " +:+ strerror e)%string, srv)
  else
    do e := sys_set fd set_listening in
    if negb (e =? 0) then ret (Some ("admin listen(): " +:+ strerror e)%string, srv)
    else
      do r := sys_getsockname fd in
      let bound := match r with Some a => ntohs (sin_port a) | None => ad_bound_port srv end in
      spawn TAdmin (Some fd) ;;
      ret (None, mkAdmin (ad_socket srv) true false bound).

Definition admin_start (srv : AdminServer) : OsM (option string * AdminServer) :=
  match resolve_v4 (admin_bind_address cfg) (admin_port cfg) with
  | inl error => ret (Some error, srv)
  | inr addr =>
      do r := sys_socket true in
      match r with
      | inl e => ret (Some ("admin socket(): " +:+ strerror e)%string, srv)
      | inr fd =>
          do (listen_socket, _) := move_assign (ad_socket srv) fd in
          admin_listen fd addr (mkAdmin listen_socket (ad_joinable srv) (ad_stop srv) (ad_bound_port srv))
      end
  end.

Definition admin_stop (srv : AdminServer) : OsM AdminServer :=
  if negb (ad_joinable srv) then ret srv
  else
    (if valid (ad_socket srv) then sys_get (ad_socket srv) ;; ret tt else ret tt) ;;
    join_thread true TAdmin ;;
    do sock := reset (ad_socket srv) in
    ret (mkAdmin sock false true (ad_bound_port srv)).
Definition admin_destroy (srv : AdminServer) : OsM unit :=
  do srv := admin_stop srv in
  reset (ad_socket srv) ;; ret tt.

(** ** The control plane *)

Record Control := mkControl { ct_http : option AdminServer; ct_watcher : bool; ct_stop : bool }.

(** The constructor starts the clock. *)
Definition control_construct : OsM Control := spawn TTicker None ;; ret (mkControl None false false).

Definition control_start (ct : Control) : OsM (option string * Control) :=
  do (e, ct) :=
    (if negb (admin_port cfg =? 0) then
       do (e, http) := admin_start new_admin in
       match e with
       | Some error => ret (Some error, mkControl (Some http) (ct_watcher ct) (ct_stop ct))
       | None =>
           LOG_INFO ("admin HTTP on http://" +:+ admin_bind_address cfg +:+ ":" +:+ to_string (ad_bound_port http))%string ;;
           ret (None, mkControl (Some http) (ct_watcher ct) (ct_stop ct))
       end
     else ret (None, ct)) in
  match e with
  | Some error => ret (Some error, ct)
  | None =>
      if watch_rules_file cfg then spawn TWatcher None ;; ret (None, mkControl (ct_http ct) true (ct_stop ct))
      else ret (None, ct)
  end.

Definition control_stop (ct : Control) : OsM Control :=
  (if ct_watcher ct then join_thread true TWatcher else ret tt) ;;
  (match ct_http ct with
   | Some http => do http := admin_stop http in admin_destroy http
   | None => ret tt
   end) ;;
  ret (mkControl None false true).

(** The rules, the table and the counters go; no thread that reads them may be left. *)
Definition reads_plane (t : Tid) : bool := match t with TTicker => false | _ => true end.
Definition release_plane : OsM unit := fun s =>
  if existsb (fun tu => reads_plane tu.1) (map_to_list (os_threads s)) then None else Some (tt, s).

Definition control_destroy (ct : Control) : OsM unit :=
  control_stop ct ;; join_thread true TTicker ;; release_plane.
End Lifecycle.

(** ** Groups of a server *)

Section Rules.
Context {K : Kernel} {KO : KernelOk K} {R : Resolver} (pf : Platform) (cfg : ServerConfig).
Context (gs : list Group).

(** A server with these sockets and threads owns the group. *)
Definition holds_group (socks : list Socket) (tids : list Tid) (g : Group) : Prop :=
  socks ≡ₚ (g_fds g).*1 /\ tids ≡ₚ (g_threads g).*1.

Lemma group_order socks tids g s : holds_group socks tids g -> owns (g :: gs) s ->
  exists l ts, socks = l.*1 /\ tids = ts.*1 /\ owns (mkGroup l ts :: gs) s.
Proof.
  intros [Hs Ht] H. apply Permutation_map_inv in Hs as (l & -> & El), Ht as (ts & -> & Et).
  exists l, ts. do 2 (split; [done|]). destruct g as [l0 ts0]. eapply owns_group_perm; [exact El|exact Et|done].
Qed.

(** Joining the threads that were asked to stop and closing the sockets. *)
Lemma close_group_post socks tids g s : holds_group socks tids g -> owns (g :: gs) s ->
  post (for_each (join_thread true) tids ;; clear_sockets socks) s (fun _ s' => owns gs s').
Proof.
  intros Hg H. destruct (group_order _ _ _ _ Hg H) as (l & ts & -> & -> & H').
  step by (apply join_all_post; eassumption). intros ? s1 H1.
  eapply post_mono; [by apply clear_sockets_post|]. intros ? s2 H2. by apply owns_drop.
Qed.

(** The sockets of a group and their configuration. *)
Definition socket_as (opts : SocketOptions) (fk : Z * Sock) : Prop :=
  exists a n, resolve_v4 (op_bind_address opts) (op_port opts) = inr a /\ fk.2 = udp_sock opts (chosen a n).

Lemma bind_sockets_post opts n acc l s : acc ≡ₚ l.*1 -> Forall (socket_as opts) l -> owns (mkGroup l [] :: gs) s ->
  post (bind_sockets opts n acc) s (fun r s' =>
    match r with
    | inl _ => owns gs s'
    | inr socks => exists l', socks ≡ₚ l'.*1 /\ length socks = (length acc + n)%nat /\ Forall (socket_as opts) l' /\
        owns (mkGroup l' [] :: gs) s'
    end).
Proof.
  revert acc l s. induction n as [|n IH]; intros acc l s Hacc Hl H; cbn [bind_sockets].
  { apply post_ret. exists l. split; [done|]. split; [by rewrite Nat.add_0_r|done]. }
  step by (apply bind_udp_post; eassumption). intros [error|fd] s1 H1.
  - step by (apply (close_group_post acc [] (mkGroup l []) s1); [by split|done]). intros ? s2 H2. by apply post_ret.
  - destruct H1 as (a & m & Ea & H1). eapply post_mono; [eapply (IH (acc ++ [fd]) _ s1); [|constructor; [|exact Hl]|exact H1]|].
    + rewrite Hacc. simpl. symmetry. apply Permutation_cons_append.
    + by exists a, m.
    + intros [e|socks] s2; [done|]. rewrite length_app, <- Nat.add_assoc. done.
Qed.

Lemma spawn_workers_post tid socks ixs l ts s : socks ≡ₚ l.*1 -> Inj (=) (=) tid -> NoDup ixs ->
  (forall i, i ∈ ixs -> is_Some (socket_of pf socks i)) ->
  (forall i, tid i ∉ (all_threads (mkGroup l ts :: gs)).*1 \/ i ∉ ixs) ->
  owns (mkGroup l ts :: gs) s -> post (spawn_workers pf tid socks ixs) s (fun _ s' =>
    exists ts', ts'.*1 ≡ₚ ts.*1 ++ map tid ixs /\ (forall tu, tu ∈ ts -> tu ∈ ts') /\
      (forall i fd, i ∈ ixs -> socket_of pf socks i = Some fd -> (tid i, Some fd) ∈ ts') /\ owns (mkGroup l ts' :: gs) s').
Proof.
  intros Hs Hinj. revert ts s. induction ixs as [|i ixs IH]; intros ts s Hnd Hsome Hfresh H; cbn [spawn_workers].
  { apply post_ret. exists ts. split; [by rewrite app_nil_r|]. split; [done|]. split; [set_solver|done]. }
  destruct (Hsome i ltac:(left)) as [fd Efd]. rewrite Efd. apply list.NoDup_cons in Hnd as [Hi Hnd].
  step by (apply spawn_post; [destruct (Hfresh i); [done|set_solver]| |eassumption];
    intros ? [= <-]; rewrite <- Hs; unfold socket_of in Efd; by eapply list_elem_of_lookup_2).
  intros ? s1 H1. eapply post_mono; [apply (IH ((tid i, Some fd) :: ts)); [done|intros; apply Hsome; by right| |done]|].
  - intros j. destruct (decide (j ∈ ixs)) as [Hj|]; [left|by right]. destruct (Hfresh j) as [Hf|Hf]; [|set_solver].
    intros [Heq|Hin]%elem_of_cons; [|done]. apply Hinj in Heq. by subst j.
  - intros ? s2 (ts' & Hp & Hin & Hw & H2). exists ts'. split.
    { rewrite Hp. simpl. apply Permutation_middle. }
    split; [set_solver|]. split; [|done]. intros j fd' [->|Hj]%elem_of_cons Ej; [|by apply Hw].
    rewrite Efd in Ej. injection Ej as <-. apply Hin. left.
Qed.

(** ** The ingest server *)

(** Every worker runs, on a socket that is configured as asked and bound to the
    configured address: one of its own, or the one they share. *)
Record serves (good : Z * Sock -> Prop) (tid : nat -> Tid) (socks : list Socket) (tids : list Tid) (g : Group) : Prop := {
  sv_group : holds_group socks tids g;
  sv_count : length socks = socket_count pf cfg;
  sv_socks : Forall good (g_fds g);
  sv_workers : tids = map tid (seq 0 (workers cfg));
  sv_threads : forall i, (i < workers cfg)%nat -> exists fd, socket_of pf socks i = Some fd /\ (tid i, Some fd) ∈ g_threads g }.

Lemma socket_of_count (socks : list Socket) i : length socks = socket_count pf cfg -> (i < workers cfg)%nat ->
  is_Some (socket_of pf socks i).
Proof.
  intros Hl Hi. unfold socket_of, socket_count in *. apply lookup_lt_is_Some.
  destruct (have_per_worker_sockets pf); rewrite Hl; lia.
Qed.

Lemma spawn_all_post good tid socks l s : socks ≡ₚ l.*1 -> length socks = socket_count pf cfg -> Forall good l ->
  Inj (=) (=) tid -> (forall i, tid i ∉ (all_threads gs).*1) -> owns (mkGroup l [] :: gs) s ->
  post (spawn_workers pf tid socks (seq 0 (workers cfg))) s (fun _ s' =>
    exists g, serves good tid socks (map tid (seq 0 (workers cfg))) g /\ owns (g :: gs) s').
Proof.
  intros Hs Hl Hg Hinj Hf H. eapply post_mono; [eapply spawn_workers_post; [exact Hs|done|apply NoDup_seq| | |exact H]|].
  - intros i Hi%elem_of_seq. apply socket_of_count; [done|lia].
  - intros i. left. exact (Hf i).
  - intros ? s' (ts & Hp & _ & Hw & H'). exists (mkGroup l ts). split; [|done]. split; [|done|done|done|].
    { split; [done|]. by symmetry. }
    intros i Hi. destruct (socket_of_count socks i Hl Hi) as [fd E]. exists fd. split; [done|].
    apply Hw; [|done]. apply elem_of_seq. lia.
Qed.

(** What the server listens with, by back end. *)
Definition ingest_sock (b : IngestBackend) : Z * Sock -> Prop :=
  socket_as (ingest_options pf cfg (bool_decide (b = kUdp))).

Lemma ingest_start_post b s : (forall i, TIngest i ∉ (all_threads gs).*1) -> owns gs s ->
  post (ingest_start pf cfg (new_ingest b)) s (fun r s' =>
    match r with
    | (Some _, srv) => srv = new_ingest b /\ owns gs s'
    | (None, srv) => ig_backend srv = b /\ ig_running srv = true /\
        exists g, serves (ingest_sock b) TIngest (ig_sockets srv) (ig_threads srv) g /\ owns (g :: gs) s'
    end).
Proof.
  intros Hf H. apply owns_new in H. assert (Inj (=) (=) TIngest) as Hinj by (by intros ?? [= ->]).
  assert (forall nb, post (bind_sockets (ingest_options pf cfg nb) (socket_count pf cfg) []) s (fun r s' =>
    match r with inl _ => owns gs s' | inr socks => exists l, socks ≡ₚ l.*1 /\ length socks = socket_count pf cfg /\
      Forall (socket_as (ingest_options pf cfg nb)) l /\ owns (mkGroup l [] :: gs) s' end)) as Hb.
  { intros nb. apply (bind_sockets_post _ _ [] []); [done|constructor|done]. }
  destruct b; unfold ingest_start; cbn [ig_backend new_ingest].
  - step by exact (Hb true). intros [error|socks] s1 H1; [by apply post_ret|]. destruct H1 as (l & Hs & Hl & Hg & H1).
    apply (post_bind _ _ _ (fun _ s' => owns (mkGroup l [] :: gs) s')).
    { case_match; [by apply log_post|by apply post_ret]. }
    intros ? s2 H2. step by (eapply spawn_all_post; eassumption). intros ? s3 (g & Hsv & H3). apply post_ret.
    do 2 (split; [done|]). by exists g.
  - step by exact (Hb false). intros [error|socks] s1 H1; [by apply post_ret|]. destruct H1 as (l & Hs & Hl & Hg & H1).
    step by (eapply spawn_all_post; eassumption). intros ? s3 (g & Hsv & H3). apply post_ret.
    do 2 (split; [done|]). by exists g.
Qed.

Definition ingest_down (srv : IngestServer) : Prop := ig_sockets srv = [] /\ ig_threads srv = [].

Lemma ingest_join_post srv g s : ig_stop srv = true -> holds_group (ig_sockets srv) (ig_threads srv) g -> owns (g :: gs) s ->
  post (ingest_join srv) s (fun srv' s' => ingest_down srv' /\ owns gs s').
Proof.
  intros Hst Hg H. unfold ingest_join. rewrite Hst.
  apply post_assoc. step by (eapply close_group_post; eassumption). intros ? s' H'. by apply post_ret.
Qed.

Lemma ingest_down_join srv s : ingest_down srv -> owns gs s ->
  post (ingest_join srv) s (fun srv' s' => ingest_down srv' /\ owns gs s').
Proof. intros [H1 H2] H. unfold ingest_join. rewrite H1, H2. by apply post_ret. Qed.

(** ** The HTTP front *)

(** A listener on an address. *)
Definition listens (host : string) (p : Z) (fk : Z * Sock) : Prop :=
  exists a n, resolve_v4 host p = inr a /\ sk_stream fk.2 = true /\ sk_listening fk.2 = true /\
    sk_bound fk.2 = Some (chosen a n).

(** A call whose success or failure does not matter. *)
Lemma set_any_post fd f k l ts s : (forall k, sk_stream (f k) = sk_stream k) -> owns (mkGroup ((fd, k) :: l) ts :: gs) s ->
  post (sys_set fd f) s (fun _ s' => exists k', sk_stream k' = sk_stream k /\ owns (mkGroup ((fd, k') :: l) ts :: gs) s').
Proof.
  intros Hf H. eapply post_mono; [by apply set_post|]. cbv beta. intros e s' H'. eexists. split; [|exact H'].
  by destruct (e =? 0).
Qed.

(** The kernel's part of making a listener, after [bind]. *)
Lemma bind_listen_post fd k l a s : sk_stream k = true -> owns (mkGroup ((fd, k) :: l) [] :: gs) s ->
  post (sys_bind fd a) s (fun e s' => exists k', (e = 0 -> sk_stream k' = true /\ exists n, sk_bound k' = Some (chosen a n)) /\
    owns (mkGroup ((fd, k') :: l) [] :: gs) s').
Proof.
  intros Hk H. unfold sys_bind. eapply post_mono; [by apply set_post|]. cbv beta. intros e s' H'. eexists. split; [|exact H'].
  intros ->. simpl. eauto.
Qed.

Definition http_frame (srv srv' : HttpFrontServer) : Prop :=
  hf_bind_address srv' = hf_bind_address srv /\ hf_port srv' = hf_port srv /\ hf_threads srv' = hf_threads srv /\
  hf_stop srv' = hf_stop srv.

Lemma note_port_post fd k l srv s : hf_port srv <> 0 -> owns (mkGroup ((fd, k) :: l) [] :: gs) s ->
  post (note_port fd srv) s (fun r s' => r.1 = hf_port srv /\ owns (mkGroup ((fd, k) :: l) [] :: gs) s').
Proof.
  intros Hp H. unfold note_port. apply post_if; intros _; [|by apply post_ret].
  step by (apply getsockname_post; eassumption). intros r s' [H' _]. apply post_ret.
  split; [|done]. simpl. by destruct (Z.eqb_spec (hf_port srv) 0).
Qed.

Lemma http_listen_post srv l s : hf_port srv <> 0 -> owns (mkGroup l [] :: gs) s ->
  post (http_listen pf srv) s (fun r s' =>
    match r with
    | inl _ => owns (mkGroup l [] :: gs) s'
    | inr srv' => exists fk, http_frame srv srv' /\ hf_listeners srv' = hf_listeners srv ++ [fk.1] /\
        listens (hf_bind_address srv) (hf_port srv) fk /\ owns (mkGroup (fk :: l) [] :: gs) s'
    end).
Proof.
  intros Hp H. unfold http_listen. destruct (resolve_v4 _ _) as [error|a] eqn:Ea; [by apply post_ret|].
  step by (apply socket_post; eassumption). intros [e|fd] s1; [intros H1; by apply post_ret|]. intros [_ H1].
  step by (apply set_any_post; [done|eassumption]). intros ? s2 (k2 & K2 & H2).
  apply (post_bind _ _ _ (fun _ s' => exists k', sk_stream k' = true /\ owns (mkGroup ((fd, k') :: l) [] :: gs) s')).
  { apply post_if; intros _; [|apply post_ret; by exists k2].
    eapply post_mono; [by apply set_any_post|]. cbv beta. rewrite K2. done. }
  intros ? s3 (k3 & K3 & H3). step by (apply get_post; eassumption). intros ? s4 H4.
  step by (apply set_any_post; [done|eassumption]). intros ? s5 (k5 & K5 & H5). rewrite K3 in K5.
  step by (eapply bind_listen_post; [exact K5|exact H5]). intros e s6 (k6 & K6 & H6).
  apply post_if; intros He; [by eapply fail_closing_post|]. apply negb_false_iff, Z.eqb_eq in He.
  destruct (K6 He) as (S6 & n & B6). step by (apply set_post; eassumption). intros e' s7 H7.
  apply post_if; intros He'; [eapply fail_closing_post; [exact H7|done]|]. apply negb_false_iff in He'. rewrite He' in H7.
  step by (apply note_port_post; eassumption). intros [p bound] s8 [Ep H8]. simpl in Ep. subst p. apply post_ret.
  exists (fd, set_listening k6). split; [done|]. split; [done|]. split; [|done]. exists a, n. done.
Qed.

Lemma http_listeners_post n srv l s : hf_port srv <> 0 -> hf_listeners srv ≡ₚ l.*1 ->
  Forall (listens (hf_bind_address srv) (hf_port srv)) l -> owns (mkGroup l [] :: gs) s ->
  post (http_listeners pf n srv) s (fun r s' => exists l', http_frame srv r.2 /\ hf_listeners r.2 ≡ₚ l'.*1 /\
    (r.1 = None -> length (hf_listeners r.2) = (length (hf_listeners srv) + n)%nat) /\
    Forall (listens (hf_bind_address srv) (hf_port srv)) l' /\ owns (mkGroup l' [] :: gs) s').
Proof.
  revert srv l s. induction n as [|n IH]; intros srv l s Hp Hs Hl H; cbn [http_listeners].
  { apply post_ret. exists l. split; [done|]. split; [done|]. split; [by rewrite Nat.add_0_r|done]. }
  step by (apply http_listen_post; eassumption). intros [error|srv'] s1 H1.
  { apply post_ret. exists l. do 2 (split; [done|]). by split. }
  destruct H1 as (fk & (F1 & F2 & F3 & F4) & Hls & Hg & H1). eapply post_mono; [apply (IH srv' (fk :: l) s1)|].
  - by rewrite F2.
  - rewrite Hls, Hs. simpl. symmetry. apply Permutation_cons_append.
  - rewrite F1, F2. by constructor.
  - done.
  - cbv beta. rewrite F1, F2, Hls. intros r s2 (l' & (G1 & G2 & G3 & G4) & Hs' & Hc & Hg' & H2). exists l'.
    split; [by repeat split; congruence|]. split; [done|]. split; [|done].
    intros E. rewrite (Hc E), length_app, <- Nat.add_assoc. done.
Qed.

(** What the front leaves when it starts and when it fails. *)
Lemma http_start_post s : http_port cfg <> 0 -> (forall i, THttp i ∉ (all_threads gs).*1) -> owns gs s ->
  post (http_start pf cfg (new_http cfg)) s (fun r s' => exists g, owns (g :: gs) s' /\
    holds_group (hf_listeners r.2) (hf_threads r.2) g /\
    (r.1 = None -> serves (listens (http_bind_address cfg) (http_port cfg)) THttp (hf_listeners r.2) (hf_threads r.2) g)).
Proof.
  intros Hp Hf H. apply owns_new in H. assert (Inj (=) (=) THttp) as Hinj by (by intros ?? [= ->]).
  unfold http_start. step by (apply (http_listeners_post (socket_count pf cfg) (new_http cfg) []); [done|done|constructor|done]).
  intros [[error|] srv] s1 (l & (F1 & F2 & F3 & F4) & Hs & Hc & Hl & H1); simpl in *.
  { apply post_ret. exists (mkGroup l []). split; [done|]. split; [split; [done|by simpl; rewrite F3]|done]. }
  specialize (Hc eq_refl). step by (eapply (spawn_all_post (listens (http_bind_address cfg) (http_port cfg))); eassumption).
  intros ? s2 (g & Hsv & H2). apply post_ret. exists g. simpl. rewrite F3. simpl. split; [done|]. split; [apply Hsv|done].
Qed.

Lemma http_join_post srv g s : hf_stop srv = true -> holds_group (hf_listeners srv) (hf_threads srv) g -> owns (g :: gs) s ->
  post (http_join srv) s (fun srv' s' => hf_listeners srv' = [] /\ hf_threads srv' = [] /\ owns gs s').
Proof.
  intros Hst Hg H. unfold http_join. rewrite Hst.
  apply post_assoc. step by (eapply close_group_post; eassumption). intros ? s' H'. by apply post_ret.
Qed.

(** ** The administrative server *)

Definition admin_holds (srv : AdminServer) (g : Group) : Prop :=
  (ad_socket srv = no_socket /\ ad_joinable srv = false /\ g = no_group) \/
  exists k, g = mkGroup [(ad_socket srv, k)] (if ad_joinable srv then [(TAdmin, Some (ad_socket srv))] else []).

Lemma admin_listen_post fd a k srv s : resolve_v4 (admin_bind_address cfg) (admin_port cfg) = inr a ->
  ad_socket srv = fd -> ad_joinable srv = false -> sk_stream k = true ->
  TAdmin ∉ (all_threads gs).*1 -> owns (mkGroup [(fd, k)] [] :: gs) s ->
  post (admin_listen cfg fd a srv) s (fun r s' => exists g, admin_holds r.2 g /\ owns (g :: gs) s' /\
    (r.1 = None -> ad_joinable r.2 = true /\ Forall (listens (admin_bind_address cfg) (admin_port cfg)) (g_fds g))).
Proof.
  intros Ea Es Ej Sk Hf H. unfold admin_listen.
  assert (forall k, admin_holds srv (mkGroup [(fd, k)] [])) as Hsrv by (intros k'; right; exists k'; by rewrite Es, Ej).
  step by (apply set_any_post; [done|eassumption]). intros ? s2 (k2 & K2 & H2). rewrite Sk in K2.
  step by (eapply bind_listen_post; eassumption). intros e s3 (k3 & K3 & H3).
  apply post_if; intros He; [apply post_ret; by eexists|]. apply negb_false_iff, Z.eqb_eq in He.
  destruct (K3 He) as (S3 & n & B3). step by (apply set_post; eassumption). intros e' s4 H4.
  apply post_if; intros He'; [apply post_ret; by eexists|]. apply negb_false_iff in He'. rewrite He' in H4.
  step by (apply getsockname_post; eassumption). intros r s5 [H5 _].
  step by (eapply (spawn_post gs TAdmin (Some fd) [(fd, _)] []); [exact Hf|intros ? [= <-]; left|eassumption]). intros ? s6 H6. apply post_ret.
  exists (mkGroup [(fd, set_listening k3)] [(TAdmin, Some fd)]). split; [right; eexists; simpl; by rewrite Es|]. split; [done|].
  intros _. split; [done|]. constructor; [|constructor]. by exists a, n.
Qed.

Lemma admin_start_post s : TAdmin ∉ (all_threads gs).*1 -> owns gs s ->
  post (admin_start cfg new_admin) s (fun r s' => exists g, admin_holds r.2 g /\ owns (g :: gs) s' /\
    (r.1 = None -> ad_joinable r.2 = true /\ Forall (listens (admin_bind_address cfg) (admin_port cfg)) (g_fds g))).
Proof.
  intros Hf H. apply owns_new in H. unfold admin_start.
  assert (admin_holds new_admin no_group) as H0 by (by left).
  destruct (resolve_v4 _ _) as [error|a] eqn:Ea; [apply post_ret; by exists no_group|].
  step by (apply socket_post; eassumption). intros [e|fd] s1; [intros H1; apply post_ret; by exists no_group|]. intros [_ H1].
  apply (post_bind _ _ _ (fun r s' => r.1 = fd /\ owns (mkGroup [(fd, new_sock true)] [] :: gs) s'));
    [by exists (fd, no_socket), s1|].
  intros [x y] s2 [Ex H2]. simpl in Ex. subst x. by apply (admin_listen_post _ _ (new_sock true)).
Qed.

Lemma admin_stop_post srv g s : admin_holds srv g -> owns (g :: gs) s ->
  post (admin_stop srv) s (fun srv' s' => ad_joinable srv' = false /\ exists g', admin_holds srv' g' /\ owns (g' :: gs) s').
Proof.
  intros Hg H. unfold admin_stop. destruct (ad_joinable srv) eqn:Ej; simpl; [|apply post_ret; by eauto].
  destruct Hg as [(_ & ? & _)|(k & ->)]; [congruence|]. rewrite Ej in H.
  apply (post_bind _ _ _ (fun _ s' => owns (mkGroup [(ad_socket srv, k)] [(TAdmin, Some (ad_socket srv))] :: gs) s')).
  { apply post_if; intros _; [|by apply post_ret]. step by (apply get_post; eassumption). intros ? s' H'. by apply post_ret. }
  intros ? s1 H1. step by (eapply join_post; eassumption). intros ? s2 H2.
  step by (eapply reset_post; [|eassumption]; set_solver). intros sock s3 [-> H3]. apply post_ret.
  split; [done|]. exists no_group. split; [by left|done].
Qed.

Lemma admin_destroy_post srv g s : admin_holds srv g -> owns (g :: gs) s ->
  post (admin_destroy srv) s (fun _ s' => owns gs s').
Proof.
  intros Hg H. unfold admin_destroy. step by (eapply admin_stop_post; eassumption). intros srv' s1 (Ej & g' & Hg' & H1).
  destruct Hg' as [(Es & _ & ->)|(k & ->)].
  { rewrite Es. apply owns_drop in H1. by apply post_ret. }
  rewrite Ej in H1. step by (eapply reset_post; [|eassumption]; set_solver). intros ? s2 [_ H2]. by apply post_ret, owns_drop.
Qed.
End Rules.

(** ** The control plane *)

Section ControlRules.
Context {K : Kernel} {KO : KernelOk K} {R : Resolver} (cfg : ServerConfig).

Definition ticker_group : Group := mkGroup [] [(TTicker, None)].
Definition watcher_group : Group := mkGroup [] [(TWatcher, None)].
Definition http_groups (http : option AdminServer) (hgs : list Group) : Prop :=
  match http with None => hgs = [] | Some a => exists g, hgs = [g] /\ admin_holds a g end.
Definition control_groups (ct : Control) (cgs : list Group) : Prop :=
  exists hgs, http_groups (ct_http ct) hgs /\ cgs = hgs ++ (if ct_watcher ct then [watcher_group] else []) ++ [ticker_group].

Lemma spawn_alone_post t gs s : t ∉ (all_threads gs).*1 -> owns gs s ->
  post (spawn t None) s (fun _ s' => owns (mkGroup [] [(t, None)] :: gs) s').
Proof. intros Ht H%owns_new. by apply spawn_post. Qed.

Lemma control_construct_post s : owns [] s -> post control_construct s (fun ct s' =>
  ct = mkControl None false false /\ owns [ticker_group] s').
Proof.
  intros H. unfold control_construct. step by (apply (spawn_alone_post TTicker []); [apply not_elem_of_nil|eassumption]). intros ? s' H'. by apply post_ret.
Qed.

Definition interface_up (ct : Control) : Prop :=
  (admin_port cfg <> 0 -> exists a, ct_http ct = Some a /\ ad_joinable a = true) /\ ct_watcher ct = watch_rules_file cfg.

Lemma control_start_post gs s : TAdmin ∉ (all_threads gs).*1 -> TWatcher ∉ (all_threads gs).*1 -> owns (ticker_group :: gs) s ->
  post (control_start cfg (mkControl None false false)) s (fun r s' => exists cgs, control_groups r.2 cgs /\
    owns (cgs ++ gs) s' /\ (r.1 = None -> interface_up r.2)).
Proof.
  intros Ha Hw H. unfold control_start.
  apply (post_bind _ _ _ (fun r s' => exists hgs, http_groups (ct_http r.2) hgs /\ ct_watcher r.2 = false /\
    (TWatcher ∉ (all_threads hgs).*1) /\ owns (hgs ++ ticker_group :: gs) s' /\
    (r.1 = None -> admin_port cfg <> 0 -> exists a, ct_http r.2 = Some a /\ ad_joinable a = true))).
  { apply post_if; intros Ep.
    - step by (apply (admin_start_post cfg (ticker_group :: gs)); [|eassumption]; unfold all_threads; simpl; set_solver).
      intros [[error|] http] s1 (g & Hg & H1 & Hup); simpl in *.
      + apply post_ret. exists [g]. split; [by exists g|]. split; [done|]. split; [|done].
        destruct Hg as [(_ & _ & ->)|(k & ->)]; [set_solver|]. unfold all_threads. simpl. case_match; set_solver.
      + step by (apply log_post; eassumption). intros ? s2 H2. apply post_ret. exists [g]. split; [by exists g|].
        split; [done|]. split; [destruct Hg as [(_ & _ & ->)|(k & ->)]; [set_solver|]; unfold all_threads; simpl; case_match; set_solver|].
        split; [done|]. intros _ _. exists http. split; [done|]. by apply Hup.
    - apply post_ret. exists []. do 2 (split; [done|]). split; [apply not_elem_of_nil|]. split; [done|]. intros _ Hne. apply negb_false_iff, Z.eqb_eq in Ep. done. }
  intros [[error|] ct] s1 (hgs & Hh & Ew & Hf & H1 & Hup); simpl in *.
  { apply post_ret. exists (hgs ++ [ticker_group]). split; [exists hgs; simpl; by rewrite Ew|]. by rewrite <- app_assoc. }
  apply post_if; intros Ewatch.
  - step by (apply (spawn_alone_post TWatcher (hgs ++ ticker_group :: gs)); [|eassumption]; unfold all_threads in *; rewrite bind_app, fmap_app; simpl; set_solver).
    intros ? s2 H2. apply post_ret. exists (hgs ++ [watcher_group; ticker_group]). split; [by exists hgs|]. split.
    + rewrite <- app_assoc. simpl. by rewrite <- Permutation_middle.
    + intros _. split; [by apply Hup|]. by simpl.
  - apply post_ret. exists (hgs ++ [ticker_group]). split; [exists hgs; simpl; by rewrite Ew|]. rewrite <- app_assoc.
    split; [done|]. intros _. split; [by apply Hup|]. simpl. by rewrite Ew, Ewatch.
Qed.

Lemma control_stop_post ct cgs gs s : control_groups ct cgs -> owns (cgs ++ gs) s ->
  post (control_stop ct) s (fun ct' s' => ct' = mkControl None false true /\ owns (ticker_group :: gs) s').
Proof.
  intros (hgs & Hh & ->) H. unfold control_stop.
  apply (post_bind _ _ _ (fun _ s' => owns (hgs ++ ticker_group :: gs) s')).
  { rewrite <- !app_assoc in H. destruct (ct_watcher ct); simpl in H; [|by apply post_ret].
    rewrite <- Permutation_middle in H. eapply post_mono; [by eapply join_post|]. cbv beta. intros ? s' H'. by apply owns_drop. }
  intros ? s1 H1. apply (post_bind _ _ _ (fun _ s' => owns (ticker_group :: gs) s')); [|intros ? s2 H2; by apply post_ret].
  destruct (ct_http ct) as [ad|]; simpl in Hh; [|subst hgs; by apply post_ret]. destruct Hh as (g & -> & Hg).
  step by (eapply admin_stop_post; eassumption). intros a' s2 (_ & g' & Hg' & H2). by eapply admin_destroy_post.
Qed.

(** At the end of the control plane no thread is left and every descriptor is closed. *)
Lemma control_destroy_post ct cgs s : control_groups ct cgs -> owns cgs s -> post (control_destroy ct) s (fun _ s' => owns [] s').
Proof.
  intros Hg H. unfold control_destroy. rewrite <- (app_nil_r cgs) in H.
  step by (eapply control_stop_post; eassumption). intros ? s1 [_ H1].
  step by (eapply join_post; eassumption). intros ? s2 H2%owns_drop.
  exists tt, s2. split; [|done]. unfold release_plane. apply owns_nil in H2 as [_ ->]. by rewrite map_to_list_empty.
Qed.
End ControlRules.

(** ** The contract of the ingest servers *)

Lemma owns_lookup gs s g fd k t : owns gs s -> g ∈ gs -> (fd, k) ∈ g_fds g -> (t, Some fd) ∈ g_threads g ->
  os_fds s !! fd = Some k /\ os_threads s !! t = Some (Some fd).
Proof.
  intros [H1 H2 H3 H4 _] Hg Hf Ht. rewrite H1, H3. split; apply elem_of_list_to_map; try done;
    apply list_elem_of_bind; by exists g.
Qed.

Lemma owns_unique gs s s' : owns gs s -> owns gs s' -> os_fds s' = os_fds s /\ os_threads s' = os_threads s.
Proof. intros [H1 _ H3 _ _] [H1' _ H3' _ _]. split; congruence. Qed.

Section Contract.
Context {K : Kernel} {KO : KernelOk K} {R : Resolver} (pf : Platform) (cfg : ServerConfig).

(** Worker [i] runs on a socket that is bound to the configured address. *)
Definition worker_up (srv : IngestServer) (s : Os) (i : nat) : Prop :=
  exists fd k a n, socket_of pf (ig_sockets srv) i = Some fd /\ os_threads s !! TIngest i = Some (Some fd) /\
    os_fds s !! fd = Some k /\ resolve_v4 (bind_address cfg) (port cfg) = inr a /\ sk_bound k = Some (chosen a n) /\
    sk_reuseport k = have_per_worker_sockets pf /\ sk_nonblock k = bool_decide (ig_backend srv = kUdp).

Lemma serves_worker_up srv g gs s : owns (g :: gs) s ->
  serves pf cfg (ingest_sock pf cfg (ig_backend srv)) TIngest (ig_sockets srv) (ig_threads srv) g ->
  NoDup (ig_sockets srv) /\ forall i, (i < workers cfg)%nat -> worker_up srv s i.
Proof.
  intros H [[Hs Ht] Hc Hg _ Hth]. split.
  { rewrite Hs. pose proof (ow_nodup _ _ H) as Hnd. unfold all_fds in Hnd. simpl in Hnd. rewrite fmap_app in Hnd.
    by apply NoDup_app in Hnd as [? _]. }
  intros i Hi. destruct (Hth i Hi) as (fd & E & Hin). pose proof (ow_groups _ _ H) as G. apply Forall_cons_1 in G as [[_ G] _].
  specialize (G _ _ Hin). apply list_elem_of_fmap in G as ([fd' k] & Ef & Hk). simpl in Ef. subst fd'.
  destruct (owns_lookup (g :: gs) s g fd k (TIngest i) H ltac:(left) Hk Hin) as [L1 L2].
  rewrite Forall_forall in Hg. destruct (Hg _ Hk) as (a & n & Ea & Ek). simpl in Ek. subst k.
  exists fd, (udp_sock (ingest_options pf cfg (bool_decide (ig_backend srv = kUdp))) (chosen a n)), a, n. done.
Qed.

(** C14: The contract of an ingest server, UDP or io_uring, whatever the kernel answers:
    [start] either reports an error and leaves the process as it was, with no socket open
    and no thread running, or every worker runs on a socket that is bound to the configured
    address (its own one on Linux, where the sockets are distinct and share the port); and
    then [request_stop] and [join] return and give back everything that was taken. *)
Theorem ingest_start_contract b gs s : owns gs s -> (forall i, TIngest i ∉ (all_threads gs).*1) ->
  exists e srv s', ingest_start pf cfg (new_ingest b) s = Some ((e, srv), s') /\
    (e <> None -> os_fds s' = os_fds s /\ os_threads s' = os_threads s) /\
    (e = None -> ig_running srv = true /\ length (ig_sockets srv) = socket_count pf cfg /\ NoDup (ig_sockets srv) /\
       (forall i, (i < workers cfg)%nat -> worker_up srv s' i) /\
       exists srv' s'', ingest_join (ingest_request_stop srv) s' = Some (srv', s'') /\
         ig_running srv' = false /\ os_fds s'' = os_fds s /\ os_threads s'' = os_threads s).
Proof.
  intros H Hf. destruct (ingest_start_post pf cfg gs b s Hf H) as ([[error|] srv] & s' & E & Hp).
  - destruct Hp as [_ Hp]. exists (Some error), srv, s'. split; [done|]. split; [|done]. intros _. by eapply owns_unique.
  - destruct Hp as (Eb & Er & g & Hsv & Hp). subst b. exists None, srv, s'. split; [done|]. split; [done|]. intros _.
    destruct (serves_worker_up srv g gs s' Hp Hsv) as [Hnd Hup].
    split; [done|]. split; [apply Hsv|]. split; [done|]. split; [done|].
    destruct (ingest_join_post gs (ingest_request_stop srv) g s') as (srv' & s'' & Ej & _ & Hj); [done|apply Hsv|done|].
    exists srv', s''. split; [done|]. split; [|by eapply owns_unique].
    unfold ingest_join, bind, ret in Ej. repeat case_match; by simplify_eq.
Qed.
End Contract.

(** ** Witness *)

Definition sample_platform : Platform := mkPlatform true true true true.
Definition sample_resolver : Resolver := {| getaddrinfo := fun _ => (1, None); gai_strerror := fun _ => "unknown"%string |}.
Definition bare_os : Os := mkOs ∅ ∅ kInfo [] [] 0.
Definition two_workers : ServerConfig := set_worker_threads 2 default_config.

Lemma ingest_start_contract_witness : exists srv s', 
  ingest_start (K := linux_kernel 4194304) (R := sample_resolver) sample_platform two_workers (new_ingest kUdp) bare_os =
    Some ((None, srv), s') /\ NoDup (ig_sockets srv) /\ ig_sockets srv = [3; 4] /\
  (forall i, (i < workers two_workers)%nat -> worker_up (K := linux_kernel 4194304) (R := sample_resolver) sample_platform two_workers srv s' i).
Proof.
  destruct (ingest_start_contract (K := linux_kernel 4194304) (R := sample_resolver) sample_platform two_workers kUdp [] bare_os)
    as (e & srv & s' & E & _ & H).
  - apply owns_nil. split; reflexivity.
  - intros i Hin. apply elem_of_nil in Hin. exact Hin.
  - assert (exists x, ingest_start (K := linux_kernel 4194304) (R := sample_resolver) sample_platform two_workers
      (new_ingest kUdp) bare_os = Some ((None, mkIngest kUdp [3; 4] [TIngest 0; TIngest 1] false true), x)) as [x Ex].
    { vm_compute. eexists. reflexivity. }
    rewrite Ex in E. injection E as <- <- <-. destruct (H eq_refl) as (_ & _ & Hnd & Hup & _).
    exists (mkIngest kUdp [3; 4] [TIngest 0; TIngest 1] false true), x. split; [exact Ex|]. split; [exact Hnd|]. split; [reflexivity|exact Hup].
Defined.
