(* ===== verification/Main.v ===== *)
(** * Main: policyd from its arguments to its exit status

    src/main.cpp: the options, the control plane, the servers, the wait for a signal or
    the end of the configured time, and the shutdown, with the destructors that every
    [return] runs.  The environment of a run is what the program finds and is told: files,
    clocks, the signals at each wake-up, and the counters its workers leave behind. *)

From S2P Require Import Prelude Text Config Hdr HdrText Metrics HttpLoop ControlPlane AdminEndpoints Os Sockets Lifecycle.
From Stdlib Require Import ZArith Lia Bool Ascii String.
From stdpp Require Import base list numbers strings gmap.
Local Open Scope Z_scope.
Local Open Scope os_scope.

(** At a wake-up of the main thread: the signal seen by the loop, the steady clock after
    the sleep, and the signal seen after the loop when the time is over. *)
Record Wake := mkWake { wk_signal : Z; wk_now_ns : Z; wk_late_signal : Z }.

Record Env := mkEnv {
  en_platform : Platform;
  en_hardware_concurrency : Z;
  en_file_exists : string -> bool;
  en_build : BuildInfo;
  en_machine : Machine;
  en_now : Z;
  en_world : World;
  en_mtime : Z;
  en_start_ns : Z;
  en_wakes : list Wake;
  en_metrics : list WorkerMetrics;
  en_front : list FrontStats }.

Section Main.
Context {K : Kernel} {R : Resolver} (env : Env).

(** [while (g_signal == 0)]: the signal that is seen afterwards; [None] when nothing ends
    the wait. *)
Fixpoint wait_loop (run_seconds deadline : Z) (wakes : list Wake) : option Z :=
  match wakes with
  | [] => None
  | w :: wakes =>
      if negb (wk_signal w =? 0) then Some (wk_signal w)
      else if negb (run_seconds =? 0) && (deadline <=? wk_now_ns w) then Some (wk_late_signal w)
      else wait_loop run_seconds deadline wakes
  end.

(** A pure computation that may not return. *)
Definition lift {A} (o : option A) : OsM A := fun s => match o with Some a => Some (a, s) | None => None end.

Definition complain (error : string) : OsM unit := eprint ("policyd: " +:+ error)%string.

Definition front_line (cfg : ServerConfig) (front : HttpFrontServer) : string :=
  ("HTTP front on http://" +:+ http_bind_address cfg +:+ ":" +:+ to_string (hf_bound_port front) +:+ "/v1/decide" +:+
   em_dash +:+ http_description (en_platform env))%string.
Definition front_served (hs : FrontStats) : string :=
  ("HTTP front served " +:+ to_string (HttpFront.st_requests (fs_stats hs)) +:+ " requests over " +:+
   to_string (fs_accepted hs) +:+ " connection(s); service time " +:+ summary_line "ns" (fs_service hs))%string.
Definition served_line (snap : WorkerMetrics) : string :=
  ("served " +:+ to_string (requests (w_counters snap)) +:+ " requests, " +:+ to_string (replies_sent (w_counters snap)) +:+
   " replies, " +:+ to_string (unknown_subscriber (w_counters snap)) +:+ " unknown subscribers; service time " +:+
   summary_line "ns" (w_service_ns snap))%string.

(** What [main] has when it leaves: its status and the objects whose destructors run. *)
Record Outcome := mkOutcome { oc_code : Z; oc_server : IngestServer; oc_front : option HttpFrontServer; oc_control : Control }.

Definition join_front (front : option HttpFrontServer) : OsM (option HttpFrontServer) :=
  match front with
  | Some f => do f := http_join (http_request_stop f) in ret (Some f)
  | None => ret None
  end.

(** From the banner to the last log line. *)
Definition main_wait (cfg : ServerConfig) (p : ControlPlane) (srv : IngestServer) (front : option HttpFrontServer)
  (ct : Control) : OsM Outcome :=
  eprint (describe (en_build env) (en_machine env) (ingest_description (en_platform env) cfg srv) p) ;;
  LOG_INFO "ready" ;;
  do sig := lift (wait_loop (run_seconds cfg) (en_start_ns env + run_seconds cfg * 10 ^ 9) (en_wakes env)) in
  (if negb (sig =? 0) then LOG_INFO ("signal " +:+ show_int sig +:+ " received, shutting down")%string else ret tt) ;;
  do srv := ingest_join (ingest_request_stop srv) in
  do front := join_front front in
  do ct := control_stop ct in
  (match front with
   | Some _ => do hs := lift (front_snapshot (en_front env)) in LOG_INFO (front_served hs)
   | None => ret tt
   end) ;;
  do snap := lift (snapshot (en_metrics env)) in
  LOG_INFO (served_line snap) ;;
  ret (mkOutcome 0 srv front ct).

Definition main_control (cfg : ServerConfig) (p : ControlPlane) (srv : IngestServer) (front : option HttpFrontServer)
  (ct : Control) : OsM Outcome :=
  do (e, ct) := control_start cfg ct in
  match e with
  | Some error =>
      complain error ;;
      do srv := ingest_join (ingest_request_stop srv) in
      ret (mkOutcome 1 srv front ct)
  | None => main_wait cfg p srv front ct
  end.

Definition main_front (cfg : ServerConfig) (p : ControlPlane) (srv : IngestServer) (ct : Control) : OsM Outcome :=
  if negb (http_port cfg =? 0) then
    do (e, front) := http_start (en_platform env) cfg (new_http cfg) in
    match e with
    | Some error =>
        complain error ;;
        do srv := ingest_join (ingest_request_stop srv) in
        ret (mkOutcome 1 srv (Some front) ct)
    | None => LOG_INFO (front_line cfg front) ;; main_control cfg p srv (Some front) ct
    end
  else main_control cfg p srv None ct.

(** The destructors of [http_front] and [server]. *)
Definition destroy_servers (o : Outcome) : OsM unit :=
  (match oc_front o with Some f => http_destroy f | None => ret tt end) ;; ingest_destroy (oc_server o).

Definition main_servers (cfg : ServerConfig) (p : ControlPlane) (ct : Control) : OsM (Z * Control) :=
  do srv := make_server (en_platform env) cfg in
  let p := set_ingest_description (ingest_description (en_platform env) cfg srv) p in
  do (e, srv) := ingest_start (en_platform env) cfg srv in
  match e with
  | Some error => complain error ;; ingest_destroy srv ;; ret (1, ct)
  | None =>
      do o := main_front cfg p srv ct in
      destroy_servers o ;;
      ret (oc_code o, oc_control o)
  end.

(** [main], for the arguments after the program's name. *)
Definition main_ (args : list string) : OsM Z :=
  let parsed := parse_server_args args in
  let cfg := cp_config parsed in
  if cp_help parsed then ret 0
  else if negb (cp_ok parsed) then complain (cp_error parsed) ;; ret 2
  else
    Os.set_log_level (log_level cfg) ;;
    let problem := validate_config (en_hardware_concurrency env) (en_file_exists env) (have_io_uring (en_platform env)) cfg in
    if negb (String.eqb problem EmptyString) then complain problem ;; ret 2
    else
      do p := lift (new_control_plane cfg (en_now env)) in
      do ct := control_construct in
      do (e, p) := lift (initialize (en_world env) (en_mtime env) p) in
      match e with
      | Some error => complain error ;; control_destroy ct ;; ret 1
      | None =>
          do (code, ct) := main_servers cfg p ct in
          control_destroy ct ;; ret code
      end.
End Main.

(** ** Every run ends clean *)

Section Rules.
Context {K : Kernel} {KO : KernelOk K} {R : Resolver} (env : Env) (cfg : ServerConfig).

Lemma post_lift {A} (o : option A) a s Q : o = Some a -> Q a s -> post (lift o) s Q.
Proof. intros -> H. by exists a, s. Qed.

Lemma complain_post gs error s : owns gs s -> post (complain error) s (fun _ s' => owns gs s').
Proof. apply eprint_post. Qed.

Lemma make_server_post gs s : owns gs s -> post (make_server (en_platform env) cfg) s (fun srv s' =>
  (exists b, srv = new_ingest b) /\ owns gs s').
Proof.
  intros H. unfold make_server.
  assert (forall msg, post (LOG_WARN msg ;; ret (new_ingest kUdp)) s (fun srv s' => (exists b, srv = new_ingest b) /\ owns gs s')) as W.
  { intros msg. step by (apply log_post; eassumption). intros ? s1 H1. apply post_ret. eauto. }
  repeat case_match; try apply W; apply post_ret; eauto.
Qed.

(** The groups of the objects [main] leaves with. *)
Definition front_groups (front : option HttpFrontServer) (fgs : list Group) : Prop :=
  match front with None => fgs = [] | Some f => exists g, fgs = [g] /\ holds_group (hf_listeners f) (hf_threads f) g end.
Definition server_groups (srv : IngestServer) (g : Group) : Prop := holds_group (ig_sockets srv) (ig_threads srv) g.

Definition clean (o : Outcome) (s : Os) : Prop :=
  exists g fgs cgs, server_groups (oc_server o) g /\ front_groups (oc_front o) fgs /\ control_groups (oc_control o) cgs /\
    owns (g :: fgs ++ cgs) s.

Lemma ingest_down_groups srv : ingest_down srv -> server_groups srv no_group.
Proof. intros [E1 E2]. unfold server_groups. by rewrite E1, E2. Qed.

Lemma destroy_servers_post o s : clean o s -> post (destroy_servers o) s (fun _ s' =>
  exists cgs, control_groups (oc_control o) cgs /\ owns cgs s').
Proof.
  intros (g & fgs & cgs & Hg & Hf & Hc & H). unfold destroy_servers.
  apply (post_bind _ _ _ (fun _ s' => owns (g :: cgs) s')).
  { destruct (oc_front o) as [f|]; simpl in Hf; [|subst fgs; by apply post_ret].
    destruct Hf as (gf & -> & Hgf). simpl in H. rewrite (perm_swap gf g cgs) in H. unfold http_destroy.
    step by (eapply (http_join_post (g :: cgs)); [reflexivity|exact Hgf|exact H]). intros ? s' (_ & _ & H'). by apply post_ret. }
  intros ? s1 H1. unfold ingest_destroy.
  step by (eapply (ingest_join_post cgs); [reflexivity|exact Hg|exact H1]). intros ? s' [_ H']. apply post_ret. by exists cgs.
Qed.

Lemma join_front_post front fgs gs s : front_groups front fgs -> owns (fgs ++ gs) s ->
  post (join_front front) s (fun f' s' => exists fgs', front_groups f' fgs' /\ owns (fgs' ++ gs) s').
Proof.
  intros Hf H. destruct front as [f|]; simpl in Hf; [|subst fgs; apply post_ret; by exists []].
  destruct Hf as (g & -> & Hg). unfold join_front.
  step by (eapply (http_join_post gs); [reflexivity|exact Hg|exact H]). intros f' s' (E1 & E2 & H'). apply post_ret.
  exists [no_group]. split; [|by apply owns_new]. exists no_group. split; [done|]. by rewrite E1, E2.
Qed.

Lemma snapshots_return : (exists snap, snapshot (en_metrics env) = Some snap) /\
  exists hs, front_snapshot (en_front env) = Some hs.
Proof.
  destruct service_ns_holds as (h0 & u & k & Eh & _).
  unfold snapshot, new_metrics, front_snapshot, new_front. rewrite Eh. simpl. eauto.
Qed.

Lemma main_wait_post p srv front ct g fgs cgs sig s : server_groups srv g -> front_groups front fgs -> control_groups ct cgs ->
  wait_loop (run_seconds cfg) (en_start_ns env + run_seconds cfg * 10 ^ 9) (en_wakes env) = Some sig ->
  owns (g :: fgs ++ cgs) s -> post (main_wait env cfg p srv front ct) s (fun o s' => oc_code o = 0 /\ clean o s').
Proof.
  intros Hg Hf Hc Hw H. unfold main_wait. step by (apply eprint_post; eassumption). intros ? s1 H1.
  step by (apply log_post; eassumption). intros ? s2 H2.
  step by (eapply (post_lift _ sig _ (fun x s' => owns (g :: fgs ++ cgs) s')); [exact Hw|exact H2]). intros x s3 H3.
  apply (post_bind _ _ _ (fun _ s' => owns (g :: fgs ++ cgs) s')).
  { apply post_if; intros _; [by apply log_post|by apply post_ret]. }
  intros ? s4 H4. step by (eapply (ingest_join_post (fgs ++ cgs)); [reflexivity|exact Hg|exact H4]). intros srv' s5 [Hd H5].
  step by (eapply join_front_post; eassumption). intros front' s6 (fgs' & Hf' & H6). rewrite Permutation_app_comm in H6.
  step by (eapply control_stop_post; eassumption). intros ct' s7 [-> H7].
  destruct snapshots_return as [[snap Es] [hs Eh]].
  apply (post_bind _ _ _ (fun _ s' => owns (ticker_group :: fgs') s')).
  { destruct front'; [|by apply post_ret].
    step by (eapply (post_lift _ hs _ (fun x s' => owns (ticker_group :: fgs') s')); [exact Eh|exact H7]).
    intros ? s8 H8. by apply log_post. }
  intros ? s8 H8. step by (eapply (post_lift _ snap _ (fun x s' => owns (ticker_group :: fgs') s')); [exact Es|exact H8]).
  intros ? s9 H9. step by (apply log_post; eassumption). intros ? s10 H10. apply post_ret. split; [done|].
  exists no_group, fgs', [ticker_group]. split; [by apply ingest_down_groups|]. split; [done|].
  split; [exists []; by split|]. apply owns_new. by rewrite Permutation_app_comm.
Qed.

Definition is_worker (t : Tid) : Prop := match t with TIngest _ | THttp _ => True | _ => False end.
Definition only_workers (gs : list Group) : Prop := Forall is_worker (all_threads gs).*1.

Lemma only_workers_no t gs : only_workers gs -> ~ is_worker t -> t ∉ (all_threads gs).*1.
Proof. unfold only_workers. rewrite Forall_forall. intros H Ht Hin. by apply Ht, H. Qed.

Lemma only_workers_cons g gs : Forall is_worker (g_threads g).*1 -> only_workers gs -> only_workers (g :: gs).
Proof. intros Hg H. unfold only_workers, all_threads. simpl. rewrite fmap_app. by apply Forall_app. Qed.

Lemma holds_group_workers socks tids g : holds_group socks tids g -> Forall is_worker tids -> Forall is_worker (g_threads g).*1.
Proof. intros [_ Ht] H. by rewrite <- Ht. Qed.

Lemma map_workers tid n : (forall i, is_worker (tid i)) -> Forall is_worker (map tid (seq 0 n)).
Proof. intros H. apply Forall_map, Forall_forall. intros i _. apply H. Qed.

(** The wait comes to an end. *)
Definition wait_ends : Prop :=
  is_Some (wait_loop (run_seconds cfg) (en_start_ns env + run_seconds cfg * 10 ^ 9) (en_wakes env)).

Definition status (o : Outcome) : Prop := oc_code o = 0 \/ oc_code o = 1.

Lemma main_control_post p srv front g fgs s : server_groups srv g -> front_groups front fgs -> only_workers (g :: fgs) ->
  wait_ends -> owns (ticker_group :: g :: fgs) s ->
  post (main_control env cfg p srv front (mkControl None false false)) s (fun o s' => status o /\ clean o s').
Proof.
  intros Hg Hf Hw [sig Hsig] H. unfold main_control.
  step by (apply (control_start_post cfg (g :: fgs)); [apply only_workers_no; [exact Hw|tauto]..|exact H]).
  intros [[error|] ct] s1 (cgs & Hc & H1 & _); simpl in Hc;
    rewrite (Permutation_app_comm cgs (g :: fgs)) in H1; simpl in H1.
  - step by (apply complain_post; eassumption). intros ? s2 H2.
    step by (eapply (ingest_join_post (fgs ++ cgs)); [reflexivity|exact Hg|exact H2]). intros srv' s3 [Hd H3].
    apply post_ret. split; [by right|]. exists no_group, fgs, cgs. split; [by apply ingest_down_groups|].
    do 2 (split; [done|]). by apply owns_new.
  - eapply post_mono; [by eapply main_wait_post|]. cbv beta. intros o s2 [E H2]. split; [by left|done].
Qed.

Lemma main_front_post p srv b g s : serves (en_platform env) cfg b TIngest (ig_sockets srv) (ig_threads srv) g ->
  wait_ends -> owns (g :: [ticker_group]) s ->
  post (main_front env cfg p srv (mkControl None false false)) s (fun o s' => status o /\ clean o s').
Proof.
  intros Hsv Hwait H. pose proof (sv_group _ _ _ _ _ _ _ Hsv) as Hg. pose proof (sv_workers _ _ _ _ _ _ _ Hsv) as Ew.
  assert (Forall is_worker (g_threads g).*1) as Hw.
  { eapply holds_group_workers; [exact Hg|]. rewrite Ew. by apply map_workers. }
  rewrite (perm_swap ticker_group g []) in H. unfold main_front. apply post_if; intros Ep.
  2: { apply (main_control_post p srv None g []); [done..| |done|done]. apply only_workers_cons; [done|constructor]. }
  apply negb_true_iff, Z.eqb_neq in Ep.
  step by (apply (http_start_post (en_platform env) cfg (ticker_group :: [g])); [exact Ep| |exact H];
    intros i; unfold all_threads; simpl; rewrite app_nil_r;
    intros [?|Hin]%elem_of_cons; [done|]; rewrite <- (proj2 Hg), Ew in Hin; apply list_elem_of_fmap in Hin as (? & ? & _); done).
  intros [[error|] front] s1 (gf & H1 & Hgf & Hserve); simpl in *.
  - step by (apply complain_post; eassumption). intros ? s2 H2.
    rewrite (perm_swap ticker_group gf [g]), (Permutation_app_comm [ticker_group; gf] [g]) in H2. simpl in H2.
    step by (eapply (ingest_join_post [ticker_group; gf]); [reflexivity|exact Hg|exact H2]). intros srv' s3 [Hd H3].
    apply post_ret. split; [by right|]. exists no_group, [gf], [ticker_group]. split; [by apply ingest_down_groups|].
    split; [by exists gf|]. split; [exists []; by split|]. apply owns_new. by rewrite (perm_swap ticker_group gf []).
  - step by (apply log_post; eassumption). intros ? s2 H2. specialize (Hserve eq_refl).
    apply (main_control_post p srv (Some front) g [gf]); [done|by exists gf| |done|].
    + apply only_workers_cons; [done|]. apply only_workers_cons; [|constructor]. eapply holds_group_workers; [exact Hgf|].
      rewrite (sv_workers _ _ _ _ _ _ _ Hserve). by apply map_workers.
    + rewrite (perm_swap ticker_group gf [g]) in H2. by rewrite (perm_swap gf g []).
Qed.

Lemma main_servers_post p s : wait_ends -> owns [ticker_group] s ->
  post (main_servers env cfg p (mkControl None false false)) s (fun r s' => (r.1 = 0 \/ r.1 = 1) /\
    exists cgs, control_groups r.2 cgs /\ owns cgs s').
Proof.
  intros Hw H. unfold main_servers. step by (apply make_server_post; eassumption). intros srv s1 [[b ->] H1].
  step by (apply (ingest_start_post (en_platform env) cfg [ticker_group]); [|exact H1]; unfold all_threads; simpl; set_solver).
  intros [[error|] srv] s2 H2.
  - destruct H2 as [-> H2]. step by (apply complain_post; eassumption). intros ? s3 H3.
    apply (post_bind _ _ _ (fun _ s' => owns [ticker_group] s')); [by exists tt, s3|]. intros ? s4 H4. apply post_ret. split; [by right|].
    exists [ticker_group]. split; [exists []; by split|done].
  - destruct H2 as (_ & _ & g & Hsv & H2). step by (eapply main_front_post; eassumption). intros o s3 [Hs Hc].
    step by (apply destroy_servers_post; eassumption). intros ? s4 H4. apply post_ret. by split.
Qed.
End Rules.


(** ** Witness *)

Definition sample_args : list string := ["--rules"; "rules.yaml"; "--subscribers"; "subs.csv"; "--http-port"; "8080"; "--no-pin"]%string.
Definition sample_env (wakes : list Wake) : Env :=
  mkEnv sample_platform 4 (fun _ => true) (mkBuild "1.0" "Release" "GNU" "13" "Linux" "x86_64")
    (mkMachine 4 "none" "rdtsc" (Double.double_of_Z 1000000000) (Double.double_of_Z 7)) 100 sample_world 5 1000 wakes [] [].


(** The run in full: the servers come up, the signal ends it, and the status is 0. *)
Example sample_run : exists s', main_ (K := linux_kernel 4194304) (R := sample_resolver)
    (sample_env [mkWake 0 2000 0; mkWake 15 3000 15]) sample_args bare_os = Some (0, s') /\
  map fst (os_log s') = [kInfo; kInfo; kInfo; kInfo; kInfo; kInfo] /\ length (os_stderr s') = 1%nat.
Proof. vm_compute. eexists. split; [reflexivity|]. split; reflexivity. Qed.
